(* ===== verification/_CoqProject ===== *)
-Q . S2P
Prelude.v
JsString.v
Ethers.v
Constants.v
MathUtils.v
UnitsUtils.v
FeeModuleUtils.v
SafeMath.v
PreciseUnitMath.v
Erc20.v
NavIssuanceModuleUtils.v
UniswapUtils.v
ExchangeIssuanceUtils.v
PerpV2Utils.v
Evm.v
ProtocolUtils.v
TestUtils.v
Traces.v
Ownable.v
Controller.v
PriceOracle.v
SetToken.v
Position.v
ModuleBase.v
SetValuer.v
LeverageModules.v
StreamingFeeModule.v
BasicIssuanceModule.v
DebtIssuanceModule.v
DebtIssuanceModuleV2.v
NavIssuanceModule.v
IntegrationRegistry.v
Protocol.v
ConstructorAbi.v
Dependencies.v
DeployCore.v
DeployAdapters.v
DeployMocks.v
DeployExternal.v
Accounts.v
SystemFixtures.v
CoreDeploy.v
PerpV2Fixture.v
PairFactories.v
PoolFixtures.v
PoolRegistries.v
Timelock.v
CompoundFixture.v
AaveV2Fixture.v
UniswapV3Fixture.v
BuildTasks.v
HardhatConfig.v
