(* ===== verification/Prelude.v ===== *)
(** * A verification of the LOCKON core-contracts TypeScript layer

    The repository is a Solidity protocol (src/contracts) with a TypeScript
    layer (src/utils, src/deploy) that computes what the contracts are expected
    to do, deploys them and sets up whole protocols for tests and for networks.
    This library models the TypeScript layer function by function, together
    with the contracts it is measured against, and proves the two against each
    other.

    ** The parts, and where they are

    Foundations, shared by all:
    - Prelude: [result] (a computation that may throw or revert), loops
      [foldM], arrays, integer division and the lemmas and tactics on them;
    - JsString: the JavaScript string functions the code uses ([slice],
      [toLowerCase], hexadecimal and decimal digits);
    - Ethers: ethers.js as the code uses it. A [BigNumber] is an integer in Z
      with the class [BigNumber] naming the two operations whose failure matters
      ([div], [fromNumber]); a byte string is a string of hexadecimal digits;
      hashing is the class [EthersUtils], with injectivity assumed;
    - Constants: utils/constants.ts and utils/types.ts.

    The expectations (utils/common), one file each, with the same names:
    MathUtils, UnitsUtils, FeeModuleUtils, NavIssuanceModuleUtils, UniswapUtils,
    ExchangeIssuanceUtils, PerpV2Utils, ProtocolUtils (with adapterUtils.ts and
    libraryUtils.ts). Contracts that they read (a SetToken, a pair, a vault) are
    records of the results of those reads, each of which may fail.

    The contracts they mirror:
    - SafeMath: OpenZeppelin's checked arithmetic (class [OpenZeppelin]) on
      256-bit words with its wrap-around;
    - PreciseUnitMath: contracts/lib/PreciseUnitMath.sol;
    - NavIssuanceModuleUtils.NAVModule: the three computations of
      CustomOracleNAVIssuanceModule.sol on numbers alone, shared by the
      expectations and the module;
    - Ownable: the ownership that the contracts inherit from OpenZeppelin (class
      [Ownable]); handing a contract on and giving it up are operations of the
      Controller, the factory and the IntegrationRegistry;
    - Controller: contracts/protocol/Controller.sol and AddressArrayUtils.sol;
    - Erc20: the token of OpenZeppelin that a SetToken is (class [ERC20]);
    - SetToken: contracts/protocol/SetToken.sol, all of it. Calls that leave the
      contract ([invoke], [removeModule]) are steps with the calls that come back
      nested in them;
    - Position: contracts/protocol/lib/Position.sol, how modules edit positions;
    - ModuleBase: lib/ModuleBase.sol with ExplicitERC20.sol and lib/Invoke.sol, on
      the state of the controller and of the SetTokens ([ModuleBase.chain]); the
      tokens SetTokens hold are the class [Coins];
    - PriceOracle: contracts/protocol/PriceOracle.sol; oracles and adapters are
      parameters, the adapters' answers included;
    - SetValuer: contracts/protocol/SetValuer.sol and lib/ResourceIdentifier.sol;
    - StreamingFeeModule, BasicIssuanceModule: the modules of those names under
      contracts/protocol/modules/v1, the second with Pausable.sol;
    - LeverageModules: the hooks of AaveLeverageModule.sol and of
      PerpV2LeverageModuleV2.sol that issuance calls for every component, down to
      the lending pool and the vault (class [Venues]);
    - NavIssuanceModule: modules/v1/CustomOracleNAVIssuanceModule.sol, all of it.
      Managers' hooks are parameters that may do anything to the state; valuers
      (the protocol's is the one of SetValuer) and [decimals] are parameters, too;
    - DebtIssuanceModule: modules/v1/DebtIssuanceModule.sol; the hooks of managers,
      of registered modules and of the modules that keep external positions are
      parameters, functions on the whole state, which [leverageHook] instantiates
      with those of LeverageModules;
    - DebtIssuanceModuleV2: DebtIssuanceModuleV2.sol (and IssuanceModule.sol, the
      same contract under another name) with lib/IssuanceValidationUtils.sol;
    - IntegrationRegistry: contracts/protocol/IntegrationRegistry.sol;
    - Protocol: SetTokenCreator.sol, and the state that a history of transactions
      leaves in all of these contracts, with the logs they emit, by block and topic;
    - PairFactories: the registries of UniswapV2Factory.sol and DMMFactory.sol;
    - Timelock: CompoundTimelock.sol.

    Programs against a chain:
    - Evm: the chain is the class [Node], whose behaviour is a function of the
      history of deployments and transactions; a script is a function from the
      history to a result and a longer history, and stops at the first
      transaction that reverts or read that fails. Contract addresses are
      given by creator and nonce;
    - ConstructorAbi, Dependencies: the constructors of the contracts that are
      deployed and the table of known addresses;
    - DeployCore, DeployAdapters, DeployMocks, DeployExternal: every helper of
      utils/deploys, in one module per class;
    - Traces: predicates on the histories of runs that the fixtures share, with
      the tactics that follow a run;
    - SystemFixtures: utils/fixtures/systemFixture.ts and setFixture.ts;
    - PerpV2Fixture: utils/fixtures/perpV2Fixture.ts;
    - PoolFixtures: the Uniswap V2, Kyber, Balancer, Curve and Yearn fixtures;
      PoolRegistries: what the first three of them leave in their factories;
    - CompoundFixture, AaveV2Fixture: the fixtures of those two protocols;
    - UniswapV3Fixture: its prices are IEEE 754 doubles, with the float format
      of the Standard Library;
    - CoreDeploy: deploy/000_core.ts under hardhat-deploy.

    Tests and builds:
    - TestUtils: blockchainUtils.ts and the two sandboxing hooks of
      testingUtils.ts, against a provider that keeps snapshots; suites of tests
      nest and run as mocha runs them;
    - Accounts: accountUtils.ts and the readers of testingUtils.ts;
    - BuildTasks: tasks/subtasks.ts, utils/tasks and the functions of
      hardhat.config.ts, over a file system that is a map from paths to artifacts;
    - HardhatConfig: the configuration object of hardhat.config.ts.

    ** Interfaces

    A class states what a component promises to another, and has an instance
    that witnesses run on: [BigNumber], [EthersUtils] (Ethers), [OpenZeppelin]
    (SafeMath), [Ownable] (Ownable), [ERC20] (Erc20), [ReentrancyGuard] and [Coins] (ModuleBase),
    [Venues] (LeverageModules: pool and vault move what they are asked to), [WETH] (wrapped
    ether) and [PlainCoins] (coins that move as asked) in NavIssuanceModule, [Node]
    (Evm), [ProtocolNode] (Protocol: the node executes what the modelled contracts execute), [FactoryNode] (PairFactories) and
    [TimelockNode] (CompoundFixture), the same for the pair and pool registries
    and for the timelock with a clock, [HardhatDeploy] (CoreDeploy), [Provider]
    (TestUtils: the snapshots of the node), [UniswapV3Sdk] (PerpV2Fixture) and
    [JsMath] (UniswapV3Fixture: the functions on doubles). Theorems are proved
    against the classes.

    ** What the theorems show

    - Arithmetic (MathUtils, PreciseUnitMath): the direction of rounding of each
      function, and that the TypeScript functions return what the contract
      returns whenever the contract does not revert; where they differ.
    - Fees and NAV (FeeModuleUtils, NavIssuanceModuleUtils): fees never favour
      the payer by more than the stated rounding; the predicted mint quantity is
      the contract's, the predicted multiplier never exceeds it.
    - Uniswap and exchange issuance (UniswapUtils, ExchangeIssuanceUtils):
      termination and accuracy of [sqrt], minimum over components, budgets,
      round trip of paths, and what an array filled by un-awaited callbacks holds.
    - Perpetual positions (PerpV2Utils): the transfer of an issuance is the
      share of the collateral and the sum of the swap quotes; a lever trade is worth
      the leverage asked for, with a quote limit bounded on both sides.
    - Registry (Controller, IntegrationRegistry, Protocol): lists, flags and ids
      stay consistent in every reachable state, who may change what (the owner is the
      one the log of events last names, and nobody once it gave the contract up), batches.
    - SetToken (SetToken, Position): the storage is consistent in every reachable
      state, re-entrant calls included; a lock keeps everybody else out; a unit
      reads back as at most what was written and never as zero; a multiplier is
      accepted only if it leaves every position; a token edited through the
      library lists exactly what it holds, and airdrops are not picked up.
    - Streaming fees (StreamingFeeModule): an accrual is the one FeeModuleUtils
      expects, mints no more than the fee's share and claims no component twice;
      it goes through whenever module, token and values allow it, and never again
      once 100% have accrued, whatever happens to the token later; the terms of a fee stay sound, and who may change
      them; and how rounding leaves a token short by less than one unit per token.
    - Issuance (BasicIssuanceModule): a token is backed by its components from its
      first issue on, through issues, redemptions and accruals of its streaming fee,
      each of which may cost a base unit per token at most; what issuing and
      redeeming move, to the base unit.
    - Debt issuance (LeverageModules, DebtIssuanceModule, DebtIssuanceModuleV2): a token
      with external positions stays covered by its default positions if the modules
      that keep the others round as those of the repository do, but for base units
      that are counted: per call one for each long position of a component and for
      each of its debts but one, so none for the usual single debt. They add up with
      the first module and do not with the second, whose checks also make up for
      transfers that do not move what they should. The hooks of LeverageModules
      round as required, and an instance shows the base unit lost; the terms a manager set hold; a fee of which the
      protocol takes the whole is charged but never minted.
    - Prices (PriceOracle, SetValuer): a price found through the inverse pair never
      gains on the direct one; a valuation is the sum over the components of price
      times unit, rounded towards zero, debts subtracted.
    - NAV issuance (NavIssuanceModule): a token stays covered by what it holds over
      any issues and redemptions; an issue mints and moves exactly what the
      TypeScript utilities expect, a redemption pays that up to three base units;
      nobody is diluted, whatever the valuer answers; the terms a manager sets hold;
      a redemption that [isRedeemValid] accepts may revert.
    - Contracts (PairFactories, Timelock): the pair registry is symmetric and
      consistent with its list in every reachable state; a transaction leaves the
      timelock only two days after it was queued, re-entrant calls included.
    - Set-up (SystemFixtures, CoreDeploy, Deploy files): a fixture or script that
      completes leaves exactly the protocol it describes; helpers deploy the
      contract they name with arguments that fit its constructor.
    - Third-party set-up (PerpV2Fixture, PoolRegistries, CompoundFixture,
      AaveV2Fixture, UniswapV3Fixture): the order of addresses that the Perpetual
      fixture needs, contracts initialized before they are used, the pools that
      factories end with, the hand-over of the timelock and its one second of
      slack, the order of the steps of a reserve, square root prices and ticks.
    - Sandboxing (TestUtils): with [cacheBeforeEach], nested as the suites nest
      it, every test starts from the chain its hooks describe.
    - Builds (BuildTasks): the artifacts the type generator reads and what is left
      of them when it succeeds or fails.
    - Configuration (HardhatConfig): the networks on which the deployment script can
      complete, and the tests that run when the local network forks.

    ** Conventions

    An [undefined] argument is an error at the call that uses it. A numeric
    argument is a BigNumber unless the code computes with it as a JavaScript
    number, in which case it is a [Number] or a decimal [Literal]. Loops over
    arrays are structural; [UniswapUtils.sqrt_loop] has fuel [Z.log2 + 5]
    and decimal printing has fuel one more than the number of binary digits,
    each proved sufficient. [PerpV2Fixture._token0Fixture] deploys tokens until
    one has a lower address, which no number of deployments guarantees: its fuel
    is an argument, and the theorem on it says that the loop ends at the first
    such token whenever there is one within the fuel. A type annotation, a console message and the choice
    of a signer object instead of its address have no model.

    ** Not modelled

    The interior of third-party contracts and of the other modules and integrations
    of the protocol (they are reads that may fail, or transactions that may revert), gas, and
    block times except in CompoundFixture. A transaction that is not awaited is
    taken to reach the node before the next one ([Evm.send_detached]); what its
    revert does to the process is left out. Wallets and
    random addresses are arguments. Barrels re-export only; the configuration
    object of .eslintrc.js is data for a tool; the native
    compiler is a child process; the subgraph is an indexer with a program of
    its own. *)

From Stdlib Require Export ZArith Lia.
From stdpp Require Export base tactics numbers list strings option sets gmap.

(** ** Failing computations

    A JavaScript call that may throw, and a contract call that may revert,
    return a [result]: the value, or the message of the error. *)

Inductive result (A : Type) : Type :=
  | Ok (a : A)
  | Throw (msg : string).

Arguments Ok {A} a.
Arguments Throw {A} msg.

#[export] Instance result_ret : MRet result := fun A a => Ok a.

#[export] Instance result_bind : MBind result :=
  fun A B f m => match m with Ok a => f a | Throw e => Throw e end.

#[export] Instance result_fmap : FMap result :=
  fun A B f m => match m with Ok a => Ok (f a) | Throw e => Throw e end.

(** [require cond msg]: Solidity's [require], and the TypeScript idiom
    [if (!cond) throw new Error(msg)]. *)
Definition require (cond : bool) (msg : string) : result unit :=
  if cond then Ok tt else Throw msg.

(** The short-circuiting [a && m] of JavaScript, where evaluating [m] may throw. *)
Definition and_then (a : bool) (m : result bool) : result bool :=
  if a then m else Ok false.

Definition is_Ok {A} (r : result A) : bool :=
  match r with Ok _ => true | Throw _ => false end.

(** The reason of a failure; empty if there is none. *)
Definition throws {A} (r : result A) : string :=
  match r with Ok _ => "" | Throw m => m end.

(** A [for] loop over an array that threads an accumulator through a body
    that may throw: the first failing iteration ends the loop. *)
Fixpoint foldM {A B} (f : B -> A -> result B) (acc : B) (l : list A) : result B :=
  match l with
  | [] => Ok acc
  | x :: l' => acc' ← f acc x; foldM f acc' l'
  end.

(** ** Integer division towards plus infinity and away from zero *)

(** Ceiling of the exact quotient. *)
Definition cdiv (a b : Z) : Z := (- ((- a) / b))%Z.

(** Exact quotient rounded away from zero. *)
Definition div_away (a b : Z) : Z :=
  (Z.sgn (a * b) * cdiv (Z.abs a) (Z.abs b))%Z.

(** Sum of a list of integers. *)
Fixpoint zsum (l : list Z) : Z :=
  match l with
  | [] => 0%Z
  | x :: l' => (x + zsum l')%Z
  end.

(** Discharges a hypothesis of a theorem at concrete arguments by evaluation. *)
Ltac eval_side :=
  first [ solve [vm_compute; exact I]
        | solve [vm_compute; reflexivity]
        | solve [vm_compute; intuition discriminate]
        | solve [vm_compute; repeat split; discriminate] ].

(** ** Laws of the result monad *)

Lemma Ok_inj {A} (a b : A) : Ok a = Ok b -> a = b.
Proof. by intros [=]. Qed.

Lemma bind_Ok {A B} (f : A -> result B) a : (Ok a ≫= f) = f a.
Proof. reflexivity. Qed.

Lemma bind_Throw {A B} (f : A -> result B) e : (Throw e ≫= f) = Throw e.
Proof. reflexivity. Qed.

Lemma bind_Ok_inv {A B} (m : result A) (f : A -> result B) b :
  (m ≫= f) = Ok b -> exists a, m = Ok a /\ f a = Ok b.
Proof. destruct m as [a|e]; cbn; [eauto | discriminate]. Qed.

Lemma bind_assoc_result {A B C} (m : result A) (f : A -> result B) (g : B -> result C) :
  ((m ≫= f) ≫= g) = (m ≫= fun a => f a ≫= g).
Proof. by destruct m. Qed.

Lemma is_Ok_true {A} (r : result A) : is_Ok r = true -> exists a, r = Ok a.
Proof. destruct r as [a|]; [by exists a|done]. Qed.

Lemma throws_spec {A} (r : result A) m : m <> ""%string -> throws r = m -> r = Throw m.
Proof. destruct r; cbn; [intros H E; by subst|by intros _ ->]. Qed.

Lemma bind_ext_result {A B} (m : result A) (f g : A -> result B) :
  (forall a, f a = g a) -> (m ≫= f) = (m ≫= g).
Proof. intros E. destruct m; cbn; auto. Qed.

Lemma require_Ok_inv c msg u : require c msg = Ok u -> c = true.
Proof. unfold require. by destruct c. Qed.

Lemma require_true msg : require true msg = Ok tt.
Proof. reflexivity. Qed.

Lemma require_false msg : require false msg = Throw msg.
Proof. reflexivity. Qed.

Lemma is_Ok_spec {A} (r : result A) : is_Ok r = true <-> exists a, r = Ok a.
Proof. destruct r; cbn; naive_solver. Qed.

(** [inv_result] takes apart every successful run of monadic code in the
    context: binds are split, [require]s become booleans, [Ok]s are injected. *)
Ltac inv_result_step :=
  match goal with
  | H : mbind _ _ = Ok _ |- _ =>
      let a := fresh "a" in let E := fresh "E" in
      apply bind_Ok_inv in H; destruct H as (a & E & H)
  | H : require _ _ = Ok _ |- _ => apply require_Ok_inv in H
  | H : Ok _ = Ok _ |- _ => injection H as H
  | H : Throw _ = Ok _ |- _ => discriminate H
  | H : mret _ = Ok _ |- _ => unfold mret, result_ret in H
  | H : prod _ _ |- _ => destruct H
  | H : unit |- _ => destruct H
  end.

(** Evaluates binds on results that are already values. *)
Ltac run_result := cbn [mbind result_bind mret result_ret].

Ltac inv_result := repeat (inv_result_step; simplify_eq/=).

(** Also reads the guards that a run has passed as propositions. *)
Ltac guards :=
  inv_result;
  repeat match goal with
  | H : bool_decide _ = true |- _ => apply bool_decide_eq_true in H
  | H : negb _ = true |- _ => apply negb_true_iff in H
  | H : bool_decide _ = false |- _ => apply bool_decide_eq_false in H
  | H : (_ <? _)%Z = true |- _ => apply Z.ltb_lt in H
  | H : (_ <=? _)%Z = true |- _ => apply Z.leb_le in H
  | H : (_ =? _)%Z = false |- _ => apply Z.eqb_neq in H
  | H : (_ =? _)%Z = true |- _ => apply Z.eqb_eq in H
  end.

Lemma foldM_app {A B} (f : B -> A -> result B) acc l1 l2 :
  foldM f acc (l1 ++ l2) = (foldM f acc l1 ≫= fun acc' => foldM f acc' l2).
Proof.
  revert acc; induction l1 as [|x l1 IH]; intros acc; [done|].
  change (foldM f acc ((x :: l1) ++ l2)) with (f acc x ≫= fun a => foldM f a (l1 ++ l2)).
  change (foldM f acc (x :: l1)) with (f acc x ≫= fun a => foldM f a l1).
  rewrite bind_assoc_result. apply bind_ext_result, IH.
Qed.

Lemma mapM_Ok_Forall2 {A B} (f : A -> result B) l ys :
  mapM f l = Ok ys -> Forall2 (fun x y => f x = Ok y) l ys.
Proof.
  revert ys; induction l as [|x l IH]; intros ys; cbn [mapM]; run_result.
  - intros [= <-]. constructor.
  - destruct (f x) as [y|] eqn:E; [|done]. destruct (mapM f l) as [ys'|]; [|done].
    intros [= <-]. constructor; auto.
Qed.

Lemma foldM_map {A B C} (g : A -> B) (f : C -> B -> result C) acc l :
  foldM f acc (map g l) = foldM (fun acc x => f acc (g x)) acc l.
Proof.
  revert acc; induction l as [|x l IH]; intros acc; cbn [map foldM]; [done|].
  by apply bind_ext_result.
Qed.

Lemma foldM_ext {A B} (f g : B -> A -> result B) acc l :
  (forall acc' x, x ∈ l -> f acc' x = g acc' x) -> foldM f acc l = foldM g acc l.
Proof.
  revert acc; induction l as [|x l IH]; intros acc E; [done|].
  cbn [foldM]. rewrite E by set_solver.
  apply bind_ext_result. intros a. apply IH. set_solver.
Qed.

(** An invariant of the loop body is an invariant of the loop. *)
Lemma foldM_invariant {A B} (P : B -> Prop) (f : B -> A -> result B) acc l r :
  P acc ->
  (forall acc' x acc'', x ∈ l -> P acc' -> f acc' x = Ok acc'' -> P acc'') ->
  foldM f acc l = Ok r -> P r.
Proof.
  revert acc; induction l as [|x l IH]; intros acc HP Hstep H; cbn [foldM] in H.
  - by inv_result.
  - inv_result. eapply IH; [| |exact H].
    + eapply Hstep; [|exact HP|exact E]. set_solver.
    + intros acc' y acc'' Hy. apply Hstep. set_solver.
Qed.

(** A loop whose body always succeeds with [g] is the plain left fold. *)
Lemma foldM_pure {A B} (f : B -> A -> result B) (g : B -> A -> B) acc l :
  (forall acc' x, x ∈ l -> f acc' x = Ok (g acc' x)) ->
  foldM f acc l = Ok (foldl g acc l).
Proof.
  revert acc; induction l as [|x l IH]; intros acc E; [done|].
  cbn [foldM foldl]. rewrite E by set_solver. rewrite bind_Ok. apply IH. set_solver.
Qed.

(** ** Sums *)

Lemma zsum_app l1 l2 : zsum (l1 ++ l2) = (zsum l1 + zsum l2)%Z.
Proof. induction l1; cbn; lia. Qed.

Lemma foldl_add_zsum acc l : foldl Z.add acc l = (acc + zsum l)%Z.
Proof. revert acc; induction l; intros acc; cbn; [lia|]. rewrite IHl. lia. Qed.

Lemma zsum_nonneg l : Forall (fun x => 0 <= x)%Z l -> (0 <= zsum l)%Z.
Proof. induction 1; cbn; lia. Qed.

(** ** Division *)

Section Division.
Local Open Scope Z_scope.

Lemma quot_nonneg a b : 0 <= a -> 0 < b -> a ÷ b = a / b.
Proof. intros. by apply Z.quot_div_nonneg. Qed.

Lemma floor_bounds a b : 0 < b -> a / b * b <= a < (a / b + 1) * b.
Proof. intros Hb. pose proof (Z.div_mod a b). pose proof (Z.mod_pos_bound a b Hb). nia. Qed.

Lemma quot_floor_bounds a b : 0 <= a -> 0 < b ->
  a ÷ b * b <= a < a ÷ b * b + b.
Proof.
  intros. rewrite quot_nonneg by lia.
  pose proof (Z.div_mod a b). pose proof (Z.mod_pos_bound a b). nia.
Qed.

Lemma quot_nonneg_result a b : 0 <= a -> 0 < b -> 0 <= a ÷ b.
Proof. intros. rewrite quot_nonneg by lia. apply Z.div_pos; lia. Qed.

Lemma quot_mono a a' b : 0 <= a <= a' -> 0 < b -> a ÷ b <= a' ÷ b.
Proof. intros. rewrite !quot_nonneg by lia. apply Z.div_le_mono; lia. Qed.

(** The defining inequalities of the ceiling. *)
Lemma cdiv_bounds a b : 0 < b -> (cdiv a b - 1) * b < a <= cdiv a b * b.
Proof.
  intros. unfold cdiv.
  pose proof (Z.div_mod (- a) b). pose proof (Z.mod_pos_bound (- a) b). nia.
Qed.

Lemma cdiv_unique a b q : 0 < b -> (q - 1) * b < a <= q * b -> q = cdiv a b.
Proof. intros Hb Hq. pose proof (cdiv_bounds a b Hb). nia. Qed.

(** The idiom [(a - 1) / b + 1] is the ceiling of a positive quotient. *)
(** Scaling by a fraction [c/d] of one keeps the sign and shrinks the magnitude. *)
Lemma scaled_quot_bounds x c d : 0 < d -> 0 <= c <= d ->
  Z.abs (x * c ÷ d) <= Z.abs x /\ 0 <= x * c ÷ d * x.
Proof.
  intros Hd Hc. destruct (Z.le_gt_cases 0 x) as [Hx|Hx].
  - pose proof (quot_floor_bounds (x * c) d ltac:(nia) Hd) as H.
    assert (0 <= x * c ÷ d) by (apply Z.quot_pos; nia).
    assert (x * c ÷ d <= x) by (apply (Z.mul_le_mono_pos_r _ _ d); nia). split; nia.
  - pose proof (quot_floor_bounds (- x * c) d ltac:(nia) Hd) as H.
    assert (0 <= - x * c ÷ d) by (apply Z.quot_pos; nia).
    assert (- x * c ÷ d <= - x) by (apply (Z.mul_le_mono_pos_r _ _ d); nia).
    replace (- x * c) with (- (x * c)) in * by ring. rewrite Z.quot_opp_l in * by lia.
    split; nia.
Qed.

Lemma quot_pred_succ_cdiv a b : 0 < a -> 0 < b -> (a - 1) ÷ b + 1 = cdiv a b.
Proof.
  intros. apply cdiv_unique; [done|].
  pose proof (quot_floor_bounds (a - 1) b). nia.
Qed.

Lemma cdiv_0_l b : b <> 0 -> cdiv 0 b = 0.
Proof. intros. unfold cdiv. rewrite Z.div_0_l; lia. Qed.

Lemma cdiv_nonneg a b : 0 <= a -> 0 < b -> 0 <= cdiv a b.
Proof. intros. pose proof (cdiv_bounds a b). nia. Qed.

Lemma cdiv_ge_div a b : 0 <= a -> 0 < b -> a / b <= cdiv a b <= a / b + 1.
Proof.
  intros. pose proof (cdiv_bounds a b).
  pose proof (Z.div_mod a b). pose proof (Z.mod_pos_bound a b). nia.
Qed.

Lemma cdiv_exact a b : 0 < b -> a mod b = 0 -> cdiv a b = a / b.
Proof.
  intros Hb Hm. symmetry. apply cdiv_unique; [done|].
  pose proof (Z.div_mod a b). nia.
Qed.

Lemma cdiv_inexact a b : 0 < b -> a mod b <> 0 -> cdiv a b = a / b + 1.
Proof.
  intros Hb Hm. symmetry. apply cdiv_unique; [done|].
  pose proof (Z.div_mod a b). pose proof (Z.mod_pos_bound a b). nia.
Qed.

(** Rounding away from zero, by the signs of the operands. *)
Lemma div_away_pos a b : 0 <= a -> 0 < b -> div_away a b = cdiv a b.
Proof.
  intros. unfold div_away. rewrite !Z.abs_eq by lia.
  destruct (Z.eq_dec a 0) as [->|]; [rewrite cdiv_0_l by lia; lia|].
  rewrite Z.sgn_pos by nia. lia.
Qed.

Lemma div_away_neg_l a b : a < 0 -> 0 < b -> div_away a b = - cdiv (- a) b.
Proof.
  intros. unfold div_away. rewrite (Z.abs_neq a), (Z.abs_eq b) by lia.
  rewrite Z.sgn_neg by nia. lia.
Qed.

Lemma div_away_neg_r a b : 0 < a -> b < 0 -> div_away a b = - cdiv a (- b).
Proof.
  intros. unfold div_away. rewrite (Z.abs_eq a), (Z.abs_neq b) by lia.
  rewrite Z.sgn_neg by nia. lia.
Qed.

Lemma div_away_neg_neg a b : a < 0 -> b < 0 -> div_away a b = cdiv (- a) (- b).
Proof.
  intros. unfold div_away. rewrite !Z.abs_neq by lia.
  rewrite Z.sgn_pos by nia. lia.
Qed.

(** Rounding away from zero corrects the truncated quotient of an inexact
    division by one, in the direction of the sign. *)
Lemma div_away_of_quot a b : b <> 0 ->
  div_away a b = a ÷ b + (if decide (Z.rem a b = 0) then 0 else Z.sgn (a * b)).
Proof.
  intros Hb. unfold div_away. rewrite Z.quot_div, Z.rem_mod by done.
  rewrite Z.sgn_mul.
  destruct (decide (a = 0)) as [->|Ha]; [reflexivity|].
  pose proof (Z.sgn_spec a) as Sa.
  case_decide as D.
  - rewrite cdiv_exact by nia. lia.
  - rewrite cdiv_inexact by nia. lia.
Qed.

End Division.

(** ** Hints: facts about division that close side conditions. *)
Create HintDb arith_lib.
#[export] Hint Resolve quot_nonneg_result cdiv_nonneg Z.div_pos
  Z.mul_nonneg_nonneg Z.add_nonneg_nonneg : arith_lib.
