(* ===== verification/JsString.v ===== *)
(** * JavaScript strings

    The string operations of the language that the TypeScript code uses:
    the relational operators on strings (lexicographic, by code unit),
    [toLowerCase], [slice], [startsWith]-free prefixes, [padStart], and the
    decimal rendering that [BigNumber.toString] documents. Strings of the
    program are ASCII (addresses, hexadecimal data, decimal numbers). *)

From S2P Require Import Prelude.
From Stdlib Require Import Ascii String.

Local Open Scope Z_scope.

#[global] Arguments String.append !_ _ / : simpl nomatch.

Definition code (c : ascii) : nat := nat_of_ascii c.

(** [s < t] on strings: the first differing code unit decides, and a proper
    prefix is smaller. *)
Fixpoint str_lt (s t : string) : bool :=
  match s, t with
  | EmptyString, EmptyString => false
  | EmptyString, String _ _ => true
  | String _ _, EmptyString => false
  | String a s', String b t' =>
      if (code a <? code b)%nat then true
      else if (code b <? code a)%nat then false
      else str_lt s' t'
  end.

Definition lower_ascii (c : ascii) : ascii :=
  if ((65 <=? code c) && (code c <=? 90))%nat then ascii_of_nat (code c + 32) else c.

(** [s.toLowerCase()] on ASCII. *)
Fixpoint toLowerCase (s : string) : string :=
  match s with
  | EmptyString => EmptyString
  | String c s' => String (lower_ascii c) (toLowerCase s')
  end.

(** [s.slice(n)] for [n >= 0]. *)
Fixpoint slice (n : nat) (s : string) : string :=
  match n, s with
  | O, _ => s
  | S n', String _ s' => slice n' s'
  | S _, EmptyString => EmptyString
  end.

(** [s.slice(0, n)]. *)
Fixpoint take_str (n : nat) (s : string) : string :=
  match n, s with
  | S n', String c s' => String c (take_str n' s')
  | _, _ => EmptyString
  end.

(** [n] copies of the one-character string [c]. *)
Fixpoint repeat_char (n : nat) (c : ascii) : string :=
  match n with
  | O => EmptyString
  | S n' => String c (repeat_char n' c)
  end.

(** [s.padStart(n, c)] for a one-character pad: never truncates. *)
Definition padStart (n : nat) (c : ascii) (s : string) : string :=
  (repeat_char (n - String.length s) c ++ s)%string.

(** [s.includes(c)] for a one-character string. *)
Fixpoint includes_char (c : ascii) (s : string) : bool :=
  match s with
  | EmptyString => false
  | String d s' => if Ascii.eqb c d then true else includes_char c s'
  end.

(** ** Decimal rendering *)

Definition digit_char (d : Z) : ascii := ascii_of_nat (Z.to_nat d + 48).

(** Decimal digits of [n], most significant first, in front of [acc]. *)
Fixpoint dec_go (fuel : nat) (n : Z) (acc : string) : string :=
  match fuel with
  | O => acc
  | S fuel' =>
      let acc' := String (digit_char (n mod 10)) acc in
      if n <? 10 then acc' else dec_go fuel' (n / 10) acc'
  end.

(** Fuel: one unit per binary digit is more than one per decimal digit. *)
Definition dec_fuel (n : Z) : nat := S (Z.to_nat (Z.log2 n)).

Definition dec_of_nonneg (n : Z) : string := dec_go (dec_fuel n) n EmptyString.

(** The decimal string of an integer, with a leading minus when negative. *)
Definition dec_of_Z (z : Z) : string :=
  if z <? 0 then String "-" (dec_of_nonneg (- z)) else dec_of_nonneg z.

Example dec_120 : dec_of_Z 120 = "120"%string.
Proof. reflexivity. Qed.

Example dec_neg : dec_of_Z (-7) = "-7"%string.
Proof. reflexivity. Qed.

Example dec_zero : dec_of_Z 0 = "0"%string.
Proof. reflexivity. Qed.

(** ** The string order *)

Lemma str_lt_irrefl s : str_lt s s = false.
Proof. induction s; cbn [str_lt]; [done|]. by rewrite Nat.ltb_irrefl. Qed.

Lemma str_lt_asymm s t : str_lt s t = true -> str_lt t s = false.
Proof.
  revert t; induction s as [|a s IH]; intros [|b t]; cbn [str_lt]; try done.
  destruct (Nat.ltb_spec (code a) (code b)), (Nat.ltb_spec (code b) (code a)); try lia; auto.
Qed.

Lemma code_inj a b : code a = code b -> a = b.
Proof.
  unfold code. intros E. rewrite <- (ascii_nat_embedding a), <- (ascii_nat_embedding b).
  by rewrite E.
Qed.

Lemma str_lt_trichotomy s t : str_lt s t = false -> str_lt t s = false -> s = t.
Proof.
  revert t; induction s as [|a s IH]; intros [|b t]; cbn [str_lt]; try done.
  destruct (Nat.ltb_spec (code a) (code b)), (Nat.ltb_spec (code b) (code a)); try done.
  intros. f_equal; [apply code_inj; lia | auto].
Qed.

Lemma str_lt_trans s t u : str_lt s t = true -> str_lt t u = true -> str_lt s u = true.
Proof.
  revert t u; induction s as [|a s IH]; intros [|b t] [|c u]; cbn [str_lt]; try done.
  repeat match goal with
  | |- context [(?x <? ?y)%nat] => destruct (Nat.ltb_spec x y)
  end; try done; try lia; eauto.
Qed.

(** ** Lengths *)

Lemma length_app_str s t : String.length (s ++ t)%string = (String.length s + String.length t)%nat.
Proof. induction s; cbn; congruence. Qed.

Lemma length_repeat_char n c : String.length (repeat_char n c) = n.
Proof. induction n; cbn; congruence. Qed.

Lemma length_padStart n c s : (String.length s <= n)%nat -> String.length (padStart n c s) = n.
Proof. intros. unfold padStart. rewrite length_app_str, length_repeat_char. lia. Qed.

Lemma length_toLowerCase s : String.length (toLowerCase s) = String.length s.
Proof. induction s; cbn; congruence. Qed.

Lemma length_slice n s : String.length (slice n s) = (String.length s - n)%nat.
Proof. revert n; induction s; intros [|n]; cbn; auto. Qed.

Lemma app_str_assoc s t u : ((s ++ t) ++ u = s ++ (t ++ u))%string.
Proof. induction s; cbn; congruence. Qed.

Lemma app_str_nil_r s : (s ++ "" = s)%string.
Proof. induction s; cbn; congruence. Qed.

Lemma slice_app n s t : String.length s = n -> slice n (s ++ t)%string = t.
Proof. intros <-. induction s; cbn; auto. Qed.

Lemma take_str_app n s t : String.length s = n -> take_str n (s ++ t)%string = s.
Proof. intros <-. induction s; cbn; congruence. Qed.

Lemma take_str_all n s : String.length s = n -> take_str n s = s.
Proof. intros <-. rewrite <- (app_str_nil_r s) at 2. by rewrite take_str_app. Qed.

Lemma toLowerCase_app s t :
  toLowerCase (s ++ t)%string = (toLowerCase s ++ toLowerCase t)%string.
Proof. induction s; cbn; congruence. Qed.

Lemma lower_ascii_idem c : lower_ascii (lower_ascii c) = lower_ascii c.
Proof. destruct c as [[] [] [] [] [] [] [] []]; reflexivity. Qed.

Lemma toLowerCase_idem s : toLowerCase (toLowerCase s) = toLowerCase s.
Proof. induction s; cbn; [done|]. by rewrite lower_ascii_idem, IHs. Qed.

(** ** Decimal strings against numbers *)

(** The number a decimal string denotes, in front of value [acc]. *)
Fixpoint dec_value (acc : Z) (s : string) : Z :=
  match s with
  | EmptyString => acc
  | String c s' => dec_value (10 * acc + (Z.of_nat (code c) - 48)) s'
  end.

(** Every character is a digit. *)
Fixpoint all_digits (s : string) : bool :=
  match s with
  | EmptyString => true
  | String c s' => ((48 <=? code c) && (code c <=? 57))%nat && all_digits s'
  end.

Lemma code_digit_char d : 0 <= d < 10 -> Z.of_nat (code (digit_char d)) = d + 48.
Proof. intros. unfold code, digit_char. rewrite nat_ascii_embedding; lia. Qed.

Lemma dec_value_app acc s t : dec_value acc (s ++ t)%string = dec_value (dec_value acc s) t.
Proof. revert acc; induction s; intros; cbn; auto. Qed.

Lemma dec_value_bounds s : all_digits s = true ->
  forall acc, 0 <= acc ->
  acc * 10 ^ Z.of_nat (String.length s) <= dec_value acc s
    < (acc + 1) * 10 ^ Z.of_nat (String.length s).
Proof.
  induction s as [|c s IH]; cbn [all_digits dec_value String.length]; intros Hd acc Hacc.
  - change (Z.of_nat 0) with 0. rewrite Z.pow_0_r. lia.
  - apply andb_true_iff in Hd as [Hc Hs]. apply andb_true_iff in Hc as [H1 H2].
    apply Nat.leb_le in H1, H2.
    rewrite Nat2Z.inj_succ, Z.pow_succ_r by lia.
    specialize (IH Hs (10 * acc + (Z.of_nat (code c) - 48)) ltac:(lia)).
    set (P := 10 ^ Z.of_nat (String.length s)) in *.
    assert (0 < P) by (apply Z.pow_pos_nonneg; lia). nia.
Qed.

(** On digit strings of one length, the string order is the numeric order. *)
Lemma str_lt_digits_same_length s t acc :
  all_digits s = true -> all_digits t = true ->
  String.length s = String.length t -> 0 <= acc ->
  str_lt s t = (dec_value acc s <? dec_value acc t).
Proof.
  revert t acc; induction s as [|a s IH]; intros [|b t] acc Hs Ht Hlen Hacc; cbn in Hlen; try lia.
  - cbn. by rewrite Z.ltb_irrefl.
  - cbn [all_digits] in Hs, Ht.
    apply andb_true_iff in Hs as [Ha Hs], Ht as [Hb Ht].
    apply andb_true_iff in Ha as [Ha1 Ha2], Hb as [Hb1 Hb2].
    apply Nat.leb_le in Ha1, Ha2, Hb1, Hb2.
    injection Hlen as Hlen. cbn [str_lt dec_value].
    pose proof (dec_value_bounds s Hs (10 * acc + (Z.of_nat (code a) - 48)) ltac:(lia)) as Bs.
    pose proof (dec_value_bounds t Ht (10 * acc + (Z.of_nat (code b) - 48)) ltac:(lia)) as Bt.
    rewrite <- Hlen in Bt.
    set (P := 10 ^ Z.of_nat (String.length s)) in *.
    assert (0 < P) by (apply Z.pow_pos_nonneg; lia).
    destruct (Nat.ltb_spec (code a) (code b)).
    { symmetry. apply Z.ltb_lt. nia. }
    destruct (Nat.ltb_spec (code b) (code a)).
    { symmetry. apply Z.ltb_ge. nia. }
    replace (code a) with (code b) by lia. apply IH; auto; lia.
Qed.

Lemma all_digits_app s t : all_digits (s ++ t)%string = all_digits s && all_digits t.
Proof. induction s as [|c s IH]; cbn [all_digits String.append]; [done|]. by rewrite IH, andb_assoc. Qed.

Lemma all_digits_digit d : 0 <= d < 10 -> all_digits (String (digit_char d) "") = true.
Proof.
  intros Hd. pose proof (code_digit_char d Hd). cbn [all_digits].
  rewrite andb_true_r. apply andb_true_iff; split; apply Nat.leb_le; lia.
Qed.

Lemma dec_go_spec fuel : forall n acc, 0 <= n < 2 ^ Z.of_nat fuel ->
  (0 < fuel)%nat ->
  exists s, dec_go fuel n acc = (s ++ acc)%string /\ all_digits s = true /\
    dec_value 0 s = n /\ (1 <= String.length s)%nat /\
    (n = 0 \/ 10 ^ (Z.of_nat (String.length s) - 1) <= n).
Proof.
  induction fuel as [|fuel IH]; intros n acc Hn Hf; [lia|].
  cbn [dec_go]. destruct (Z.ltb_spec n 10) as [Hlt|Hge].
  - exists (String (digit_char (n mod 10)) ""). rewrite Z.mod_small by lia.
    split_and!; cbn [String.length]; [reflexivity | | | lia |].
    + apply all_digits_digit. lia.
    + cbn [dec_value]. rewrite code_digit_char by lia. lia.
    + destruct (Z.eq_dec n 0); [by left|right]. cbn. lia.
  - pose proof (Z.div_mod n 10 ltac:(lia)) as Hdm.
    pose proof (Z.mod_pos_bound n 10 ltac:(lia)) as Hmod.
    destruct fuel as [|fuel']; [change (Z.of_nat 1) with 1 in Hn; lia|].
    destruct (IH (n / 10) (String (digit_char (n mod 10)) acc)) as (s & E & Hd & Hv & Hl & Hb);
      [| lia |].
    { rewrite (Nat2Z.inj_succ (S fuel')) in Hn. rewrite Z.pow_succ_r in Hn by lia. lia. }
    exists (s ++ String (digit_char (n mod 10)) "")%string.
    rewrite E, app_str_assoc. split_and!.
    + reflexivity.
    + rewrite all_digits_app, Hd, all_digits_digit by lia. reflexivity.
    + rewrite dec_value_app, Hv. cbn [dec_value]. rewrite code_digit_char by lia. lia.
    + rewrite length_app_str. lia.
    + right. rewrite length_app_str. cbn [String.length].
      replace (Z.of_nat (String.length s + 1) - 1) with (Z.succ (Z.of_nat (String.length s) - 1)) by lia.
      rewrite Z.pow_succ_r by lia. destruct Hb; lia.
Qed.

Lemma dec_fuel_enough n : 0 <= n -> n < 2 ^ Z.of_nat (dec_fuel n).
Proof.
  intros. unfold dec_fuel. rewrite Nat2Z.inj_succ, Z2Nat.id by apply Z.log2_nonneg.
  destruct (Z.eq_dec n 0) as [->|]; [cbn; lia|]. apply Z.log2_spec. lia.
Qed.

(** The decimal string of a natural number: digits only, denoting the number,
    with no leading zero. *)
Lemma dec_of_nonneg_spec n : 0 <= n ->
  all_digits (dec_of_nonneg n) = true /\ dec_value 0 (dec_of_nonneg n) = n /\
  (1 <= String.length (dec_of_nonneg n))%nat /\
  (n = 0 \/ 10 ^ (Z.of_nat (String.length (dec_of_nonneg n)) - 1) <= n).
Proof.
  intros Hn.
  destruct (dec_go_spec (dec_fuel n) n "" (conj Hn (dec_fuel_enough n Hn)) ltac:(unfold dec_fuel; lia))
    as (s & E & H).
  unfold dec_of_nonneg. rewrite E, app_str_nil_r. exact H.
Qed.

(** Number of decimal digits. *)
Definition num_digits (n : Z) : nat := String.length (dec_of_Z n).

Lemma dec_of_Z_nonneg n : 0 <= n -> dec_of_Z n = dec_of_nonneg n.
Proof. intros. unfold dec_of_Z. destruct (Z.ltb_spec n 0); [lia|done]. Qed.

Lemma dec_of_Z_inj_nonneg a b : 0 <= a -> 0 <= b -> dec_of_Z a = dec_of_Z b -> a = b.
Proof.
  intros Ha Hb. rewrite !dec_of_Z_nonneg by done. intros E.
  destruct (dec_of_nonneg_spec a Ha) as (_ & Va & _), (dec_of_nonneg_spec b Hb) as (_ & Vb & _).
  congruence.
Qed.

(** Comparing the decimal strings of two naturals with equally many digits
    compares the numbers. *)
Lemma str_lt_dec_same_digits a b : 0 <= a -> 0 <= b -> num_digits a = num_digits b ->
  str_lt (dec_of_Z a) (dec_of_Z b) = (a <? b).
Proof.
  unfold num_digits. intros Ha Hb. rewrite !dec_of_Z_nonneg by done. intros Hl.
  destruct (dec_of_nonneg_spec a Ha) as (Da & Va & _), (dec_of_nonneg_spec b Hb) as (Db & Vb & _).
  rewrite (str_lt_digits_same_length _ _ 0) by (done || lia). congruence.
Qed.

(** No natural number has a decimal string below "0", and only zero does not
    exceed it. *)
Lemma str_lt_zero_dec a : 0 <= a -> str_lt "0" (dec_of_Z a) = negb (a =? 0).
Proof.
  intros Ha. destruct (Z.eqb_spec a 0) as [->|Hne]; [reflexivity|].
  rewrite dec_of_Z_nonneg by done.
  destruct (dec_of_nonneg_spec a Ha) as (Da & Va & Hl & Hb).
  destruct (dec_of_nonneg a) as [|c s] eqn:E; [cbn in Hl; lia|].
  cbn [all_digits] in Da. apply andb_true_iff in Da as [Hc Hs].
  apply andb_true_iff in Hc as [H1 H2]. apply Nat.leb_le in H1, H2.
  assert (Hc0 : code c <> 48%nat).
  { intros E0. cbn [dec_value] in Va. rewrite E0 in Va.
    pose proof (dec_value_bounds s Hs (10 * 0 + (Z.of_nat 48 - 48)) ltac:(lia)) as B.
    rewrite Va in B. cbn [String.length] in Hb.
    replace (Z.of_nat (S (String.length s)) - 1) with (Z.of_nat (String.length s)) in Hb by lia.
    lia. }
  cbn [str_lt negb]. change (code "0") with 48%nat.
  destruct (Nat.ltb_spec 48 (code c)); [done|lia].
Qed.
