(* ===== verification/Ethers.v ===== *)
(** * The ethers interface

    ethers (v5) is a third-party package. What the code relies on is stated
    here as two interfaces, each a class whose fields are the operations the
    code calls and the laws that their documentation gives:

    - [BigNumber]: immutable arbitrary-precision integers. A value of the
      class [BigNumber] is observed through its integer only, so it is
      represented by that integer; [div] truncates towards zero and throws on
      zero, [mod] is the non-negative remainder and throws on a divisor that
      is not positive, [toString] is decimal.
    - [EthersUtils]: [parseUnits], [hexlify], [toHexString], [keccak256].

    [ethers_v5] and [utils_ref] are concrete instances, used to run the model
    on concrete inputs. *)

From S2P Require Import Prelude JsString.
From Stdlib Require Import Ascii String.

Local Open Scope Z_scope.

Class BigNumber := {
  bn_add : Z -> Z -> Z;
  bn_sub : Z -> Z -> Z;
  bn_mul : Z -> Z -> Z;
  bn_div : Z -> Z -> result Z;
  bn_mod : Z -> Z -> result Z;
  bn_pow : Z -> Z -> result Z;
  bn_abs : Z -> Z;
  bn_eq : Z -> Z -> bool;
  bn_lt : Z -> Z -> bool;
  bn_lte : Z -> Z -> bool;
  bn_gt : Z -> Z -> bool;
  bn_gte : Z -> Z -> bool;
  bn_isZero : Z -> bool;
  bn_toString : Z -> string;
  (** [BigNumber.from] on a JavaScript number holding an integer. *)
  bn_from_number : Z -> result Z;
  bn_add_law a b : bn_add a b = a + b;
  bn_sub_law a b : bn_sub a b = a - b;
  bn_mul_law a b : bn_mul a b = a * b;
  bn_div_law a b : b <> 0 -> bn_div a b = Ok (a ÷ b);
  bn_div_zero a : is_Ok (bn_div a 0) = false;
  bn_mod_law a b : 0 < b -> bn_mod a b = Ok (a mod b);
  bn_mod_nonpos a b : b <= 0 -> is_Ok (bn_mod a b) = false;
  bn_pow_law a b : 0 <= b -> bn_pow a b = Ok (a ^ b);
  bn_abs_law a : bn_abs a = Z.abs a;
  bn_eq_law a b : bn_eq a b = (a =? b);
  bn_lt_law a b : bn_lt a b = (a <? b);
  bn_lte_law a b : bn_lte a b = (a <=? b);
  bn_gt_law a b : bn_gt a b = (b <? a);
  bn_gte_law a b : bn_gte a b = (b <=? a);
  bn_isZero_law a : bn_isZero a = (a =? 0);
  bn_toString_law a : bn_toString a = dec_of_Z a;
  bn_from_number_law a : Z.abs a < 2 ^ 53 - 1 -> bn_from_number a = Ok a;
  bn_from_number_unsafe a : 2 ^ 53 - 1 <= Z.abs a -> is_Ok (bn_from_number a) = false;
}.

(** Rewriting with the interface's total operations turns model code into
    integer arithmetic. *)
Create Rewrite HintDb bn.
#[export] Hint Rewrite @bn_add_law @bn_sub_law @bn_mul_law @bn_abs_law @bn_eq_law
  @bn_lt_law @bn_lte_law @bn_gt_law @bn_gte_law @bn_isZero_law @bn_toString_law : bn.

Ltac bn_simpl := autorewrite with bn in *; rewrite ?bind_Ok in *.

(** Splits the boolean comparison that a goal branches on. *)
Ltac case_Z :=
  match goal with
  | |- context [?a =? ?b] => destruct (Z.eqb_spec a b)
  | |- context [?a <? ?b] => destruct (Z.ltb_spec a b)
  | |- context [?a <=? ?b] => destruct (Z.leb_spec a b)
  end; cbn [andb orb negb].

(** A summing loop over a body that may throw. *)
Lemma foldM_sum `{BigNumber} {A} (f : A -> result Z) l acc :
  foldM (fun s x => y ← f x; Ok (bn_add s y)) acc l =
    (ys ← mapM f l; Ok (acc + zsum ys)).
Proof.
  revert acc; induction l as [|x l IH]; intros acc; cbn [foldM mapM].
  - run_result. cbn [zsum]. f_equal; lia.
  - destruct (f x) as [y|e]; run_result; [|done]. rewrite IH. bn_simpl.
    destruct (mapM f l); run_result; [|done]. cbn [zsum]. f_equal; lia.
Qed.

(** ** A concrete BigNumber *)

Definition from_number_ref (a : Z) : result Z :=
  if Z.abs a <? 2 ^ 53 - 1 then Ok a else Throw "overflow".

#[refine, export] Instance ethers_v5 : BigNumber := {|
  bn_add := Z.add; bn_sub := Z.sub; bn_mul := Z.mul;
  bn_div := fun a b => if b =? 0 then Throw "division-by-zero" else Ok (a ÷ b);
  bn_mod := fun a b => if b <=? 0 then Throw "division-by-zero" else Ok (a mod b);
  bn_pow := fun a b => if b <? 0 then Throw "negative-power" else Ok (a ^ b);
  bn_abs := Z.abs; bn_eq := Z.eqb; bn_lt := Z.ltb; bn_lte := Z.leb;
  bn_gt := fun a b => b <? a; bn_gte := fun a b => b <=? a;
  bn_isZero := fun a => a =? 0;
  bn_toString := dec_of_Z;
  bn_from_number := from_number_ref |}.
Proof.
  all: try reflexivity; unfold from_number_ref; intros; try case_Z; try done; lia.
Defined.

(** ** Utilities *)

Definition hex_digit_char (d : Z) : ascii :=
  if d <? 10 then ascii_of_nat (Z.to_nat d + 48) else ascii_of_nat (Z.to_nat d + 87).

(** [n] lower-case hexadecimal digits of [z], most significant first. *)
Fixpoint hex_digits (n : nat) (z : Z) : string :=
  match n with
  | O => EmptyString
  | S n' => (hex_digits n' (z / 16) ++ String (hex_digit_char (z mod 16)) EmptyString)%string
  end.

(** Number of bytes of a natural number, at least one. *)
Definition byte_length (z : Z) : nat := S (Z.to_nat (Z.log2 z / 8)).

(** A natural number as a DataHexString: "0x" and an even number of digits. *)
Definition data_hex (z : Z) : string := ("0x" ++ hex_digits (2 * byte_length z) z)%string.

Class EthersUtils := {
  (** [ethers.utils.parseUnits(s, decimals)]; [parseEther] has 18 decimals. *)
  parseUnits : string -> Z -> result Z;
  (** [ethers.utils.hexlify] on a JavaScript number. *)
  hexlify : Z -> result string;
  (** [BigNumber.toHexString]. *)
  toHexString : Z -> string;
  (** [ethers.utils.keccak256] of the UTF-8 bytes of a string, as hex data. *)
  keccak256 : string -> string;
  (** Indexed arguments that [Interface.parseLog] finds in the topics of a log, for
      the event of a signature. *)
  parseLog : string -> list string -> result (list string);
  parseUnits_int n d : 0 <= n -> 0 <= d <= 255 ->
    parseUnits (dec_of_Z n) d = Ok (n * 10 ^ d);
  (** A decimal literal "i.f" with at most [d] fractional digits. *)
  parseUnits_frac i f d : 0 <= i -> all_digits f = true ->
    (1 <= String.length f)%nat -> Z.of_nat (String.length f) <= d <= 255 ->
    parseUnits (dec_of_Z i ++ "." ++ f)%string d =
      Ok (i * 10 ^ d + dec_value 0 f * 10 ^ (d - Z.of_nat (String.length f)));
  hexlify_law n : 0 <= n < 2 ^ 53 -> hexlify n = Ok (data_hex n);
  toHexString_law n : 0 <= n -> toHexString n = data_hex n;
  (** A 32-byte digest: "0x" and 64 digits. *)
  keccak256_length s : String.length (keccak256 s) = 66%nat;
  keccak256_prefix s : take_str 2 (keccak256 s) = "0x"%string;
  (** The first topic is the hash of the signature. *)
  parseLog_law e args : parseLog e (keccak256 e :: args) = Ok args;
}.

Definition parseEther `{EthersUtils} (s : string) : result Z := parseUnits s 18.

(** ** Lemmas on hexadecimal data *)

Lemma length_hex_digits n z : String.length (hex_digits n z) = n.
Proof. revert z; induction n; intros z; cbn [hex_digits]; [done|]. rewrite length_app_str, IHn. cbn. lia. Qed.

Lemma byte_length_bound z k : 0 <= z < 2 ^ (8 * Z.of_nat k) -> (0 < k)%nat -> (byte_length z <= k)%nat.
Proof.
  intros Hz Hk. unfold byte_length.
  destruct (Z.eq_dec z 0) as [->|]; [change (1 <= k)%nat; lia|].
  assert (Hl : Z.log2 z < 8 * Z.of_nat k) by (apply Z.log2_lt_pow2; lia).
  pose proof (Z.log2_nonneg z).
  assert (Z.log2 z / 8 < Z.of_nat k) by (apply Z.div_lt_upper_bound; lia).
  assert (0 <= Z.log2 z / 8) by (apply Z.div_pos; lia). lia.
Qed.

(** The number a string of lower-case hexadecimal digits denotes. *)
Definition hex_digit_value (c : ascii) : Z :=
  let n := Z.of_nat (code c) in if n <? 58 then n - 48 else n - 87.

Fixpoint hex_value (acc : Z) (s : string) : Z :=
  match s with
  | EmptyString => acc
  | String c s' => hex_value (16 * acc + hex_digit_value c) s'
  end.

(** A statement about the sixteen digits holds when it holds for each. *)
Lemma digit_cases (P : Z -> Prop) d : 0 <= d < 16 -> Forall P (seqZ 0 16) -> P d.
Proof. intros Hd HF. rewrite Forall_forall in HF. apply HF, elem_of_seqZ. lia. Qed.

Lemma hex_digit_value_char d : 0 <= d < 16 -> hex_digit_value (hex_digit_char d) = d.
Proof.
  intros Hd. apply (digit_cases (fun d => hex_digit_value (hex_digit_char d) = d)); [done|].
  vm_compute. repeat constructor.
Qed.

Lemma lower_hex_digit_char d : 0 <= d < 16 -> lower_ascii (hex_digit_char d) = hex_digit_char d.
Proof.
  intros Hd. apply (digit_cases (fun d => lower_ascii (hex_digit_char d) = hex_digit_char d)); [done|].
  vm_compute. repeat constructor.
Qed.

Lemma hex_value_app acc s t : hex_value acc (s ++ t)%string = hex_value (hex_value acc s) t.
Proof. revert acc; induction s as [|c s IH]; intros acc; cbn; auto. Qed.

Lemma hex_value_digits n z : 0 <= z -> hex_value 0 (hex_digits n z) = z mod 16 ^ Z.of_nat n.
Proof.
  revert z; induction n as [|n IH]; intros z Hz; cbn [hex_digits].
  - by rewrite Z.mod_1_r.
  - rewrite hex_value_app, IH by (apply Z.div_pos; lia). cbn [hex_value].
    rewrite hex_digit_value_char by (apply Z.mod_pos_bound; lia).
    rewrite Nat2Z.inj_succ, Z.pow_succ_r by lia.
    rewrite (Z.rem_mul_r z 16) by (try apply Z.pow_pos_nonneg; lia). lia.
Qed.

Lemma toLowerCase_hex_digits n z : toLowerCase (hex_digits n z) = hex_digits n z.
Proof.
  revert z; induction n as [|n IH]; intros z; cbn [hex_digits]; [done|].
  rewrite toLowerCase_app, IH. cbn [toLowerCase].
  by rewrite lower_hex_digit_char by (apply Z.mod_pos_bound; lia).
Qed.

Lemma toLowerCase_zeros n : toLowerCase (repeat_char n "0") = repeat_char n "0".
Proof. induction n as [|n IH]; cbn; [done|]. by rewrite IH. Qed.

Lemma hex_value_zeros n : hex_value 0 (repeat_char n "0") = 0.
Proof. induction n as [|n IH]; cbn [repeat_char hex_value]; done. Qed.

(** The digits [data_hex] writes are enough for the number. *)
Lemma data_hex_range z : 0 <= z -> z mod 16 ^ Z.of_nat (2 * byte_length z) = z.
Proof.
  intros Hz. apply Z.mod_small. split; [done|].
  replace 16 with (2 ^ 4) by done. rewrite <- Z.pow_mul_r by lia.
  destruct (Z.eq_dec z 0) as [->|]; [apply Z.pow_pos_nonneg; lia|].
  apply Z.log2_lt_pow2; [lia|]. unfold byte_length.
  pose proof (Z.log2_nonneg z). pose proof (Z.div_mod (Z.log2 z) 8 ltac:(lia)).
  pose proof (Z.mod_pos_bound (Z.log2 z) 8 ltac:(lia)).
  assert (0 <= Z.log2 z / 8) by (apply Z.div_pos; lia). lia.
Qed.

(** ** Concrete utilities *)

(** Splits a numeral at its decimal point. *)
Fixpoint split_dot (s : string) : string * option string :=
  match s with
  | EmptyString => (EmptyString, None)
  | String c s' =>
      if Ascii.eqb c "." then (EmptyString, Some s')
      else let '(i, f) := split_dot s' in (String c i, f)
  end.

Definition parseUnits_ref (s : string) (d : Z) : result Z :=
  let '(i, f) := split_dot s in
  if all_digits i && negb (String.length i =? 0)%nat then
    match f with
    | None => Ok (dec_value 0 i * 10 ^ d)
    | Some f =>
        if all_digits f && (Z.of_nat (String.length f) <=? d) then
          Ok (dec_value 0 i * 10 ^ d + dec_value 0 f * 10 ^ (d - Z.of_nat (String.length f)))
        else Throw "fractional component exceeds decimals"
    end
  else Throw "invalid decimal value".

Definition hexlify_ref (n : Z) : result string :=
  if n <? 0 then Throw "invalid hexlify value" else Ok (data_hex n).

(** A digest that depends on its input, of the right shape. *)
Definition keccak256_ref (s : string) : string :=
  ("0x" ++ hex_digits 64 (dec_value 7 s))%string.

Lemma split_dot_digits s : all_digits s = true -> split_dot s = (s, None).
Proof.
  induction s as [|c s IH]; [done|]. cbn [all_digits split_dot]. intros Hd.
  apply andb_true_iff in Hd as [Hc Hs]. apply andb_true_iff in Hc as [H1 _].
  apply Nat.leb_le in H1.
  destruct (Ascii.eqb_spec c "."%char) as [->|]; [vm_compute in H1; lia|].
  by rewrite (IH Hs).
Qed.

Lemma split_dot_frac s f : all_digits s = true ->
  split_dot (s ++ "." ++ f)%string = (s, Some f).
Proof.
  induction s as [|c s IH]; [done|]. cbn [all_digits split_dot String.append]. intros Hd.
  apply andb_true_iff in Hd as [Hc Hs]. apply andb_true_iff in Hc as [H1 _].
  apply Nat.leb_le in H1.
  destruct (Ascii.eqb_spec c "."%char) as [->|]; [vm_compute in H1; lia|].
  cbn [String.append] in IH. by rewrite (IH Hs).
Qed.

Lemma dec_of_Z_digits n : 0 <= n ->
  all_digits (dec_of_Z n) = true /\ dec_value 0 (dec_of_Z n) = n /\
  (String.length (dec_of_Z n) =? 0)%nat = false.
Proof.
  intros Hn. rewrite dec_of_Z_nonneg by done.
  destruct (dec_of_nonneg_spec n Hn) as (H1 & H2 & H3 & _).
  split_and!; [done|done|]. apply Nat.eqb_neq. lia.
Qed.

Definition parseLog_ref (e : string) (topics : list string) : result (list string) :=
  match topics with
  | t :: args => if String.eqb t (keccak256_ref e) then Ok args else Throw "no matching event"
  | [] => Throw "no matching event"
  end.

#[refine, export] Instance utils_ref : EthersUtils := {|
  parseUnits := parseUnits_ref; hexlify := hexlify_ref; toHexString := data_hex;
  keccak256 := keccak256_ref; parseLog := parseLog_ref |}.
Proof.
  - intros n d Hn Hd. unfold parseUnits_ref.
    destruct (dec_of_Z_digits n Hn) as (H1 & H2 & H3).
    by rewrite split_dot_digits, H1, H3, H2.
  - intros i f d Hi Hf Hl Hd. unfold parseUnits_ref.
    destruct (dec_of_Z_digits i Hi) as (H1 & H2 & H3).
    assert (E := split_dot_frac (dec_of_Z i) f H1). cbn [String.append] in E |- *.
    rewrite E, H1, H3, H2, Hf.
    by replace (Z.of_nat (String.length f) <=? d) with true by (symmetry; apply Z.leb_le; lia).
  - intros n Hn. unfold hexlify_ref. case_Z; [lia|done].
  - done.
  - intros s. unfold keccak256_ref. rewrite length_app_str, length_hex_digits. done.
  - done.
  - intros e args. unfold parseLog_ref. by rewrite String.eqb_refl.
Defined.
