(* ===== verification/Constants.v ===== *)
(** * Shared constants and data types

    [utils/constants.ts] and [utils/types.ts]. An address is the hexadecimal
    string the TypeScript code passes around; a [BigNumber] is its integer. *)

From S2P Require Import Prelude JsString.
From Stdlib Require Import Ascii String.

Local Open Scope Z_scope.

Definition Address := string.

(** [MODULE_STATE] and [POSITION_STATE]. *)
Inductive MODULE_STATE := NONE | PENDING | INITIALIZED.

#[export] Instance MODULE_STATE_eq_dec : EqDecision MODULE_STATE.
Proof. solve_decision. Defined.

Definition module_state_code (s : MODULE_STATE) : Z :=
  match s with NONE => 0 | PENDING => 1 | INITIALIZED => 2 end.

Inductive POSITION_STATE := DEFAULT | EXTERNAL.

Definition position_state_code (s : POSITION_STATE) : Z :=
  match s with DEFAULT => 0 | EXTERNAL => 1 end.

Definition ADDRESS_ZERO : Address := ("0x" ++ repeat_char 40 "0"%char)%string.
Definition EMPTY_BYTES : string := "0x".
Definition ZERO_BYTES : string := ("0x" ++ repeat_char 64 "0"%char)%string.
Definition ONE : Z := 1.
Definition TWO : Z := 2.
Definition THREE : Z := 3.
Definition ZERO : Z := 0.
Definition MAX_UINT_256 : Z := 2 ^ 256 - 1.
Definition MAX_INT_256 : Z := 2 ^ 255 - 1.
Definition MAX_UINT_96 : Z := 2 ^ 96 - 1.
Definition MIN_INT_256 : Z := - 2 ^ 255.
Definition ONE_DAY_IN_SECONDS : Z := 60 * 60 * 24.
Definition ONE_HOUR_IN_SECONDS : Z := 60 * 60.
Definition ONE_YEAR_IN_SECONDS : Z := 31557600.
Definition PRECISE_UNIT : Z := 10 ^ 18.
Definition ETH_ADDRESS : Address := "0xEeeeeEeeeEeEeeEeEeEeeEEEeeeeEeeeeeeeEEeE".

(** [type Position]. *)
Record Position := mkPosition {
  pos_component : Address;
  pos_module : Address;
  pos_unit : Z;
  pos_positionState : Z;
  pos_data : string;
}.

(** [interface StreamingFeeState]. *)
Record StreamingFeeState := mkStreamingFeeState {
  feeRecipient : Address;
  streamingFeePercentage : Z;
  maxStreamingFeePercentage : Z;
  lastStreamingFeeTimestamp : Z;
}.

#[export] Instance Position_eq_dec : EqDecision Position.
Proof. solve_decision. Defined.

Lemma PRECISE_UNIT_pos : 0 < PRECISE_UNIT.
Proof. reflexivity. Qed.

Lemma PRECISE_UNIT_neq_0 : PRECISE_UNIT <> 0.
Proof. discriminate. Qed.

#[export] Hint Resolve PRECISE_UNIT_pos PRECISE_UNIT_neq_0 : arith_lib.

(** Proofs about fixed-point code never need the numeral behind the unit. *)
#[global] Opaque PRECISE_UNIT.
