(* ===== verification/MathUtils.v ===== *)
(** * Fixed-point arithmetic

    [utils/common/mathUtils.ts]: products and quotients of 18-decimal
    fixed-point numbers under each rounding mode. The theorems give every
    function its exact rounding on every input, and the inputs on which it
    throws. *)

From S2P Require Import Prelude JsString Ethers Constants.
From Stdlib Require Import String.

Local Open Scope Z_scope.

Section MathUtils.
Context `{BN : BigNumber}.

Definition preciseMul (a b : Z) : result Z := bn_div (bn_mul a b) PRECISE_UNIT.

Definition preciseMulCeil (a b : Z) : result Z :=
  if bn_eq a 0 || bn_eq b 0 then Ok ZERO
  else q ← bn_div (bn_sub (bn_mul a b) 1) PRECISE_UNIT; Ok (bn_add q 1).

Definition preciseMulCeilInt (a b : Z) : result Z :=
  if bn_eq a 0 || bn_eq b 0 then Ok ZERO
  else if (bn_gt a 0 && bn_gt b 0) || (bn_lt a 0 && bn_lt b 0) then
    q ← bn_div (bn_sub (bn_mul a b) 1) PRECISE_UNIT; Ok (bn_add q 1)
  else
    q ← bn_div (bn_add (bn_mul a b) 1) PRECISE_UNIT; Ok (bn_sub q 1).

Definition preciseDiv (a b : Z) : result Z := bn_div (bn_mul a PRECISE_UNIT) b.

Definition preciseDivCeil (a b : Z) : result Z :=
  if bn_eq a 0 || bn_eq b 0 then Ok ZERO
  else q ← bn_div (bn_sub (bn_mul a PRECISE_UNIT) 1) b; Ok (bn_add q 1).

Definition preciseDivCeilInt (a b : Z) : result Z :=
  res ← bn_div (bn_mul a PRECISE_UNIT) b;
  if bn_eq (bn_mul res b) (bn_mul a PRECISE_UNIT) then Ok res
  else if (bn_gt a 0 && bn_gt b 0) || (bn_lt a 0 && bn_lt b 0) then Ok (bn_add res 1)
  else Ok (bn_sub res 1).

Definition divDown (a b : Z) : result Z :=
  res ← bn_div a b;
  neg_pos ← and_then (bn_lt a 0 && bn_gt b 0)
    (m ← bn_mod a b; Ok (negb (bn_isZero m)));
  if neg_pos : bool then Ok (bn_sub res 1)
  else
    pos_neg ← and_then (bn_gt a 0 && bn_lt b 0)
      (m ← bn_mod a (bn_mul b (-1)); Ok (negb (bn_isZero m)));
    if pos_neg : bool then Ok (bn_sub res 1) else Ok res.

Definition min (valueOne valueTwo : Z) : Z :=
  if bn_lt valueOne valueTwo then valueOne else valueTwo.

(** ** Equations: the functions as integer arithmetic *)

Lemma preciseMul_eq a b : preciseMul a b = Ok (a * b ÷ PRECISE_UNIT).
Proof. unfold preciseMul. bn_simpl. apply bn_div_law; auto with arith_lib. Qed.

Lemma preciseMul_nonneg_eq a b : 0 <= a -> 0 <= b ->
  preciseMul a b = Ok (a * b / PRECISE_UNIT).
Proof. intros. rewrite preciseMul_eq, quot_nonneg; auto with arith_lib. Qed.

Lemma preciseDiv_eq a b : b <> 0 -> preciseDiv a b = Ok (a * PRECISE_UNIT ÷ b).
Proof. intros. unfold preciseDiv. bn_simpl. by apply bn_div_law. Qed.

Lemma preciseDiv_nonneg_eq a b : 0 <= a -> 0 < b ->
  preciseDiv a b = Ok (a * PRECISE_UNIT / b).
Proof.
  intros. pose proof PRECISE_UNIT_pos. rewrite preciseDiv_eq by lia.
  by rewrite quot_nonneg by nia.
Qed.

(** The quotient of a negative number that is one above an exact multiple
    truncates to the ceiling. *)
Lemma quot_succ_pred_cdiv n b : n < 0 -> 0 < b -> (n + 1) ÷ b - 1 = - cdiv (- n) b.
Proof.
  intros. pose proof (quot_pred_succ_cdiv (- n) b ltac:(lia) ltac:(lia)) as E.
  replace (- n - 1) with (- (n + 1)) in E by lia.
  rewrite Z.quot_opp_l in E by lia. lia.
Qed.

Lemma preciseMulCeil_nonneg_eq a b : 0 <= a -> 0 <= b ->
  preciseMulCeil a b = Ok (cdiv (a * b) PRECISE_UNIT).
Proof.
  intros Ha Hb. pose proof PRECISE_UNIT_pos.
  unfold preciseMulCeil, ZERO. bn_simpl.
  destruct (Z.eqb_spec a 0) as [->|]; [cbn [orb]; by rewrite cdiv_0_l by lia|].
  destruct (Z.eqb_spec b 0) as [->|]; [cbn [orb]; by rewrite Z.mul_0_r, cdiv_0_l by lia|].
  cbn [orb]. rewrite bn_div_law, bind_Ok by lia. bn_simpl.
  f_equal. apply quot_pred_succ_cdiv; nia.
Qed.

Lemma preciseDivCeil_nonneg_eq a b : 0 <= a -> 0 < b ->
  preciseDivCeil a b = Ok (cdiv (a * PRECISE_UNIT) b).
Proof.
  intros Ha Hb. pose proof PRECISE_UNIT_pos.
  unfold preciseDivCeil, ZERO. bn_simpl.
  destruct (Z.eqb_spec a 0) as [->|]; [cbn [orb]; by rewrite cdiv_0_l by lia|].
  destruct (Z.eqb_spec b 0) as [->|]; [lia|].
  cbn [orb]. rewrite bn_div_law, bind_Ok by lia. bn_simpl.
  f_equal. apply quot_pred_succ_cdiv; nia.
Qed.

Lemma preciseMulCeilInt_eq a b : preciseMulCeilInt a b = Ok (div_away (a * b) PRECISE_UNIT).
Proof.
  pose proof PRECISE_UNIT_pos. unfold preciseMulCeilInt, ZERO. bn_simpl.
  destruct (Z.eqb_spec a 0) as [->|]; [reflexivity|].
  destruct (Z.eqb_spec b 0) as [->|]; [cbn [orb]; by rewrite Z.mul_0_r|].
  cbn [orb].
  destruct (decide (0 < a * b)) as [Hp|Hp].
  - replace ((0 <? a) && (0 <? b) || (a <? 0) && (b <? 0)) with true
      by (symmetry; apply orb_true_iff; rewrite !andb_true_iff, !Z.ltb_lt; nia).
    rewrite bn_div_law, bind_Ok by lia. bn_simpl. f_equal.
    rewrite div_away_pos by lia. apply quot_pred_succ_cdiv; lia.
  - replace ((0 <? a) && (0 <? b) || (a <? 0) && (b <? 0)) with false
      by (symmetry; apply orb_false_iff; rewrite !andb_false_iff, !Z.ltb_ge; nia).
    rewrite bn_div_law, bind_Ok by lia. bn_simpl. f_equal.
    rewrite div_away_neg_l by nia. apply quot_succ_pred_cdiv; nia.
Qed.

Lemma preciseDiv_zero a : is_Ok (preciseDiv a 0) = false.
Proof. unfold preciseDiv. apply bn_div_zero. Qed.

Lemma preciseMulCeil_bounds a b q : 0 <= a -> 0 <= b ->
  preciseMulCeil a b = Ok q -> (q - 1) * PRECISE_UNIT < a * b <= q * PRECISE_UNIT.
Proof.
  intros Ha Hb. rewrite preciseMulCeil_nonneg_eq by done. intros [= <-].
  apply cdiv_bounds; auto with arith_lib.
Qed.

Lemma preciseMul_bounds a b q : 0 <= a -> 0 <= b ->
  preciseMul a b = Ok q -> 0 <= q /\ q * PRECISE_UNIT <= a * b < (q + 1) * PRECISE_UNIT.
Proof.
  intros Ha Hb. rewrite preciseMul_eq. intros [= <-].
  pose proof (quot_floor_bounds (a * b) PRECISE_UNIT ltac:(nia) PRECISE_UNIT_pos).
  pose proof (quot_nonneg_result (a * b) PRECISE_UNIT ltac:(nia) PRECISE_UNIT_pos). lia.
Qed.

Lemma preciseDiv_bounds a b q : 0 <= a -> 0 < b ->
  preciseDiv a b = Ok q -> 0 <= q /\ q * b <= a * PRECISE_UNIT < (q + 1) * b.
Proof.
  pose proof PRECISE_UNIT_pos.
  intros Ha Hb. rewrite preciseDiv_eq by lia. intros [= <-].
  pose proof (quot_floor_bounds (a * PRECISE_UNIT) b ltac:(nia) Hb).
  pose proof (quot_nonneg_result (a * PRECISE_UNIT) b ltac:(nia) Hb). lia.
Qed.

(** A fraction of a quantity never exceeds the quantity. *)
Lemma preciseMul_fraction_le a f q : 0 <= a -> 0 <= f <= PRECISE_UNIT ->
  preciseMul a f = Ok q -> 0 <= q <= a.
Proof.
  intros Ha Hf E. pose proof PRECISE_UNIT_pos.
  apply preciseMul_bounds in E; [|lia|lia].
  assert (a * f <= a * PRECISE_UNIT) by nia.
  split; [lia|]. apply (Z.mul_le_mono_pos_r _ _ PRECISE_UNIT); lia.
Qed.

(** Truncation and flooring differ by one exactly on inexact quotients of
    operands with opposite signs. *)
Lemma floor_of_quot a b : b <> 0 ->
  a / b = if decide (a * b < 0 /\ Z.rem a b <> 0) then a ÷ b - 1 else a ÷ b.
Proof.
  intros Hb. symmetry.
  pose proof (Z.quot_rem' a b) as Hqr.
  pose proof (Z.rem_bound_abs a b Hb) as Habs.
  pose proof (Z.rem_sign_mul a b Hb) as Hsgn.
  case_decide as D.
  - apply (Z.div_unique a b _ (Z.rem a b + b)); [|lia].
    destruct D as [Hab Hr].
    destruct (decide (0 < b)); [left; assert (a < 0) by nia | right; assert (0 < a) by nia];
      split; nia.
  - apply (Z.div_unique a b _ (Z.rem a b)); [|lia].
    destruct (decide (Z.rem a b = 0)) as [->|Hr]; [lia|].
    assert (0 <= a * b) by lia.
    assert (a <> 0) by (intros ->; apply Hr; by apply Z.rem_0_l).
    destruct (decide (0 < b)); [left; assert (0 < a) by nia | right; assert (a < 0) by nia];
      split; nia.
Qed.

Lemma mod_0_iff_rem_0 a b : b <> 0 -> a mod b = 0 <-> Z.rem a b = 0.
Proof. intros. by rewrite Z.mod_divide, Z.rem_divide. Qed.

Lemma mod_opp_0_iff_rem_0 a b : b <> 0 -> a mod (- b) = 0 <-> Z.rem a b = 0.
Proof. intros. rewrite mod_0_iff_rem_0 by lia. by rewrite Z.rem_opp_r. Qed.

(** ** Theorems *)

(** [preciseMulCeilInt] is total and rounds the exact product away from
    zero, whatever the signs of the operands. *)
Theorem preciseMulCeilInt_rounds_away a b :
  preciseMulCeilInt a b = Ok (div_away (a * b) PRECISE_UNIT).
Proof. apply preciseMulCeilInt_eq. Qed.

(** [preciseDivCeilInt] rounds the exact quotient away from zero for every
    non-zero divisor, and throws on a zero divisor. *)
Theorem preciseDivCeilInt_rounds_away a b :
  if b =? 0 then is_Ok (preciseDivCeilInt a b) = false
  else preciseDivCeilInt a b = Ok (div_away (a * PRECISE_UNIT) b).
Proof.
  unfold preciseDivCeilInt. destruct (Z.eqb_spec b 0) as [->|Hb].
  { pose proof (bn_div_zero (bn_mul a PRECISE_UNIT)). by destruct (bn_div _ 0). }
  rewrite bn_div_law, bind_Ok by done. bn_simpl.
  pose proof PRECISE_UNIT_pos as HU. set (n := a * PRECISE_UNIT).
  rewrite div_away_of_quot by done.
  pose proof (Z.quot_rem' n b) as Hqr. rewrite !Z.sgn_mul.
  case_decide as D.
  { replace (n ÷ b * b =? n) with true by (symmetry; apply Z.eqb_eq; lia). f_equal; lia. }
  replace (n ÷ b * b =? n) with false by (symmetry; apply Z.eqb_neq; lia).
  assert (a <> 0) by (intros ->; apply D; reflexivity).
  replace (Z.sgn n) with (Z.sgn a)
    by (unfold n; rewrite Z.sgn_mul, (Z.sgn_pos PRECISE_UNIT) by done; lia).
  destruct (Z.ltb_spec 0 a), (Z.ltb_spec 0 b), (Z.ltb_spec a 0), (Z.ltb_spec b 0);
    try lia; cbn [andb orb]; f_equal;
    rewrite ?(Z.sgn_pos a), ?(Z.sgn_pos b), ?(Z.sgn_neg a), ?(Z.sgn_neg b) by lia; lia.
Qed.

(** [divDown] is the floor of the exact quotient for operands of either
    sign, and throws on a zero divisor. *)
Theorem divDown_floor a b :
  if b =? 0 then is_Ok (divDown a b) = false else divDown a b = Ok (a / b).
Proof.
  unfold divDown. destruct (Z.eqb_spec b 0) as [->|Hb].
  { pose proof (bn_div_zero a). by destruct (bn_div a 0). }
  rewrite bn_div_law, bind_Ok by done. bn_simpl. rewrite floor_of_quot by done.
  destruct (Z.ltb_spec a 0), (Z.ltb_spec 0 b), (Z.ltb_spec 0 a), (Z.ltb_spec b 0);
    try lia; cbn [andb and_then]; rewrite ?bind_Ok;
    try (case_decide as D; [exfalso; nia | reflexivity]).
  - rewrite bn_mod_law, !bind_Ok by lia. bn_simpl.
    destruct (Z.eqb_spec (a mod b) 0) as [E|E]; rewrite mod_0_iff_rem_0 in E by done;
      case_decide as D; (reflexivity || exfalso; nia).
  - rewrite bn_mod_law, !bind_Ok by lia. bn_simpl.
    replace (b * -1) with (- b) by lia.
    destruct (Z.eqb_spec (a mod (- b)) 0) as [E|E]; rewrite mod_opp_0_iff_rem_0 in E by done;
      case_decide as D; (reflexivity || exfalso; nia).
Qed.

(** On naturals the two roundings of a product bracket the exact value:
    they differ by at most one, and agree exactly when the product is a
    multiple of the unit. *)
Theorem preciseMul_preciseMulCeil_bracket a b : 0 <= a -> 0 <= b ->
  exists lo hi, preciseMul a b = Ok lo /\ preciseMulCeil a b = Ok hi /\
    lo * PRECISE_UNIT <= a * b <= hi * PRECISE_UNIT /\ lo <= hi <= lo + 1 /\
    (lo = hi <-> (a * b) mod PRECISE_UNIT = 0).
Proof.
  intros Ha Hb. pose proof PRECISE_UNIT_pos as HU.
  eexists _, _. rewrite preciseMul_nonneg_eq, preciseMulCeil_nonneg_eq by done.
  split; [reflexivity|]. split; [reflexivity|].
  assert (Hab : 0 <= a * b) by nia. generalize dependent (a * b). intros n Hn.
  pose proof (Z.div_mod n PRECISE_UNIT ltac:(lia)).
  pose proof (Z.mod_pos_bound n PRECISE_UNIT HU).
  pose proof (cdiv_bounds n PRECISE_UNIT HU).
  pose proof (cdiv_ge_div n PRECISE_UNIT Hn HU).
  split; [lia|]. split; [lia|]. split.
  - intros E. rewrite <- E in *. lia.
  - intros E. by rewrite cdiv_exact.
Qed.

(** Dividing and multiplying back by the same factor never gains value:
    the truncating pair returns at most the original amount, and at most one
    below it when the factor is at most one unit; the ceiling pair returns at
    least the original amount. *)
Theorem preciseDiv_preciseMul_roundtrip a b : 0 <= a -> 0 < b ->
  exists q lo r hi, preciseDiv a b = Ok q /\ preciseMul q b = Ok lo /\
    preciseDivCeil a b = Ok r /\ preciseMulCeil r b = Ok hi /\
    lo <= a <= hi /\ (b <= PRECISE_UNIT -> a - 1 <= lo /\ hi <= a + 1).
Proof.
  intros Ha Hb. pose proof PRECISE_UNIT_pos as HU.
  pose proof (cdiv_bounds (a * PRECISE_UNIT) b Hb) as Bc.
  pose proof (Z.div_mod (a * PRECISE_UNIT) b ltac:(lia)) as Bd.
  pose proof (Z.mod_pos_bound (a * PRECISE_UNIT) b Hb) as Bm.
  assert (Hq : 0 <= a * PRECISE_UNIT / b) by (apply Z.div_pos; nia).
  assert (Hr : 0 <= cdiv (a * PRECISE_UNIT) b) by (apply cdiv_nonneg; nia).
  eexists _, _, _, _. rewrite preciseDiv_nonneg_eq, preciseDivCeil_nonneg_eq by done.
  split; [reflexivity|]. rewrite preciseMul_nonneg_eq by lia. split; [reflexivity|].
  split; [reflexivity|]. rewrite preciseMulCeil_nonneg_eq by lia. split; [reflexivity|].
  set (q := a * PRECISE_UNIT / b) in *. set (r := cdiv (a * PRECISE_UNIT) b) in *.
  pose proof (cdiv_bounds (r * b) PRECISE_UNIT HU).
  pose proof (Z.div_mod (q * b) PRECISE_UNIT ltac:(lia)).
  pose proof (Z.mod_pos_bound (q * b) PRECISE_UNIT HU).
  set (lo := q * b / PRECISE_UNIT) in *. set (hi := cdiv (r * b) PRECISE_UNIT) in *.
  assert (Hmono : forall x y, x * PRECISE_UNIT < y * PRECISE_UNIT -> x < y)
    by (intros x y; apply Z.mul_lt_mono_pos_r; done).
  pose proof (Hmono lo (a + 1)). pose proof (Hmono a (hi + 1)).
  pose proof (Hmono (a - 2) lo). pose proof (Hmono hi (a + 2)). lia.
Qed.

End MathUtils.

(** ** Witnesses *)

Lemma preciseMul_bracket_witness : exists lo hi,
  preciseMul 3 (10 ^ 17) = Ok lo /\ preciseMulCeil 3 (10 ^ 17) = Ok hi /\
  lo * PRECISE_UNIT <= 3 * 10 ^ 17 <= hi * PRECISE_UNIT /\ lo <= hi <= lo + 1 /\
  (lo = hi <-> (3 * 10 ^ 17) mod PRECISE_UNIT = 0).
Proof. apply (preciseMul_preciseMulCeil_bracket 3 (10 ^ 17)); lia. Defined.

Lemma preciseDiv_roundtrip_witness : exists q lo r hi,
  preciseDiv 10 3 = Ok q /\ preciseMul q 3 = Ok lo /\
  preciseDivCeil 10 3 = Ok r /\ preciseMulCeil r 3 = Ok hi /\
  lo <= 10 <= hi /\ (3 <= PRECISE_UNIT -> 10 - 1 <= lo /\ hi <= 10 + 1).
Proof. apply (preciseDiv_preciseMul_roundtrip 10 3); lia. Defined.

