(* ===== verification/UnitsUtils.v ===== *)
(** * Token amounts

    [utils/common/unitsUtils.ts]: conversions of a human amount to base
    units. [ether] and [wbtc] go through decimal strings; [bitcoin] and
    [usdc] multiply JavaScript numbers first, so they stop at the largest safe
    integer. A numeric argument is an integral JavaScript number; its product
    by an integer literal is exact below 2^53, and at or above 2^53 the rounded
    product is refused by [BigNumber.from] just as the exact one. *)

From S2P Require Import Prelude JsString Ethers Constants.
From Stdlib Require Import String.

Local Open Scope Z_scope.

(** The argument of [ether]: an integral number, or a string such as "0.02". *)
Inductive amount := Number (n : Z) | Literal (s : string).

(** [amount.toString()]. *)
Definition amount_toString (a : amount) : string :=
  match a with Number n => dec_of_Z n | Literal s => s end.

Section UnitsUtils.
Context `{BN : BigNumber} `{EU : EthersUtils}.

(** [BigNumber.from] of a BigNumber returns it. *)
Definition ether (a : amount) : result Z := parseEther (amount_toString a).

Definition gWei (a : Z) : result Z :=
  x ← bn_from_number a; Ok (bn_mul 1000000000 x).

Definition bitcoin (a : Z) : result Z := bn_from_number (100000000 * a).

Definition usdc (a : Z) : result Z := bn_from_number (1000000 * a).

Definition wbtc (a : Z) : result Z := parseUnits (dec_of_Z a) 8.

(** ** Theorems *)

Lemma ether_Number n : 0 <= n -> ether (Number n) = Ok (n * PRECISE_UNIT).
Proof. intros. apply parseUnits_int; lia. Qed.

Lemma from_number_spec n :
  (Z.abs n < 2 ^ 53 - 1 -> bn_from_number n = Ok n) /\
  (is_Ok (bn_from_number n) = true -> Z.abs n < 2 ^ 53 - 1).
Proof.
  split; [apply bn_from_number_law|]. intros H.
  destruct (decide (Z.abs n < 2 ^ 53 - 1)) as [|Hn]; [done|].
  rewrite bn_from_number_unsafe in H by lia. done.
Qed.

(** The converters that multiply JavaScript numbers succeed exactly on the
    amounts whose base units are below the largest safe integer, and then give
    [amount * 10^decimals]: [usdc] up to 9007199254, [bitcoin] up to 90071992. *)
Theorem number_converters_range n :
  (is_Ok (usdc n) = true <-> Z.abs n <= 9007199254) /\
  (Z.abs n <= 9007199254 -> usdc n = Ok (n * 10 ^ 6)) /\
  (is_Ok (bitcoin n) = true <-> Z.abs n <= 90071992) /\
  (Z.abs n <= 90071992 -> bitcoin n = Ok (n * 10 ^ 8)).
Proof.
  unfold usdc, bitcoin.
  destruct (from_number_spec (1000000 * n)) as [U1 U2].
  destruct (from_number_spec (100000000 * n)) as [B1 B2].
  split_and!.
  - split; intros H; [specialize (U2 H); lia|]. rewrite U1 by lia. done.
  - intros H. rewrite U1 by lia. f_equal; lia.
  - split; intros H; [specialize (B2 H); lia|]. rewrite B1 by lia. done.
  - intros H. rewrite B1 by lia. f_equal; lia.
Qed.

(** [wbtc] and [ether] have no such bound: every natural amount converts to
    [amount * 10^decimals], and where [bitcoin] succeeds [wbtc] agrees with it. *)
Theorem string_converters_exact n : 0 <= n ->
  ether (Number n) = Ok (n * PRECISE_UNIT) /\ wbtc n = Ok (n * 10 ^ 8) /\
  (is_Ok (bitcoin n) = true -> bitcoin n = wbtc n).
Proof.
  intros Hn. assert (W : wbtc n = Ok (n * 10 ^ 8)) by (apply parseUnits_int; lia).
  split_and!; [by apply ether_Number | done |].
  intros H. rewrite W. unfold bitcoin in *.
  destruct (from_number_spec (100000000 * n)) as [B1 B2].
  rewrite B1 by auto. f_equal; lia.
Qed.

End UnitsUtils.

Lemma string_converters_witness :
  ether (Number 3) = Ok (3 * PRECISE_UNIT) /\ wbtc 3 = Ok (3 * 10 ^ 8) /\
  (is_Ok (bitcoin 3) = true -> bitcoin 3 = wbtc 3).
Proof. apply (string_converters_exact 3). lia. Defined.

(** A decimal literal of the kind [ether(0.02)]. *)
Example ether_two_percent : ether (Literal "0.02") = Ok 20000000000000000.
Proof. vm_compute. reflexivity. Qed.
