(* ===== verification/FeeModuleUtils.v ===== *)
(** * Streaming fees

    [utils/common/feeModuleUtils.ts]: the expected streaming fee, the
    inflation it mints, and the position units left after it. *)

From S2P Require Import Prelude JsString Ethers Constants MathUtils.
From Stdlib Require Import String.

Local Open Scope Z_scope.

Section FeeModuleUtils.
Context `{BN : BigNumber}.

(** [feeStates] is the getter of the deployed fee module. *)
Definition getStreamingFee
    (feeStates : Address -> result StreamingFeeState) (setToken : Address)
    (previousAccrueTimestamp recentAccrueTimestamp : Z)
    (streamingFee : option Z) : result Z :=
  feeState ← feeStates setToken;
  let accrualRate :=
    match streamingFee with Some f => f | None => streamingFeePercentage feeState end in
  let timeElapsed := bn_sub recentAccrueTimestamp previousAccrueTimestamp in
  bn_div (bn_mul timeElapsed accrualRate) ONE_YEAR_IN_SECONDS.

Definition getStreamingFeeInflationAmount (inflationPercent totalSupply : Z) : result Z :=
  let a := bn_mul inflationPercent totalSupply in
  let b := bn_sub PRECISE_UNIT inflationPercent in
  bn_div a b.

Definition getPostFeePositionUnits (preFeeUnits : list Z) (inflationPercent : Z)
    : result (list Z) :=
  foldM (fun newUnits u =>
    if bn_gte u 0 then
      x ← preciseMul u (bn_sub PRECISE_UNIT inflationPercent); Ok (newUnits ++ [x])
    else
      x ← preciseMulCeilInt u (bn_sub PRECISE_UNIT inflationPercent); Ok (newUnits ++ [x]))
    [] preFeeUnits.

(** The unit of one position after the fee. *)
Definition post_fee_unit (inflationPercent u : Z) : Z :=
  if 0 <=? u then u * (PRECISE_UNIT - inflationPercent) ÷ PRECISE_UNIT
  else div_away (u * (PRECISE_UNIT - inflationPercent)) PRECISE_UNIT.

Lemma getStreamingFee_eq feeStates setToken prev recent fee st :
  feeStates setToken = Ok st ->
  getStreamingFee feeStates setToken prev recent fee =
    Ok ((recent - prev) * default (streamingFeePercentage st) fee ÷ ONE_YEAR_IN_SECONDS).
Proof.
  intros E. unfold getStreamingFee. rewrite E, bind_Ok. bn_simpl.
  rewrite bn_div_law by done. by destruct fee.
Qed.

Lemma foldM_snoc_map {A B} (f : A -> result B) (g : A -> B) acc l :
  (forall x, f x = Ok (g x)) ->
  foldM (fun acc' x => y ← f x; Ok (acc' ++ [y])) acc l = Ok (acc ++ map g l).
Proof.
  intros E. revert acc. induction l as [|x l IH]; intros acc; cbn [foldM map].
  - by rewrite app_nil_r.
  - rewrite E, !bind_Ok, IH, <- app_assoc. done.
Qed.

Lemma getPostFeePositionUnits_eq units inflation :
  getPostFeePositionUnits units inflation = Ok (map (post_fee_unit inflation) units).
Proof.
  unfold getPostFeePositionUnits.
  rewrite <- (app_nil_l (map _ _)).
  rewrite <- (foldM_snoc_map
    (fun u => if bn_gte u 0 then preciseMul u (bn_sub PRECISE_UNIT inflation)
              else preciseMulCeilInt u (bn_sub PRECISE_UNIT inflation))).
  - apply foldM_ext. intros acc u _. by destruct (bn_gte u 0).
  - intros u. unfold post_fee_unit. bn_simpl.
    case_Z; [apply preciseMul_eq | apply preciseMulCeilInt_eq].
Qed.

(** ** Theorems *)

(** [getPostFeePositionUnits] is total and pointwise: a non-negative unit is
    scaled by [1 - inflation] rounded towards zero, a negative (debt) unit is
    scaled rounded away from zero; order and length are kept. *)
Theorem getPostFeePositionUnits_pointwise units inflation :
  getPostFeePositionUnits units inflation = Ok (map (post_fee_unit inflation) units).
Proof. apply getPostFeePositionUnits_eq. Qed.

(** For an inflation between 0 and 100% the fee never moves a unit in the
    holders' favour: a long unit does not grow and stays non-negative, and the
    debt left is at least the exact scaled debt and at most the old debt. *)
Theorem post_fee_unit_conservative inflation u :
  0 <= inflation <= PRECISE_UNIT ->
  (0 <= u -> 0 <= post_fee_unit inflation u <= u) /\
  (u < 0 -> u <= post_fee_unit inflation u <= 0 /\
     post_fee_unit inflation u * PRECISE_UNIT <= u * (PRECISE_UNIT - inflation)).
Proof.
  intros Hi. pose proof PRECISE_UNIT_pos as HU. unfold post_fee_unit.
  split; intros Hu; case_Z; try lia.
  - eapply preciseMul_fraction_le; [| |apply preciseMul_eq]; lia.
  - destruct (Z.eq_dec inflation PRECISE_UNIT) as [->|].
    { rewrite Z.sub_diag, Z.mul_0_r. change (div_away 0 PRECISE_UNIT) with 0. lia. }
    rewrite div_away_neg_l by nia.
    pose proof (cdiv_bounds (- (u * (PRECISE_UNIT - inflation))) PRECISE_UNIT HU).
    assert (0 <= u * (inflation - PRECISE_UNIT) <= (- u) * PRECISE_UNIT) by nia.
    set (c := cdiv _ _) in *.
    assert (Hmono : forall x y, x * PRECISE_UNIT < y * PRECISE_UNIT -> x < y)
      by (intros x y; apply Z.mul_lt_mono_pos_r; done).
    pose proof (Hmono (- 1) c). pose proof (Hmono (c - 1) (- u)). lia.
Qed.

(** The inflation minted for a fee below 100% gives the recipient exactly
    the fee's share of the new supply, up to rounding: with minted amount [m],
    [m / (m + supply)] is at most the fee, and one more unit would exceed it. *)
Theorem streaming_fee_inflation_share inflation supply :
  0 <= inflation < PRECISE_UNIT -> 0 <= supply ->
  exists m, getStreamingFeeInflationAmount inflation supply = Ok m /\ 0 <= m /\
    m * PRECISE_UNIT <= inflation * (supply + m) /\
    inflation * (supply + (m + 1)) < (m + 1) * PRECISE_UNIT.
Proof.
  intros Hi Hs. unfold getStreamingFeeInflationAmount. bn_simpl.
  rewrite bn_div_law by lia. eexists. split; [reflexivity|].
  pose proof (quot_floor_bounds (inflation * supply) (PRECISE_UNIT - inflation)
    ltac:(nia) ltac:(lia)).
  pose proof (quot_nonneg_result (inflation * supply) (PRECISE_UNIT - inflation)
    ltac:(nia) ltac:(lia)). nia.
Qed.

(** The accrued fee is proportional to the elapsed time with the explicit
    rate overriding the stored one: zero when no time has passed, at most the
    rate over one year, and monotone in the elapsed time. *)
Theorem getStreamingFee_linear feeStates setToken st prev t1 t2 fee r1 r2 :
  feeStates setToken = Ok st -> 0 <= default (streamingFeePercentage st) fee ->
  prev <= t1 <= t2 ->
  getStreamingFee feeStates setToken prev t1 fee = Ok r1 ->
  getStreamingFee feeStates setToken prev t2 fee = Ok r2 ->
  0 <= r1 <= r2 /\ (t1 = prev -> r1 = 0) /\
  (t2 - prev <= ONE_YEAR_IN_SECONDS -> r2 <= default (streamingFeePercentage st) fee).
Proof.
  intros E Hf Ht. rewrite !(getStreamingFee_eq _ _ _ _ _ st E). intros [= <-] [= <-].
  set (f := default _ _) in *.
  assert (HY : 0 < ONE_YEAR_IN_SECONDS) by reflexivity.
  split_and!.
  - apply quot_nonneg_result; nia.
  - apply quot_mono; nia.
  - intros ->. rewrite Z.sub_diag. reflexivity.
  - intros Hy. pose proof (quot_floor_bounds ((t2 - prev) * f) ONE_YEAR_IN_SECONDS ltac:(nia) HY).
    nia.
Qed.

End FeeModuleUtils.

Lemma post_fee_unit_witness :
  (0 <= 7 -> 0 <= post_fee_unit (10 ^ 16) 7 <= 7) /\
  (7 < 0 -> 7 <= post_fee_unit (10 ^ 16) 7 <= 0 /\
     post_fee_unit (10 ^ 16) 7 * PRECISE_UNIT <= 7 * (PRECISE_UNIT - 10 ^ 16)).
Proof.
  apply (post_fee_unit_conservative (10 ^ 16) 7). split; [lia|]. vm_compute. discriminate.
Defined.

Lemma streaming_fee_inflation_witness :
  exists m, getStreamingFeeInflationAmount (10 ^ 16) (10 ^ 20) = Ok m /\ 0 <= m /\
    m * PRECISE_UNIT <= 10 ^ 16 * (10 ^ 20 + m) /\
    10 ^ 16 * (10 ^ 20 + (m + 1)) < (m + 1) * PRECISE_UNIT.
Proof.
  apply (streaming_fee_inflation_share (10 ^ 16) (10 ^ 20)); [|lia].
  split; [lia|]. vm_compute. reflexivity.
Defined.

Definition sample_fee_state : StreamingFeeState :=
  mkStreamingFeeState ADDRESS_ZERO (10 ^ 16) (10 ^ 17) 0.

Lemma getStreamingFee_witness :
  0 <= 0 <= 10 ^ 16 /\ (5 = 5 -> 0 = 0) /\
  (ONE_YEAR_IN_SECONDS + 5 - 5 <= ONE_YEAR_IN_SECONDS -> 10 ^ 16 <= 10 ^ 16).
Proof.
  apply (getStreamingFee_linear (fun _ => Ok sample_fee_state) ADDRESS_ZERO sample_fee_state
    5 5 (ONE_YEAR_IN_SECONDS + 5) None 0 (10 ^ 16));
    [reflexivity | vm_compute; discriminate | vm_compute; split; discriminate
    | vm_compute; reflexivity | vm_compute; reflexivity].
Defined.
