(* ===== verification/SafeMath.v ===== *)
(** * OpenZeppelin arithmetic

    The contracts use three libraries of the OpenZeppelin package: [SafeMath]
    on [uint256], [SignedSafeMath] on [int256], and [SafeCast]. The package is
    third-party code, so the interface states what it documents: each operation
    returns the exact result when that fits the type and reverts otherwise, and
    division reverts on zero. [oz_ref] is a concrete instance. *)

From S2P Require Import Prelude.
From Stdlib Require Import String.

Local Open Scope Z_scope.

Definition is_uint256 (z : Z) : bool := (0 <=? z) && (z <? 2 ^ 256).
Definition is_int256 (z : Z) : bool := (- 2 ^ 255 <=? z) && (z <? 2 ^ 255).

(** Wrap-around of the language's own operators. *)
Definition wrap_uint256 (z : Z) : Z := z mod 2 ^ 256.
Definition wrap_int256 (z : Z) : Z := (z + 2 ^ 255) mod 2 ^ 256 - 2 ^ 255.

(** The exact result if it fits the type, a revert otherwise. *)
Definition fits_uint256 (z : Z) : result Z :=
  if is_uint256 z then Ok z else Throw "SafeMath".
Definition fits_int256 (z : Z) : result Z :=
  if is_int256 z then Ok z else Throw "SignedSafeMath".

Definition same_outcome {A} (x y : result A) : Prop :=
  match x, y with Ok a, Ok b => a = b | Throw _, Throw _ => True | _, _ => False end.

Class OpenZeppelin := {
  sm_add : Z -> Z -> result Z;
  sm_sub : Z -> Z -> result Z;
  sm_mul : Z -> Z -> result Z;
  sm_div : Z -> Z -> result Z;
  ssm_add : Z -> Z -> result Z;
  ssm_mul : Z -> Z -> result Z;
  ssm_div : Z -> Z -> result Z;
  toUint256 : Z -> result Z;
  toInt256 : Z -> result Z;
  sm_add_law a b : is_uint256 a -> is_uint256 b -> same_outcome (sm_add a b) (fits_uint256 (a + b));
  sm_sub_law a b : is_uint256 a -> is_uint256 b -> same_outcome (sm_sub a b) (fits_uint256 (a - b));
  sm_mul_law a b : is_uint256 a -> is_uint256 b -> same_outcome (sm_mul a b) (fits_uint256 (a * b));
  sm_div_law a b : is_uint256 a -> is_uint256 b ->
    same_outcome (sm_div a b) (if b =? 0 then Throw "SafeMath: division by zero" else Ok (a / b));
  ssm_add_law a b : is_int256 a -> is_int256 b -> same_outcome (ssm_add a b) (fits_int256 (a + b));
  ssm_mul_law a b : is_int256 a -> is_int256 b -> same_outcome (ssm_mul a b) (fits_int256 (a * b));
  ssm_div_law a b : is_int256 a -> is_int256 b ->
    same_outcome (ssm_div a b)
      (if b =? 0 then Throw "SignedSafeMath: division by zero" else fits_int256 (a ÷ b));
  toUint256_law a : is_int256 a -> same_outcome (toUint256 a) (fits_uint256 a);
  toInt256_law a : is_uint256 a -> same_outcome (toInt256 a) (fits_int256 a);
}.

Lemma same_outcome_refl {A} (x : result A) : same_outcome x x.
Proof. by destruct x. Qed.

Lemma same_outcome_Ok {A} (x : result A) a : same_outcome x (Ok a) <-> x = Ok a.
Proof. destruct x; cbn; split; (done || congruence). Qed.

Lemma same_outcome_bind {A B} (x y : result A) (f g : A -> result B) :
  same_outcome x y -> (forall a, x = Ok a -> same_outcome (f a) (g a)) ->
  same_outcome (x ≫= f) (y ≫= g).
Proof. destruct x, y; cbn; try done. intros -> H. by apply H. Qed.

Lemma same_outcome_trans {A} (x y z : result A) :
  same_outcome x y -> same_outcome y z -> same_outcome x z.
Proof. destruct x, y, z; cbn; (congruence || done). Qed.

#[export] Instance same_outcome_equivalence {A} : Equivalence (@same_outcome A).
Proof.
  split.
  - intros x. apply same_outcome_refl.
  - intros [] []; cbn; (congruence || done).
  - intros x y z. apply same_outcome_trans.
Qed.

(** Two runs with the same outcome can be exchanged in front of a continuation. *)
#[export] Instance same_outcome_bind_proper {A B} (f : A -> result B) :
  Proper (same_outcome ==> same_outcome) (mbind f : result A -> result B).
Proof. intros x y H. by apply same_outcome_bind. Qed.

Lemma is_uint256_spec z : is_uint256 z <-> 0 <= z < 2 ^ 256.
Proof. unfold is_uint256. rewrite Is_true_true, andb_true_iff, Z.leb_le, Z.ltb_lt. done. Qed.

Lemma is_int256_spec z : is_int256 z <-> - 2 ^ 255 <= z < 2 ^ 255.
Proof. unfold is_int256. rewrite Is_true_true, andb_true_iff, Z.leb_le, Z.ltb_lt. done. Qed.

Lemma fits_uint256_Ok z : 0 <= z < 2 ^ 256 -> fits_uint256 z = Ok z.
Proof. intros H%is_uint256_spec. unfold fits_uint256. by destruct (is_uint256 z). Qed.

Lemma fits_int256_Ok z : - 2 ^ 255 <= z < 2 ^ 255 -> fits_int256 z = Ok z.
Proof. intros H%is_int256_spec. unfold fits_int256. by destruct (is_int256 z). Qed.

Lemma fits_uint256_inv z r : fits_uint256 z = Ok r -> r = z /\ 0 <= z < 2 ^ 256.
Proof.
  unfold fits_uint256. destruct (is_uint256 z) eqn:E; [|done]. intros [= <-].
  split; [done|]. by apply is_uint256_spec, Is_true_true.
Qed.

Lemma fits_int256_inv z r : fits_int256 z = Ok r -> r = z /\ - 2 ^ 255 <= z < 2 ^ 255.
Proof.
  unfold fits_int256. destruct (is_int256 z) eqn:E; [|done]. intros [= <-].
  split; [done|]. by apply is_int256_spec, Is_true_true.
Qed.

#[refine, export] Instance oz_ref : OpenZeppelin := {|
  sm_add := fun a b => fits_uint256 (a + b);
  sm_sub := fun a b => fits_uint256 (a - b);
  sm_mul := fun a b => fits_uint256 (a * b);
  sm_div := fun a b => if b =? 0 then Throw "SafeMath: division by zero" else Ok (a / b);
  ssm_add := fun a b => fits_int256 (a + b);
  ssm_mul := fun a b => fits_int256 (a * b);
  ssm_div := fun a b =>
    if b =? 0 then Throw "SignedSafeMath: division by zero" else fits_int256 (a ÷ b);
  toUint256 := fits_uint256;
  toInt256 := fits_int256 |}.
Proof. all: intros; apply same_outcome_refl. Defined.
