(* ===== verification/PreciseUnitMath.v ===== *)
(** * The contract's fixed-point library

    [contracts/lib/PreciseUnitMath.sol], on [uint256] and [int256] values kept
    as integers in range. The overloads on [int256] carry the suffix [Int].
    The theorems relate it to [utils/common/mathUtils.ts]: the TypeScript
    functions compute what the contract returns whenever it does not revert. *)

From S2P Require Import Prelude JsString Ethers Constants MathUtils SafeMath.
From Stdlib Require Import String.

Local Open Scope Z_scope.

Section PreciseUnitMath.
Context `{OZ : OpenZeppelin}.

Definition preciseMul (a b : Z) : result Z := m ← sm_mul a b; sm_div m PRECISE_UNIT.

Definition preciseMulInt (a b : Z) : result Z := m ← ssm_mul a b; ssm_div m PRECISE_UNIT.

Definition preciseMulCeil (a b : Z) : result Z :=
  if (a =? 0) || (b =? 0) then Ok 0
  else m ← sm_mul a b; s ← sm_sub m 1; q ← sm_div s PRECISE_UNIT; sm_add q 1.

Definition preciseDiv (a b : Z) : result Z := m ← sm_mul a PRECISE_UNIT; sm_div m b.

Definition preciseDivInt (a b : Z) : result Z := m ← ssm_mul a PRECISE_UNIT; ssm_div m b.

Definition preciseDivCeil (a b : Z) : result Z :=
  _ ← require (negb (b =? 0)) "Cant divide by 0";
  if 0 <? a then
    m ← sm_mul a PRECISE_UNIT; s ← sm_sub m 1; q ← sm_div s b; sm_add q 1
  else Ok 0.

(** [%] on [int256] has the sign of the dividend; [++] and [--] wrap. *)
Definition preciseDivCeilInt (a b : Z) : result Z :=
  _ ← require (negb (b =? 0)) "Cant divide by 0";
  a' ← ssm_mul a PRECISE_UNIT;
  c ← ssm_div a' b;
  Ok (if negb (Z.rem a' b =? 0) then
        if 0 <? Z.lxor a' b then wrap_int256 (c + 1) else wrap_int256 (c - 1)
      else c).

Definition divDown (a b : Z) : result Z :=
  _ ← require (negb (b =? 0)) "Cant divide by 0";
  _ ← require (negb (a =? MIN_INT_256) || negb (b =? -1)) "Invalid input";
  res ← ssm_div a b;
  Ok (if (Z.lxor a b <? 0) && negb (Z.rem a b =? 0) then wrap_int256 (res - 1) else res).

Definition conservativePreciseMul (a b : Z) : result Z :=
  m ← ssm_mul a b; divDown m PRECISE_UNIT.

Definition conservativePreciseDiv (a b : Z) : result Z :=
  m ← ssm_mul a PRECISE_UNIT; divDown m b.

(** The loop of [safePower]: [pow] multiplications. *)
Fixpoint safePower_loop (pow : nat) (a acc : Z) : result Z :=
  match pow with
  | O => Ok acc
  | S pow' => acc' ← sm_mul acc a; safePower_loop pow' a acc'
  end.

Definition safePower (a pow : Z) : result Z :=
  _ ← require (0 <? a) "Value must be positive";
  safePower_loop (Z.to_nat pow) a 1.

Definition approximatelyEquals (a b range : Z) : result bool :=
  hi ← sm_add b range;
  if a <=? hi then lo ← sm_sub b range; Ok (lo <=? a) else Ok false.

Definition abs (a : Z) : result Z :=
  if 0 <=? a then toUint256 a else n ← ssm_mul a (-1); toUint256 n.

Definition neg (a : Z) : result Z :=
  _ ← require (MIN_INT_256 <? a) "Inversion overflow";
  Ok (- a).

(** ** Equations *)

Lemma PRECISE_UNIT_uint256 : is_uint256 PRECISE_UNIT.
Proof. by vm_compute. Qed.

Lemma PRECISE_UNIT_int256 : is_int256 PRECISE_UNIT.
Proof. by vm_compute. Qed.

Lemma sm_mul_spec a b : is_uint256 a -> is_uint256 b ->
  (exists e, sm_mul a b = Throw e /\ 2 ^ 256 <= a * b) \/
  (sm_mul a b = Ok (a * b) /\ is_uint256 (a * b)).
Proof.
  intros Ha Hb. pose proof (sm_mul_law a b Ha Hb) as H.
  apply is_uint256_spec in Ha, Hb. unfold fits_uint256 in H.
  destruct (is_uint256 (a * b)) eqn:E.
  - right. apply same_outcome_Ok in H. split; [done|]. done.
  - left. destruct (sm_mul a b) as [|e]; [done|]. exists e. split; [done|].
    unfold is_uint256 in E. apply andb_false_iff in E as [E|E]; lia.
Qed.

Lemma sm_mul_Ok a b : is_uint256 a -> is_uint256 b -> a * b < 2 ^ 256 -> sm_mul a b = Ok (a * b).
Proof. intros Ha Hb H. destruct (sm_mul_spec a b Ha Hb) as [(e & _ & ?)|[-> _]]; [lia|done]. Qed.

Lemma sm_div_spec a b : is_uint256 a -> is_uint256 b -> b <> 0 -> sm_div a b = Ok (a / b).
Proof.
  intros Ha Hb Hn. pose proof (sm_div_law a b Ha Hb) as H.
  destruct (Z.eqb_spec b 0); [done|]. by apply same_outcome_Ok in H.
Qed.

Lemma sm_div_zero a : is_uint256 a -> is_Ok (sm_div a 0) = false.
Proof. intros Ha. pose proof (sm_div_law a 0 Ha ltac:(done)) as H. by destruct (sm_div a 0). Qed.

Lemma sm_sub_Ok a b : is_uint256 a -> is_uint256 b -> b <= a -> sm_sub a b = Ok (a - b).
Proof.
  intros Ha Hb Hle. pose proof (sm_sub_law a b Ha Hb) as H.
  apply is_uint256_spec in Ha, Hb. rewrite fits_uint256_Ok in H by lia.
  by apply same_outcome_Ok in H.
Qed.

Lemma sm_add_Ok a b : is_uint256 a -> is_uint256 b -> a + b < 2 ^ 256 -> sm_add a b = Ok (a + b).
Proof.
  intros Ha Hb Hle. pose proof (sm_add_law a b Ha Hb) as H.
  apply is_uint256_spec in Ha, Hb. rewrite fits_uint256_Ok in H by lia.
  by apply same_outcome_Ok in H.
Qed.

Lemma ssm_add_inv a b r : is_int256 a -> is_int256 b -> ssm_add a b = Ok r ->
  r = a + b /\ is_int256 (a + b).
Proof.
  intros Ha Hb E. pose proof (ssm_add_law a b Ha Hb) as H. rewrite E in H.
  destruct (fits_int256 (a + b)) as [x|] eqn:F; [|done]. cbn in H. subst x.
  apply fits_int256_inv in F as [-> F]. split; [done|]. by apply is_int256_spec.
Qed.

Lemma ssm_mul_inv a b r : is_int256 a -> is_int256 b -> ssm_mul a b = Ok r ->
  r = a * b /\ is_int256 (a * b).
Proof.
  intros Ha Hb E. pose proof (ssm_mul_law a b Ha Hb) as H. rewrite E in H.
  destruct (fits_int256 (a * b)) as [x|] eqn:F; [|done]. cbn in H. subst x.
  apply fits_int256_inv in F as [-> F]. split; [done|]. by apply is_int256_spec.
Qed.

Lemma ssm_div_inv a b r : is_int256 a -> is_int256 b -> ssm_div a b = Ok r ->
  b <> 0 /\ r = a ÷ b /\ is_int256 r.
Proof.
  intros Ha Hb E. pose proof (ssm_div_law a b Ha Hb) as H. rewrite E in H.
  destruct (Z.eqb_spec b 0); [done|].
  destruct (fits_int256 (a ÷ b)) as [x|] eqn:F; [|done]. cbn in H. subst x.
  apply fits_int256_inv in F as [-> F]. split_and!; [done..|]. by apply is_int256_spec.
Qed.

Lemma toUint256_Ok a r : is_int256 a -> toUint256 a = Ok r -> r = a /\ 0 <= a.
Proof.
  intros Ha Q. pose proof (toUint256_law a Ha) as L. rewrite Q in L.
  destruct (fits_uint256 a) eqn:F; [|done]. cbn in L. subst.
  apply fits_uint256_inv in F as [-> ?]. lia.
Qed.

Lemma toInt256_Ok u v : is_uint256 u -> toInt256 u = Ok v -> v = u /\ is_int256 u.
Proof.
  intros Hu Q. pose proof (toInt256_law u Hu) as L. rewrite Q in L.
  destruct (fits_int256 u) eqn:F; [|done]. cbn in L. subst.
  apply fits_int256_inv in F as [-> HF]. split; [done|]. by apply is_int256_spec.
Qed.

Lemma sm_mul_inv a b r : is_uint256 a -> is_uint256 b -> sm_mul a b = Ok r -> r = a * b /\ is_uint256 r.
Proof.
  intros Ha Hb Q. destruct (sm_mul_spec a b Ha Hb) as [(e & E & _)|[E H]]; rewrite E in Q; [done|].
  by apply Ok_inj in Q as <-.
Qed.

Lemma sm_div_inv a b r : is_uint256 a -> is_uint256 b -> sm_div a b = Ok r -> r = a / b /\ b <> 0.
Proof.
  intros Ha Hb Q. destruct (decide (b = 0)) as [->|H0].
  - pose proof (sm_div_zero a Ha) as H. by rewrite Q in H.
  - rewrite (sm_div_spec a b Ha Hb H0) in Q. by apply Ok_inj in Q as <-.
Qed.

Lemma toUint256_defined a : is_int256 a -> 0 <= a -> toUint256 a = Ok a.
Proof.
  intros Ha H0. pose proof (toUint256_law a Ha) as L. apply is_int256_spec in Ha.
  rewrite fits_uint256_Ok in L by (change (2 ^ 256) with (2 * 2 ^ 255); lia). by apply same_outcome_Ok in L.
Qed.

Lemma toInt256_defined a : is_uint256 a -> a < 2 ^ 255 -> toInt256 a = Ok a.
Proof.
  intros Ha H0. pose proof (toInt256_law a Ha) as L. apply is_uint256_spec in Ha.
  rewrite fits_int256_Ok in L by lia. by apply same_outcome_Ok in L.
Qed.

Lemma preciseMul_defined a b : is_uint256 a -> is_uint256 b -> a * b < 2 ^ 256 ->
  preciseMul a b = Ok (a * b / PRECISE_UNIT).
Proof.
  intros Ha Hb H. unfold preciseMul. rewrite sm_mul_Ok by done. rewrite bind_Ok.
  apply sm_div_spec; [|apply PRECISE_UNIT_uint256|apply PRECISE_UNIT_neq_0].
  apply is_uint256_spec in Ha, Hb. apply is_uint256_spec. split; [|done]. apply Z.mul_nonneg_nonneg; lia.
Qed.

Lemma preciseMulInt_Ok a b r : is_int256 a -> is_int256 b -> preciseMulInt a b = Ok r ->
  r = a * b ÷ PRECISE_UNIT /\ is_int256 r.
Proof.
  intros Ha Hb Q. unfold preciseMulInt in Q. apply bind_Ok_inv in Q as (m & Qm & Q).
  apply ssm_mul_inv in Qm as [-> Hm]; [|done..].
  apply ssm_div_inv in Q as (_ & -> & Hr); [done|done|apply PRECISE_UNIT_int256].
Qed.

Lemma preciseDivInt_Ok a b r : is_int256 a -> is_int256 b -> preciseDivInt a b = Ok r ->
  b <> 0 /\ r = a * PRECISE_UNIT ÷ b /\ is_int256 r.
Proof.
  intros Ha Hb Q. unfold preciseDivInt in Q. apply bind_Ok_inv in Q as (m & Qm & Q).
  apply ssm_mul_inv in Qm as [-> Hm]; [|done|apply PRECISE_UNIT_int256]. by apply ssm_div_inv in Q.
Qed.

(** A ceiling computed as [(n - 1) / d + 1] on a positive [uint256]. *)
Lemma ceil_steps n d : is_uint256 n -> is_uint256 d -> 0 < n -> 0 < d ->
  (s ← sm_sub n 1; q ← sm_div s d; sm_add q 1) = Ok (cdiv n d).
Proof.
  intros Hn Hd Hn0 Hd0. assert (H1 : is_uint256 1) by done.
  pose proof Hn as Hn'. apply is_uint256_spec in Hn'.
  rewrite sm_sub_Ok, bind_Ok by (done || lia).
  rewrite sm_div_spec, bind_Ok by (done || lia || apply is_uint256_spec; lia).
  assert (0 <= (n - 1) / d <= n - 1)
    by (split; [apply Z.div_pos; lia | apply Z.div_le_upper_bound; nia]).
  rewrite sm_add_Ok by (done || lia || apply is_uint256_spec; lia).
  f_equal. rewrite <- quot_nonneg by lia. apply quot_pred_succ_cdiv; lia.
Qed.

End PreciseUnitMath.

(** ** Agreement with [utils/common/mathUtils.ts] *)

Section Agreement.
Context `{OZ : OpenZeppelin} `{BN : BigNumber}.

(** The TypeScript value where an exact intermediate fits, a revert elsewhere. *)
Definition guarded (fits : bool) (ts : result Z) : result Z :=
  if fits then ts else Throw "overflow".

Lemma guarded_true ts : guarded true ts = ts.
Proof. reflexivity. Qed.

Lemma mul_agree a b (k k' : Z -> result Z) : is_uint256 a -> is_uint256 b ->
  (is_uint256 (a * b) -> same_outcome (k (a * b)) (k' (a * b))) ->
  same_outcome (sm_mul a b ≫= k) (if a * b <? 2 ^ 256 then k' (a * b) else Throw "overflow").
Proof.
  intros Ha Hb Hk. destruct (sm_mul_spec a b Ha Hb) as [(e & -> & Hov)|(-> & Hfit)].
  - case_Z; [lia|done].
  - pose proof Hfit as Hfit'. apply is_uint256_spec in Hfit'.
    case_Z; [|lia]. rewrite bind_Ok. auto.
Qed.

Lemma preciseMul_agree a b : is_uint256 a -> is_uint256 b ->
  same_outcome (preciseMul a b) (guarded (a * b <? 2 ^ 256) (MathUtils.preciseMul a b)).
Proof.
  intros Ha Hb. rewrite MathUtils.preciseMul_eq.
  apply (mul_agree a b _ (fun m => Ok (m ÷ PRECISE_UNIT)) Ha Hb). intros Hm.
  rewrite sm_div_spec by (auto using PRECISE_UNIT_uint256 with arith_lib).
  apply is_uint256_spec in Hm. by rewrite quot_nonneg by (lia || auto with arith_lib).
Qed.

Lemma preciseDiv_agree a b : is_uint256 a -> is_uint256 b ->
  same_outcome (preciseDiv a b)
    (guarded (a * PRECISE_UNIT <? 2 ^ 256) (MathUtils.preciseDiv a b)).
Proof.
  intros Ha Hb. unfold preciseDiv, MathUtils.preciseDiv. bn_simpl.
  apply (mul_agree a PRECISE_UNIT _ (fun m => bn_div m b) Ha PRECISE_UNIT_uint256). intros Hm.
  destruct (decide (b = 0)) as [->|Hb0].
  - pose proof (sm_div_zero (a * PRECISE_UNIT) Hm).
    pose proof (bn_div_zero (a * PRECISE_UNIT)).
    by destruct (sm_div _ 0), (bn_div _ 0).
  - rewrite sm_div_spec, bn_div_law by done.
    apply is_uint256_spec in Hm, Hb. by rewrite quot_nonneg by lia.
Qed.

Lemma preciseMulCeil_agree a b : is_uint256 a -> is_uint256 b ->
  same_outcome (preciseMulCeil a b) (guarded (a * b <? 2 ^ 256) (MathUtils.preciseMulCeil a b)).
Proof.
  intros Ha Hb. pose proof Ha as Ha'. pose proof Hb as Hb'.
  apply is_uint256_spec in Ha', Hb'.
  rewrite MathUtils.preciseMulCeil_nonneg_eq by lia. unfold preciseMulCeil.
  destruct (Z.eqb_spec a 0) as [->|]; cbn [orb]; [by rewrite cdiv_0_l by auto with arith_lib|].
  destruct (Z.eqb_spec b 0) as [->|]; cbn [orb].
  { rewrite Z.mul_0_r. by rewrite cdiv_0_l by auto with arith_lib. }
  apply (mul_agree a b _ (fun m => Ok (cdiv m PRECISE_UNIT)) Ha Hb). intros Hm.
  rewrite ceil_steps; [reflexivity | done | apply PRECISE_UNIT_uint256 | nia | apply PRECISE_UNIT_pos].
Qed.

Lemma preciseDivCeil_agree a b : is_uint256 a -> is_uint256 b -> b <> 0 ->
  same_outcome (preciseDivCeil a b)
    (guarded (a * PRECISE_UNIT <? 2 ^ 256) (MathUtils.preciseDivCeil a b)).
Proof.
  intros Ha Hb Hb0. pose proof Ha as Ha'. pose proof Hb as Hb'. pose proof PRECISE_UNIT_pos.
  apply is_uint256_spec in Ha', Hb'.
  rewrite MathUtils.preciseDivCeil_nonneg_eq by lia. unfold preciseDivCeil.
  destruct (Z.eqb_spec b 0); [done|]. cbn [negb]. rewrite require_true, bind_Ok.
  case_Z; [|replace a with 0 by lia; by rewrite cdiv_0_l by lia].
  apply (mul_agree a PRECISE_UNIT _ (fun m => Ok (cdiv m b)) Ha PRECISE_UNIT_uint256). intros Hm.
  rewrite ceil_steps; [reflexivity | done | done | nia | lia].
Qed.

(** ** Soundness: a contract operation that returns has the TypeScript value,
    and its result is a [uint256]. *)

Lemma guarded_Ok_inv c ts (x : result Z) r :
  same_outcome x (guarded c ts) -> x = Ok r -> c = true /\ ts = Ok r.
Proof. intros H ->. destruct c; [|done]. destruct ts; cbn in H; [by subst|done]. Qed.

Lemma preciseMul_sound a b r : is_uint256 a -> is_uint256 b -> preciseMul a b = Ok r ->
  MathUtils.preciseMul a b = Ok r /\ is_uint256 r.
Proof.
  intros Ha Hb E. apply (guarded_Ok_inv _ _ _ _ (preciseMul_agree a b Ha Hb)) in E as [Hf E].
  split; [done|]. rewrite MathUtils.preciseMul_eq in E. injection E as <-.
  apply is_uint256_spec in Ha, Hb. apply is_uint256_spec. pose proof PRECISE_UNIT_pos.
  pose proof (quot_floor_bounds (a * b) PRECISE_UNIT ltac:(nia) PRECISE_UNIT_pos).
  pose proof (quot_nonneg_result (a * b) PRECISE_UNIT ltac:(nia) PRECISE_UNIT_pos). nia.
Qed.

Lemma preciseDiv_sound a b r : is_uint256 a -> is_uint256 b -> preciseDiv a b = Ok r ->
  MathUtils.preciseDiv a b = Ok r /\ is_uint256 r /\ b <> 0.
Proof.
  intros Ha Hb E. apply (guarded_Ok_inv _ _ _ _ (preciseDiv_agree a b Ha Hb)) in E as [Hf E].
  destruct (decide (b = 0)) as [->|Hb0].
  { pose proof (MathUtils.preciseDiv_zero a) as Hz. by rewrite E in Hz. }
  split; [done|]. rewrite MathUtils.preciseDiv_eq in E by done. injection E as <-.
  apply is_uint256_spec in Ha, Hb. split; [|done]. apply is_uint256_spec.
  pose proof PRECISE_UNIT_pos.
  pose proof (quot_floor_bounds (a * PRECISE_UNIT) b ltac:(nia) ltac:(lia)).
  pose proof (quot_nonneg_result (a * PRECISE_UNIT) b ltac:(nia) ltac:(lia)). nia.
Qed.

Lemma preciseMul_Ok a b r : is_uint256 a -> is_uint256 b -> preciseMul a b = Ok r ->
  r = a * b / PRECISE_UNIT /\ is_uint256 r.
Proof.
  intros Ha Hb Q. apply preciseMul_sound in Q as [Q U]; [|done..]. apply is_uint256_spec in Ha, Hb.
  rewrite MathUtils.preciseMul_nonneg_eq in Q by lia. by apply Ok_inj in Q as <-.
Qed.

Lemma preciseDiv_Ok a b r : is_uint256 a -> is_uint256 b -> preciseDiv a b = Ok r ->
  0 < b /\ r = a * PRECISE_UNIT / b /\ is_uint256 r.
Proof.
  intros Ha Hb Q. apply preciseDiv_sound in Q as (Q & U & N); [|done..]. apply is_uint256_spec in Ha, Hb.
  rewrite MathUtils.preciseDiv_nonneg_eq in Q by lia. apply Ok_inj in Q as <-. split; [lia|done].
Qed.

Lemma preciseMulCeil_sound a b r : is_uint256 a -> is_uint256 b -> preciseMulCeil a b = Ok r ->
  MathUtils.preciseMulCeil a b = Ok r.
Proof.
  intros Ha Hb E. by apply (guarded_Ok_inv _ _ _ _ (preciseMulCeil_agree a b Ha Hb)) in E as [_ E].
Qed.

Lemma sm_sub_inv a b r : is_uint256 a -> is_uint256 b -> sm_sub a b = Ok r ->
  r = a - b /\ is_uint256 r.
Proof.
  intros Ha Hb E. pose proof (sm_sub_law a b Ha Hb) as H. rewrite E in H.
  destruct (fits_uint256 (a - b)) as [x|] eqn:F; [|done]. cbn in H. subst x.
  apply fits_uint256_inv in F as [-> F]. split; [done|]. by apply is_uint256_spec.
Qed.

Lemma sm_add_inv a b r : is_uint256 a -> is_uint256 b -> sm_add a b = Ok r ->
  r = a + b /\ is_uint256 r.
Proof.
  intros Ha Hb E. pose proof (sm_add_law a b Ha Hb) as H. rewrite E in H.
  destruct (fits_uint256 (a + b)) as [x|] eqn:F; [|done]. cbn in H. subst x.
  apply fits_uint256_inv in F as [-> F]. split; [done|]. by apply is_uint256_spec.
Qed.

Lemma preciseMulCeil_uint256 a b r : is_uint256 a -> is_uint256 b -> preciseMulCeil a b = Ok r -> is_uint256 r.
Proof.
  intros Ha Hb Q. unfold preciseMulCeil in Q. destruct ((a =? 0) || (b =? 0)); [by apply Ok_inj in Q as <-|].
  apply bind_Ok_inv in Q as (m & Qm & Q). apply bind_Ok_inv in Q as (s & Qs & Q).
  apply bind_Ok_inv in Q as (q & Qq & Q). apply sm_mul_inv in Qm as [-> Um]; [|done..].
  apply sm_sub_inv in Qs as [-> Us]; [|done..].
  apply sm_div_inv in Qq as [-> _]; [|done|apply PRECISE_UNIT_uint256].
  apply sm_add_inv in Q as [_ Ur]; [done| |done]. apply is_uint256_spec in Us. apply is_uint256_spec.
  pose proof PRECISE_UNIT_pos as HP. revert Us. generalize (a * b - 1). intros z Hz.
  pose proof (Z.div_pos z PRECISE_UNIT (proj1 Hz) HP).
  pose proof (Z.div_le_upper_bound z PRECISE_UNIT z HP ltac:(nia)). lia.
Qed.

Lemma mulCeil_Ok a b r : is_uint256 a -> is_uint256 b -> preciseMulCeil a b = Ok r ->
  r = cdiv (a * b) PRECISE_UNIT /\ is_uint256 r.
Proof.
  intros Ha Hb Q. pose proof (preciseMulCeil_uint256 _ _ _ Ha Hb Q) as U. apply preciseMulCeil_sound in Q; [|done..].
  apply is_uint256_spec in Ha, Hb. rewrite MathUtils.preciseMulCeil_nonneg_eq in Q by lia. by apply Ok_inj in Q as <-.
Qed.

(** C31: On [uint256] inputs the contract's unsigned operations and the
    TypeScript ones have the same outcome whenever the scaled product fits 256
    bits, and the contract reverts otherwise; for [preciseDivCeil] the divisor
    must not be zero. *)
Theorem unsigned_agreement a b : is_uint256 a -> is_uint256 b ->
  same_outcome (preciseMul a b) (guarded (a * b <? 2 ^ 256) (MathUtils.preciseMul a b)) /\
  same_outcome (preciseMulCeil a b)
    (guarded (a * b <? 2 ^ 256) (MathUtils.preciseMulCeil a b)) /\
  same_outcome (preciseDiv a b)
    (guarded (a * PRECISE_UNIT <? 2 ^ 256) (MathUtils.preciseDiv a b)) /\
  (b <> 0 -> same_outcome (preciseDivCeil a b)
    (guarded (a * PRECISE_UNIT <? 2 ^ 256) (MathUtils.preciseDivCeil a b))).
Proof.
  auto using preciseMul_agree, preciseMulCeil_agree, preciseDiv_agree, preciseDivCeil_agree.
Qed.

(** Dividing by zero with [preciseDivCeil] is where the two sides part: the
    contract reverts for every numerator, the TypeScript helper returns zero. *)
Theorem preciseDivCeil_zero_divisor_divergence a :
  is_Ok (preciseDivCeil a 0) = false /\ MathUtils.preciseDivCeil a 0 = Ok 0.
Proof.
  split; [reflexivity|]. unfold MathUtils.preciseDivCeil. bn_simpl.
  rewrite Z.eqb_refl, orb_true_r. reflexivity.
Qed.

(** A scaled [int256] is never the minimum, so its division cannot overflow. *)
Lemma scaled_neq_min a : a * PRECISE_UNIT <> - 2 ^ 255.
Proof.
  intros E. assert (F : (a * PRECISE_UNIT) mod 5 = (- 2 ^ 255) mod 5) by congruence.
  rewrite Z.mul_mod in F by lia. replace (PRECISE_UNIT mod 5) with 0 in F by (vm_compute; reflexivity).
  rewrite Z.mul_0_r in F. vm_compute in F. discriminate.
Qed.

Lemma quot_abs_le a b : b <> 0 -> Z.abs (a ÷ b) <= Z.abs a.
Proof.
  intros. rewrite <- Z.quot_abs by done.
  rewrite quot_nonneg by lia. apply Z.div_le_upper_bound; [lia|].
  pose proof (Z.abs_nonneg a). nia.
Qed.

Lemma quot_int256 a b : is_int256 a -> is_int256 b -> b <> 0 ->
  (a <> - 2 ^ 255 \/ b <> -1) -> is_int256 (a ÷ b).
Proof.
  intros Ha Hb Hb0 Hmin. apply is_int256_spec in Ha, Hb. apply is_int256_spec.
  pose proof (quot_abs_le a b Hb0).
  destruct (decide (a ÷ b = 2 ^ 255)) as [E|E]; [|lia]. exfalso.
  assert (Ea : a = - 2 ^ 255) by lia.
  pose proof (Z.quot_rem' a b) as Hq. pose proof (Z.rem_bound_abs a b Hb0).
  rewrite E in Hq. assert (b = -1) by lia. tauto.
Qed.

Lemma ssm_div_Ok a b : is_int256 a -> is_int256 b -> b <> 0 ->
  (a <> - 2 ^ 255 \/ b <> -1) -> ssm_div a b = Ok (a ÷ b).
Proof.
  intros Ha Hb Hb0 Hmin. pose proof (ssm_div_law a b Ha Hb) as H.
  pose proof (quot_int256 a b Ha Hb Hb0 Hmin) as Hf. apply is_int256_spec in Hf.
  destruct (Z.eqb_spec b 0); [done|]. rewrite fits_int256_Ok in H by done.
  by apply same_outcome_Ok in H.
Qed.

(** Inexact quotients leave room for a correction by one. *)
Lemma wrap_correction a b d : is_int256 a -> b <> 0 -> Z.rem a b <> 0 -> Z.abs d <= 1 ->
  wrap_int256 (a ÷ b + d) = a ÷ b + d.
Proof.
  intros Ha Hb Hr Hd. apply is_int256_spec in Ha. unfold wrap_int256.
  assert (Hb2 : 2 <= Z.abs b).
  { pose proof (Z.rem_bound_abs a b Hb). lia. }
  assert (Hh : Z.abs (a ÷ b) <= 2 ^ 254).
  { rewrite <- Z.quot_abs, quot_nonneg by lia. apply Z.div_le_upper_bound; [lia|].
    change (2 ^ 255) with (2 * 2 ^ 254) in Ha. nia. }
  change (2 ^ 255) with (2 * 2 ^ 254) in *. change (2 ^ 256) with (4 * 2 ^ 254).
  rewrite Z.mod_small; lia.
Qed.

Lemma lxor_neg_iff a b : Z.lxor a b < 0 <-> (a < 0 <-> 0 <= b).
Proof. pose proof (Z.lxor_nonneg a b). lia. Qed.

(** The xor sign test selects the floor. *)
Lemma divDown_correction a b : is_int256 a -> b <> 0 ->
  (if (Z.lxor a b <? 0) && negb (Z.rem a b =? 0) then wrap_int256 (a ÷ b - 1) else a ÷ b)
  = a / b.
Proof.
  intros Ha Hb0. rewrite MathUtils.floor_of_quot by done.
  destruct (Z.eqb_spec (Z.rem a b) 0) as [Hr|Hr].
  { rewrite andb_false_r. case_decide as D; [tauto|done]. }
  assert (a <> 0) by (intros ->; apply Hr; by apply Z.rem_0_l).
  pose proof (lxor_neg_iff a b) as Hx. rewrite andb_true_r.
  destruct (Z.ltb_spec (Z.lxor a b) 0) as [Hl|Hl].
  - replace (a ÷ b - 1) with (a ÷ b + -1) by lia. rewrite wrap_correction by (done || lia).
    case_decide as D; [lia|]. exfalso. apply D. split; [|done].
    destruct (decide (0 < a)); [assert (b < 0) by lia | assert (0 < b) by lia]; nia.
  - case_decide as D; [|done]. exfalso. destruct D as [D1 D2].
    destruct (decide (0 < a)); [assert (0 <= b) by lia | assert (b < 0) by lia]; nia.
Qed.

(** [divDown] of the contract and of [mathUtils.ts] have the same outcome
    on all [int256] inputs but the one quotient that does not fit
    ([type(int256).min / -1]), where the contract reverts: the sign test by
    xor and the non-negative [mod] of ethers select the same corrections. *)
Theorem divDown_agreement a b : is_int256 a -> is_int256 b ->
  same_outcome (divDown a b)
    (guarded (negb ((a =? MIN_INT_256) && (b =? -1))) (MathUtils.divDown a b)).
Proof.
  intros Ha Hb. pose proof (MathUtils.divDown_floor a b) as HT. unfold divDown.
  destruct (Z.eqb_spec b 0) as [->|Hb0]; cbn [negb].
  { rewrite andb_false_r. cbn. by destruct (MathUtils.divDown a 0). }
  rewrite require_true, bind_Ok, HT.
  destruct (Z.eqb_spec a MIN_INT_256) as [Ea|Ea], (Z.eqb_spec b (-1)) as [Eb|Eb];
    cbn [negb orb andb]; [done| | |];
    rewrite require_true, bind_Ok, ssm_div_Ok, bind_Ok, guarded_true
      by (done || unfold MIN_INT_256 in *; lia);
    cbn [same_outcome]; by apply divDown_correction.
Qed.

(** A successful [divDown] is the floor. *)
Lemma divDown_Ok a b r : is_int256 a -> is_int256 b -> divDown a b = Ok r ->
  b <> 0 /\ r = a / b /\ is_int256 r.
Proof.
  intros Ha Hb Q. unfold divDown in Q. inv_result.
  match goal with H : ssm_div _ _ = Ok _ |- _ => apply ssm_div_inv in H as (Hb0 & -> & Hr); [|done..] end.
  split; [done|]. split; [by apply divDown_correction|].
  case_match; [|done]. apply is_int256_spec. unfold wrap_int256.
  pose proof (Z.mod_pos_bound (a ÷ b - 1 + 2 ^ 255) (2 ^ 256) ltac:(lia)).
  change (2 ^ 256) with (2 * 2 ^ 255) in *. lia.
Qed.

Lemma divDown_floor_Ok a b : is_int256 a -> is_int256 b -> b <> 0 -> (a <> - 2 ^ 255 \/ b <> -1) ->
  divDown a b = Ok (a / b).
Proof.
  intros Ha Hb Hb0 Hm. unfold divDown. rewrite (proj2 (Z.eqb_neq b 0) Hb0).
  assert (Hg : negb (a =? MIN_INT_256) || negb (b =? -1) = true).
  { destruct Hm as [Hm%Z.eqb_neq|Hm%Z.eqb_neq]; unfold MIN_INT_256; rewrite Hm; [done|apply orb_true_r]. }
  rewrite Hg, !require_true, !bind_Ok. rewrite ssm_div_Ok by done. rewrite bind_Ok.
  by rewrite divDown_correction.
Qed.

Lemma preciseMulInt_defined a b : is_int256 a -> is_int256 b -> 0 <= a -> 0 <= b -> a * b < 2 ^ 255 ->
  preciseMulInt a b = Ok (a * b / PRECISE_UNIT).
Proof.
  intros Ha Hb H1 H2 Hp. pose proof PRECISE_UNIT_pos as HP. pose proof (Z.mul_nonneg_nonneg a b H1 H2) as H0.
  assert (Hab : is_int256 (a * b)) by (apply is_int256_spec; lia). unfold preciseMulInt.
  pose proof (ssm_mul_law a b Ha Hb) as L. rewrite fits_int256_Ok in L by lia. apply same_outcome_Ok in L as ->.
  rewrite bind_Ok, ssm_div_Ok; [by rewrite quot_nonneg|done|apply PRECISE_UNIT_int256|apply PRECISE_UNIT_neq_0|].
  right. lia.
Qed.

Lemma conservativePreciseMul_Ok a b r : is_int256 a -> is_int256 b ->
  conservativePreciseMul a b = Ok r -> r = a * b / PRECISE_UNIT /\ is_int256 r /\ is_int256 (a * b).
Proof.
  intros Ha Hb Q. unfold conservativePreciseMul in Q. apply bind_Ok_inv in Q as (m & Qm & Q).
  apply ssm_mul_inv in Qm as [-> Hm]; [|done..].
  apply divDown_Ok in Q as (_ & -> & Hr); [done|done|apply PRECISE_UNIT_int256].
Qed.

Lemma conservativePreciseMul_floor a b : is_int256 a -> is_int256 b -> is_int256 (a * b) ->
  conservativePreciseMul a b = Ok (a * b / PRECISE_UNIT).
Proof.
  intros Ha Hb Hm. unfold conservativePreciseMul.
  assert (Q : ssm_mul a b = Ok (a * b)).
  { pose proof (ssm_mul_law a b Ha Hb) as Q. apply is_int256_spec in Hm.
    rewrite fits_int256_Ok in Q by done. by apply same_outcome_Ok in Q. }
  rewrite Q, bind_Ok. apply divDown_floor_Ok; [done|apply PRECISE_UNIT_int256|apply PRECISE_UNIT_neq_0|].
  right. pose proof PRECISE_UNIT_pos. lia.
Qed.

Lemma conservativePreciseDiv_Ok a b r : is_int256 a -> is_int256 b ->
  conservativePreciseDiv a b = Ok r ->
  b <> 0 /\ r = a * PRECISE_UNIT / b /\ is_int256 r /\ is_int256 (a * PRECISE_UNIT).
Proof.
  intros Ha Hb Q. unfold conservativePreciseDiv in Q. apply bind_Ok_inv in Q as (m & Qm & Q).
  apply ssm_mul_inv in Qm as [-> Hm]; [|done|apply PRECISE_UNIT_int256].
  apply divDown_Ok in Q as (? & ? & ?); done.
Qed.
End Agreement.

(** [sol_step] consumes the next contract operation of a successful run,
    replacing it by its TypeScript value. *)
Ltac sol_step :=
  match goal with
  | H : PreciseUnitMath.preciseMul ?a ?b = Ok ?r |- _ =>
      let E := fresh "Ets" in let U := fresh "U" in
      apply preciseMul_sound in H as [E U]; [|assumption..]
  | H : PreciseUnitMath.preciseDiv ?a ?b = Ok ?r |- _ =>
      let E := fresh "Ets" in let U := fresh "U" in let N := fresh "N" in
      apply preciseDiv_sound in H as (E & U & N); [|assumption..]
  | H : PreciseUnitMath.preciseMulCeil ?a ?b = Ok ?r |- _ =>
      let E := fresh "Ets" in
      pose proof (preciseMulCeil_sound a b r ltac:(assumption) ltac:(assumption) H) as E; clear H
  | H : sm_sub ?a ?b = Ok ?r |- _ =>
      let E := fresh "Ets" in let U := fresh "U" in
      apply sm_sub_inv in H as [E U]; [|assumption..]
  | H : sm_add ?a ?b = Ok ?r |- _ =>
      let E := fresh "Ets" in let U := fresh "U" in
      apply sm_add_inv in H as [E U]; [|assumption..]
  end.

Lemma unsigned_agreement_witness :
  same_outcome (preciseMul 7 3) (guarded (7 * 3 <? 2 ^ 256) (MathUtils.preciseMul 7 3)) /\
  same_outcome (preciseMulCeil 7 3)
    (guarded (7 * 3 <? 2 ^ 256) (MathUtils.preciseMulCeil 7 3)) /\
  same_outcome (preciseDiv 7 3)
    (guarded (7 * PRECISE_UNIT <? 2 ^ 256) (MathUtils.preciseDiv 7 3)) /\
  (3 <> 0 -> same_outcome (preciseDivCeil 7 3)
    (guarded (7 * PRECISE_UNIT <? 2 ^ 256) (MathUtils.preciseDivCeil 7 3))).
Proof. apply (unsigned_agreement 7 3); done. Defined.

Lemma divDown_agreement_witness :
  same_outcome (divDown (-7) 2)
    (guarded (negb ((-7 =? MIN_INT_256) && (2 =? -1))) (MathUtils.divDown (-7) 2)).
Proof. apply (divDown_agreement (-7) 2); done. Defined.
