(* ===== verification/Erc20.v ===== *)
(** * The token of OpenZeppelin

    A SetToken is an [ERC20] of the OpenZeppelin package: third-party code whose
    ledger of balances and allowances is abstract here. The interface has the
    internal functions the contract calls, the public functions anyone can
    call, and what the package documents of them. *)

From S2P Require Import Prelude JsString Ethers Constants SafeMath.
From Stdlib Require Import String.

Local Open Scope Z_scope.

(** The public functions of a token. *)
Inductive TokenCall :=
  | Transfer (recipient : Address) (amount : Z)
  | Approve (spender : Address) (amount : Z)
  | TransferFrom (holder recipient : Address) (amount : Z)
  | IncreaseAllowance (spender : Address) (addedValue : Z)
  | DecreaseAllowance (spender : Address) (subtractedValue : Z).

Class ERC20 := {
  ledger : Type;
  totalSupply : ledger -> Z;
  balanceOf : ledger -> Address -> Z;
  _mint : Address -> Z -> ledger -> result ledger;
  _burn : Address -> Z -> ledger -> result ledger;
  (** A public call by its sender. *)
  token_exec : Address -> TokenCall -> ledger -> result ledger;
  mint_Ok account amount l l' : _mint account amount l = Ok l' ->
    account <> ADDRESS_ZERO /\ totalSupply l' = totalSupply l + amount /\
    forall a, balanceOf l' a = balanceOf l a + (if decide (a = account) then amount else 0);
  mint_succeeds account amount l : account <> ADDRESS_ZERO -> is_uint256 amount ->
    totalSupply l + amount < 2 ^ 256 -> exists l', _mint account amount l = Ok l';
  burn_Ok account amount l l' : _burn account amount l = Ok l' ->
    account <> ADDRESS_ZERO /\ amount <= balanceOf l account /\
    totalSupply l' = totalSupply l - amount /\
    forall a, balanceOf l' a = balanceOf l a - (if decide (a = account) then amount else 0);
  (** Supply changes only by minting and burning. *)
  token_exec_supply sender c l l' : token_exec sender c l = Ok l' -> totalSupply l' = totalSupply l;
}.

(** ** A concrete ledger *)

Record ledger_ref := mkLedger {
  ref_supply : Z;
  ref_balances : gmap Address Z;
  ref_allowances : gmap (Address * Address) Z;
}.

Definition ref_balance (l : ledger_ref) (a : Address) : Z := default 0 (ref_balances l !! a).
Definition ref_allowance (l : ledger_ref) (k : Address * Address) : Z := default 0 (ref_allowances l !! k).

Definition empty_ledger : ledger_ref := mkLedger 0 ∅ ∅.

Definition ref_mint (account : Address) (amount : Z) (l : ledger_ref) : result ledger_ref :=
  _ ← require (bool_decide (account <> ADDRESS_ZERO)) "ERC20: mint to the zero address";
  _ ← require (ref_supply l + amount <? 2 ^ 256) "SafeMath: addition overflow";
  Ok (mkLedger (ref_supply l + amount)
        (<[ account := ref_balance l account + amount ]> (ref_balances l)) (ref_allowances l)).

Definition ref_burn (account : Address) (amount : Z) (l : ledger_ref) : result ledger_ref :=
  _ ← require (bool_decide (account <> ADDRESS_ZERO)) "ERC20: burn from the zero address";
  _ ← require (amount <=? ref_balance l account) "ERC20: burn amount exceeds balance";
  Ok (mkLedger (ref_supply l - amount)
        (<[ account := ref_balance l account - amount ]> (ref_balances l)) (ref_allowances l)).

Definition ref_move (from to : Address) (amount : Z) (l : ledger_ref) : result ledger_ref :=
  _ ← require (bool_decide (from <> ADDRESS_ZERO)) "ERC20: transfer from the zero address";
  _ ← require (bool_decide (to <> ADDRESS_ZERO)) "ERC20: transfer to the zero address";
  _ ← require (amount <=? ref_balance l from) "ERC20: transfer amount exceeds balance";
  let b := <[ from := ref_balance l from - amount ]> (ref_balances l) in
  Ok (mkLedger (ref_supply l) (<[ to := default 0 (b !! to) + amount ]> b) (ref_allowances l)).

Definition ref_approve (holder spender : Address) (amount : Z) (l : ledger_ref) : result ledger_ref :=
  _ ← require (bool_decide (spender <> ADDRESS_ZERO)) "ERC20: approve to the zero address";
  Ok (mkLedger (ref_supply l) (ref_balances l) (<[ (holder, spender) := amount ]> (ref_allowances l))).

Definition ref_exec (sender : Address) (c : TokenCall) (l : ledger_ref) : result ledger_ref :=
  match c with
  | Transfer to amount => ref_move sender to amount l
  | Approve spender amount => ref_approve sender spender amount l
  | TransferFrom from to amount =>
      l' ← ref_move from to amount l;
      _ ← require (amount <=? ref_allowance l' (from, sender)) "ERC20: transfer amount exceeds allowance";
      ref_approve from sender (ref_allowance l' (from, sender) - amount) l'
  | IncreaseAllowance spender v => ref_approve sender spender (ref_allowance l (sender, spender) + v) l
  | DecreaseAllowance spender v =>
      _ ← require (v <=? ref_allowance l (sender, spender)) "ERC20: decreased allowance below zero";
      ref_approve sender spender (ref_allowance l (sender, spender) - v) l
  end.

Lemma ref_balance_insert s m al a b v :
  ref_balance (mkLedger s (<[ a := v ]> m) al) b = if decide (b = a) then v else default 0 (m !! b).
Proof.
  unfold ref_balance. cbn. case_decide as E; [subst; by rewrite lookup_insert_eq|].
  by rewrite lookup_insert_ne.
Qed.

#[refine, export] Instance erc20_ref : ERC20 := {|
  ledger := ledger_ref; totalSupply := ref_supply; balanceOf := ref_balance;
  _mint := ref_mint; _burn := ref_burn; token_exec := ref_exec |}.
Proof.
  - unfold ref_mint. intros account amount l l' Q. inv_result.
    apply bool_decide_eq_true in E. split; [done|]. split; [done|]. intros a.
    rewrite ref_balance_insert. case_decide; [by subst|]. unfold ref_balance. lia.
  - unfold ref_mint. intros account amount l Ha _ Hs. rewrite bool_decide_eq_true_2 by done.
    apply Z.ltb_lt in Hs. rewrite Hs. by eexists.
  - unfold ref_burn. intros account amount l l' Q. inv_result.
    apply bool_decide_eq_true in E. apply Z.leb_le in E0. split; [done|]. split; [done|].
    split; [done|]. intros a. rewrite ref_balance_insert. case_decide; [by subst|].
    unfold ref_balance. lia.
  - unfold ref_exec, ref_move, ref_approve. intros sender c l l' Q. destruct c; by inv_result.
Defined.
