(* ===== verification/NavIssuanceModuleUtils.v ===== *)
(** * NAV issuance

    [utils/common/navIssuanceModuleUtils.ts] (module-level functions) against
    the internal functions of
    [contracts/protocol/modules/v1/CustomOracleNAVIssuanceModule.sol] they
    predict (Module [NAVModule]). *)

From S2P Require Import Prelude JsString Ethers Constants MathUtils SafeMath PreciseUnitMath.
From Stdlib Require Import String.

Local Open Scope Z_scope.

Section NavIssuanceModuleUtils.
Context `{BN : BigNumber}.

Definition getExpectedIssuePositionMultiplier
    (previousPositionMultiplier previousSupply currentSupply : Z) : result Z :=
  inflation ← MathUtils.preciseDivCeil (bn_sub currentSupply previousSupply) currentSupply;
  MathUtils.preciseMul previousPositionMultiplier (bn_sub PRECISE_UNIT inflation).

Definition getExpectedPostFeeQuantity
    (quantity managerFeePercentage protocolDirectFeePercentage : Z) : result Z :=
  managerFees ← MathUtils.preciseMul quantity managerFeePercentage;
  protocolDirectFees ← MathUtils.preciseMul quantity protocolDirectFeePercentage;
  Ok (bn_sub (bn_sub quantity managerFees) protocolDirectFees).

(** [calculateSetTokenValuation] and [totalSupply] are calls to the deployed
    valuer and SetToken. *)
Definition getExpectedSetTokenIssueQuantity
    (calculateSetTokenValuation : Address -> Address -> result Z)
    (totalSupply : Address -> result Z) (setToken reserveAsset : Address)
    (reserveAssetBaseUnits reserveAssetQuantity managerFeePercentage
     protocolDirectFeePercentage premiumPercentage : Z) : result Z :=
  setTokenValuation ← calculateSetTokenValuation setToken reserveAsset;
  setTokenSupply ← totalSupply setToken;
  reserveQuantitySubFees ← getExpectedPostFeeQuantity reserveAssetQuantity
    managerFeePercentage protocolDirectFeePercentage;
  premium ← MathUtils.preciseMul reserveQuantitySubFees premiumPercentage;
  let reserveQuantitySubFeesAndPremium := bn_sub reserveQuantitySubFees premium in
  normalizedReserveQuantitySubFees ←
    MathUtils.preciseDiv reserveQuantitySubFees reserveAssetBaseUnits;
  normalizedReserveQuantitySubFeesAndPremium ←
    MathUtils.preciseDiv reserveQuantitySubFeesAndPremium reserveAssetBaseUnits;
  value ← MathUtils.preciseMul setTokenSupply setTokenValuation;
  let denominator := bn_sub (bn_add value normalizedReserveQuantitySubFees)
                            normalizedReserveQuantitySubFeesAndPremium in
  numerator ← MathUtils.preciseMul normalizedReserveQuantitySubFeesAndPremium setTokenSupply;
  MathUtils.preciseDiv numerator denominator.

Definition getExpectedIssuePositionUnit
    (previousUnits issueQuantity previousSupply currentSupply newPositionMultiplier
     managerFeePercentage protocolDirectFeePercentage : Z) : result Z :=
  issueQuantitySubFees ← getExpectedPostFeeQuantity issueQuantity
    managerFeePercentage protocolDirectFeePercentage;
  existing ← MathUtils.preciseMul previousSupply previousUnits;
  let numerator := bn_add existing issueQuantitySubFees in
  newPositionUnit ← MathUtils.preciseDiv numerator currentSupply;
  roundDownPositionUnit ← MathUtils.preciseMul newPositionUnit newPositionMultiplier;
  MathUtils.preciseDiv roundDownPositionUnit newPositionMultiplier.

Definition getExpectedReserveRedeemQuantity
    (setTokenQuantityToRedeem setTokenValuation reserveAssetBaseUnits managerFeePercentage
     protocolDirectFeePercentage premiumPercentage : Z) : result Z :=
  totalNotionalReserveQuantity ← MathUtils.preciseMul setTokenValuation setTokenQuantityToRedeem;
  totalPremium ← MathUtils.preciseMulCeil totalNotionalReserveQuantity premiumPercentage;
  totalNotionalReserveQuantitySubFees ← getExpectedPostFeeQuantity
    (bn_sub totalNotionalReserveQuantity totalPremium)
    managerFeePercentage protocolDirectFeePercentage;
  MathUtils.preciseMul totalNotionalReserveQuantitySubFees reserveAssetBaseUnits.

Definition getExpectedRedeemPositionMultiplier
    (previousPositionMultiplier previousSupply currentSupply : Z) : result Z :=
  deflation ← MathUtils.preciseDiv (bn_sub previousSupply currentSupply) currentSupply;
  MathUtils.preciseMul previousPositionMultiplier (bn_add PRECISE_UNIT deflation).

Definition getExpectedRedeemPositionUnit
    (previousUnits setTokenQuantityToRedeem setTokenValuation reserveAssetBaseUnits
     previousSupply currentSupply newPositionMultiplier managerFeePercentage
     protocolDirectFeePercentage premiumPercentage : Z) : result Z :=
  totalNotionalReserveQuantity ← MathUtils.preciseMul setTokenValuation setTokenQuantityToRedeem;
  totalPremium ← MathUtils.preciseMulCeil totalNotionalReserveQuantity premiumPercentage;
  totalReserveBalance ← MathUtils.preciseMul
    (bn_sub totalNotionalReserveQuantity totalPremium) reserveAssetBaseUnits;
  existing ← MathUtils.preciseMul previousSupply previousUnits;
  let numerator := bn_sub existing totalReserveBalance in
  newPositionUnit ← MathUtils.preciseDiv numerator currentSupply;
  roundDownPositionUnit ← MathUtils.preciseMul newPositionUnit newPositionMultiplier;
  MathUtils.preciseDiv roundDownPositionUnit newPositionMultiplier.

End NavIssuanceModuleUtils.

(** ** The contract side

    The percentages, the valuation, the decimals and the premium are results of
    external calls of the contract; they are arguments here. *)
Module NAVModule.
Section NAVModule.
Context `{OZ : OpenZeppelin}.

Definition _getFees (protocolFeePercentage managerFeePercentage _reserveAssetQuantity : Z)
    : result (Z * Z * Z) :=
  protocolFees ← PreciseUnitMath.preciseMul protocolFeePercentage _reserveAssetQuantity;
  managerFee ← PreciseUnitMath.preciseMul managerFeePercentage _reserveAssetQuantity;
  n ← sm_sub _reserveAssetQuantity protocolFees;
  netReserveFlow ← sm_sub n managerFee;
  Ok (protocolFees, managerFee, netReserveFlow).

Definition _getSetTokenMintQuantity
    (premiumPercentage setTokenValuation reserveAssetBaseUnits _netReserveFlows _setTotalSupply : Z)
    : result Z :=
  premiumValue ← PreciseUnitMath.preciseMul _netReserveFlows premiumPercentage;
  normalizedTotalReserveQuantityNetFees ←
    PreciseUnitMath.preciseDiv _netReserveFlows reserveAssetBaseUnits;
  netOfPremium ← sm_sub _netReserveFlows premiumValue;
  normalizedTotalReserveQuantityNetFeesAndPremium ←
    PreciseUnitMath.preciseDiv netOfPremium reserveAssetBaseUnits;
  value ← PreciseUnitMath.preciseMul _setTotalSupply setTokenValuation;
  value' ← sm_add value normalizedTotalReserveQuantityNetFees;
  denominator ← sm_sub value' normalizedTotalReserveQuantityNetFeesAndPremium;
  numerator ← PreciseUnitMath.preciseMul normalizedTotalReserveQuantityNetFeesAndPremium _setTotalSupply;
  PreciseUnitMath.preciseDiv numerator denominator.

Definition _getIssuePositionMultiplier
    (positionMultiplier previousSetTokenSupply setTokenQuantity : Z) : result (Z * Z) :=
  newTotalSupply ← sm_add setTokenQuantity previousSetTokenSupply;
  p ← toInt256 previousSetTokenSupply;
  m ← ssm_mul positionMultiplier p;
  c ← toInt256 newTotalSupply;
  newPositionMultiplier ← ssm_div m c;
  Ok (newTotalSupply, newPositionMultiplier).

(** The computation of [issue] up to the mint: fees, then mint quantity. *)
Definition expectedMint (protocolFeePercentage managerFeePercentage premiumPercentage
    setTokenValuation reserveAssetBaseUnits _reserveAssetQuantity _setTotalSupply : Z) : result Z :=
  fees ← _getFees protocolFeePercentage managerFeePercentage _reserveAssetQuantity;
  _getSetTokenMintQuantity premiumPercentage setTokenValuation reserveAssetBaseUnits
    fees.2 _setTotalSupply.

End NAVModule.
End NAVModule.

(** ** Theorems *)

Section Theorems.
Context `{OZ : OpenZeppelin} `{BN : BigNumber}.

Lemma getExpectedPostFeeQuantity_eq q mf df : 
  getExpectedPostFeeQuantity q mf df =
    Ok (q - q * mf ÷ PRECISE_UNIT - q * df ÷ PRECISE_UNIT).
Proof.
  unfold getExpectedPostFeeQuantity.
  rewrite !MathUtils.preciseMul_eq. run_result. by bn_simpl.
Qed.

(** With manager and protocol fees that total at most 100%, the quantity
    left after fees lies between the exact net quantity and the gross quantity,
    less than two base units above the exact net. *)
Theorem getExpectedPostFeeQuantity_bounds q mf df r :
  0 <= q -> 0 <= mf -> 0 <= df -> mf + df <= PRECISE_UNIT ->
  getExpectedPostFeeQuantity q mf df = Ok r ->
  0 <= r <= q /\
  q * (PRECISE_UNIT - mf - df) <= r * PRECISE_UNIT
    < q * (PRECISE_UNIT - mf - df) + 2 * PRECISE_UNIT.
Proof.
  intros Hq Hm Hd Hs. rewrite getExpectedPostFeeQuantity_eq. intros [= <-].
  pose proof PRECISE_UNIT_pos as HU.
  pose proof (quot_floor_bounds (q * mf) PRECISE_UNIT ltac:(nia) HU).
  pose proof (quot_floor_bounds (q * df) PRECISE_UNIT ltac:(nia) HU).
  pose proof (quot_nonneg_result (q * mf) PRECISE_UNIT ltac:(nia) HU).
  pose proof (quot_nonneg_result (q * df) PRECISE_UNIT ltac:(nia) HU).
  set (x := q * mf ÷ PRECISE_UNIT) in *. set (y := q * df ÷ PRECISE_UNIT) in *.
  assert (q * (mf + df) <= q * PRECISE_UNIT) by nia.
  assert (Hxy : (x + y) * PRECISE_UNIT <= q * PRECISE_UNIT) by lia.
  apply Z.mul_le_mono_pos_r in Hxy; [|done]. lia.
Qed.

Lemma issue_inflation_complement p c : 0 <= p <= c -> 0 < c ->
  PRECISE_UNIT - cdiv ((c - p) * PRECISE_UNIT) c = p * PRECISE_UNIT / c.
Proof.
  intros Hp Hc.
  pose proof (cdiv_bounds ((c - p) * PRECISE_UNIT) c Hc).
  pose proof (Z.div_mod (p * PRECISE_UNIT) c ltac:(lia)).
  pose proof (Z.mod_pos_bound (p * PRECISE_UNIT) c Hc). nia.
Qed.

Lemma issue_multiplier_eq m p c : 0 <= m -> 0 <= p <= c -> 0 < c ->
  getExpectedIssuePositionMultiplier m p c =
    Ok (m * (p * PRECISE_UNIT / c) / PRECISE_UNIT).
Proof.
  intros Hm Hp Hc. unfold getExpectedIssuePositionMultiplier. bn_simpl.
  rewrite MathUtils.preciseDivCeil_nonneg_eq by lia. run_result. bn_simpl.
  rewrite issue_inflation_complement by lia. pose proof PRECISE_UNIT_pos.
  apply MathUtils.preciseMul_nonneg_eq; [done|]. apply Z.div_pos; nia.
Qed.

(** Scaling by a truncated fixed-point ratio, against one exact division. *)
Lemma scaled_quotient_bracket m p c : 0 <= m -> 0 <= p -> 0 < c ->
  m * (p * PRECISE_UNIT / c) / PRECISE_UNIT <= m * p / c
    <= m * (p * PRECISE_UNIT / c) / PRECISE_UNIT + m / PRECISE_UNIT + 1.
Proof.
  intros Hm Hp Hc. pose proof PRECISE_UNIT_pos as HU.
  pose proof (Z.div_mod (p * PRECISE_UNIT) c ltac:(lia)).
  pose proof (Z.mod_pos_bound (p * PRECISE_UNIT) c Hc).
  set (f := p * PRECISE_UNIT / c) in *.
  pose proof (Z.div_mod (m * f) PRECISE_UNIT ltac:(lia)).
  pose proof (Z.mod_pos_bound (m * f) PRECISE_UNIT HU).
  pose proof (Z.div_mod (m * p) c ltac:(lia)).
  pose proof (Z.mod_pos_bound (m * p) c Hc).
  pose proof (Z.div_mod m PRECISE_UNIT ltac:(lia)).
  pose proof (Z.mod_pos_bound m PRECISE_UNIT HU).
  set (x := m * f / PRECISE_UNIT) in *. set (y := m * p / c) in *.
  set (d := m / PRECISE_UNIT) in *. set (U := PRECISE_UNIT) in *.
  assert (Hcancel : forall a b, a * (c * U) < b * (c * U) -> a < b)
    by (intros a b; apply Z.mul_lt_mono_pos_r; nia).
  assert (m * (f * c) <= m * (p * U) <= m * (f * c + c)) by nia.
  assert (x * (c * U) <= m * f * c < (x + 1) * (c * U)) by nia.
  assert (y * (c * U) <= m * p * U < (y + 1) * (c * U)) by nia.
  assert (m * c < (d + 1) * (c * U)) by nia.
  pose proof (Hcancel x (y + 1)). pose proof (Hcancel y (x + d + 2)). lia.
Qed.

(** The expected multiplier after an issuance never exceeds the one the
    contract sets and falls short of it by at most [multiplier / 10^18 + 1]:
    rounding the inflation up, as the helper and the contract's comment say,
    rounds the multiplier down, while the contract divides once. *)
Theorem issue_multiplier_below_contract m p q c m' r :
  0 <= m -> is_int256 m -> 0 <= p -> 0 < q -> is_uint256 p -> is_uint256 q ->
  NAVModule._getIssuePositionMultiplier m p q = Ok (c, m') ->
  getExpectedIssuePositionMultiplier m p c = Ok r ->
  c = p + q /\ r <= m' <= r + m / PRECISE_UNIT + 1.
Proof.
  intros Hm Hmi Hp Hq Hpu Hqu Hsol Hts. pose proof PRECISE_UNIT_pos as HU.
  unfold NAVModule._getIssuePositionMultiplier in Hsol. inv_result.
  repeat sol_step. subst c.
  assert (Hint : forall x y, is_uint256 x -> toInt256 x = Ok y -> y = x /\ is_int256 x).
  { intros x y Hx Ey. pose proof (toInt256_law x Hx) as L. rewrite Ey in L.
    destruct (fits_int256 x) eqn:F; [|done]. cbn in L. subst.
    apply fits_int256_inv in F as [-> F]. split; [done|]. by apply is_int256_spec. }
  repeat match goal with
  | H : toInt256 ?x = Ok ?y, U : Is_true (is_uint256 ?x) |- _ =>
      apply (Hint x y U) in H as [-> ?]
  end.
  repeat match goal with
  | H : ssm_mul _ _ = Ok _ |- _ => apply ssm_mul_inv in H as [-> ?]; [|done..]
  | H : ssm_div _ _ = Ok _ |- _ => apply ssm_div_inv in H as (? & -> & ?); [|done..]
  end.
  split; [lia|].
  replace (q + p) with (p + q) in * by lia.
  rewrite issue_multiplier_eq in Hts by lia. injection Hts as <-.
  rewrite quot_nonneg by nia. apply scaled_quotient_bracket; lia.
Qed.

(** Whenever the contract's fee and mint computation does not revert, the
    TypeScript prediction of the minted quantity returns exactly that quantity
    (with the protocol's total share passed as its direct fee). *)
Theorem mint_quantity_agreement pf mf prem val base qty supply setToken reserve r :
  is_uint256 pf -> is_uint256 mf -> is_uint256 prem -> is_uint256 val -> is_uint256 base ->
  is_uint256 qty -> is_uint256 supply ->
  NAVModule.expectedMint pf mf prem val base qty supply = Ok r ->
  getExpectedSetTokenIssueQuantity (fun _ _ => Ok val) (fun _ => Ok supply) setToken reserve
    base qty mf pf prem = Ok r.
Proof.
  intros Upf Umf Upr Uval Ubase Uqty Usup H.
  unfold NAVModule.expectedMint, NAVModule._getFees, NAVModule._getSetTokenMintQuantity in H.
  inv_result. cbn [snd] in *. repeat sol_step. subst.
  unfold getExpectedSetTokenIssueQuantity. run_result.
  rewrite getExpectedPostFeeQuantity_eq. run_result.
  repeat match goal with E : MathUtils.preciseMul _ _ = Ok _ |- _ =>
    rewrite MathUtils.preciseMul_eq in E; injection E as E end.
  bn_simpl.
  replace (qty - qty * mf ÷ PRECISE_UNIT - qty * pf ÷ PRECISE_UNIT)
    with (qty - pf * qty ÷ PRECISE_UNIT - mf * qty ÷ PRECISE_UNIT)
    by (rewrite (Z.mul_comm mf), (Z.mul_comm pf); lia).
  subst. rewrite !MathUtils.preciseMul_eq. run_result. bn_simpl.
  repeat match goal with E : MathUtils.preciseDiv _ _ = Ok _ |- _ => rewrite E; clear E end.
  run_result. rewrite ?MathUtils.preciseMul_eq. run_result. by bn_simpl.
Qed.

End Theorems.

(** ** Witnesses *)

Lemma post_fee_quantity_witness :
  0 <= 985 <= 1000 /\
  1000 * (PRECISE_UNIT - 10 ^ 16 - 5 * 10 ^ 15) <= 985 * PRECISE_UNIT
    < 1000 * (PRECISE_UNIT - 10 ^ 16 - 5 * 10 ^ 15) + 2 * PRECISE_UNIT.
Proof.
  apply (getExpectedPostFeeQuantity_bounds 1000 (10 ^ 16) (5 * 10 ^ 15) 985);
    eval_side.
Defined.

Lemma issue_multiplier_witness :
  150 = 100 + 50 /\ 666666666666666666 <= 666666666666666666
    <= 666666666666666666 + 10 ^ 18 / PRECISE_UNIT + 1.
Proof.
  apply (issue_multiplier_below_contract (10 ^ 18) 100 50 150 666666666666666666 666666666666666666);
    eval_side.
Defined.

Lemma mint_quantity_witness :
  getExpectedSetTokenIssueQuantity (fun _ _ => Ok (230 * 10 ^ 18)) (fun _ => Ok (10 ^ 19))
    "set" "usdc" (10 ^ 6) (1000 * 10 ^ 6) (10 ^ 15) (2 * 10 ^ 15) (5 * 10 ^ 15)
  = Ok 4303780718746542819.
Proof.
  apply (mint_quantity_agreement (2 * 10 ^ 15) (10 ^ 15) (5 * 10 ^ 15) (230 * 10 ^ 18) (10 ^ 6)
    (1000 * 10 ^ 6) (10 ^ 19) "set" "usdc"); eval_side.
Defined.
