(* ===== verification/UniswapUtils.v ===== *)
(** * Uniswap expectations

    [utils/common/uniswapUtils.ts]. Several tests of this file apply
    JavaScript's [<], [>], [==] and [!=] to BigNumber objects. The relational
    operators convert objects with [valueOf] and then [toString], so they
    compare decimal strings; the equality operators compare object identity.
    Both are modelled as the language defines them. *)

From S2P Require Import Prelude JsString Ethers Constants MathUtils UnitsUtils.
From Stdlib Require Import String.

Local Open Scope Z_scope.

(** A BigNumber object: the exported constant [ZERO] itself, or another
    object. Every arithmetic result and decoded call result is another object. *)
Inductive BNObj := TheZERO | Obj (v : Z).

Definition bn_value (o : BNObj) : Z := match o with TheZERO => 0 | Obj v => v end.

(** [o == ZERO] on objects. *)
Definition ref_eq_ZERO (o : BNObj) : bool :=
  match o with TheZERO => true | Obj _ => false end.

(** Views of the deployed contracts the functions read. *)
Record Pair := mkPair {
  pair_getReserves : result (Z * Z);
  pair_totalSupply : result Z;
}.

Record Token := mkToken {
  token_address : Address;
  token_balanceOf : Address -> result Z;
}.

Section UniswapUtils.
Context `{BN : BigNumber} `{EU : EthersUtils}.

(** [a < b] on BigNumber objects. *)
Definition js_lt (a b : Z) : bool := str_lt (bn_toString a) (bn_toString b).
Definition js_gt (a b : Z) : bool := js_lt b a.

Definition min (valueOne valueTwo : Z) : Z :=
  if js_lt valueOne valueTwo then valueOne else valueTwo.

(** The [while (x < z)] loop of [sqrt]; [None] when the fuel runs out. *)
Fixpoint sqrt_loop (fuel : nat) (value x z : Z) : option (result Z) :=
  match fuel with
  | O => None
  | S fuel' =>
      if js_lt x z then
        match (q ← bn_div value x; bn_div (bn_add q x) 2) with
        | Ok x' => sqrt_loop fuel' value x' x
        | Throw e => Some (Throw e)
        end
      else Some (Ok z)
  end.

Definition sqrt_fuel (value : Z) : nat := (Z.to_nat (Z.log2 value) + 5)%nat.

Definition sqrt (value : BNObj) : option (result Z) :=
  let v := bn_value value in
  if js_gt v 3 then
    match bn_div v 2 with
    | Ok h => sqrt_loop (sqrt_fuel v) v (bn_add h 1) v
    | Throw e => Some (Throw e)
    end
  else if negb (ref_eq_ZERO value) then Some (Ok 1)
  else Some (Ok v).

Definition MINIMUM_LIQUIDITY : Z := 1000.

(** [totalSupply] is decoded from a call, so it is never the constant object. *)
Definition calculateLPTokensIssued (pool : Pair) (amountOne amountTwo : Z)
    : option (result Z) :=
  match pair_getReserves pool, pair_totalSupply pool with
  | Throw e, _ => Some (Throw e)
  | _, Throw e => Some (Throw e)
  | Ok (reserve0, reserve1), Ok totalSupply =>
      if ref_eq_ZERO (Obj totalSupply) then
        r ← sqrt (Obj (bn_mul amountOne amountTwo));
        Some (x ← r; Ok (bn_sub x MINIMUM_LIQUIDITY))
      else
        Some (a ← bn_div (bn_mul amountOne totalSupply) reserve0;
              b ← bn_div (bn_mul amountTwo totalSupply) reserve1;
              Ok (min a b))
  end.

(** [assetOne < assetTwo] compares the address strings as they are. *)
Definition getReservesSafe (assetOne assetTwo : Address) (lpToken : Pair) : result (Z * Z) :=
  let firstAsset := if str_lt assetOne assetTwo then assetOne else assetTwo in
  reserves ← pair_getReserves lpToken;
  Ok (if bool_decide (assetOne = firstAsset) then (reserves.1, reserves.2)
      else (reserves.2, reserves.1)).

Definition calculateTokensInReserve (setToken : Address) (assetOne assetTwo : Token)
    (lpToken : Pair) (stakingRewards : Address -> result Z) : result (Z * Z) :=
  reserves ← getReservesSafe (token_address assetOne) (token_address assetTwo) lpToken;
  totalSupply ← pair_totalSupply lpToken;
  lpTokenBalance ← stakingRewards setToken;
  s1 ← preciseDiv reserves.1 totalSupply;
  r1 ← preciseMul s1 lpTokenBalance;
  s2 ← preciseDiv reserves.2 totalSupply;
  r2 ← preciseMul s2 lpTokenBalance;
  Ok (r1, r2).

Definition calculateEngageQuantities (setToken : Address) (assetOne assetTwo : Token)
    (lpToken : Pair) (stakingRewards : Address -> result Z)
    (reservePercentage extraAssetOne extraAssetTwo : Z) : result (Z * Z) :=
  reserves ← calculateTokensInReserve setToken assetOne assetTwo lpToken stakingRewards;
  b1 ← token_balanceOf assetOne setToken;
  let balanceOnTokenAssetOne := bn_add b1 extraAssetOne in
  b2 ← token_balanceOf assetTwo setToken;
  let balanceOnTokenAssetTwo := bn_add b2 extraAssetTwo in
  one ← ether (Number 1);
  x1 ← preciseMul reserves.1 reservePercentage;
  y1 ← preciseMul balanceOnTokenAssetOne (bn_sub one reservePercentage);
  x2 ← preciseMul reserves.2 reservePercentage;
  y2 ← preciseMul balanceOnTokenAssetTwo (bn_sub one reservePercentage);
  Ok (bn_sub x1 y1, bn_sub x2 y2).

Definition calculateRebalanceQuantity (sellTokenQuantity : Z) (setToken : Address)
    (assetOne assetTwo : Token) (assetOneToTwoPrice extraAssetOne extraAssetTwo : Z)
    : result (Z * Address * Address) :=
  b1 ← token_balanceOf assetOne setToken;
  let balanceAssetOne := bn_add b1 extraAssetOne in
  b2 ← token_balanceOf assetTwo setToken;
  let balanceAssetTwo := bn_add b2 extraAssetTwo in
  valueAssetTwoDenomOne ← preciseDiv balanceAssetTwo assetOneToTwoPrice;
  choice ←
    (if bn_gt balanceAssetOne valueAssetTwoDenomOne then
       q ← bn_div (bn_sub balanceAssetOne valueAssetTwoDenomOne) 2;
       Ok (q, token_address assetOne, token_address assetTwo)
     else
       h ← bn_div (bn_sub valueAssetTwoDenomOne balanceAssetOne) 2;
       q ← preciseMul h assetOneToTwoPrice;
       Ok (q, token_address assetTwo, token_address assetOne));
  let '(quantityToSell, assetToSell, assetToBuy) := choice : Z * Address * Address in
  Ok (if js_gt sellTokenQuantity ZERO then sellTokenQuantity else quantityToSell,
      assetToSell, assetToBuy).

Definition calculateRebalanceFlows (setToken : Address)
    (getAmountsOut : Z -> list Address -> result (list Z)) (sellTokenQuantity : Z)
    (assetOne assetTwo : Token) (assetOneToTwoPrice extraAssetOne extraAssetTwo : Z)
    : result (list Z) :=
  choice ← calculateRebalanceQuantity sellTokenQuantity setToken assetOne assetTwo
    assetOneToTwoPrice extraAssetOne extraAssetTwo;
  getAmountsOut choice.1.1 [choice.1.2; choice.2].

(** ** The square-root loop *)

(** One Newton step from above, at the integer square root and beyond. *)
Lemma newton_step v s x : s * s <= v < (s + 1) * (s + 1) -> 1 <= s -> s <= x ->
  s <= (v / x + x) / 2 /\
  (s < x -> (v / x + x) / 2 - s <= (x - s) / 2) /\ (x = s -> (v / x + x) / 2 <= s + 1).
Proof.
  intros Hs H1 Hx.
  pose proof (Z.div_mod v x ltac:(lia)). pose proof (Z.mod_pos_bound v x ltac:(lia)).
  set (q := v / x) in *. assert (Hq : 0 <= q) by (apply Z.div_pos; lia).
  split_and!.
  - apply Z.div_le_lower_bound; [lia|].
    destruct (decide (2 * s <= q + x)); [lia|].
    assert (4 * ((q + 1) * x) <= (q + 1 + x) * (q + 1 + x)) by nia.
    assert ((q + 1 + x) * (q + 1 + x) <= 4 * (s * s)) by nia. nia.
  - intros Hlt. assert (q <= s) by nia.
    assert ((q + x) / 2 <= (s + x) / 2) by (apply Z.div_le_mono; lia).
    replace (s + x) with (s * 2 + (x - s)) in * by lia.
    rewrite Z.div_add_l in * by lia. lia.
  - intros ->. assert (q <= s + 2) by nia.
    apply (Z.div_le_upper_bound _ 2); lia.
Qed.

Lemma newton_run v x : 0 <= v -> 0 < x ->
  (q ← bn_div v x; bn_div (bn_add q x) 2) = Ok ((v / x + x) / 2).
Proof.
  intros. rewrite bn_div_law, bind_Ok by lia. bn_simpl. rewrite bn_div_law by lia.
  rewrite (quot_nonneg v x) by lia.
  assert (0 <= v / x) by (apply Z.div_pos; lia). by rewrite quot_nonneg by lia.
Qed.

Lemma js_lt_irrefl a : js_lt a a = false.
Proof. apply str_lt_irrefl. Qed.

Lemma js_lt_asymm a b : js_lt a b = true -> js_lt b a = false.
Proof. apply str_lt_asymm. Qed.

Section Loop.
Context (v s : Z) (Hs : s * s <= v < (s + 1) * (s + 1)) (Hs1 : 1 <= s).

Lemma sqrt_loop_step fuel x z : s <= x ->
  sqrt_loop (S fuel) v x z =
    if js_lt x z then sqrt_loop fuel v ((v / x + x) / 2) x else Some (Ok z).
Proof. intros. cbn [sqrt_loop]. destruct (js_lt x z); [|done]. by rewrite newton_run by nia. Qed.

(** At the root the loop does at most two more steps: it would have to go from
    [s] to [s + 1] and back, which the asymmetry of the order forbids. *)
Lemma sqrt_loop_at_root fuel z : sqrt_loop (3 + fuel) v s z <> None.
Proof.
  change (3 + fuel)%nat with (S (S (S fuel))).
  rewrite sqrt_loop_step by lia. destruct (js_lt s z); [|done].
  destruct (newton_step v s s Hs Hs1 ltac:(lia)) as (Hlo & _ & Hhi).
  specialize (Hhi eq_refl). set (x1 := (v / s + s) / 2) in *.
  rewrite sqrt_loop_step by lia. destruct (js_lt x1 s) eqn:E; [|done].
  destruct (decide (x1 = s)) as [Ex|]; [by rewrite Ex, js_lt_irrefl in E|].
  assert (x1 = s + 1) as Ex by lia.
  destruct (newton_step v s x1 Hs Hs1 ltac:(lia)) as (Hlo' & Hdec & _).
  rewrite sqrt_loop_step by done.
  replace ((v / x1 + x1) / 2) with s.
  - by rewrite (js_lt_asymm x1 s E).
  - assert (Hh : (x1 - s) / 2 = 0) by (replace (x1 - s) with 1 by lia; reflexivity). lia.
Qed.

Lemma sqrt_loop_terminates k : forall x z, s <= x -> x - s < 2 ^ Z.of_nat k ->
  sqrt_loop (3 + k) v x z <> None.
Proof.
  induction k as [|k IH]; intros x z Hx Hd.
  - change (2 ^ Z.of_nat 0) with 1 in Hd. replace x with s by lia. apply sqrt_loop_at_root.
  - destruct (decide (x = s)) as [->|Hne]; [apply sqrt_loop_at_root|].
    change (3 + S k)%nat with (S (3 + k)). rewrite sqrt_loop_step by done.
    destruct (js_lt x z); [|done].
    destruct (newton_step v s x Hs Hs1 Hx) as (Hlo & Hdec & _). apply IH; [done|].
    rewrite Nat2Z.inj_succ, Z.pow_succ_r in Hd by lia.
    specialize (Hdec ltac:(lia)).
    assert ((x - s) / 2 < 2 ^ Z.of_nat k) by (apply Z.div_lt_upper_bound; lia). lia.
Qed.

Lemma sqrt_loop_lower fuel : forall x z r, s <= x -> s <= z ->
  sqrt_loop fuel v x z = Some r -> exists y, r = Ok y /\ s <= y.
Proof.
  induction fuel as [|fuel IH]; intros x z r Hx Hz; [done|].
  rewrite sqrt_loop_step by done. destruct (js_lt x z).
  - apply IH; [|done]. by apply newton_step.
  - intros [= <-]. eauto.
Qed.
End Loop.

(** A decimal string above "3" is that of a number of at least 4. *)
Lemma js_gt_three v : js_gt v 3 = true -> 4 <= v.
Proof.
  unfold js_gt, js_lt. bn_simpl. intros H.
  destruct (decide (v < 0)) as [Hn|Hn].
  { unfold dec_of_Z in H. destruct (Z.ltb_spec v 0); [|lia]. cbn in H. done. }
  destruct (decide (v <= 3)); [|lia].
  assert (v = 0 \/ v = 1 \/ v = 2 \/ v = 3) as [->|[->|[->| ->]]] by lia; cbn in H; done.
Qed.

Lemma sqrt_start v : 4 <= v ->
  let s := Z.sqrt v in
  s * s <= v < (s + 1) * (s + 1) /\ 1 <= s /\ s <= v / 2 + 1 /\ s <= v.
Proof.
  intros Hv s. pose proof (Z.sqrt_spec v ltac:(lia)) as Hsp. fold s in Hsp.
  assert (0 <= s) by apply Z.sqrt_nonneg.
  pose proof (Z.div_mod v 2 ltac:(lia)). pose proof (Z.mod_pos_bound v 2 ltac:(lia)).
  unfold Z.succ in Hsp. split; [done|].
  assert (1 <= s) by (destruct (decide (s = 0)) as [E|]; [rewrite E in Hsp; lia | lia]).
  assert (2 * s - 1 <= s * s) by nia. split; [done|]. split; nia.
Qed.

(** ** Theorems *)

(** The square-root loop, although it compares decimal strings, terminates
    on every input within [log2 value + 5] iterations without throwing; past
    the initial test its result is never below the integer square root. *)
Theorem sqrt_terminates_above_root value :
  exists r, sqrt value = Some (Ok r) /\
    (js_gt (bn_value value) 3 = true -> Z.sqrt (bn_value value) <= r).
Proof.
  unfold sqrt. destruct (js_gt (bn_value value) 3) eqn:E.
  - set (v := bn_value value) in *. pose proof (js_gt_three v E) as Hv.
    rewrite bn_div_law by lia. bn_simpl. rewrite quot_nonneg by lia.
    destruct (sqrt_start v Hv) as (Hs & H1 & H2 & H3). set (s := Z.sqrt v) in *.
    destruct (sqrt_loop (sqrt_fuel v) v (v / 2 + 1) v) as [r|] eqn:L.
    + destruct (sqrt_loop_lower v s Hs H1 _ _ _ _ H2 H3 L) as (y & -> & Hy). eauto.
    + exfalso. revert L.
      replace (sqrt_fuel v) with (3 + (Z.to_nat (Z.log2 v) + 2))%nat by (unfold sqrt_fuel; lia).
      apply (sqrt_loop_terminates v s Hs H1); [done|].
      rewrite Nat2Z.inj_add, Z2Nat.id by apply Z.log2_nonneg.
      rewrite Z.pow_add_r by (try apply Z.log2_nonneg; lia).
      pose proof (Z.log2_spec v ltac:(lia)) as Hl.
      rewrite Z.pow_succ_r in Hl by apply Z.log2_nonneg.
      assert (v / 2 + 1 <= v) by (pose proof (Z.div_mod v 2); pose proof (Z.mod_pos_bound v 2); lia).
      change (2 ^ Z.of_nat 2) with 4. lia.
  - destruct (ref_eq_ZERO value); cbn [negb]; eexists; split; (reflexivity || done).
Qed.

(** The first-deposit branch of [calculateLPTokensIssued] is dead: for a
    pool without supply the function never evaluates the square root; with
    empty reserves it throws. *)
Theorem first_deposit_branch_dead pool r0 r1 supply a1 a2 :
  pair_getReserves pool = Ok (r0, r1) -> pair_totalSupply pool = Ok supply ->
  calculateLPTokensIssued pool a1 a2 =
    Some (a ← bn_div (a1 * supply) r0; b ← bn_div (a2 * supply) r1; Ok (min a b)) /\
  (r0 = 0 -> exists e, calculateLPTokensIssued pool a1 a2 = Some (Throw e)).
Proof.
  intros Er Et. unfold calculateLPTokensIssued. rewrite Er, Et. cbn [ref_eq_ZERO].
  bn_simpl. split; [done|]. intros ->.
  pose proof (bn_div_zero (a1 * supply)). destruct (bn_div _ 0); [done|]. by eexists.
Qed.

(** With liquidity, the issued amount is the smaller of the two pro-rata
    shares whenever these have equally many decimal digits; [min] compares
    decimal strings, so digits must agree. *)
Theorem calculateLPTokensIssued_pro_rata pool r0 r1 supply a1 a2 :
  pair_getReserves pool = Ok (r0, r1) -> pair_totalSupply pool = Ok supply ->
  0 < r0 -> 0 < r1 -> 0 <= a1 -> 0 <= a2 -> 0 <= supply ->
  num_digits (a1 * supply / r0) = num_digits (a2 * supply / r1) ->
  calculateLPTokensIssued pool a1 a2 =
    Some (Ok (Z.min (a1 * supply / r0) (a2 * supply / r1))).
Proof.
  intros Er Et H0 H1 Ha1 Ha2 Hs Hd. unfold calculateLPTokensIssued. rewrite Er, Et.
  cbn [ref_eq_ZERO]. bn_simpl. rewrite !bn_div_law by lia. run_result.
  rewrite !quot_nonneg by nia. unfold min, js_lt. bn_simpl.
  assert (forall a r, 0 <= a -> 0 < r -> 0 <= a * supply / r)
    by (intros; apply Z.div_pos; nia).
  rewrite str_lt_dec_same_digits by auto. do 2 f_equal. case_Z; lia.
Qed.

Lemma js_gt_ZERO a : 0 <= a -> js_gt a ZERO = (0 <? a).
Proof.
  intros Ha. unfold js_gt, js_lt, ZERO. bn_simpl. change (dec_of_Z 0) with "0"%string.
  rewrite str_lt_zero_dec by done. destruct (Z.eqb_spec a 0), (Z.ltb_spec 0 a); (done || lia).
Qed.

(** With no explicit quantity, a rebalance sells the asset that is worth
    more, never more of it than the SetToken holds, for half the surplus; an
    explicit positive quantity is used as given (the string comparison with
    zero is sound on naturals). *)
Theorem calculateRebalanceQuantity_spec sell setToken t1 t2 price b1 b2 :
  token_balanceOf t1 setToken = Ok b1 -> token_balanceOf t2 setToken = Ok b2 ->
  0 <= sell -> 0 <= b1 -> 0 <= b2 -> 0 < price ->
  let v2 := b2 * PRECISE_UNIT / price in
  exists q, calculateRebalanceQuantity sell setToken t1 t2 price 0 0 =
    Ok (if 0 <? sell then sell else q,
        if v2 <? b1 then token_address t1 else token_address t2,
        if v2 <? b1 then token_address t2 else token_address t1) /\
    (v2 < b1 -> q = (b1 - v2) / 2) /\
    (b1 <= v2 -> q = (v2 - b1) / 2 * price / PRECISE_UNIT) /\
    0 <= q <= (if v2 <? b1 then b1 else b2).
Proof.
  intros E1 E2 Hs H1 H2 Hp v2. pose proof PRECISE_UNIT_pos as HU.
  unfold calculateRebalanceQuantity. rewrite E1, E2. run_result. bn_simpl.
  rewrite !Z.add_0_r, preciseDiv_nonneg_eq by lia. run_result. fold v2.
  pose proof (Z.div_mod (b2 * PRECISE_UNIT) price ltac:(lia)) as Hdm.
  pose proof (Z.mod_pos_bound (b2 * PRECISE_UNIT) price Hp). fold v2 in Hdm.
  assert (Hv : 0 <= v2) by (apply Z.div_pos; nia).
  rewrite js_gt_ZERO by done. bn_simpl. destruct (Z.ltb_spec v2 b1) as [Hlt|Hge].
  - rewrite bn_div_law, quot_nonneg by lia. run_result.
    eexists. split; [reflexivity|]. split; [done|]. split; [lia|].
    split; [apply Z.div_pos; lia | apply Z.div_le_upper_bound; lia].
  - assert (Hh : 0 <= (v2 - b1) / 2 <= v2)
      by (split; [apply Z.div_pos; lia | apply Z.div_le_upper_bound; lia]).
    rewrite bn_div_law, quot_nonneg by lia. run_result.
    rewrite preciseMul_nonneg_eq by lia. run_result.
    eexists. split; [reflexivity|]. split; [lia|]. split; [done|].
    split; [apply Z.div_pos; nia | apply Z.div_le_upper_bound; nia].
Qed.

(** [getReservesSafe] returns the reserves in the order of its arguments
    exactly when the string order of the two addresses agrees with the order
    of the pair, which sorts by address value, i.e. by lower-case string. *)
Theorem getReservesSafe_order one two lp r0 r1 :
  pair_getReserves lp = Ok (r0, r1) -> r0 <> r1 -> one <> two ->
  getReservesSafe one two lp =
    Ok (if str_lt (toLowerCase one) (toLowerCase two) then (r0, r1) else (r1, r0)) <->
  str_lt one two = str_lt (toLowerCase one) (toLowerCase two).
Proof.
  intros E Hr Hne. unfold getReservesSafe. rewrite E. run_result. cbn [fst snd].
  destruct (str_lt one two), (str_lt (toLowerCase one) (toLowerCase two));
    rewrite ?bool_decide_eq_true_2, ?(bool_decide_eq_false_2 (one = two)) by done;
    split; congruence.
Qed.

End UniswapUtils.

(** ** Concrete runs that leave the intended behaviour *)

(** The string comparison stops Newton's iteration early: [sqrt 40] is 11. *)
Example sqrt_40 : sqrt (Obj 40) = Some (Ok 11).
Proof. vm_compute. reflexivity. Qed.

(** ["10" > "3"] is false, so [sqrt 10] takes the branch for small values. *)
Example sqrt_10 : sqrt (Obj 10) = Some (Ok 1).
Proof. vm_compute. reflexivity. Qed.

(** ["10" < "9"]: the lexicographic minimum of 10 and 9 is 10. *)
Example min_10_9 : min 10 9 = 10.
Proof. vm_compute. reflexivity. Qed.

(** Two checksummed addresses that differ in letter case at the first digit:
    the reserves come back swapped. *)
Example getReservesSafe_swapped :
  getReservesSafe "0xa0" "0xB0" (mkPair (Ok (1, 2)) (Ok 0)) = Ok (2, 1).
Proof. vm_compute. reflexivity. Qed.

(** ** Witnesses *)

Definition sample_pair : Pair := mkPair (Ok (1000, 4000)) (Ok 500).
Definition sample_token (a : Address) (b : Z) : Token := mkToken a (fun _ => Ok b).

Lemma first_deposit_witness :
  calculateLPTokensIssued (mkPair (Ok (0, 0)) (Ok 0)) 5 5 =
    Some (a ← bn_div (5 * 0) 0; b ← bn_div (5 * 0) 0; Ok (min a b)) /\
  (0 = 0 -> exists e, calculateLPTokensIssued (mkPair (Ok (0, 0)) (Ok 0)) 5 5 = Some (Throw e)).
Proof. apply (first_deposit_branch_dead (mkPair (Ok (0, 0)) (Ok 0)) 0 0 0 5 5); reflexivity. Defined.

Lemma pro_rata_witness :
  calculateLPTokensIssued sample_pair 30 100 = Some (Ok (Z.min (30 * 500 / 1000) (100 * 500 / 4000))).
Proof.
  apply (calculateLPTokensIssued_pro_rata sample_pair 1000 4000 500 30 100); eval_side.
Defined.

Lemma rebalance_witness :
  exists q, calculateRebalanceQuantity 0 "set" (sample_token "a" 100) (sample_token "b" 40)
      (10 ^ 18) 0 0 =
    Ok (if 0 <? 0 then 0 else q,
        if 40 * PRECISE_UNIT / 10 ^ 18 <? 100 then "a"%string else "b"%string,
        if 40 * PRECISE_UNIT / 10 ^ 18 <? 100 then "b"%string else "a"%string) /\
    (40 * PRECISE_UNIT / 10 ^ 18 < 100 -> q = (100 - 40 * PRECISE_UNIT / 10 ^ 18) / 2) /\
    (100 <= 40 * PRECISE_UNIT / 10 ^ 18 ->
       q = (40 * PRECISE_UNIT / 10 ^ 18 - 100) / 2 * 10 ^ 18 / PRECISE_UNIT) /\
    0 <= q <= (if 40 * PRECISE_UNIT / 10 ^ 18 <? 100 then 100 else 40).
Proof.
  apply (calculateRebalanceQuantity_spec 0 "set" (sample_token "a" 100) (sample_token "b" 40)
    (10 ^ 18) 100 40); eval_side.
Defined.

Lemma getReservesSafe_witness :
  getReservesSafe "0xa0" "0xb0" sample_pair =
    Ok (if str_lt (toLowerCase "0xa0") (toLowerCase "0xb0") then (1000, 4000) else (4000, 1000)) <->
  str_lt "0xa0" "0xb0" = str_lt (toLowerCase "0xa0") (toLowerCase "0xb0").
Proof. apply (getReservesSafe_order "0xa0" "0xb0" sample_pair 1000 4000); (reflexivity || discriminate). Defined.
