(* ===== verification/ExchangeIssuanceUtils.v ===== *)
(** * Exchange issuance expectations

    [utils/common/exchangeIssuanceUtils.ts]: what issuing or redeeming a
    SetToken against ETH, a token or USDC should cost or yield, given two
    Uniswap-V2 style exchanges. The calls to the deployed factories, routers,
    quoter, modules and SetToken are functions of the views below. *)

From S2P Require Import Prelude JsString Ethers Constants UnitsUtils.
From Stdlib Require Import Ascii String.

Local Open Scope Z_scope.

(** A factory with its router. *)
Record Exchange := mkExchange {
  getPair : Address -> Address -> result Address;
  getAmountsOut : Z -> list Address -> result (list Z);
  getAmountsIn : Z -> list Address -> result (list Z);
}.

Record SetTokenView := mkSetTokenView {
  set_address : Address;
  getComponents : result (list Address);
  getDefaultPositionRealUnit : Address -> result Z;
}.

(** [l[i]] of a JavaScript array; using an absent element throws. *)
Definition at_index {A} (l : list A) (i : nat) : result A :=
  match l !! i with Some x => Ok x | None => Throw "undefined" end.

Section ExchangeIssuanceUtils.
Context `{BN : BigNumber} `{EU : EthersUtils}.
Context (uniswap sushiswap : Exchange) (weth : Address).

Definition hasPair (factory : Exchange) (tokenA tokenB : Address) : result bool :=
  p ← getPair factory tokenA tokenB; Ok (negb (bool_decide (p = ADDRESS_ZERO))).

(** [hasPair ? (await router.getAmountsIn(..))[0] : MAX_UINT_256]. *)
Definition quoteIn (ex : Exchange) (tokenA tokenB : Address) (amountOut : Z)
    (path : list Address) : result Z :=
  has ← hasPair ex tokenA tokenB;
  if has : bool then l ← getAmountsIn ex amountOut path; at_index l 0 else Ok MAX_UINT_256.

(** [hasPair ? (await router.getAmountsOut(..))[1] : 0]. *)
Definition quoteOut (ex : Exchange) (tokenA tokenB : Address) (amountIn : Z)
    (path : list Address) : result Z :=
  has ← hasPair ex tokenA tokenB;
  if has : bool then l ← getAmountsOut ex amountIn path; at_index l 1 else Ok 0.

Definition getInputAmountBestPrice (token : Address) (amountIn : Z) : result Z :=
  if bool_decide (token <> weth) then
    uniAmount ← quoteIn uniswap weth token amountIn [weth; token];
    sushiAmount ← quoteIn sushiswap weth token amountIn [weth; token];
    Ok (if bn_lt sushiAmount uniAmount then sushiAmount else uniAmount)
  else Ok amountIn.

(** First loop of [getIssueSetForExactETH]: ETH needed per component, and the sum. *)
Definition ethForComponent (setToken : SetTokenView) (component : Address) : result Z :=
  unit ← getDefaultPositionRealUnit setToken component;
  if bool_decide (component = weth) then Ok unit
  else
    uniAmount ← quoteIn uniswap weth component unit [weth; component];
    sushiAmount ← quoteIn sushiswap weth component unit [weth; component];
    Ok (if bn_lt uniAmount sushiAmount then uniAmount else sushiAmount).

Definition ethForComponents (setToken : SetTokenView) (components : list Address)
    : result (list Z * Z) :=
  foldM (fun acc component =>
    amountEthForComponent ← ethForComponent setToken component;
    Ok (acc.1 ++ [amountEthForComponent], bn_add acc.2 amountEthForComponent))
    ([], 0) components.

(** Output of the second loop's body for one component. *)
Definition potentialOut (setToken : SetTokenView) (component : Address) (scaledEth : Z)
    : result Z :=
  unit ← getDefaultPositionRealUnit setToken component;
  amountComponentOut ←
    (if bool_decide (component = weth) then Ok scaledEth
     else
       uniAmount ← quoteOut uniswap weth component scaledEth [weth; component];
       sushiAmount ← quoteOut sushiswap weth component scaledEth [weth; component];
       Ok (if bn_gt uniAmount sushiAmount then uniAmount else sushiAmount));
  one ← ether (Number 1);
  bn_div (bn_mul amountComponentOut one) unit.

Definition scaleEth (ethInput sumEth amountEth : Z) : result Z :=
  bn_div (bn_mul amountEth ethInput) sumEth.

Definition getIssueSetForExactETH (setToken : SetTokenView) (ethInput : Z) : result Z :=
  components ← getComponents setToken;
  needed ← ethForComponents setToken components;
  foldM (fun expectedOutput (ca : Address * Z) =>
    scaledEth ← scaleEth ethInput needed.2 ca.2;
    potentialSetTokenOut ← potentialOut setToken ca.1 scaledEth;
    Ok (if bn_lt potentialSetTokenOut expectedOutput then potentialSetTokenOut
        else expectedOutput))
    MAX_UINT_256 (combine components needed.1).

Definition getIssueSetForExactToken (setToken : SetTokenView) (inputToken : Address)
    (inputAmount : Z) : result Z :=
  ethInput ←
    (if bool_decide (inputToken <> weth) then
       l ← getAmountsOut uniswap inputAmount [inputToken; weth]; at_index l 1
     else Ok inputAmount);
  getIssueSetForExactETH setToken ethInput.

(** [amountSet.mul(unit).div(ether(1))]. *)
Definition componentAmount (setToken : SetTokenView) (amountSet : Z) (c : Address) : result Z :=
  unit ← getDefaultPositionRealUnit setToken c;
  one ← ether (Number 1);
  bn_div (bn_mul amountSet unit) one.

Definition getIssueExactSetFromETH (setToken : SetTokenView) (amountSet : Z) : result Z :=
  components ← getComponents setToken;
  foldM (fun sumEth c =>
    amt ← componentAmount setToken amountSet c;
    ethAmount ← getInputAmountBestPrice c amt;
    Ok (bn_add sumEth ethAmount)) 0 components.

Definition getIssueExactSetFromToken (setToken : SetTokenView) (inputToken : Address)
    (amountSet : Z) : result Z :=
  ethCost ← getIssueExactSetFromETH setToken amountSet;
  if bool_decide (inputToken = weth) then Ok ethCost
  else
    uniAmount ← quoteIn uniswap weth inputToken ethCost [inputToken; weth];
    sushiAmount ← quoteIn sushiswap weth inputToken ethCost [inputToken; weth];
    Ok (if bn_lt uniAmount sushiAmount then uniAmount else sushiAmount).

Definition getIssueExactSetFromTokenRefund (setToken : SetTokenView) (inputToken : Address)
    (inputAmount amountSet : Z) : result Z :=
  ethCost ← getIssueExactSetFromETH setToken amountSet;
  inputEthValue ←
    (if bool_decide (inputToken = weth) then Ok inputAmount
     else l ← getAmountsOut uniswap inputAmount [inputToken; weth]; at_index l 1);
  Ok (bn_sub inputEthValue ethCost).

Definition redeemComponent (setToken : SetTokenView) (amountSet : Z) (c : Address) : result Z :=
  amt ← componentAmount setToken amountSet c;
  if bool_decide (c <> weth) then
    uniAmount ← quoteOut uniswap weth c amt [c; weth];
    sushiAmount ← quoteOut sushiswap weth c amt [c; weth];
    Ok (if bn_gt sushiAmount uniAmount then sushiAmount else uniAmount)
  else Ok amt.

Definition getRedeemExactSetForETH (setToken : SetTokenView) (amountSet : Z) : result Z :=
  components ← getComponents setToken;
  foldM (fun sumEth c =>
    ethAmount ← redeemComponent setToken amountSet c; Ok (bn_add sumEth ethAmount))
    0 components.

Definition getRedeemExactSetForToken (setToken : SetTokenView) (outputToken : Address)
    (amountSet : Z) : result Z :=
  ethOut ← getRedeemExactSetForETH setToken amountSet;
  if bool_decide (outputToken = weth) then Ok ethOut
  else l ← getAmountsOut uniswap ethOut [weth; outputToken]; at_index l 1.

End ExchangeIssuanceUtils.

Section Usdc.
Context `{BN : BigNumber}.

(** The issuance (redemption) units of the slippage module, and the static
    call of the Uniswap V3 quoter on the fixed route. *)
Definition getUsdcAmountInForExactSet (usdc : Address)
    (getRequiredComponentIssuanceUnitsOffChain : Address -> Z -> result (list Address * list Z))
    (quoteExactOutput : string -> Z -> result Z) (setToken : Address) (amountOut : Z)
    (spotToUsdcRoute : string) : result Z :=
  required ← getRequiredComponentIssuanceUnitsOffChain setToken amountOut;
  foldM (fun total i =>
    c ← at_index required.1 i;
    u ← at_index required.2 i;
    if bool_decide (c = usdc) then Ok (bn_add total u)
    else q ← quoteExactOutput spotToUsdcRoute (bn_add u 1); Ok (bn_add total q))
    0 (seq 0 (List.length required.1)).

Definition getUsdcAmountOutForExactSet (usdc : Address)
    (getRequiredComponentRedemptionUnitsOffChain : Address -> Z -> result (list Address * list Z))
    (quoteExactInput : string -> Z -> result Z) (setToken : Address) (amountIn : Z)
    (spotToUsdcRoute : string) : result Z :=
  required ← getRequiredComponentRedemptionUnitsOffChain setToken amountIn;
  foldM (fun total i =>
    c ← at_index required.1 i;
    u ← at_index required.2 i;
    if bool_decide (c = usdc) then Ok (bn_add total u)
    else q ← quoteExactInput spotToUsdcRoute (bn_sub u 1); Ok (bn_add total q))
    0 (seq 0 (List.length required.1)).

End Usdc.

Section Path.
Context `{EU : EthersUtils}.

Definition FEE_SIZE : nat := 6.

Definition encodeFee (fee : Z) : result string :=
  h ← hexlify fee; Ok (padStart FEE_SIZE "0" (slice 2 h)).

Definition encodePath (path : list Address) (fees : list Z) : result string :=
  if negb (List.length path =? List.length fees + 1)%nat then Throw "path/fee lengths do not match"
  else
    encoded ← foldM (fun encoded i =>
      p ← at_index path i;
      fee ← at_index fees i;
      f ← encodeFee fee;
      Ok (encoded ++ slice 2 p ++ f)%string) "0x"%string (seq 0 (List.length fees));
    last ← at_index path (List.length path - 1);
    Ok (toLowerCase (encoded ++ slice 2 last)).

End Path.

(** ** [getAllowances]

    [tokens.forEach(async token => { allowances.push(...await ...) })] starts
    one callback per token and does not wait for them. The state of the array
    and of the callbacks still pending: *)
Record AllowancesRun := mkRun {
  run_array : list Z;
  run_pending : list (result (list Z));
}.

(** The batch a callback waits for: the allowance of the owner to each spender. *)
Definition allowanceBatch (allowance : Address -> Address -> Address -> result Z)
    (owner : Address) (spenders : list Address) (token : Address) : result (list Z) :=
  mapM (allowance token owner) spenders.

(** The run at the moment [getAllowances] returns its array. *)
Definition getAllowances (allowance : Address -> Address -> Address -> result Z)
    (tokens : list Address) (owner : Address) (spenders : list Address) : AllowancesRun :=
  mkRun [] (map (allowanceBatch allowance owner spenders) tokens).

(** The event loop resumes the callbacks in any order; a callback whose call
    failed pushes nothing. *)
Inductive resume : AllowancesRun -> AllowancesRun -> Prop :=
  | resume_push arr pre batch post :
      resume (mkRun arr (pre ++ Ok batch :: post)) (mkRun (arr ++ batch) (pre ++ post))
  | resume_reject arr pre e post :
      resume (mkRun arr (pre ++ Throw e :: post)) (mkRun arr (pre ++ post)).

(** ** Lemmas *)

Section Facts.
Context `{BN : BigNumber} `{EU : EthersUtils}.
Context (uniswap sushiswap : Exchange) (weth : Address).

(** A loop [for i] over two arrays of the same length reads their pairs in order. *)
Lemma foldM_indices {A B C} (cs : list A) (us : list B) (f : C -> A * B -> result C) acc :
  List.length us = List.length cs ->
  foldM (fun acc i => c ← at_index cs i; u ← at_index us i; f acc (c, u)) acc
    (seq 0 (List.length cs)) = foldM f acc (combine cs us).
Proof.
  revert us acc; induction cs as [|c cs IH]; intros [|u us] acc; try done.
  cbn [List.length]. intros [= Hl]. cbn [seq foldM combine].
  change (at_index (c :: cs) 0) with (Ok c). change (at_index (u :: us) 0) with (Ok u).
  run_result. destruct (f acc (c, u)); run_result; [|done].
  rewrite <- IH by done. rewrite <- seq_shift, foldM_map. reflexivity.
Qed.

(** Floors of proportional shares of [e] never add up to more than [e]. *)
Lemma proportional_floor_sum e s l :
  0 <= e -> 0 < s -> Forall (fun x => 0 <= x) l -> zsum l <= s ->
  zsum (map (fun x => x * e ÷ s) l) <= e.
Proof.
  intros He Hs Hl Hle.
  assert (H : zsum (map (fun x => x * e ÷ s) l) * s <= zsum l * e).
  { clear Hle. induction Hl as [|x l Hx Hl IH]; cbn [map zsum]; [lia|].
    pose proof (quot_floor_bounds (x * e) s ltac:(nia) Hs). lia. }
  assert (zsum (map (fun x => x * e ÷ s) l) * s <= e * s) by nia.
  by apply (Z.mul_le_mono_pos_r _ _ s).
Qed.

Lemma ethForComponents_eq setToken l acc s :
  foldM (fun acc component =>
    amountEthForComponent ← ethForComponent uniswap sushiswap weth setToken component;
    Ok (acc.1 ++ [amountEthForComponent], bn_add acc.2 amountEthForComponent)) (acc, s) l =
  (ys ← mapM (ethForComponent uniswap sushiswap weth setToken) l;
   Ok (acc ++ ys, s + zsum ys)).
Proof.
  revert acc s; induction l as [|x l IH]; intros acc s; cbn [foldM mapM].
  - run_result. cbn [zsum]. rewrite app_nil_r. do 2 f_equal; lia.
  - destruct (ethForComponent _ _ _ _ x) as [y|e]; run_result; [|done].
    cbn [fst snd]. rewrite IH. bn_simpl.
    destruct (mapM _ l); run_result; [|done].
    rewrite <- app_assoc. cbn [zsum app]. do 2 f_equal; lia.
Qed.

(** ** Theorems *)

(** The price paid for a component is the cheapest quote over the two
    exchanges, an exchange without the pair counting as infinitely expensive
    (2^256 - 1); WETH itself costs its amount. *)
Theorem getInputAmountBestPrice_cheapest token amount u s :
  quoteIn uniswap weth token amount [weth; token] = Ok u ->
  quoteIn sushiswap weth token amount [weth; token] = Ok s ->
  getInputAmountBestPrice uniswap sushiswap weth token amount =
    Ok (if bool_decide (token = weth) then amount else Z.min u s).
Proof.
  intros Hu Hs. unfold getInputAmountBestPrice. rewrite Hu, Hs. run_result. bn_simpl.
  destruct (decide (token = weth)) as [E|E].
  - rewrite bool_decide_eq_false_2 by tauto. by rewrite bool_decide_eq_true_2.
  - rewrite bool_decide_eq_true_2, bool_decide_eq_false_2 by done.
    f_equal. case_Z; lia.
Qed.

(** The ETH cost of an exact issuance is the sum over the components of
    their best prices, and fails exactly when the price of one of them fails. *)
Theorem getIssueExactSetFromETH_sum setToken amountSet components :
  getComponents setToken = Ok components ->
  getIssueExactSetFromETH uniswap sushiswap weth setToken amountSet =
    (prices ← mapM (fun c => amt ← componentAmount setToken amountSet c;
                     getInputAmountBestPrice uniswap sushiswap weth c amt) components;
     Ok (zsum prices)).
Proof.
  intros E. unfold getIssueExactSetFromETH. rewrite E. run_result.
  rewrite <- (bind_ext_result _ (fun ys => Ok (0 + zsum ys))) by (intros; f_equal; lia).
  rewrite <- foldM_sum. apply foldM_ext. intros acc c _. by rewrite bind_assoc_result.
Qed.

(** The ETH that [getIssueSetForExactETH] allots to the components is
    floored per component and never adds up to more than the ETH given. *)
Theorem eth_allotment_within_budget setToken components amounts sumEth ethInput allotted :
  getComponents setToken = Ok components ->
  ethForComponents uniswap sushiswap weth setToken components = Ok (amounts, sumEth) ->
  Forall (fun x => 0 <= x) amounts -> 0 < sumEth -> 0 <= ethInput ->
  mapM (scaleEth ethInput sumEth) amounts = Ok (allotted : list Z) ->
  List.length allotted = List.length components /\ zsum allotted <= ethInput.
Proof.
  intros Hc Hn Hpos Hsum He Hm. unfold ethForComponents in Hn.
  rewrite ethForComponents_eq in Hn. inv_result. cbn [app] in *.
  assert (Ha : allotted = map (fun x => x * ethInput ÷ (0 + zsum amounts)) amounts).
  { apply mapM_Ok_Forall2 in Hm. clear -Hm Hsum.
    revert Hm Hsum. generalize (0 + zsum amounts) as s. intros s Hm Hsum.
    induction Hm as [|x y l l' Hxy _ IH]; [done|]. cbn [map]. f_equal; [|done].
    unfold scaleEth in Hxy. revert Hxy. bn_simpl. rewrite bn_div_law by lia. by intros [= <-]. }
  subst allotted. split.
  - rewrite length_map. apply mapM_Ok_Forall2 in E. by apply Forall2_length in E.
  - apply proportional_floor_sum; try done; lia.
Qed.

(** C37: The SetToken quantity it returns is affordable: it is at most what each
    component's allotment buys, and it is one of these amounts or 2^256 - 1, the cap
    it starts from, as it is without a component. *)
Theorem getIssueSetForExactETH_minimum setToken ethInput r components amounts sumEth :
  getComponents setToken = Ok components ->
  ethForComponents uniswap sushiswap weth setToken components = Ok (amounts, sumEth) ->
  getIssueSetForExactETH uniswap sushiswap weth setToken ethInput = Ok r ->
  exists outs, mapM (fun ca : Address * Z => sc ← scaleEth ethInput sumEth ca.2;
      potentialOut uniswap sushiswap weth setToken ca.1 sc) (combine components amounts) = Ok outs /\
    Forall (fun o => r <= o) outs /\ (r = MAX_UINT_256 \/ r ∈ outs).
Proof.
  intros Hc Hn. unfold getIssueSetForExactETH. rewrite Hc. run_result. rewrite Hn. run_result. cbn [fst snd].
  generalize MAX_UINT_256 as m. generalize (combine components amounts) as l.
  set (body := fun ca : Address * Z => sc ← scaleEth ethInput sumEth ca.2;
         potentialOut uniswap sushiswap weth setToken ca.1 sc).
  intros l m H.
  assert (G : exists outs, mapM body l = Ok outs /\ Forall (fun o => r <= o) outs /\
      r <= m /\ (r = m \/ r ∈ outs)); [|naive_solver].
  revert m H. induction l as [|ca l IH]; intros m H; cbn [foldM mapM] in *.
  - inv_result. exists []. split_and!; [done|constructor|lia|by left].
  - inv_result. apply IH in H as (outs & Hm & Hall & Hle & Hin).
    assert (Hb : body (a, z) = Ok a1) by (unfold body; cbn [fst snd]; by rewrite E0).
    exists (a1 :: outs). rewrite Hb. run_result. rewrite Hm. run_result. revert Hall Hle Hin. bn_simpl.
    case_Z; intros Hall Hle Hin; split_and!; try done.
    all: try (constructor; [lia|done]); try lia.
    all: destruct Hin as [->|Hin]; set_solver.
Qed.

(** The quoted USDC input is the USDC component's own units plus, for every
    other component, the quote of one wei more than its units; it fails exactly
    when a quote fails. *)
Lemma getUsdcAmountInForExactSet_sum usdc required quote setToken amountOut route cs us :
  required setToken amountOut = Ok (cs, us) -> List.length us = List.length cs ->
  getUsdcAmountInForExactSet usdc required quote setToken amountOut route =
    (parts ← mapM (fun cu : Address * Z =>
        if bool_decide (cu.1 = usdc) then Ok cu.2 else quote route (cu.2 + 1)) (combine cs us);
     Ok (zsum parts)).
Proof.
  intros Hr Hl. unfold getUsdcAmountInForExactSet. rewrite Hr. run_result. cbn [fst snd].
  rewrite <- (bind_ext_result _ (fun ys => Ok (0 + zsum ys))) by (intros; f_equal; lia).
  rewrite <- foldM_sum, <- (foldM_indices cs us) by done.
  apply foldM_ext. intros acc i Hi. destruct (at_index cs i); run_result; [|done].
  destruct (at_index us i); run_result; [|done]. bn_simpl.
  cbn [fst snd]. destruct (bool_decide _); run_result; by bn_simpl.
Qed.

End Facts.

(** ** The encoded path *)

Section PathFacts.
Context `{EU : EthersUtils}.

(** The reader of an encoded path: 40 digits of address, then 6 digits of fee
    and 40 of address per hop. *)
Fixpoint decodeHops (n : nat) (s : string) : list string * list Z :=
  match n with
  | O => ([take_str 40 s], [])
  | S n' =>
      let rest := decodeHops n' (slice 46 s) in
      (take_str 40 s :: rest.1, hex_value 0 (take_str 6 (slice 40 s)) :: rest.2)
  end.

Definition decodePath (n : nat) (s : string) : list string * list Z := decodeHops n (slice 2 s).

(** The digits after "0x" of a path, as a recursive function. *)
Fixpoint hops (path : list Address) (fees : list Z) : string :=
  match fees, path with
  | fee :: fees', p :: path' =>
      (slice 2 p ++ padStart FEE_SIZE "0" (slice 2 (data_hex fee)) ++ hops path' fees')%string
  | [], [p] => slice 2 p
  | _, _ => EmptyString
  end.

Lemma encodeFee_data fee : 0 <= fee < 2 ^ 24 ->
  encodeFee fee = Ok (padStart FEE_SIZE "0" (slice 2 (data_hex fee))).
Proof. intros H. unfold encodeFee. by rewrite hexlify_law by lia. Qed.

Lemma length_fee fee : 0 <= fee < 2 ^ 24 ->
  String.length (padStart FEE_SIZE "0" (slice 2 (data_hex fee))) = 6%nat.
Proof.
  intros H. apply length_padStart. unfold data_hex.
  rewrite slice_app by done. rewrite length_hex_digits. unfold FEE_SIZE.
  pose proof (byte_length_bound fee 3 ltac:(lia) ltac:(lia)). lia.
Qed.

Lemma fee_value fee : 0 <= fee < 2 ^ 24 ->
  hex_value 0 (toLowerCase (padStart FEE_SIZE "0" (slice 2 (data_hex fee)))) = fee.
Proof.
  intros H. unfold data_hex, padStart. rewrite slice_app by done.
  rewrite toLowerCase_app, hex_value_app, toLowerCase_hex_digits, toLowerCase_zeros,
    hex_value_zeros, hex_value_digits by lia. apply data_hex_range; lia.
Qed.

Lemma foldM_hops path fees acc :
  List.length path = S (List.length fees) -> Forall (fun fee => 0 <= fee < 2 ^ 24) fees ->
  (encoded ← foldM (fun encoded i =>
      p ← at_index path i; fee ← at_index fees i; f ← encodeFee fee;
      Ok (encoded ++ slice 2 p ++ f)%string) acc (seq 0 (List.length fees));
   last ← at_index path (List.length path - 1);
   Ok (encoded ++ slice 2 last)%string) = Ok (acc ++ hops path fees)%string.
Proof.
  revert path acc; induction fees as [|fee fees IH]; intros [|p path] acc; cbn [List.length];
    intros Hl HF; try done; injection Hl as Hl.
  - destruct path; [|done]. reflexivity.
  - inversion_clear HF. cbn [seq foldM]. change (at_index (p :: path) 0) with (Ok p).
    change (at_index (fee :: fees) 0) with (Ok fee). run_result.
    rewrite encodeFee_data by done. run_result.
    rewrite <- seq_shift, foldM_map. destruct path as [|p' path]; [done|].
    transitivity (Ok ((acc ++ slice 2 p ++ padStart FEE_SIZE "0" (slice 2 (data_hex fee)))
      ++ hops (p' :: path) fees)%string).
    + rewrite <- IH by done. cbn [List.length]. by rewrite !Nat.sub_succ, !Nat.sub_0_r.
    + f_equal. cbn [hops]. by rewrite !app_str_assoc.
Qed.

Lemma encodePath_hops path fees :
  List.length path = S (List.length fees) -> Forall (fun fee => 0 <= fee < 2 ^ 24) fees ->
  encodePath path fees = Ok (toLowerCase ("0x" ++ hops path fees)).
Proof.
  intros Hl HF. unfold encodePath. rewrite Hl, Nat.add_1_r, Nat.eqb_refl. cbn [negb].
  pose proof (foldM_hops path fees "0x" Hl HF) as E.
  destruct (foldM _ _ _) as [enc|]; run_result; [|done]. rewrite Hl in E.
  destruct (at_index path _) as [lst|]; run_result; [|done]. do 2 f_equal.
  by injection E.
Qed.

Lemma decodeHops_hops path fees :
  List.length path = S (List.length fees) ->
  Forall (fun p => String.length p = 42%nat) path ->
  Forall (fun fee => 0 <= fee < 2 ^ 24) fees ->
  decodeHops (List.length fees) (toLowerCase (hops path fees)) =
    (map (fun p => toLowerCase (slice 2 p)) path, fees).
Proof.
  revert path; induction fees as [|fee fees IH]; intros [|p path]; cbn [List.length];
    intros Hl HP HF; try done; injection Hl as Hl; inversion_clear HP as [|? ? Hp HP'].
  - destruct path; [|done]. cbn [hops decodeHops map].
    rewrite take_str_all by (rewrite length_toLowerCase, length_slice; lia). done.
  - inversion_clear HF as [|? ? Hf HF']. cbn [hops decodeHops map].
    assert (L1 : String.length (toLowerCase (slice 2 p)) = 40%nat)
      by (rewrite length_toLowerCase, length_slice; lia).
    pose proof (length_fee fee Hf) as L2. rewrite <- length_toLowerCase in L2.
    rewrite !toLowerCase_app. rewrite (take_str_app 40), (slice_app 40), (take_str_app 6) by done.
    rewrite <- (app_str_assoc _ (toLowerCase (padStart _ _ _))).
    rewrite (slice_app 46) by (rewrite length_app_str; lia).
    rewrite IH by done. cbn [fst snd]. by rewrite fee_value.
Qed.

(** C39: An encoded path can be read back: [encodePath] rejects exactly the
    calls with a wrong number of fees, and otherwise the lower-cased addresses
    and the 3-byte fees stand at their offsets in the result. *)
Theorem encodePath_roundtrip path fees :
  Forall (fun p => String.length p = 42%nat) path ->
  Forall (fun fee => 0 <= fee < 2 ^ 24) fees ->
  if (List.length path =? List.length fees + 1)%nat then
    exists s, encodePath path fees = Ok s /\
      decodePath (List.length fees) s = (map (fun p => toLowerCase (slice 2 p)) path, fees)
  else encodePath path fees = Throw "path/fee lengths do not match".
Proof.
  intros HP HF. destruct (Nat.eqb_spec (List.length path) (List.length fees + 1)) as [E|E].
  - rewrite Nat.add_1_r in E. exists (toLowerCase ("0x" ++ hops path fees)). split.
    + by apply encodePath_hops.
    + unfold decodePath. rewrite toLowerCase_app, (slice_app 2) by done.
      by apply decodeHops_hops.
  - unfold encodePath. destruct (_ =? _)%nat eqn:E'; [by apply Nat.eqb_eq in E'|done].
Qed.

End PathFacts.

(** ** Allowances *)

(** The batches of the callbacks that succeed. *)
Definition delivered (rs : list (result (list Z))) : list Z :=
  List.concat (omap (fun r : result (list Z) => match r with Ok b => Some b | Throw _ => None end) rs).

Lemma delivered_app rs1 rs2 : delivered (rs1 ++ rs2) = delivered rs1 ++ delivered rs2.
Proof. unfold delivered. by rewrite omap_app, List.concat_app. Qed.

(** What has been pushed and what is still to be pushed never changes. *)
Lemma resume_delivered s t : resume s t ->
  run_array s ++ delivered (run_pending s) ≡ₚ run_array t ++ delivered (run_pending t).
Proof.
  destruct 1; cbn [run_array run_pending]; rewrite !delivered_app; [|done].
  change (delivered (Ok batch :: post)) with (batch ++ delivered post).
  rewrite <- !app_assoc. apply Permutation_app_head. rewrite !app_assoc.
  apply Permutation_app_tail, Permutation_app_comm.
Qed.

Lemma resume_delivered_rtc s t : rtc resume s t ->
  run_array s ++ delivered (run_pending s) ≡ₚ run_array t ++ delivered (run_pending t).
Proof. induction 1 as [|s u t Hs _ IH]; [done|]. by rewrite (resume_delivered s u). Qed.

(** A run with pending callbacks can go on, and ends. *)
Lemma resume_progress s : run_pending s <> [] -> exists t, resume s t.
Proof.
  destruct s as [arr [|[b|e] post]]; cbn [run_pending]; intros H; [done| |].
  - eexists. apply (resume_push arr []).
  - eexists. apply (resume_reject arr []).
Qed.

Lemma resume_terminates s : exists arr, rtc resume s (mkRun arr []).
Proof.
  destruct s as [arr pending]. revert arr.
  induction pending as [|[b|e] post IH]; intros arr; [by exists arr|..].
  - destruct (IH (arr ++ b)) as [arr' H]. exists arr'.
    eapply rtc_l; [apply (resume_push arr [] b post)|exact H].
  - destruct (IH arr) as [arr' H]. exists arr'.
    eapply rtc_l; [apply (resume_reject arr [] e post)|exact H].
Qed.

(** [getAllowances] returns before any allowance has been read: its array is
    empty at that moment. It is filled later, and whatever the order in which
    the event loop resumes the callbacks, the run ends and leaves the
    allowances of exactly the tokens whose calls succeeded, in some order. *)
Theorem getAllowances_fills_later allowance tokens owner spenders :
  run_array (getAllowances allowance tokens owner spenders) = [] /\
  (exists arr, rtc resume (getAllowances allowance tokens owner spenders) (mkRun arr [])) /\
  (forall t, rtc resume (getAllowances allowance tokens owner spenders) t ->
    if bool_decide (run_pending t = []) then
      run_array t ≡ₚ delivered (map (allowanceBatch allowance owner spenders) tokens)
    else exists t', resume t t').
Proof.
  split_and!; [done | apply resume_terminates |]. intros t Ht.
  apply resume_delivered_rtc in Ht. cbn [run_array run_pending getAllowances app] in Ht.
  case_bool_decide as E; [|by apply resume_progress].
  rewrite E in Ht. change (delivered []) with (@nil Z) in Ht. by rewrite app_nil_r in Ht.
Qed.

(** ** Concrete instances *)

Section Instances.

(** One exchange quotes twice the amount, the other three times; the second has
    no pair for "C". *)
Definition pair_ex (k : Z) (missing : Address) : Exchange := {|
  getPair := fun _ b => Ok (if bool_decide (b = missing) then ADDRESS_ZERO else "pair"%string);
  getAmountsOut := fun x _ => Ok [x; x ÷ k];
  getAmountsIn := fun x _ => Ok [x * k; x] |}.

Definition view3 : SetTokenView := {|
  set_address := "set"; getComponents := Ok ["weth"; "B"; "C"]%string;
  getDefaultPositionRealUnit := fun _ => Ok (10 ^ 18) |}.

Example issue_three :
  getIssueSetForExactETH (pair_ex 2 "none") (pair_ex 3 "C") "weth" view3 (10 ^ 18) =
    Ok 200000000000000000.
Proof. vm_compute. reflexivity. Qed.

Lemma best_price_witness :
  getInputAmountBestPrice (pair_ex 2 "none") (pair_ex 3 "C") "weth" "B" 5 = Ok 10.
Proof.
  exact (getInputAmountBestPrice_cheapest (pair_ex 2 "none") (pair_ex 3 "C") "weth" "B" 5
    10 15 eq_refl eq_refl).
Defined.

Lemma issue_exact_witness :
  exists r, getIssueExactSetFromETH (pair_ex 2 "none") (pair_ex 3 "C") "weth" view3 7 = r.
Proof.
  eexists. exact (getIssueExactSetFromETH_sum (pair_ex 2 "none") (pair_ex 3 "C") "weth"
    view3 7 ["weth"; "B"; "C"]%string eq_refl).
Defined.

Lemma allotment_witness : List.length [2; 4; 4] = List.length ["weth"; "B"; "C"]%string /\
  zsum [2; 4; 4] <= 10.
Proof.
  apply (eth_allotment_within_budget (pair_ex 2 "none") (pair_ex 3 "C") "weth" view3
    ["weth"; "B"; "C"]%string [10 ^ 18; 2 * 10 ^ 18; 2 * 10 ^ 18] (5 * 10 ^ 18) 10);
    try (by vm_compute); by repeat constructor.
Defined.

Lemma issue_minimum_witness :
  exists outs, mapM (fun ca : Address * Z => sc ← scaleEth (10 ^ 18) (5 * 10 ^ 18) ca.2;
      potentialOut (pair_ex 2 "none") (pair_ex 3 "C") "weth" view3 ca.1 sc)
      (combine ["weth"; "B"; "C"]%string [10 ^ 18; 2 * 10 ^ 18; 2 * 10 ^ 18]) = Ok outs /\
    Forall (fun o => 200000000000000000 <= o) outs /\
    (200000000000000000 = MAX_UINT_256 \/ 200000000000000000 ∈ outs).
Proof.
  apply (getIssueSetForExactETH_minimum (pair_ex 2 "none") (pair_ex 3 "C") "weth" view3
    (10 ^ 18)); by vm_compute.
Defined.

Definition addrA : Address := "0xAAAAAAAAAAAAAAAAAAAAAAAAAAAAAAAAAAAAAAAA".
Definition addrB : Address := "0xBBBBBBBBBBBBBBBBBBBBBBBBBBBBBBBBBBBBBBBB".

Lemma encodePath_witness :
  exists s, encodePath [addrA; addrB] [3000] = Ok s /\
    decodePath 1 s = ([toLowerCase (slice 2 addrA); toLowerCase (slice 2 addrB)], [3000]).
Proof.
  apply (encodePath_roundtrip [addrA; addrB] [3000]); repeat constructor; done.
Defined.

End Instances.
