(* ===== verification/PerpV2Utils.v ===== *)
(** * Perpetual positions: expected prices, transfers and leverage

    [utils/common/perpV2Utils.ts], and the pure and read-only methods of
    [PerpV2Fixture] (utils/fixtures/perpV2Fixture.ts) it is built on. The
    deployed Perp contracts, the leverage module and the SetToken are the views
    [PerpFixture], [PerpModule] and [SetTokenSupply]: functions that give what
    a call returns, or the error it raises. *)

From S2P Require Import Prelude JsString Ethers Constants UnitsUtils MathUtils.
From Stdlib Require Import String.

Local Open Scope Z_scope.

(** The functions the fixture takes from the package jsbi: integers of any size. *)
Class JSBI := {
  jsbi_multiply : Z -> Z -> Z;
  jsbi_exponentiate : Z -> Z -> Z;
  jsbi_divide : Z -> Z -> result Z;
  jsbi_multiply_law a b : jsbi_multiply a b = a * b;
  jsbi_exponentiate_law a b : 0 <= b -> jsbi_exponentiate a b = a ^ b;
  jsbi_divide_law a b : b <> 0 -> jsbi_divide a b = Ok (a ÷ b);
}.

#[refine, export] Instance jsbi_ref : JSBI := {|
  jsbi_multiply := Z.mul; jsbi_exponentiate := Z.pow;
  jsbi_divide := fun a b => if b =? 0 then Throw "Division by zero" else Ok (a ÷ b) |}.
Proof. all: intros; try case_Z; done. Defined.

(** [IClearingHouse.OpenPositionParams]. *)
Record OpenPositionParams := mkOpenPosition {
  op_baseToken : Address; op_isBaseToQuote : bool; op_isExactInput : bool;
  op_amount : Z; op_oppositeAmountBound : Z; op_deadline : Z;
  op_sqrtPriceLimitX96 : Z; op_referralCode : string;
}.

(** What the fixture reads of the deployed Perp contracts. *)
Record PerpFixture := mkPerpFixture {
  pools : gmap Address (result Z);            (** [_pools]: slot0().sqrtPriceX96 of each pool *)
  openPosition : OpenPositionParams -> result (Z * Z);   (** callStatic: (base, quote) *)
  getFundingGrowthGlobalAndTwaps : Address -> result (Z * Z * Z);
  getIndexPrice : Address -> Z -> result Z;
  getImRatio : result Z;
  getPnlAndPendingFee : Address -> result (Z * Z * Z);
  getTotalDebtValue : Address -> result Z;
  getTotalAbsPositionValue : Address -> result Z;
}.

(** [interface PositionInfo] and the structs the module returns. *)
Record PositionInfo := mkPositionInfo { baseToken : Address; baseBalance : Z; quoteBalance : Z }.
Record PositionUnitInfo := mkPositionUnitInfo { unit_baseToken : Address; baseUnit : Z }.
Record AccountInfo := mkAccountInfo {
  collateralBalance : Z; owedRealizedPnl : Z; pendingFundingPayments : Z; netQuoteBalance : Z;
}.

(** The transactions [leverUp] may send. *)
Inductive TradeTx :=
  | tradeAndTrackFunding (sender setToken baseToken : Address) (baseUnit quoteUnit : Z)
  | trade (sender setToken baseToken : Address) (baseUnit quoteUnit : Z).

Record PerpModule (W : Type) := mkPerpModule {
  getAccountInfo : Address -> result AccountInfo;
  getPositionUnitInfo : Address -> result (list PositionUnitInfo);
  getPositionNotionalInfo : Address -> result (list PositionInfo);
  send : TradeTx -> W -> result W;
}.
Arguments getAccountInfo {W} _. Arguments getPositionUnitInfo {W} _.
Arguments getPositionNotionalInfo {W} _. Arguments send {W} _.

Record SetTokenSupply := mkSetTokenSupply { set_addr : Address; totalSupply : result Z }.

Section PerpV2Utils.
Context `{BN : BigNumber} `{EU : EthersUtils} `{JB : JSBI} {W : Type}.

(** ** Methods of the fixture *)

Definition getPriceFromSqrtPriceX96 (sqrtPriceX96 : Z) : result Z :=
  let priceX86 := sqrtPriceX96 in
  let squaredPrice := jsbi_multiply priceX86 priceX86 in
  let decimalsRatio := 10 ^ 18 in
  let denominator := jsbi_exponentiate 2 192 in
  let scaledPrice := jsbi_multiply squaredPrice decimalsRatio in
  jsbi_divide scaledPrice denominator.

Definition getSpotPrice (fixture : PerpFixture) (_baseToken : Address) : result Z :=
  match pools fixture !! _baseToken with
  | None => Throw "Cannot read property 'slot0' of undefined"
  | Some slot0 => sqrtPriceX96 ← slot0; getPriceFromSqrtPriceX96 sqrtPriceX96
  end.

Definition getSwapQuote (fixture : PerpFixture) (baseToken : Address) (baseQuantity : Z)
    (isBuy : bool) : result (Z * Z) :=
  openPosition fixture (mkOpenPosition baseToken (negb isBuy) (negb isBuy) baseQuantity
    ZERO MAX_UINT_256 ZERO ZERO_BYTES).

Definition getCurrentLeverage (fixture : PerpFixture) (_positionInfo : PositionInfo)
    (_collateralBalance : Z) : result Z :=
  price ← getSpotPrice fixture (baseToken _positionInfo);
  v ← preciseMul (baseBalance _positionInfo) price;
  let basePositionAbsoluteValue := bn_abs v in
  basePositionNetValue ← preciseMul (baseBalance _positionInfo) price;
  preciseDiv basePositionAbsoluteValue
    (bn_add (bn_add basePositionNetValue (quoteBalance _positionInfo)) _collateralBalance).

(** [Math.ceil(-887272 / tickSpacing) * tickSpacing], for a positive spacing. *)
Definition _getMinTick (tickSpacing : Z) : Z := - (887272 / tickSpacing) * tickSpacing.

Definition _getMaxTick (tickSpacing : Z) : Z := (887272 / tickSpacing) * tickSpacing.

(** ** perpV2Utils *)

Definition toUSDCDecimals (quantity : Z) : result Z :=
  d ← bn_pow 10 12; bn_div quantity d.

Definition leverUp (setToken : SetTokenSupply) (module : PerpModule W) (fixture : PerpFixture)
    (owner baseToken : Address) (leverageRatio slippagePercentage : Z) (isLong trackFunding : bool)
    (w : W) : result (Z * W) :=
  spotPrice ← getSpotPrice fixture baseToken;
  supply ← totalSupply setToken;
  info ← getAccountInfo module (set_addr setToken);
  ratio ← bn_from_number leverageRatio;
  baseTradeQuantityNotional ← preciseDiv (bn_mul (collateralBalance info) ratio) spotPrice;
  unit ← preciseDiv baseTradeQuantityNotional supply;
  let baseTradeQuantityUnit := if isLong then unit else bn_mul unit (-1) in
  quote ← preciseMul baseTradeQuantityNotional spotPrice;
  let estimatedQuoteQuantityNotional := bn_abs quote in
  pct ← ether (Literal "0.02");
  allowedSlippage ← preciseMul estimatedQuoteQuantityNotional pct;
  let slippageAdjustedQuoteQuanitityNotional :=
    if isLong then bn_add estimatedQuoteQuantityNotional allowedSlippage
    else bn_sub estimatedQuoteQuantityNotional allowedSlippage in
  receiveQuoteQuantityUnit ← preciseDiv slippageAdjustedQuoteQuanitityNotional supply;
  w' ← send module
    ((if trackFunding then tradeAndTrackFunding else trade) owner (set_addr setToken) baseToken
       baseTradeQuantityUnit receiveQuoteQuantityUnit) w;
  Ok (baseTradeQuantityUnit, w').

(** The body of the loop over the positions on issue. *)
Definition issueLeg (fixture : PerpFixture) (setQuantity usdcAmountIn : Z)
    (positionInfo : PositionUnitInfo) : result Z :=
  baseTradeQuantityNotional ← preciseMul (baseUnit positionInfo) setQuantity;
  let isLong := bn_gte baseTradeQuantityNotional ZERO in
  q ← getSwapQuote fixture (unit_baseToken positionInfo) (bn_abs baseTradeQuantityNotional) isLong;
  let deltaQuote := q.2 in
  price ← getSpotPrice fixture (unit_baseToken positionInfo);
  idealQuote ← preciseMul baseTradeQuantityNotional price;
  let expectedSlippage :=
    if isLong then bn_sub deltaQuote idealQuote else bn_sub (bn_abs idealQuote) deltaQuote in
  Ok (bn_add (bn_add usdcAmountIn idealQuote) expectedSlippage).

Definition calculateUSDCTransferInPreciseUnits (setToken : SetTokenSupply) (setQuantity : Z)
    (module : PerpModule W) (fixture : PerpFixture) (includeFunding : bool) : result Z :=
  accountInfo ← getAccountInfo module (set_addr setToken);
  let value := bn_add (bn_add (collateralBalance accountInfo) (owedRealizedPnl accountInfo))
                 (netQuoteBalance accountInfo) in
  let totalCollateralValue :=
    if includeFunding then bn_add value (pendingFundingPayments accountInfo) else value in
  supply ← totalSupply setToken;
  unit ← preciseDiv totalCollateralValue supply;
  usdcAmountIn ← preciseMul unit setQuantity;
  allPositionInfo ← getPositionUnitInfo module (set_addr setToken);
  foldM (issueLeg fixture setQuantity) usdcAmountIn allPositionInfo.

Definition calculateUSDCTransferIn (setToken : SetTokenSupply) (setQuantity : Z)
    (module : PerpModule W) (fixture : PerpFixture) : result Z :=
  x ← calculateUSDCTransferInPreciseUnits setToken setQuantity module fixture true;
  toUSDCDecimals x.

(** The share of a position's quote balance that a redemption closes. *)
Definition closedQuote (positionInfo : PositionInfo) (baseTradeQuantityNotional : Z) : result Z :=
  closeRatio ← preciseDiv (bn_abs baseTradeQuantityNotional) (bn_abs (baseBalance positionInfo));
  preciseMul (quoteBalance positionInfo) closeRatio.

(** The body of the loop over the positions on redeem. *)
Definition redeemLeg (setToken : SetTokenSupply) (fixture : PerpFixture)
    (setQuantity totalRealizedPnl : Z) (positionInfo : PositionInfo) : result Z :=
  supply ← totalSupply setToken;
  basePositionUnit ← preciseDiv (baseBalance positionInfo) supply;
  baseTradeQuantityNotional ← preciseMul basePositionUnit setQuantity;
  let isLong := bn_gte basePositionUnit ZERO in
  reducedOpenNotional ← closedQuote positionInfo baseTradeQuantityNotional;
  q ← getSwapQuote fixture (baseToken positionInfo) (bn_abs baseTradeQuantityNotional) (negb isLong);
  let deltaQuote := q.2 in
  let realizedPnl := if isLong then bn_add reducedOpenNotional deltaQuote
                     else bn_sub reducedOpenNotional deltaQuote in
  Ok (bn_add totalRealizedPnl realizedPnl).

Definition calculateUSDCTransferOutPreciseUnits (setToken : SetTokenSupply) (setQuantity : Z)
    (module : PerpModule W) (fixture : PerpFixture) (includeFunding : bool) : result Z :=
  allPositionInfo ← getPositionNotionalInfo module (set_addr setToken);
  accountInfo ← getAccountInfo module (set_addr setToken);
  let balance := bn_add (collateralBalance accountInfo) (owedRealizedPnl accountInfo) in
  let totalCollateralBalance :=
    if includeFunding then bn_add balance (pendingFundingPayments accountInfo) else balance in
  supply ← totalSupply setToken;
  collateralPositionUnit ← preciseDiv totalCollateralBalance supply;
  collateralQuantityNotional ← preciseMul collateralPositionUnit setQuantity;
  totalRealizedPnl ← foldM (redeemLeg setToken fixture setQuantity) 0 allPositionInfo;
  Ok (bn_abs (bn_add collateralQuantityNotional totalRealizedPnl)).

Definition calculateUSDCTransferOut (setToken : SetTokenSupply) (setQuantity : Z)
    (module : PerpModule W) (fixture : PerpFixture) : result Z :=
  x ← calculateUSDCTransferOutPreciseUnits setToken setQuantity module fixture true;
  toUSDCDecimals x.

Definition calculateExternalPositionUnit (setToken : SetTokenSupply) (fixture : PerpFixture)
    (module : PerpModule W) : result Z :=
  accountInfo ← getAccountInfo module (set_addr setToken);
  supply ← totalSupply setToken;
  unit ← preciseDiv (collateralBalance accountInfo) supply;
  toUSDCDecimals unit.

Definition getNetFundingGrowth (baseToken : Address) (baseBalance : Z) (fixture : PerpFixture)
    : result Z :=
  f ← getFundingGrowthGlobalAndTwaps fixture baseToken;
  let '(twPremiumX96, markTwap, indexTwap) := f in
  one ← ether (Number 1);
  x96 ← bn_pow TWO 96;
  twPremium ← bn_div (bn_mul twPremiumX96 one) x96;
  perDay ← bn_div twPremium ONE_DAY_IN_SECONDS;
  growth ← preciseMul baseBalance perDay;
  let fundingGrowth := bn_abs growth in
  let isLong := bn_gt baseBalance ZERO in
  Ok (if bn_lt markTwap indexTwap
      then if isLong then fundingGrowth else bn_mul fundingGrowth (-1)
      else if isLong then bn_mul fundingGrowth (-1) else fundingGrowth).

Definition getUSDCDeltaDueToFundingGrowth (setToken : SetTokenSupply) (setQuantity : Z)
    (baseToken : Address) (baseBalance : Z) (fixture : PerpFixture) : result Z :=
  netFundingGrowth ← getNetFundingGrowth baseToken baseBalance fixture;
  supply ← totalSupply setToken;
  unit ← preciseDiv netFundingGrowth supply;
  preciseMul unit setQuantity.

(** [getVTokenInstance(token)] is the contract at [token]. *)
Definition calculateLeverageRatios (setToken : Address) (perpModule : PerpModule W)
    (fixture : PerpFixture) : result (list Address * list Z) :=
  accountInfo ← getAccountInfo perpModule setToken;
  notionalPositionInfo ← getPositionNotionalInfo perpModule setToken;
  let totalCollateralValue :=
    bn_add (bn_add (collateralBalance accountInfo) (owedRealizedPnl accountInfo))
      (pendingFundingPayments accountInfo) in
  foldM (fun acc positionInfo =>
    tokenPrice ← getIndexPrice fixture (baseToken positionInfo) ZERO;
    positionValue ← preciseMul tokenPrice (baseBalance positionInfo);
    let accountValue := bn_add (bn_add positionValue totalCollateralValue)
                          (quoteBalance positionInfo) in
    ratio ← preciseDiv positionValue accountValue;
    Ok (acc.1 ++ [baseToken positionInfo], acc.2 ++ [ratio]))
    ([], []) notionalPositionInfo.

Definition calculateMaxIssueQuantity (setToken : SetTokenSupply) (slippage : Z)
    (perpModule : PerpModule W) (fixture : PerpFixture) : result Z :=
  supply ← totalSupply setToken;
  imRatio ← getImRatio fixture;
  accountInfo ← getAccountInfo perpModule (set_addr setToken);
  pnl ← getPnlAndPendingFee fixture (set_addr setToken);
  let '(_, unrealizedPnl, _) := pnl in
  totalDebtValue ← getTotalDebtValue fixture (set_addr setToken);
  let totalCollateralValue :=
    bn_add (bn_add (collateralBalance accountInfo) (owedRealizedPnl accountInfo))
      (pendingFundingPayments accountInfo) in
  availableDebt ←
    (if bn_gte unrealizedPnl ZERO then
       x ← bn_div (bn_mul totalCollateralValue (10 ^ 6)) imRatio; Ok (bn_sub x totalDebtValue)
     else
       x ← bn_div (bn_mul (bn_add totalCollateralValue unrealizedPnl) (10 ^ 6)) imRatio;
       Ok (bn_sub x totalDebtValue));
  slipped ← preciseMul availableDebt slippage;
  s ← bn_div (bn_mul slipped (10 ^ 6)) imRatio;
  let availableDebtWithSlippage := bn_sub availableDebt s in
  totalAbsPositionValue ← getTotalAbsPositionValue fixture (set_addr setToken);
  u ← preciseDiv availableDebtWithSlippage totalAbsPositionValue;
  preciseMul u supply.

End PerpV2Utils.

(** ** Lemmas *)

Section Facts.
Context `{BN : BigNumber} `{EU : EthersUtils} `{JB : JSBI} {W : Type}.

Lemma quot_pow96_nonneg x : 0 <= x -> 0 <= x ÷ 2 ^ 192.
Proof. intros. apply Z.quot_pos; lia. Qed.

Lemma getPrice_eq s :
  getPriceFromSqrtPriceX96 s = Ok (s * s * 10 ^ 18 ÷ 2 ^ 192).
Proof.
  unfold getPriceFromSqrtPriceX96. rewrite !jsbi_multiply_law, jsbi_exponentiate_law by done.
  by apply jsbi_divide_law.
Qed.

(** A spot price is never negative. *)
Lemma getSpotPrice_nonneg fixture b p : getSpotPrice fixture b = Ok p -> 0 <= p.
Proof.
  unfold getSpotPrice. destruct (pools fixture !! b) as [[s|e]|]; run_result; try done.
  rewrite getPrice_eq. intros [= <-]. apply quot_pow96_nonneg. nia.
Qed.

Lemma toUSDCDecimals_eq q : toUSDCDecimals q = Ok (q ÷ 10 ^ 12).
Proof. unfold toUSDCDecimals. rewrite bn_pow_law by done. run_result. by apply bn_div_law. Qed.

(** What one position adds to the USDC due on issue: buying the base costs the
    quote, selling it yields the quote. *)
Definition issueFlow (fixture : PerpFixture) (setQuantity : Z) (p : PositionUnitInfo) : result Z :=
  n ← preciseMul (baseUnit p) setQuantity;
  q ← getSwapQuote fixture (unit_baseToken p) (Z.abs n) (0 <=? n);
  _ ← getSpotPrice fixture (unit_baseToken p);
  Ok (if 0 <=? n then q.2 else - q.2).

Lemma issueLeg_flow fixture setQuantity acc p :
  issueLeg fixture setQuantity acc p =
    (y ← issueFlow fixture setQuantity p; Ok (bn_add acc y)).
Proof.
  unfold issueLeg, issueFlow. rewrite !preciseMul_eq. run_result. bn_simpl. unfold ZERO.
  destruct (getSwapQuote _ _ _ _) as [q|]; run_result; [|done].
  destruct (getSpotPrice fixture _) as [price|] eqn:Ep; run_result; [|done].
  apply getSpotPrice_nonneg in Ep. rewrite preciseMul_eq. run_result. f_equal. bn_simpl.
  set (n := baseUnit p * setQuantity ÷ PRECISE_UNIT). case_Z; [lia|].
  assert (n * price ÷ PRECISE_UNIT <= 0); [|lia].
  pose proof (Z.quot_opp_l (n * price) PRECISE_UNIT PRECISE_UNIT_neq_0).
  pose proof (Z.quot_pos (- (n * price)) PRECISE_UNIT ltac:(nia) PRECISE_UNIT_pos). lia.
Qed.

(** A fraction of [b], truncated twice, is no larger than [b]. *)
Lemma double_trunc_abs b supply q : 0 < supply -> 0 <= q <= supply ->
  Z.abs (b * PRECISE_UNIT ÷ supply * q ÷ PRECISE_UNIT) <= Z.abs b.
Proof.
  intros Hs Hq. pose proof PRECISE_UNIT_pos.
  rewrite <- Z.quot_abs, Z.abs_mul, <- Z.quot_abs, Z.abs_mul by lia.
  rewrite (Z.abs_eq PRECISE_UNIT), (Z.abs_eq supply), (Z.abs_eq q) by lia.
  set (B := Z.abs b). assert (0 <= B) by (unfold B; lia).
  assert (H1 : B * PRECISE_UNIT ÷ supply * supply <= B * PRECISE_UNIT).
  { pose proof (quot_floor_bounds (B * PRECISE_UNIT) supply ltac:(nia) Hs). lia. }
  set (u := B * PRECISE_UNIT ÷ supply) in *.
  assert (0 <= u) by (apply Z.quot_pos; nia).
  pose proof (quot_floor_bounds (u * q) PRECISE_UNIT ltac:(nia) ltac:(lia)).
  apply (Z.mul_le_mono_pos_r _ _ PRECISE_UNIT); nia.
Qed.

(** ** Theorems *)

(** C34: The USDC due on an issuance is the collateral's share of the issued
    quantity plus, position by position, the quoted cost of the base bought
    (or minus the quoted proceeds of the base sold): the ideal value and the
    slippage the code adds separately cancel for both directions. *)
Theorem calculateUSDCTransferInPreciseUnits_flow setToken setQuantity (module : PerpModule W)
    fixture includeFunding :
  calculateUSDCTransferInPreciseUnits setToken setQuantity module fixture includeFunding =
    (i ← getAccountInfo module (set_addr setToken);
     supply ← totalSupply setToken;
     unit ← preciseDiv (collateralBalance i + owedRealizedPnl i + netQuoteBalance i
              + (if includeFunding then pendingFundingPayments i else 0)) supply;
     positions ← getPositionUnitInfo module (set_addr setToken);
     flows ← mapM (issueFlow fixture setQuantity) positions;
     Ok (unit * setQuantity ÷ PRECISE_UNIT + zsum flows)).
Proof.
  unfold calculateUSDCTransferInPreciseUnits. apply bind_ext_result. intros i.
  apply bind_ext_result. intros supply. bn_simpl.
  replace (if includeFunding then _ else _) with (collateralBalance i + owedRealizedPnl i +
    netQuoteBalance i + (if includeFunding then pendingFundingPayments i else 0))
    by (destruct includeFunding; lia).
  apply bind_ext_result. intros unit. rewrite preciseMul_eq. run_result.
  apply bind_ext_result. intros positions. rewrite <- foldM_sum.
  apply foldM_ext. intros. apply issueLeg_flow.
Qed.

(** A redemption of at most the whole supply never closes more of a position
    than it holds: the quote balance it realises has the sign of the position's
    and is no larger in magnitude. *)
Theorem closedQuote_bounded positionInfo supply setQuantity unit notional r :
  0 < supply -> 0 <= setQuantity <= supply ->
  preciseDiv (baseBalance positionInfo) supply = Ok unit ->
  preciseMul unit setQuantity = Ok notional ->
  closedQuote positionInfo notional = Ok r ->
  Z.abs r <= Z.abs (quoteBalance positionInfo) /\ 0 <= r * quoteBalance positionInfo.
Proof.
  intros Hs Hq Hu Hn Hr. rewrite preciseDiv_eq in Hu by lia. injection Hu as <-.
  rewrite preciseMul_eq in Hn. injection Hn as <-.
  pose proof (double_trunc_abs (baseBalance positionInfo) supply setQuantity Hs Hq) as Hb.
  set (n := _ ÷ PRECISE_UNIT) in *. unfold closedQuote in Hr. revert Hr. bn_simpl.
  destruct (decide (baseBalance positionInfo = 0)) as [E|E].
  { rewrite E. intros Hr. pose proof (preciseDiv_zero (Z.abs n)) as Hz.
    change (Z.abs 0) with 0 in Hr. destruct (preciseDiv (Z.abs n) 0); done. }
  rewrite preciseDiv_eq by lia. run_result. rewrite preciseMul_eq. intros [= <-].
  pose proof PRECISE_UNIT_pos as HU. set (B := Z.abs (baseBalance _)) in *.
  assert (HB : 0 < B) by (unfold B; lia).
  pose proof (quot_floor_bounds (Z.abs n * PRECISE_UNIT) B ltac:(nia) HB) as Hc.
  set (c := _ ÷ B) in *. assert (0 <= c) by (apply Z.quot_pos; nia).
  assert (Hc' : c <= PRECISE_UNIT) by (apply (Z.mul_le_mono_pos_r _ _ B); nia).
  apply scaled_quot_bounds; lia.
Qed.

(** The funding credited to a long position is debited from a short position
    of the same size, and a trader is credited exactly when on the side the
    premium pays: a long position below the index, a short one at or above it. *)
Theorem getNetFundingGrowth_antisymmetric token b fixture g :
  0 < b -> getNetFundingGrowth token b fixture = Ok g ->
  getNetFundingGrowth token (- b) fixture = Ok (- g) /\
  exists x mark index, getFundingGrowthGlobalAndTwaps fixture token = Ok (x, mark, index) /\
    (if mark <? index then 0 <= g else g <= 0).
Proof.
  intros Hb. unfold getNetFundingGrowth.
  destruct (getFundingGrowthGlobalAndTwaps fixture token) as [[[x mark] index]|] eqn:Ef; [|done].
  run_result. destruct (ether (Number 1)) as [one|]; run_result; [|done].
  rewrite bn_pow_law by done. run_result. rewrite !bn_div_law by done. run_result.
  rewrite bn_div_law by done. run_result. rewrite !preciseMul_eq. run_result. bn_simpl.
  set (d := _ ÷ ONE_DAY_IN_SECONDS). intros Hg. split; [|exists x, mark, index; split; [done|]].
  - rewrite Z.mul_opp_l, Z.quot_opp_l by auto with arith_lib. rewrite Z.abs_opp.
    revert Hg. unfold ZERO. destruct (Z.ltb_spec 0 b), (Z.ltb_spec 0 (- b)); try lia.
    destruct (mark <? index); intros [= <-]; f_equal; lia.
  - revert Hg. unfold ZERO. destruct (Z.ltb_spec 0 b); [|lia].
    destruct (mark <? index); intros [= <-]; lia.
Qed.

Lemma two_percent : ether (Literal "0.02") = Ok (2 * 10 ^ 16).
Proof.
  apply (parseUnits_frac 0 "02" 18); [lia | reflexivity | cbn; lia | cbn; lia].
Qed.

Lemma PRECISE_UNIT_two_percent : PRECISE_UNIT = 50 * (2 * 10 ^ 16).
Proof. vm_compute. reflexivity. Qed.

(** The size and the worst quote of a levered position, as integers. *)
Lemma lever_bounds collateral ratio price supply :
  0 <= collateral * ratio -> 0 < price -> 0 < supply ->
  let n := collateral * ratio * PRECISE_UNIT ÷ price in
  let est := Z.abs (n * price ÷ PRECISE_UNIT) in
  let slip := est * (2 * 10 ^ 16) ÷ PRECISE_UNIT in
  let unit := n * PRECISE_UNIT ÷ supply in
  0 <= unit /\ unit * supply * price <= collateral * ratio * PRECISE_UNIT * PRECISE_UNIT /\
  collateral * ratio * PRECISE_UNIT * PRECISE_UNIT < (unit + 1) * supply * price + price * PRECISE_UNIT /\
  est <= collateral * ratio /\ collateral * ratio * PRECISE_UNIT < (est + 1) * PRECISE_UNIT + price /\
  0 <= slip <= est /\ 50 * slip <= est < 50 * slip + 50.
Proof.
  intros Hc Hp Hs n est slip unit. pose proof PRECISE_UNIT_pos as HU.
  pose proof (quot_floor_bounds (collateral * ratio * PRECISE_UNIT) price ltac:(nia) Hp) as Hn.
  assert (0 <= n) by (apply Z.quot_pos; nia). fold n in Hn.
  pose proof (quot_floor_bounds (n * PRECISE_UNIT) supply ltac:(nia) Hs) as Hu.
  assert (0 <= unit) by (apply Z.quot_pos; nia). fold unit in Hu.
  pose proof (quot_floor_bounds (n * price) PRECISE_UNIT ltac:(nia) HU) as He.
  assert (0 <= n * price ÷ PRECISE_UNIT) by (apply Z.quot_pos; nia).
  assert (Ee : est = n * price ÷ PRECISE_UNIT) by (unfold est; lia). rewrite <- Ee in *.
  pose proof (quot_floor_bounds (est * (2 * 10 ^ 16)) PRECISE_UNIT ltac:(nia) HU) as Hsl.
  fold slip in Hsl. assert (0 <= slip) by (apply Z.quot_pos; nia).
  assert (est <= collateral * ratio) by (apply (Z.mul_le_mono_pos_r _ _ PRECISE_UNIT); lia).
  rewrite PRECISE_UNIT_two_percent in Hsl.
  assert (50 * slip <= est < 50 * slip + 50) by (split; nia).
  split_and!; try lia; nia.
Qed.

(** C35: [leverUp] sends one trade, for the base it returns, long or short as asked. At
    the spot price the position is worth [leverageRatio] times the collateral, never
    more, and less by at most one unit of base and one per token. The quote limit is
    that worth plus 2% for a long position and minus 2% for a short one, so that
    slippage is bounded on both sides: it differs from 51 or 49 fiftieths of the worth
    by less than the price of one unit of base, two units of quote and one per
    token. The [slippagePercentage] argument plays no part. *)
Theorem leverUp_within_leverage setToken (module : PerpModule W) fixture owner token ratio
    slippage isLong trackFunding w u w' price supply info :
  getSpotPrice fixture token = Ok price -> totalSupply setToken = Ok supply ->
  getAccountInfo module (set_addr setToken) = Ok info ->
  0 < price -> 0 < supply -> 0 <= collateralBalance info * ratio -> Z.abs ratio < 2 ^ 53 - 1 ->
  leverUp setToken module fixture owner token ratio slippage isLong trackFunding w = Ok (u, w') ->
  let worth := collateralBalance info * ratio * PRECISE_UNIT in
  let fiftieths := if isLong then 51 else 49 in
  exists quoteUnit,
    send module ((if trackFunding then tradeAndTrackFunding else trade) owner (set_addr setToken)
      token u quoteUnit) w = Ok w' /\
    (if isLong then 0 <= u else u <= 0) /\
    Z.abs u * supply * price <= worth * PRECISE_UNIT < (Z.abs u + 1) * supply * price + price * PRECISE_UNIT /\
    0 <= quoteUnit /\
    50 * quoteUnit * supply <= fiftieths * worth + 50 * PRECISE_UNIT /\
    fiftieths * worth < 50 * (quoteUnit + 1) * supply + fiftieths * (price + PRECISE_UNIT) + 50 * PRECISE_UNIT.
Proof.
  intros Hp Hs Hi Hpos Hsup Hc Hr. unfold leverUp. rewrite Hp, Hs. run_result. rewrite Hi.
  run_result. rewrite bn_from_number_law by done. run_result. bn_simpl.
  rewrite preciseDiv_eq by lia. run_result. rewrite preciseDiv_eq by lia. run_result.
  rewrite preciseMul_eq, two_percent. run_result. bn_simpl.
  rewrite preciseMul_eq. run_result. bn_simpl. rewrite preciseDiv_eq by lia. run_result.
  destruct (lever_bounds (collateralBalance info) ratio price supply Hc Hpos Hsup)
    as (Hu & Hub & Hul & He & Hel & Hsl & Hs50).
  set (n := _ ÷ price) in *. set (unit := n * PRECISE_UNIT ÷ supply) in *.
  set (est := Z.abs (n * price ÷ PRECISE_UNIT)) in *. set (slip := est * (2 * 10 ^ 16) ÷ PRECISE_UNIT) in *.
  clearbody slip est unit. destruct (send module _ w) as [w1|] eqn:Esend; run_result; [|done]. intros [= <- <-].
  eexists. split; [exact Esend|]. clear Esend. split; [by destruct isLong; lia|].
  assert (Ea : Z.abs (if isLong then unit else unit * -1) = unit) by (destruct isLong; lia).
  rewrite Ea. split; [lia|]. pose proof PRECISE_UNIT_pos as HU. clear Hub Hul Ea.
  set (worth := collateralBalance info * ratio * PRECISE_UNIT) in *. set (fiftieths := if isLong then 51 else 49).
  set (q := if isLong then est + slip else est - slip).
  assert (Hq : 0 <= q /\ fiftieths * est - 50 < 50 * q < fiftieths * est + 50)
    by (unfold q, fiftieths; destruct isLong; lia).
  assert (Hf : 0 <= fiftieths) by (unfold fiftieths; destruct isLong; lia).
  pose proof (quot_floor_bounds (q * PRECISE_UNIT) supply ltac:(nia) Hsup) as HQ.
  split; [apply Z.quot_pos; nia|]. set (quote := q * PRECISE_UNIT ÷ supply) in *.
  assert (H1 : fiftieths * (est * PRECISE_UNIT) <= fiftieths * worth) by (apply Z.mul_le_mono_nonneg_l; unfold worth; nia).
  assert (H2 : fiftieths * worth <= fiftieths * ((est + 1) * PRECISE_UNIT + price))
    by (apply Z.mul_le_mono_nonneg_l; unfold worth; lia).
  clearbody worth q quote fiftieths. split; nia.
Qed.

(** USDC amounts are truncated towards zero to 6 decimals: less than one
    USDC base unit is lost, in magnitude and never in sign. *)
Theorem toUSDCDecimals_truncates q :
  exists r, toUSDCDecimals q = Ok r /\
    Z.abs r * 10 ^ 12 <= Z.abs q < (Z.abs r + 1) * 10 ^ 12 /\ 0 <= r * q.
Proof.
  exists (q ÷ 10 ^ 12). rewrite toUSDCDecimals_eq. split; [done|].
  destruct (scaled_quot_bounds q 1 (10 ^ 12) ltac:(lia) ltac:(lia)) as [_ Hs].
  rewrite Z.mul_1_r in Hs. split; [|done].
  rewrite <- (Z.quot_abs q (10 ^ 12)) by done. change (Z.abs (10 ^ 12)) with (10 ^ 12).
  pose proof (quot_floor_bounds (Z.abs q) (10 ^ 12) ltac:(lia) ltac:(lia)). lia.
Qed.

End Facts.

(** ** Concrete instances *)

Section Instances.
(** A pool at price 2500 quoting every trade at 2510, and a log of trades. *)
Definition perp_fixture : PerpFixture := {|
  pools := {[ "vETH"%string := Ok (50 * 2 ^ 96) ]};
  openPosition := fun p => Ok (op_amount p, op_amount p * 2510);
  getFundingGrowthGlobalAndTwaps := fun _ => Ok (86400 * 2 ^ 96, 2490, 2500);
  getIndexPrice := fun _ _ => Ok (2500 * 10 ^ 18);
  getImRatio := Ok 100000;
  getPnlAndPendingFee := fun _ => Ok (0, 0, 0);
  getTotalDebtValue := fun _ => Ok 0;
  getTotalAbsPositionValue := fun _ => Ok (10 ^ 18) |}.

Definition perp_module : PerpModule (list TradeTx) := {|
  getAccountInfo := fun _ => Ok (mkAccountInfo (1000 * 10 ^ 18) 0 0 0);
  getPositionUnitInfo := fun _ => Ok [mkPositionUnitInfo "vETH" (10 ^ 18);
                                      mkPositionUnitInfo "vETH" (- 10 ^ 18)];
  getPositionNotionalInfo := fun _ => Ok [mkPositionInfo "vETH" (10 ^ 18) (- 2500 * 10 ^ 18)];
  send := fun tx log => Ok (tx :: log) |}.

Definition perp_set : SetTokenSupply := mkSetTokenSupply "set" (Ok (10 ^ 18)).

Example usdc_in : calculateUSDCTransferIn perp_set (10 ^ 18) perp_module perp_fixture =
  Ok (1000 * 10 ^ 6).
Proof. vm_compute. reflexivity. Qed.

Lemma closedQuote_witness : exists r,
  closedQuote (mkPositionInfo "vETH" (10 ^ 18) (- 2500 * 10 ^ 18)) (5 * 10 ^ 17) = Ok r /\
  Z.abs r <= 2500 * 10 ^ 18 /\ 0 <= r * (- 2500 * 10 ^ 18).
Proof.
  eexists. split; [vm_compute; reflexivity|].
  apply (closedQuote_bounded (mkPositionInfo "vETH" (10 ^ 18) (- 2500 * 10 ^ 18)) (10 ^ 18)
    (5 * 10 ^ 17) (10 ^ 18) (5 * 10 ^ 17)); eval_side.
Defined.

Lemma funding_witness : exists g,
  getNetFundingGrowth "vETH" (- 7) perp_fixture = Ok (- g) /\ 
  exists x mark index, getFundingGrowthGlobalAndTwaps perp_fixture "vETH" = Ok (x, mark, index) /\
    (if mark <? index then 0 <= g else g <= 0).
Proof.
  eexists. apply (getNetFundingGrowth_antisymmetric "vETH" 7 perp_fixture); eval_side.
Defined.

Lemma leverUp_witness : exists q,
  send perp_module (trade "owner" "set" "vETH" (8 * 10 ^ 17) q) [] =
    Ok [trade "owner" "set" "vETH" (8 * 10 ^ 17) (2040 * 10 ^ 18)] /\ 0 <= q.
Proof.
  destruct (leverUp_within_leverage perp_set perp_module perp_fixture "owner" "vETH" 2 0 true
    false [] (8 * 10 ^ 17) [trade "owner" "set" "vETH" (8 * 10 ^ 17) (2040 * 10 ^ 18)]
    (2500 * 10 ^ 18) (10 ^ 18) (mkAccountInfo (1000 * 10 ^ 18) 0 0 0))
    as (q & Hs & _ & _ & Hq & _); [eval_side.. |].
  exists q. split; [exact Hs|exact Hq].
Defined.

End Instances.
