(* ===== verification/Evm.v ===== *)
(** * Programs against a chain

    The deployment helpers, fixtures and scripts of the repository run against
    a chain: they deploy contracts, send transactions to them and read from
    them. Everything that happened on the chain is its history, a list of
    [event]s; what a chain does next (whether a transaction reverts, what a
    read returns) depends on that history alone. A program is a function from
    the history before it to its result and the history after it, and stops at
    the first transaction or read that fails, as an [await] that rejects does.

    The node, the EVM and the contracts it runs are the interface [Node]; the
    laws say how contract addresses are chosen. *)

From S2P Require Import Prelude JsString Ethers Constants.
From Stdlib Require Import Ascii String.

Local Open Scope Z_scope.

#[local] Set Warnings "-register-all".

(** The JavaScript values passed as arguments of contract calls. *)
Inductive jsv :=
  | JStr (s : string)      (** addresses, strings, hex data *)
  | JNum (z : Z)           (** numbers and BigNumbers *)
  | JBool (b : bool)
  | JArr (l : list jsv).

Definition JStrs (l : list string) : jsv := JArr (map JStr l).
Definition JNums (l : list Z) : jsv := JArr (map JNum l).

Inductive event :=
  | Deployed (address from : Address) (contract : string) (links : list (string * Address))
      (args : list jsv)
  | Sent (from to : Address) (method : string) (args : list jsv) (value : Z).

Definition sender (ev : event) : Address :=
  match ev with Deployed _ from _ _ _ => from | Sent from _ _ _ _ => from end.

Abbreviation history := (list event).

(** Number of transactions an account has sent. *)
Definition nonce (account : Address) (h : history) : nat :=
  List.length (filter (fun ev => sender ev = account) h).

Class Node := {
  (** Address of the contract an account creates with a nonce. *)
  create : Address -> nat -> Address;
  (** Whether the transaction is executed, or why it reverts. *)
  accepts : history -> event -> result unit;
  (** Result of a read of [method] on a contract. *)
  view : history -> Address -> string -> list jsv -> result jsv;
  listAccounts : list Address;
  (** Contract addresses are hashes of creator and nonce, taken collision-free. *)
  create_inj s n s' n' : create s n = create s' n' -> s = s' /\ n = n';
  (** Two contracts of an account differ in more than the case of their letters. *)
  create_lower_inj s n n' : toLowerCase (create s n) = toLowerCase (create s n') -> n = n';
  create_nonzero s n : create s n <> ADDRESS_ZERO;
}.

(** ** The program monad *)

Definition evm (A : Type) : Type := history -> result (A * history).

#[export] Instance evm_ret : MRet evm := fun A a h => Ok (a, h).

#[export] Instance evm_bind : MBind evm := fun A B f m h =>
  match m h with Ok (a, h') => f a h' | Throw e => Throw e end.

(** A pure computation that may throw. *)
Definition lift {A} (r : result A) : evm A := fun h =>
  match r with Ok a => Ok (a, h) | Throw e => Throw e end.

(** An optional parameter with a default that is computed when it is absent. *)
Definition or_default {A} (o : option A) (d : result A) : evm A :=
  lift (match o with Some a => Ok a | None => d end).

Section Programs.
Context `{Node}.

Definition submit (ev : event) : evm unit := fun h =>
  match accepts h ev with Ok _ => Ok (tt, h ++ [ev]) | Throw e => Throw e end.

(** [new C__factory(links, signer).deploy(args)] *)
Definition deploy (signer : Address) (contract : string) (links : list (string * Address))
    (args : list jsv) : evm Address := fun h =>
  let a := create signer (nonce signer h) in
  (submit (Deployed a signer contract links args) ≫= fun _ => mret a) h.

(** [new C__factory(signer).attach(address)] and [C__factory.connect(address, signer)]. *)
Definition attach (address : Address) : evm Address := mret address.

(** [await contract.connect(from).method(args, { value })] *)
Definition send_value (from to : Address) (method : string) (args : list jsv) (value : Z) : evm unit :=
  submit (Sent from to method args value).

Definition send (from to : Address) (method : string) (args : list jsv) : evm unit :=
  send_value from to method args 0.

(** A transaction whose promise is not awaited: it is submitted, and a revert
    goes unnoticed. *)
Definition send_detached (from to : Address) (method : string) (args : list jsv) : evm unit := fun h =>
  match send from to method args h with Ok r => Ok r | Throw _ => Ok (tt, h) end.

(** [await contract.method(args)] for a method that changes nothing. *)
Definition read (to : Address) (method : string) (args : list jsv) : evm jsv := fun h =>
  match view h to method args with Ok v => Ok (v, h) | Throw e => Throw e end.

Definition read_string (to : Address) (method : string) (args : list jsv) : evm string :=
  v ← read to method args;
  lift (match v with JStr s => Ok s | _ => Throw "unexpected result type" end).

Definition read_Z (to : Address) (method : string) (args : list jsv) : evm Z :=
  v ← read to method args;
  lift (match v with JNum z => Ok z | _ => Throw "unexpected result type" end).

Definition read_bool (to : Address) (method : string) (args : list jsv) : evm bool :=
  v ← read to method args;
  lift (match v with JBool b => Ok b | _ => Throw "unexpected result type" end).

(** [for (const x of l) await f(x)] *)
Fixpoint for_each {A} (f : A -> evm unit) (l : list A) : evm unit :=
  match l with
  | [] => mret tt
  | x :: l' => _ ← f x; for_each f l'
  end.

End Programs.

(** ** Laws *)

Section Laws.
Context `{Node}.

Lemma evm_bind_Ok {A B} (m : evm A) (f : A -> evm B) h r :
  (m ≫= f) h = Ok r -> exists a h', m h = Ok (a, h') /\ f a h' = Ok r.
Proof.
  unfold mbind, evm_bind. destruct (m h) as [[a h']|]; [|done]. intros E. by exists a, h'.
Qed.

Lemma evm_ret_Ok {A} (a b : A) h h' : mret (M := evm) a h = Ok (b, h') -> b = a /\ h' = h.
Proof. by intros [= <- <-]. Qed.

Lemma lift_Ok {A} (r : result A) a h h' : lift r h = Ok (a, h') -> r = Ok a /\ h' = h.
Proof. unfold lift. destruct r; [|done]. by intros [= <- <-]. Qed.

Lemma submit_Ok ev h r h' : submit ev h = Ok (r, h') -> accepts h ev = Ok tt /\ h' = h ++ [ev].
Proof. unfold submit. destruct (accepts h ev) as [[]|]; [|done]. by intros [= _ <-]. Qed.

Lemma deploy_Ok signer c links args h a h' : deploy signer c links args h = Ok (a, h') ->
  a = create signer (nonce signer h) /\ h' = h ++ [Deployed a signer c links args] /\
  accepts h (Deployed a signer c links args) = Ok tt.
Proof.
  unfold deploy. intros E. apply evm_bind_Ok in E as (u & h1 & E1 & E2).
  apply submit_Ok in E1 as [Ha ->]. apply evm_ret_Ok in E2 as [-> ->]. done.
Qed.

Lemma send_Ok from to m args v h r h' : send_value from to m args v h = Ok (r, h') ->
  h' = h ++ [Sent from to m args v] /\ accepts h (Sent from to m args v) = Ok tt.
Proof. intros E. by apply submit_Ok in E as [? ?]. Qed.

Lemma read_Ok to m args h v h' : read to m args h = Ok (v, h') -> h' = h /\ view h to m args = Ok v.
Proof. unfold read. destruct (view h to m args); [|done]. by intros [= <- <-]. Qed.

Lemma nonce_app a h h' : nonce a (h ++ h') = (nonce a h + nonce a h')%nat.
Proof. unfold nonce. by rewrite filter_app, length_app. Qed.

Lemma nonce_one a ev : nonce a [ev] = (if decide (sender ev = a) then 1 else 0)%nat.
Proof. unfold nonce. rewrite filter_cons, filter_nil. by destruct (decide _). Qed.

Lemma nonce_own a h ev : sender ev = a -> nonce a (h ++ [ev]) = S (nonce a h).
Proof. intros Hs. rewrite nonce_app, nonce_one, decide_True by done. lia. Qed.

Lemma nonce_foreign a h ev : sender ev <> a -> nonce a (h ++ [ev]) = nonce a h.
Proof. intros Hs. rewrite nonce_app, nonce_one, decide_False by done. lia. Qed.

(** Programs only append to the history. *)
Definition appends {A} (m : evm A) : Prop :=
  forall h a h', m h = Ok (a, h') -> exists evs, h' = h ++ evs.

Lemma appends_ret {A} (a : A) : appends (mret a).
Proof. intros h b h' E. apply evm_ret_Ok in E as [-> ->]. exists []. by rewrite app_nil_r. Qed.

Lemma appends_bind {A B} (m : evm A) (f : A -> evm B) :
  appends m -> (forall a, appends (f a)) -> appends (m ≫= f).
Proof.
  intros Hm Hf h b h' E. apply evm_bind_Ok in E as (a & h1 & E1 & E2).
  apply Hm in E1 as [e1 ->]. apply Hf in E2 as [e2 ->]. exists (e1 ++ e2). by rewrite app_assoc.
Qed.

Lemma appends_lift {A} (r : result A) : appends (lift r).
Proof. intros h a h' E. apply lift_Ok in E as [_ ->]. exists []. by rewrite app_nil_r. Qed.

Lemma appends_deploy s c l args : appends (deploy s c l args).
Proof. intros h a h' E. apply deploy_Ok in E as (_ & -> & _). by eexists. Qed.

Lemma appends_send_value s t m args v : appends (send_value s t m args v).
Proof. intros h a h' E. apply send_Ok in E as [-> _]. by eexists. Qed.

Lemma appends_send s t m args : appends (send s t m args).
Proof. apply appends_send_value. Qed.

Lemma appends_read t m args : appends (read t m args).
Proof. intros h a h' E. apply read_Ok in E as [-> _]. exists []. by rewrite app_nil_r. Qed.

Lemma appends_for_each {A} (f : A -> evm unit) l :
  (forall x, appends (f x)) -> appends (for_each f l).
Proof.
  intros Hf. induction l as [|x l IH]; [apply appends_ret|]. cbn [for_each].
  apply appends_bind; [apply Hf|]. done.
Qed.

Lemma send_detached_Ok from to m args h r h' : send_detached from to m args h = Ok (r, h') ->
  h' = h \/ h' = h ++ [Sent from to m args 0].
Proof.
  unfold send_detached, send. destruct (send_value from to m args 0 h) as [[u h1]|e] eqn:E.
  - intros [= _ <-]. apply send_Ok in E as [-> _]. by right.
  - intros [= _ <-]. by left.
Qed.

End Laws.

(** The function at the head of an application. *)
Ltac head_of t := match t with ?f _ => head_of f | _ => t end.

(** Inverts a successful run step by step. *)
Ltac evm_step :=
  match goal with
  | E : mbind _ _ _ = Ok _ |- _ =>
      let a := fresh "a" in let h := fresh "h" in let E1 := fresh "E" in
      apply evm_bind_Ok in E as (a & h & E1 & E)
  | E : mret _ _ = Ok (_, _) |- _ => apply evm_ret_Ok in E as [? ?]
  | E : lift _ _ = Ok (_, _) |- _ => apply lift_Ok in E as [? ?]
  | E : or_default _ _ _ = Ok (_, _) |- _ => unfold or_default in E; apply lift_Ok in E as [? ?]
  | E : deploy _ _ _ _ _ = Ok (_, _) |- _ => apply deploy_Ok in E as (? & ? & ?)
  | E : send _ _ _ _ _ = Ok (_, _) |- _ => apply send_Ok in E as [? ?]
  | E : send_value _ _ _ _ _ _ = Ok (_, _) |- _ => apply send_Ok in E as [? ?]
  | E : read _ _ _ _ = Ok (_, _) |- _ => apply read_Ok in E as [? ?]
  end.

(** ** Concrete nodes

    Addresses are unary encodings of the nonce followed by the creator, with
    the digits [a] and the end mark [b]: addresses ascend with the nonce when
    [b] is below [a], and descend otherwise. *)

Definition create_with (a b : ascii) (s : Address) (n : nat) : Address :=
  String "C" (repeat_char n a ++ String b s)%string.

Lemma create_with_inj a b s n s' n' : a <> b ->
  create_with a b s n = create_with a b s' n' -> s = s' /\ n = n'.
Proof.
  intros Hab. unfold create_with. intros [= E]. revert n' E.
  induction n as [|n IH]; intros [|n'] E; cbn [repeat_char String.append] in E.
  - by injection E.
  - injection E as E _. congruence.
  - injection E as E _. congruence.
  - injection E as E. destruct (IH n' E) as [-> ->]. done.
Qed.

Lemma toLowerCase_repeat n c : toLowerCase (repeat_char n c) = repeat_char n (lower_ascii c).
Proof. induction n as [|n IH]; cbn [repeat_char toLowerCase]; [done|]. by rewrite IH. Qed.

Lemma create_with_lower_inj a b s n n' : lower_ascii a <> lower_ascii b ->
  toLowerCase (create_with a b s n) = toLowerCase (create_with a b s n') -> n = n'.
Proof.
  intros Hab. unfold create_with. cbn [toLowerCase]. rewrite !toLowerCase_app, !toLowerCase_repeat.
  cbn [toLowerCase]. intros E.
  assert (E' : create_with (lower_ascii a) (lower_ascii b) (toLowerCase s) n =
               create_with (lower_ascii a) (lower_ascii b) (toLowerCase s) n').
  { unfold create_with. injection E as E. by rewrite E. }
  by apply (create_with_inj _ _ _ _ _ _ Hab) in E' as [_ ?].
Qed.

Definition create_ref : Address -> nat -> Address := create_with "1" "0".

Lemma create_ref_inj s n s' n' : create_ref s n = create_ref s' n' -> s = s' /\ n = n'.
Proof. by apply create_with_inj. Qed.

Lemma create_ref_lower_inj s n n' :
  toLowerCase (create_ref s n) = toLowerCase (create_ref s n') -> n = n'.
Proof. by apply create_with_lower_inj. Qed.

(** A node with descending addresses that accepts everything and answers
    reads as told. *)
Definition accepting_node (v : history -> Address -> string -> list jsv -> result jsv)
    (accounts : list Address) : Node.
Proof.
  refine {| create := create_with "0" "1"; accepts := fun _ _ => Ok tt; view := v;
            listAccounts := accounts |}.
  - intros. by apply (create_with_inj "0" "1").
  - intros. by apply (create_with_lower_inj "0" "1" s).
  - done.
Defined.
