(* ===== verification/ProtocolUtils.v ===== *)
(** * Link ids, call data and protocol look-ups

    [utils/common/libraryUtils.ts], [adapterUtils.ts] and [protocolUtils.ts]. *)

From S2P Require Import Prelude JsString Ethers Constants Evm.
From Stdlib Require Import Ascii String.

Local Open Scope Z_scope.

(** [s.replace(pat, by)] for a string pattern: the first occurrence only. *)
Fixpoint starts_with (pat s : string) : bool :=
  match pat, s with
  | EmptyString, _ => true
  | String c pat', String d s' => Ascii.eqb c d && starts_with pat' s'
  | String _ _, EmptyString => false
  end.

Fixpoint replace (pat rep s : string) : string :=
  if starts_with pat s then (rep ++ slice (String.length pat) s)%string
  else match s with
       | EmptyString => EmptyString
       | String c s' => String c (replace pat rep s')
       end.

Section ProtocolUtils.
Context `{EU : EthersUtils} `{ND : Node}.

(** [path.sep] of the platforms the tool chain runs on. *)
Definition sep : ascii := "/".

Definition convertLibraryNameToLinkId (libraryName : string) : result string :=
  if negb (includes_char sep libraryName && includes_char ":" libraryName) then
    Throw "Converting library name to link id requires a fully qualified contract name. Example: `contracts/mocks/LibraryMock.sol:LibraryMock`"
  else
    let hashedName := keccak256 libraryName in
    Ok ("__$" ++ take_str 34 (slice 2 hashedName) ++ "$__")%string.

Definition addressToData (address : string) : string :=
  replace "0x" "000000000000000000000000" address.

Definition bigNumberToData (number : Z) : string :=
  padStart 64 "0" (replace "0x" "" (toHexString number)).

Definition hashAdapterName (name : string) : string := keccak256 name.

(** [iface.parseLog(log).args._setToken]: a log is its emitter and its topics, of
    which the one of an address stands for the address it is padded from; the
    event's one indexed argument is [_setToken]. *)
Definition parsedSetToken (log : jsv) : result Address :=
  match log with
  | JArr [JStr _; JArr topics] =>
      args ← parseLog "SetTokenCreated(address,address,string,string)"
               (omap (fun t => match t with JStr t => Some t | _ => None end) topics);
      match args with _setToken :: _ => Ok _setToken | [] => Throw "data out-of-bounds" end
  | _ => Throw "Cannot read property 'topics' of undefined"
  end.

(** [logs[logs.length - 1]] of an empty array is undefined, which [parseLog]
    rejects. *)
Definition getCreatedSetTokenAddress (txnHash : option string) : evm Address :=
  match txnHash with
  | None | Some EmptyString => lift (Throw "Invalid transaction hash")
  | Some _ =>
      let topic := keccak256 "SetTokenCreated(address,address,string,string)" in
      logs ← read "provider" "getLogs" [JStr "latest"; JStr "latest"; JStr topic];
      lift (match logs with
            | JArr l =>
                match last l with
                | Some log => parsedSetToken log
                | None => Throw "Cannot read property 'topics' of undefined"
                end
            | _ => Throw "unexpected result type"
            end)
  end.

Definition getDefaultPosition (component : Address) (unit : Z) : Position :=
  mkPosition component ADDRESS_ZERO unit 0 EMPTY_BYTES.

Definition getExternalPosition (component module : Address) (unit : Z) (data : string) : Position :=
  mkPosition component module unit 1 data.

(** ** Lemmas *)

Lemma length_take_str n s : String.length (take_str n s) = Nat.min n (String.length s).
Proof. revert s; induction n as [|n IH]; intros [|c s]; cbn; auto. Qed.

Lemma includes_char_app c s t :
  includes_char c (s ++ t) = includes_char c s || includes_char c t.
Proof. induction s as [|d s IH]; cbn; [done|]. destruct (Ascii.eqb c d); [done|]. apply IH. Qed.

Lemma data_hex_replace z rep : replace "0x" rep (data_hex z) = (rep ++ hex_digits (2 * byte_length z) z)%string.
Proof. unfold data_hex. by destruct (hex_digits _ z). Qed.

(** ** Theorems *)

(** A link id is produced exactly for the names that contain a path
    separator and a colon, and is 40 characters wide: the width of the address
    that the linker substitutes for it. *)
Theorem convertLibraryNameToLinkId_width name :
  if includes_char sep name && includes_char ":" name then
    exists id, convertLibraryNameToLinkId name = Ok id /\ String.length id = 40%nat
  else is_Ok (convertLibraryNameToLinkId name) = false.
Proof.
  unfold convertLibraryNameToLinkId. destruct (_ && _); cbn [negb]; [|done].
  eexists. split; [reflexivity|]. rewrite !length_app_str, length_take_str, length_slice,
    keccak256_length. reflexivity.
Qed.

(** A 256-bit amount is encoded as one 32-byte word of call data from which
    it can be read back. *)
Theorem bigNumberToData_word n : 0 <= n < 2 ^ 256 ->
  String.length (bigNumberToData n) = 64%nat /\ hex_value 0 (bigNumberToData n) = n.
Proof.
  intros Hn. unfold bigNumberToData. rewrite toHexString_law, data_hex_replace by lia.
  cbn [String.append]. pose proof (byte_length_bound n 32 ltac:(lia) ltac:(lia)). split.
  - apply length_padStart. rewrite length_hex_digits. lia.
  - unfold padStart. rewrite hex_value_app, hex_value_zeros, hex_value_digits by lia.
    apply data_hex_range; lia.
Qed.

(** An address ("0x" and 40 digits) becomes one 32-byte word: 24 zeros, then
    its digits. *)
Theorem addressToData_word digits : String.length digits = 40%nat ->
  addressToData ("0x" ++ digits) = (repeat_char 24 "0" ++ digits)%string /\
  String.length (addressToData ("0x" ++ digits)) = 64%nat.
Proof.
  intros Hl. assert (E : addressToData ("0x" ++ digits) = (repeat_char 24 "0" ++ digits)%string)
    by (by destruct digits).
  rewrite E, length_app_str, length_repeat_char, Hl. done.
Qed.

End ProtocolUtils.

(** ** Concrete instances *)

Section Instances.

Example link_id_rejects : is_Ok (convertLibraryNameToLinkId "Compound") = false.
Proof. vm_compute. reflexivity. Qed.

Lemma bigNumberToData_witness :
  String.length (bigNumberToData (10 ^ 18)) = 64%nat /\ hex_value 0 (bigNumberToData (10 ^ 18)) = 10 ^ 18.
Proof. apply bigNumberToData_word. eval_side. Defined.

Lemma addressToData_witness : let digits := repeat_char 40 "a"%char in
  addressToData ("0x" ++ digits) = (repeat_char 24 "0" ++ digits)%string /\
  String.length (addressToData ("0x" ++ digits)) = 64%nat.
Proof. apply addressToData_word. reflexivity. Defined.

End Instances.
