(* ===== verification/TestUtils.v ===== *)
(** * Snapshots and test sandboxing

    [utils/common/blockchainUtils.ts] (class [Blockchain]) and the hooks of
    [utils/test/testingUtils.ts]. The node keeps the state of the chain and a
    stack of snapshots; [Provider] states what the code relies on of its
    JSON-RPC methods: [evm_snapshot] records the state under a fresh id,
    [evm_revert] restores it and drops that snapshot and all later ones. Mocha
    is described by the order in which its documentation says it runs hooks
    and tests: [suite_run] relates a tree of suites to the sequences of actions
    that respect that order. *)

From S2P Require Import Prelude JsString Ethers Constants Evm.
From Stdlib Require Import Ascii String.

Local Open Scope Z_scope.

#[local] Set Warnings "-register-all".

Class Provider := {
  provider : Type;
  chain : Type;                                   (** balances, storage, blocks, time *)
  chain_of : provider -> chain;
  snapshots : provider -> list (string * chain);  (** latest first *)
  blockNumber : chain -> Z;
  rpc : string -> list jsv -> provider -> result (jsv * provider);
  rpc_snapshot p : exists i p', rpc "evm_snapshot" [] p = Ok (JStr i, p') /\
    chain_of p' = chain_of p /\ snapshots p' = (i, chain_of p) :: snapshots p /\
    i ∉ (snapshots p).*1;
  rpc_revert p pre i c post : snapshots p = pre ++ (i, c) :: post -> i ∉ pre.*1 ->
    exists p', rpc "evm_revert" [JStr i] p = Ok (JBool true, p') /\
      chain_of p' = c /\ snapshots p' = post;
  rpc_revert_unknown p i : i ∉ (snapshots p).*1 ->
    rpc "evm_revert" [JStr i] p = Ok (JBool false, p);
  rpc_mine p : exists r p', rpc "evm_mine" [] p = Ok (r, p') /\
    blockNumber (chain_of p') = blockNumber (chain_of p) + 1 /\ snapshots p' = snapshots p;
}.

(** ** Blockchain *)

Module Blockchain.
Section Blockchain.
Context `{PR : Provider}.

(** The object: its private field [_snapshotId]. *)
Record t := mk { _snapshotId : jsv }.

Definition constructor : t := mk (JNum 0).

Definition sendJSONRpcRequestAsync (method : string) (params : list jsv) (p : provider)
    : result (jsv * provider) := rpc method params p.

Definition saveSnapshotAsync (this : t) (p : provider) : result (jsv * t * provider) :=
  r ← sendJSONRpcRequestAsync "evm_snapshot" [] p;
  Ok (r.1, mk r.1, r.2).

(** The answer of [evm_revert] is not looked at. *)
Definition revertByIdAsync (id : jsv) (p : provider) : result provider :=
  r ← sendJSONRpcRequestAsync "evm_revert" [id] p; Ok r.2.

Definition revertAsync (this : t) (p : provider) : result provider :=
  r ← sendJSONRpcRequestAsync "evm_revert" [_snapshotId this] p; Ok r.2.

Definition resetAsync (p : provider) : result provider :=
  r ← sendJSONRpcRequestAsync "evm_revert" [JStr "0x1"] p; Ok r.2.

Definition increaseTimeAsync (duration : Z) (p : provider) : result provider :=
  r ← sendJSONRpcRequestAsync "evm_increaseTime" [JNum duration] p; Ok r.2.

Definition setNextBlockTimestamp (timestamp : Z) (p : provider) : result provider :=
  r ← sendJSONRpcRequestAsync "evm_setNextBlockTimestamp" [JNum timestamp] p; Ok r.2.

(** [for (let i = 0; i < count; i++)]: no iteration when [count] is not positive. *)
Definition waitBlocksAsync (count : Z) (p : provider) : result provider :=
  foldM (fun p (_ : nat) => r ← sendJSONRpcRequestAsync "evm_mine" [] p; Ok r.2) p
    (seq 0 (Z.to_nat count)).

End Blockchain.
End Blockchain.

Import Blockchain.

Section TestingUtils.
Context `{PR : Provider}.

Definition mineBlockAsync (p : provider) : result provider :=
  r ← sendJSONRpcRequestAsync "evm_mine" [] p; Ok r.2.

(** [duration.toNumber()] throws above 2^53 - 1. *)
Definition testing_increaseTimeAsync (duration : Z) (p : provider) : result provider :=
  _ ← require (Z.abs duration <? 2 ^ 53) "overflow";
  r ← sendJSONRpcRequestAsync "evm_increaseTime" [JNum duration] p;
  mineBlockAsync r.2.

(** ** addSnapshotBeforeRestoreAfterEach *)

Definition sandbox_before (blockchain : Blockchain.t) (p : provider) : result (Blockchain.t * provider) :=
  r ← saveSnapshotAsync blockchain p; Ok (r.1.2, r.2).

Definition sandbox_after (blockchain : Blockchain.t) (p : provider) : result provider :=
  revertAsync blockchain p.

(** ** cacheBeforeEach

    The module-level stack [SNAPSHOTS] (its end first) and, for each call of
    [cacheBeforeEach], the flag [initialized] of its closure. *)

Record state := mkState {
  prov : provider;
  SNAPSHOTS : list jsv;
  initialized : gset nat;
}.

(** The [beforeEach] of the call [h]. *)
Definition cache_before (h : nat) (initializer : provider -> result provider) (s : state)
    : result state :=
  if bool_decide (h ∈ initialized s) then
    match SNAPSHOTS s with
    | [] => Throw "invalid argument"   (** [pop] of an empty array is undefined *)
    | snapshotId :: rest =>
        p ← revertByIdAsync snapshotId (prov s);
        r ← saveSnapshotAsync Blockchain.constructor p;
        Ok (mkState r.2 (r.1.1 :: rest) (initialized s))
    end
  else
    p ← initializer (prov s);
    r ← saveSnapshotAsync Blockchain.constructor p;
    Ok (mkState r.2 (r.1.1 :: SNAPSHOTS s) ({[ h ]} ∪ initialized s)).

(** The [after] of the call [h]. *)
Definition cache_after (h : nat) (s : state) : state :=
  if bool_decide (h ∈ initialized s) then mkState (prov s) (tail (SNAPSHOTS s)) (initialized s)
  else s.

(** ** Suites *)

(** What a hook does to the chain. The set-up code of a hook sends
    transactions: it changes the chain and keeps the snapshots. *)
Record setup := mkSetup {
  run_setup : provider -> result provider;
  effect : chain -> chain;
  setup_runs p : exists p', run_setup p = Ok p' /\ chain_of p' = effect (chain_of p) /\
    snapshots p' = snapshots p;
}.

Inductive hook :=
  | Cache (h : nat) (initializer : setup)   (** [cacheBeforeEach] *)
  | Plain (f : setup).                      (** [beforeEach] *)

(** A test may take snapshots and revert to them, but not to older ones. *)
Record test := mkTest {
  body : provider -> provider;
  body_respects p : exists new, snapshots (body p) = new ++ snapshots p;
  body_fresh p : NoDup (snapshots p).*1 -> NoDup (snapshots (body p)).*1;
}.

Inductive suite := Suite (hooks : list hook) (tests : list test) (children : list suite).

Inductive action :=
  | Before (k : hook)
  | Test (path : list hook) (t : test)
  | After (k : hook).

(** Mocha runs the tests of a suite before its nested suites, each test after
    the [beforeEach] hooks from the outermost suite inwards, and the [after]
    hooks at the end of the suite. Tests and suites may be skipped. *)
Inductive tests_run (path : list hook) : list test -> list action -> Prop :=
  | tests_nil : tests_run path [] []
  | tests_skip t ts a : tests_run path ts a -> tests_run path (t :: ts) a
  | tests_cons t ts a : tests_run path ts a ->
      tests_run path (t :: ts) (map Before path ++ Test path t :: a).

Inductive suite_run : list hook -> suite -> list action -> Prop :=
  | suite_run_intro outer hooks tests children a1 a2 :
      tests_run (outer ++ hooks) tests a1 -> suites_run (outer ++ hooks) children a2 ->
      suite_run outer (Suite hooks tests children) (a1 ++ a2 ++ map After hooks)
with suites_run : list hook -> list suite -> list action -> Prop :=
  | suites_nil outer : suites_run outer [] []
  | suites_skip outer x xs a : suites_run outer xs a -> suites_run outer (x :: xs) a
  | suites_cons outer x xs a b : suite_run outer x a -> suites_run outer xs b ->
      suites_run outer (x :: xs) (a ++ b).

Definition exec_action (a : action) (s : state) : result state :=
  match a with
  | Before (Cache h f) => cache_before h (run_setup f) s
  | Before (Plain f) => p ← run_setup f (prov s); Ok (mkState p (SNAPSHOTS s) (initialized s))
  | Test _ t => Ok (mkState (body t (prov s)) (SNAPSHOTS s) (initialized s))
  | After (Cache h _) => Ok (cache_after h s)
  | After (Plain _) => Ok s
  end.

Definition exec_actions (l : list action) (s : state) : result state :=
  foldM (fun s a => exec_action a s) s l.

(** The chain that a path of hooks describes: each hook once, in order. *)
Definition hook_effect (k : hook) : chain -> chain :=
  match k with Cache _ f | Plain f => effect f end.

Definition described (path : list hook) (c : chain) : chain :=
  foldl (fun c k => hook_effect k c) c path.

Definition cache_id (k : hook) : option nat :=
  match k with Cache h _ => Some h | Plain _ => None end.

(** The calls of [cacheBeforeEach] in a list of hooks and in a suite. *)
Definition caches (l : list hook) : list nat := omap cache_id l.

Fixpoint suite_caches (x : suite) : list nat :=
  match x with Suite hooks _ children => caches hooks ++ List.concat (map suite_caches children) end.

End TestingUtils.

(** ** Lemmas *)

Section Facts.
Context `{PR : Provider}.

Lemma described_app a b c : described (a ++ b) c = described b (described a c).
Proof. apply foldl_app. Qed.

Lemma caches_app a b : caches (a ++ b) = caches a ++ caches b.
Proof. apply omap_app. Qed.

(** The chains that the [cacheBeforeEach] calls of a path take snapshots of. *)
Fixpoint marks (l : list hook) (c : chain) : list chain :=
  match l with
  | [] => []
  | Cache h f :: l' => effect f c :: marks l' (effect f c)
  | Plain f :: l' => marks l' (effect f c)
  end.

Lemma marks_app a b c : marks (a ++ b) c = marks a c ++ marks b (described a c).
Proof.
  revert c; induction a as [|k a IH]; intros c; [done|].
  destruct k; cbn [app marks]; by rewrite IH.
Qed.

Lemma length_marks l c : List.length (marks l c) = List.length (caches l).
Proof.
  revert c; induction l as [|k l IH]; intros c; [done|].
  destruct k; cbn [marks]; cbn; by rewrite IH.
Qed.

(** The chain after the hooks of [l] when every snapshot reverted to is [m]. *)
Definition replay (m : chain) (l : list hook) (c : chain) : chain :=
  foldl (fun c k => match k with Cache _ _ => m | Plain f => effect f c end) c l.

Lemma replay_last l c0 m ms c : rev (marks l c0) = m :: ms -> replay m l c = described l c0.
Proof.
  induction l as [|k l IH] using rev_ind; [done|].
  rewrite marks_app, rev_app_distr, described_app. unfold replay. rewrite foldl_app.
  destruct k as [h f|f]; cbn [marks rev app foldl].
  - intros [= <- _]. done.
  - intros H. specialize (IH H). unfold replay in IH. by rewrite IH.
Qed.

(** The saved snapshots of the stack: [entries], above the ids [rest]. *)
Record stacked (entries : list (string * chain)) (rest : list jsv) (s : state) : Prop := {
  stacked_ids : SNAPSHOTS s = map (fun e => JStr e.1) entries ++ rest;
  stacked_live : sublist entries (snapshots (prov s));
  stacked_nodup : NoDup (snapshots (prov s)).*1;
}.

Lemma sublist_top (i : string) (c : chain) (es l : list (string * chain)) :
  sublist ((i, c) :: es) l -> NoDup l.*1 ->
  exists pre post, l = pre ++ (i, c) :: post /\ i ∉ (pre.*1) /\ sublist es post /\ NoDup post.*1.
Proof.
  intros H HN. apply sublist_cons_l in H as (pre & post & -> & Hs).
  exists pre, post. rewrite fmap_app, NoDup_app in HN. destruct HN as (_ & Hd & HN).
  cbn in HN. apply NoDup_cons in HN as [_ HN].
  split; [done|]. split; [|done]. intros Hi. apply (Hd i Hi). cbn. set_solver.
Qed.

Lemma save_runs b p : exists i p', saveSnapshotAsync b p = Ok (JStr i, Blockchain.mk (JStr i), p') /\
  chain_of p' = chain_of p /\ snapshots p' = (i, chain_of p) :: snapshots p /\ i ∉ (snapshots p).*1.
Proof.
  destruct (rpc_snapshot p) as (i & p' & E & H). exists i, p'.
  unfold saveSnapshotAsync, sendJSONRpcRequestAsync. by rewrite E.
Qed.

Lemma revert_runs p pre i c post : snapshots p = pre ++ (i, c) :: post -> i ∉ pre.*1 ->
  exists p', revertByIdAsync (JStr i) p = Ok p' /\ chain_of p' = c /\ snapshots p' = post.
Proof.
  intros E Hi. destruct (rpc_revert p pre i c post E Hi) as (p' & E' & H). exists p'.
  unfold revertByIdAsync, sendJSONRpcRequestAsync. by rewrite E'.
Qed.

(** A hook that has run before reverts to the top snapshot and renews it. *)
Lemma cache_before_again h f i c es rest s :
  h ∈ initialized s -> stacked ((i, c) :: es) rest s ->
  exists s' i', cache_before h f s = Ok s' /\ stacked ((i', c) :: es) rest s' /\
    chain_of (prov s') = c /\ initialized s' = initialized s.
Proof.
  intros Hh [E HL HN]. destruct (sublist_top _ _ _ _ HL HN) as (pre & post & Ep & Hi & Hs & HN').
  destruct (revert_runs _ _ _ _ _ Ep Hi) as (p1 & E1 & C1 & S1).
  destruct (save_runs Blockchain.constructor p1) as (i' & p2 & E2 & C2 & S2 & Hf).
  rewrite C1, S1 in *. exists (mkState p2 (JStr i' :: map (fun e => JStr e.1) es ++ rest) (initialized s)), i'.
  split.
  - unfold cache_before. rewrite bool_decide_eq_true_2, E by done. cbn [map app fst].
    rewrite E1. cbn [mbind result_bind]. by rewrite E2.
  - split; [|done]. constructor; cbn; [done|rewrite S2; by constructor|].
    rewrite S2. cbn. by apply NoDup_cons.
Qed.

(** A hook that has not run runs its set-up and pushes a snapshot. *)
Lemma cache_before_first h f es rest s :
  h ∉ initialized s -> stacked es rest s ->
  exists s' i, cache_before h (run_setup f) s = Ok s' /\
    stacked ((i, effect f (chain_of (prov s))) :: es) rest s' /\
    chain_of (prov s') = effect f (chain_of (prov s)) /\ initialized s' = {[ h ]} ∪ initialized s.
Proof.
  intros Hh [E HL HN]. destruct (setup_runs f (prov s)) as (p1 & E1 & C1 & S1).
  destruct (save_runs Blockchain.constructor p1) as (i & p2 & E2 & C2 & S2 & Hf).
  rewrite C1, S1 in *.
  exists (mkState p2 (JStr i :: map (fun e => JStr e.1) es ++ rest) ({[ h ]} ∪ initialized s)), i.
  split.
  - unfold cache_before. rewrite bool_decide_eq_false_2, E1 by done.
    cbn [mbind result_bind]. by rewrite E2, E.
  - split; [|done]. constructor; cbn; [done|rewrite S2; by constructor|].
    rewrite S2. cbn. by apply NoDup_cons.
Qed.

Lemma plain_before f es rest s : stacked es rest s ->
  exists s', exec_action (Before (Plain f)) s = Ok s' /\ stacked es rest s' /\
    chain_of (prov s') = effect f (chain_of (prov s)) /\ initialized s' = initialized s.
Proof.
  intros [E HL HN]. destruct (setup_runs f (prov s)) as (p1 & E1 & C1 & S1).
  exists (mkState p1 (SNAPSHOTS s) (initialized s)). cbn [exec_action]. rewrite E1.
  split; [done|]. split; [|done]. constructor; cbn; [done|by rewrite S1|by rewrite S1].
Qed.

Lemma exec_actions_cons a l s s1 : exec_action a s = Ok s1 ->
  exec_actions (a :: l) s = exec_actions l s1.
Proof. intros E. unfold exec_actions. cbn [foldM]. by rewrite E. Qed.

Lemma exec_actions_app a b s s1 : exec_actions a s = Ok s1 ->
  exec_actions (a ++ b) s = exec_actions b s1.
Proof. unfold exec_actions. intros E. rewrite foldM_app, E. done. Qed.

(** Hooks that have all run before. *)
Lemma before_again l : forall i m es rest s,
  (forall h, h ∈ caches l -> h ∈ initialized s) -> stacked ((i, m) :: es) rest s ->
  exists s' i', exec_actions (map Before l) s = Ok s' /\ stacked ((i', m) :: es) rest s' /\
    chain_of (prov s') = replay m l (chain_of (prov s)) /\ initialized s' = initialized s.
Proof.
  induction l as [|k l IH]; intros i m es rest s Hl HS; [by exists s, i|].
  assert (Hstep : exists s1 i1, exec_action (Before k) s = Ok s1 /\ stacked ((i1, m) :: es) rest s1 /\
    chain_of (prov s1) = replay m [k] (chain_of (prov s)) /\ initialized s1 = initialized s).
  { destruct k as [h f|f].
    - apply (cache_before_again h (run_setup f) i m es rest s); [apply Hl; cbn; set_solver|done].
    - destruct (plain_before f _ _ _ HS) as (s1 & H). by exists s1, i. }
  destruct Hstep as (s1 & i1 & E1 & S1 & C1 & I1).
  destruct (IH i1 m es rest s1) as (s2 & i2 & E2 & S2 & C2 & I2); [|done|].
  - intros h Hh. rewrite I1. apply Hl. destruct k; cbn; set_solver.
  - exists s2, i2. cbn [map]. rewrite (exec_actions_cons _ _ _ _ E1). split; [done|].
    rewrite C2, C1, I2, I1. done.
Qed.

(** Hooks that run for the first time. *)
Lemma before_first l : forall es rest s,
  (forall h, h ∈ caches l -> h ∉ initialized s) -> NoDup (caches l) -> stacked es rest s ->
  exists s' es', exec_actions (map Before l) s = Ok s' /\ stacked (es' ++ es) rest s' /\
    es'.*2 = rev (marks l (chain_of (prov s))) /\
    chain_of (prov s') = described l (chain_of (prov s)) /\
    initialized s' = list_to_set (caches l) ∪ initialized s.
Proof.
  induction l as [|k l IH]; intros es rest s Hl HN HS.
  { exists s, []. cbn. by rewrite union_empty_l_L. }
  destruct k as [h f|f].
  - cbn in HN. apply NoDup_cons in HN as [Hh HN].
    destruct (cache_before_first h f es rest s) as (s1 & i & E1 & S1 & C1 & I1); [|done|].
    { apply Hl. cbn. set_solver. }
    destruct (IH _ _ _ ltac:(intros h' Hh'; rewrite I1; specialize (Hl h' ltac:(cbn; set_solver)); set_solver)
      HN S1) as (s2 & es2 & E2 & S2 & M2 & C2 & I2).
    exists s2, (es2 ++ [(i, effect f (chain_of (prov s)))]).
    cbn [map]. rewrite (exec_actions_cons (Before (Cache h f)) _ _ _ E1). split; [done|].
    rewrite <- app_assoc. split; [done|]. split.
    { rewrite fmap_app, M2, C1. done. }
    split; [by rewrite C2, C1|]. rewrite I2, I1. cbn. set_solver.
  - destruct (plain_before f _ _ _ HS) as (s1 & E1 & S1 & C1 & I1).
    destruct (IH es rest s1) as (s2 & es2 & E2 & S2 & M2 & C2 & I2); [|done..|].
    { intros h Hh. rewrite I1. by apply Hl. }
    exists s2, es2. cbn [map]. rewrite (exec_actions_cons _ _ _ _ E1). split; [done|].
    split; [done|]. rewrite M2, C2, C1, I2, I1. done.
Qed.

End Facts.

(** ** The invariant of a run *)

Section Runs.
Context `{PR : Provider}.
Context (c0 : chain) (rest : list jsv).   (** the chain and the stack before the root suite *)

(** The hooks [done] have run and are still in scope. *)
Definition between (done : list hook) (s : state) : Prop :=
  exists es, stacked es rest s /\ es.*2 = rev (marks done c0) /\
    forall h, h ∈ caches done -> h ∈ initialized s.

(** Of the hooks of [path], a prefix has run. Before the first snapshot the
    chain is the initial one; after it, tests may have changed the chain. *)
Definition zone (path : list hook) (s : state) : Prop :=
  exists done todo, path = done ++ todo /\ between done s /\
    (forall h, h ∈ caches todo -> h ∉ initialized s) /\
    (caches done <> [] \/ (done = [] /\ chain_of (prov s) = c0)).

(** An execution in which every test starts from the chain its path describes. *)
Inductive sandboxed : list action -> state -> state -> Prop :=
  | sandboxed_nil s : sandboxed [] s s
  | sandboxed_cons a l s s1 s2 : exec_action a s = Ok s1 ->
      (forall path t, a = Test path t -> chain_of (prov s) = described path c0) ->
      sandboxed l s1 s2 -> sandboxed (a :: l) s s2.

Lemma sandboxed_app a b s s1 s2 : sandboxed a s s1 -> sandboxed b s1 s2 -> sandboxed (a ++ b) s s2.
Proof. induction 1; intros; cbn; [done|]. econstructor; eauto. Qed.

Lemma sandboxed_hooks l s s' : Forall (fun a => forall path t, a <> Test path t) l ->
  exec_actions l s = Ok s' -> sandboxed l s s'.
Proof.
  intros HF. revert s. induction HF as [|a l Ha HF IH]; intros s E.
  { injection E as <-. constructor. }
  unfold exec_actions in E. cbn [foldM] in E. apply bind_Ok_inv in E as (s1 & E1 & E).
  econstructor; [done| |by apply IH]. intros path t ->. by destruct (Ha path t).
Qed.

Lemma sandboxed_exec l s s' : sandboxed l s s' -> exec_actions l s = Ok s'.
Proof. induction 1; [done|]. by rewrite (exec_actions_cons _ _ _ _ H). Qed.

Lemma sandboxed_split pre path t post s s' : sandboxed (pre ++ Test path t :: post) s s' ->
  exists s1, exec_actions pre s = Ok s1 /\ chain_of (prov s1) = described path c0.
Proof.
  revert s; induction pre as [|a pre IH]; intros s H; inversion H as [|? ? ? s1 ? Ha Ht Hr]; subst.
  - exists s. split; [done|]. by eapply Ht.
  - destruct (IH _ Hr) as (s2 & E & C). exists s2. by rewrite (exec_actions_cons _ _ _ _ Ha).
Qed.

Lemma Before_not_test l : Forall (fun a => forall path t, a <> Test path t) (map Before l).
Proof. by apply Forall_map, Forall_true. Qed.

Lemma After_not_test l : Forall (fun a => forall path t, a <> Test path t) (map After l).
Proof. by apply Forall_map, Forall_true. Qed.

(** The hooks before a test bring the chain to what the path describes. *)
Lemma zone_before path s : zone path s -> NoDup (caches path) -> caches path <> [] ->
  exists s', exec_actions (map Before path) s = Ok s' /\ between path s' /\
    chain_of (prov s') = described path c0 /\
    initialized s' = list_to_set (caches path) ∪ initialized s.
Proof.
  intros (dn & todo & -> & (es & HS & HM & Hin) & Hnew & Hd) HN Hne.
  rewrite caches_app in HN. apply NoDup_app in HN as (_ & _ & HN).
  assert (Hagain : exists s1 es1, exec_actions (map Before dn) s = Ok s1 /\ stacked es1 rest s1 /\
    es1.*2 = rev (marks dn c0) /\ chain_of (prov s1) = described dn c0 /\
    initialized s1 = initialized s).
  { destruct Hd as [Hd|[-> Hc]]; [|by exists s, es].
    destruct es as [|[i m] es].
    { destruct Hd. apply length_zero_iff_nil. rewrite <- (length_marks dn c0), <- length_rev, <- HM. done. }
    cbn in HM. destruct (before_again dn i m es rest s Hin HS) as (s1 & i1 & E & S1 & C1 & I1).
    exists s1, ((i1, m) :: es). split_and!; try done. by rewrite C1, (replay_last dn c0 m (es.*2)). }
  destruct Hagain as (s1 & es1 & E1 & S1 & M1 & C1 & I1).
  destruct (before_first todo es1 rest s1) as (s2 & es2 & E2 & S2 & M2 & C2 & I2); [|done..|].
  { intros h Hh. rewrite I1. by apply Hnew. }
  exists s2. rewrite map_app, (exec_actions_app _ _ _ _ E1). split; [done|].
  rewrite I2, I1, C2, C1, described_app, caches_app, list_to_set_app_L.
  split; [|split; [done|]].
  - exists (es2 ++ es1). split; [done|]. rewrite fmap_app, M2, M1, marks_app, rev_app_distr, C1.
    split; [done|]. rewrite I2, I1. intros h Hh. rewrite caches_app in Hh. set_solver.
  - assert (list_to_set (caches dn) ⊆@{gset nat} initialized s) by (intros h Hh; apply Hin; set_solver).
    set_solver.
Qed.

Lemma between_test path t s : between path s ->
  between path (mkState (body t (prov s)) (SNAPSHOTS s) (initialized s)).
Proof.
  intros (es & [E HL HN] & HM & Hin). exists es. split; [|done]. constructor; cbn; [done| |].
  - destruct (body_respects t (prov s)) as [new ->]. by apply sublist_inserts_l.
  - by apply body_fresh.
Qed.

Lemma between_zone path s : between path s -> caches path <> [] -> zone path s.
Proof.
  intros HB Hne. exists path, []. rewrite app_nil_r. split_and!; try done; [|by left].
  cbn. set_solver.
Qed.

(** The tests of a suite. *)
Lemma tests_sandboxed path ts acts : tests_run path ts acts ->
  NoDup (caches path) -> caches path <> [] -> forall s, zone path s ->
  exists s', sandboxed acts s s' /\ zone path s' /\
    initialized s' ⊆ list_to_set (caches path) ∪ initialized s.
Proof.
  intros HT HN Hne. induction HT as [|t ts a HT IH|t ts a HT IH]; intros s Hz.
  - exists s. split; [constructor|]. split; [done|]. set_solver.
  - by apply IH.
  - destruct (zone_before path s Hz HN Hne) as (s1 & E1 & HB & C1 & I1).
    apply (between_test path t) in HB. apply between_zone in HB; [|done].
    destruct (IH _ HB) as (s2 & R2 & Z2 & I2). exists s2. split; [|split; [done|]].
    + eapply sandboxed_app; [by apply sandboxed_hooks; [apply Before_not_test|]|].
      econstructor; [reflexivity| |exact R2]. by intros ? ? [= <- <-].
    + cbn in I2. set_solver.
Qed.

(** The [after] hooks pop one snapshot for each hook that has run. *)
Lemma after_pops l s : exists s', exec_actions (map After l) s = Ok s' /\
  prov s' = prov s /\ initialized s' = initialized s /\
  SNAPSHOTS s' = drop (List.length (filter (fun h => h ∈ initialized s) (caches l))) (SNAPSHOTS s).
Proof.
  revert s; induction l as [|k l IH]; intros s; [by exists s|]. cbn [map].
  destruct k as [h f|f].
  - destruct (IH (cache_after h s)) as (s' & E & P & I & S).
    exists s'. rewrite (exec_actions_cons _ _ s (cache_after h s)) by done. split; [done|].
    revert P I S. unfold cache_after. change (caches (Cache h f :: l)) with (h :: caches l).
    rewrite filter_cons.
    destruct (decide (h ∈ initialized s)) as [Hh|Hh].
    + rewrite bool_decide_eq_true_2 by done. cbn [prov initialized SNAPSHOTS]. intros -> -> ->.
      split_and!; try done. cbn [List.length]. destruct (SNAPSHOTS s); cbn [tail drop]; [by rewrite drop_nil|done].
    + rewrite bool_decide_eq_false_2 by done. done.
  - destruct (IH s) as (s' & H). exists s'. by rewrite (exec_actions_cons _ _ s s).
Qed.

Lemma filter_caches (a b : list hook) (i : gset nat) :
  (forall h, h ∈ caches a -> h ∈ i) -> (forall h, h ∈ caches b -> h ∉ i) ->
  filter (fun h => h ∈ i) (caches (a ++ b)) = caches a.
Proof.
  intros Ha Hb. rewrite caches_app, filter_app.
  replace (filter _ (caches b)) with (@nil nat).
  - rewrite app_nil_r. revert Ha. generalize (caches a) as l. induction l as [|h l IH]; intros Ha; [done|].
    rewrite filter_cons_True by (apply Ha; set_solver). rewrite IH; [done|]. set_solver.
  - symmetry. revert Hb. generalize (caches b) as l. induction l as [|h l IH]; intros Hb; [done|].
    rewrite filter_cons_False by (apply Hb; set_solver). apply IH. set_solver.
Qed.

(** Leaving a suite whose hooks [l] have run and [todo] have not. *)
Lemma between_leave outer l todo s : between (outer ++ l) s ->
  (forall h, h ∈ caches todo -> h ∉ initialized s) ->
  exists s', exec_actions (map After (l ++ todo)) s = Ok s' /\ between outer s' /\
    initialized s' = initialized s.
Proof.
  intros (es & [E HL HN] & HM & Hin) Hnew.
  destruct (after_pops (l ++ todo) s) as (s' & E' & P & I & S). exists s'. split; [done|].
  split; [|done].
  rewrite filter_caches in S; [|intros h Hh; apply Hin; rewrite caches_app; set_solver|done].
  rewrite marks_app, rev_app_distr in HM. apply fmap_app_inv in HM as (es1 & es2 & H1 & H2 & ->).
  assert (Hlen : List.length es1 = List.length (caches l)).
  { by rewrite <- (length_marks l (described outer c0)), <- (length_rev (marks l _)), H1, length_fmap. }
  exists es2. split; [|split; [done|]].
  - constructor; rewrite ?P; [|by etrans; [apply sublist_inserts_l|]|done].
    rewrite S, E, map_app, <- Hlen, <- app_assoc.
    rewrite <- (length_map (fun e : string * chain => JStr e.1) es1). by rewrite drop_app_length.
  - intros h Hh. rewrite I. apply Hin. rewrite caches_app. set_solver.
Qed.

(** Entering and leaving a suite. *)
Lemma zone_enter outer hooks s : zone outer s ->
  (forall h, h ∈ caches hooks -> h ∉ initialized s) -> zone (outer ++ hooks) s.
Proof.
  intros (dn & todo & -> & HB & Hnew & Hd) Hh. exists dn, (todo ++ hooks).
  rewrite app_assoc. split_and!; try done. intros h. rewrite caches_app, elem_of_app.
  intros [?|?]; [by apply Hnew|by apply Hh].
Qed.

Lemma zone_leave outer hooks s : zone (outer ++ hooks) s -> caches outer <> [] ->
  exists s', exec_actions (map After hooks) s = Ok s' /\ zone outer s' /\
    initialized s' = initialized s.
Proof.
  intros (dn & todo & Hp & HB & Hnew & Hd) Hne.
  apply List.app_eq_app in Hp as (l & [[-> ->]|[-> ->]]).
  - (* some hooks of the path have not run: nothing is popped *)
    destruct (between_leave dn [] (hooks) s) as (s' & E & HB' & I).
    { by rewrite app_nil_r. }
    { intros h Hh. apply Hnew. rewrite caches_app. set_solver. }
    cbn [app] in E. exists s'. split; [done|]. split; [|done]. exists dn, l. split; [done|]. split; [done|].
    rewrite I. split; [intros h Hh; apply Hnew; rewrite caches_app; set_solver|].
    destruct Hd as [Hd|[-> Hc]]; [by left|right]. split; [done|].
    destruct (after_pops hooks s) as (s2 & E2 & P & _). rewrite E in E2. injection E2 as <-.
    by rewrite P.
  - destruct (between_leave outer l todo s HB Hnew) as (s' & E & HB' & I).
    exists s'. split; [done|]. split; [|done]. by apply between_zone.
Qed.

Scheme suite_run_mut := Minimality for suite_run Sort Prop
  with suites_run_mut := Minimality for suites_run Sort Prop.

Combined Scheme suite_runs_mut from suite_run_mut, suites_run_mut.

(** What holds of the actions of a suite, or of nested suites, below [outer]. *)
Definition nested_ok (outer : list hook) (ids : list nat) (acts : list action) : Prop :=
  caches outer <> [] -> NoDup (caches outer ++ ids) -> forall s, zone outer s ->
  (forall h, h ∈ ids -> h ∉ initialized s) ->
  exists s', sandboxed acts s s' /\ zone outer s' /\
    initialized s' ⊆ list_to_set (caches outer ++ ids) ∪ initialized s.

(** The tests and the nested suites of a suite. *)
Lemma inside_sandboxed path ts a1 children a2 : tests_run path ts a1 ->
  nested_ok path (List.concat (map suite_caches children)) a2 ->
  nested_ok path (List.concat (map suite_caches children)) (a1 ++ a2).
Proof.
  intros HT Hc Hne HN s Hz Hf. pose proof HN as HN'. apply NoDup_app in HN' as (HNp & Hd & _).
  destruct (tests_sandboxed path ts a1 HT HNp Hne s Hz) as (s1 & R1 & Z1 & I1).
  destruct (Hc Hne HN s1 Z1) as (s2 & R2 & Z2 & I2).
  - intros h Hh Hi. specialize (Hf h Hh). specialize (Hd h). set_solver.
  - exists s2. split; [by eapply sandboxed_app|]. split; [done|]. rewrite list_to_set_app_L in *.
    set_solver.
Qed.

Lemma suites_skip_ok outer x xs a :
  nested_ok outer (List.concat (map suite_caches xs)) a ->
  nested_ok outer (List.concat (map suite_caches (x :: xs))) a.
Proof.
  intros IH Hne HN s Hz Hf. cbn [map List.concat] in *.
  rewrite NoDup_app in HN. destruct HN as (N1 & Hd & N2). apply NoDup_app in N2 as (_ & _ & N3).
  destruct (IH Hne) with (s := s) as (s1 & R & Z & I); [|done| |].
  - apply NoDup_app. split; [done|]. split; [|done]. intros h H1 H2. apply (Hd h H1). set_solver.
  - intros h Hh. apply Hf. set_solver.
  - exists s1. split; [done|]. split; [done|]. rewrite !list_to_set_app_L in *. set_solver.
Qed.

Lemma suites_cons_ok outer x xs a b :
  nested_ok outer (suite_caches x) a -> nested_ok outer (List.concat (map suite_caches xs)) b ->
  nested_ok outer (List.concat (map suite_caches (x :: xs))) (a ++ b).
Proof.
  intros IHx IHxs Hne HN s Hz Hf. cbn [map List.concat] in *.
  rewrite NoDup_app in HN. destruct HN as (N1 & Hd & N2). apply NoDup_app in N2 as (N2 & Hd2 & N3).
  destruct (IHx Hne) with (s := s) as (s1 & R1 & Z1 & I1); [|done| |].
  { apply NoDup_app. split; [done|]. split; [|done]. intros h H1 H2. apply (Hd h H1). set_solver. }
  { intros h Hh. apply Hf. set_solver. }
  destruct (IHxs Hne) with (s := s1) as (s2 & R2 & Z2 & I2); [|done| |].
  { apply NoDup_app. split; [done|]. split; [|done]. intros h H1 H2. apply (Hd h H1). set_solver. }
  { intros h Hh Hi. specialize (Hf h ltac:(set_solver)). specialize (Hd h). specialize (Hd2 h).
    rewrite list_to_set_app_L in I1. set_solver. }
  exists s2. split; [by eapply sandboxed_app|]. split; [done|].
  rewrite !list_to_set_app_L in *. set_solver.
Qed.

Lemma suites_nil_ok outer : nested_ok outer [] [].
Proof. intros Hne HN s Hz Hf. exists s. split; [constructor|]. split; [done|]. set_solver. Qed.

Lemma runs_sandboxed :
  (forall outer x acts, suite_run outer x acts -> nested_ok outer (suite_caches x) acts) /\
  (forall outer xs acts, suites_run outer xs acts ->
     nested_ok outer (List.concat (map suite_caches xs)) acts).
Proof.
  apply suite_runs_mut.
  - intros outer hooks tests children a1 a2 HT _ IH Hne HN s Hz Hf. cbn [suite_caches] in *.
    destruct (inside_sandboxed _ _ _ _ _ HT IH) with (s := s) as (s1 & R1 & Z1 & I1).
    + rewrite caches_app. by destruct (caches outer).
    + by rewrite caches_app, <- app_assoc.
    + apply zone_enter; [done|]. intros h Hh. apply Hf. set_solver.
    + intros h Hh. apply Hf. set_solver.
    + destruct (zone_leave outer hooks s1 Z1 Hne) as (s2 & E2 & Z2 & I2).
      exists s2. rewrite app_assoc. split; [|split; [done|]].
      * eapply sandboxed_app; [done|]. apply sandboxed_hooks; [apply After_not_test|done].
      * rewrite I2. rewrite caches_app, <- app_assoc in I1. done.
  - intros outer. apply suites_nil_ok.
  - intros outer x xs a _. apply suites_skip_ok.
  - intros outer x xs a b _ IHx _. by apply suites_cons_ok.
Qed.

End Runs.

(** ** Theorems *)

Section Theorems.
Context `{PR : Provider}.

(** C13: Tests sandboxed with [cacheBeforeEach] do not see each other. In a suite
    whose hooks include a [cacheBeforeEach], whatever the tests do to the chain
    and however suites are nested, every test starts from the chain that its
    hooks describe: the set-up of each hook of its path once, in order, from the
    chain before the suite. No hook fails, and the stack of snapshots is left
    as it was. *)
Theorem cacheBeforeEach_sandboxes hooks tests children acts s :
  suite_run [] (Suite hooks tests children) acts -> caches hooks <> [] ->
  NoDup (suite_caches (Suite hooks tests children)) ->
  (forall h, h ∈ suite_caches (Suite hooks tests children) -> h ∉ initialized s) ->
  NoDup (snapshots (prov s)).*1 ->
  (exists s', exec_actions acts s = Ok s' /\ SNAPSHOTS s' = SNAPSHOTS s) /\
  (forall pre path t post, acts = pre ++ Test path t :: post ->
     exists s1, exec_actions pre s = Ok s1 /\
       chain_of (prov s1) = described path (chain_of (prov s))).
Proof.
  intros H Hne HN Hf HS. inversion H as [? ? ? ? a1 a2 HT HC]; subst. cbn [suite_caches app] in *.
  set (c0 := chain_of (prov s)). set (stack := SNAPSHOTS s).
  assert (Hz : zone c0 stack hooks s).
  { exists [], hooks. split; [done|]. split; [|split; [|by right]].
    - exists []. split; [|split; [done|]]; [|set_solver]. constructor; [done|apply sublist_nil_l|done].
    - intros h Hh. apply Hf. set_solver. }
  assert (HC' : nested_ok c0 stack hooks (List.concat (map suite_caches children)) a2).
  { by apply runs_sandboxed. }
  destruct (inside_sandboxed _ _ _ _ _ _ _ HT HC' Hne HN s Hz) as (s1 & R & Z & I).
  { intros h Hh. apply Hf. set_solver. }
  destruct Z as (dn & todo & Hp & HB & Hnew & _). subst hooks.
  destruct (between_leave c0 stack [] dn todo s1 HB Hnew) as (s2 & E2 & (es & [Hs _ _] & HM & _) & _).
  assert (R2 : sandboxed c0 (a1 ++ a2 ++ map After (dn ++ todo)) s s2).
  { rewrite app_assoc. eapply sandboxed_app; [exact R|].
    apply sandboxed_hooks; [apply After_not_test|done]. }
  split.
  - exists s2. split; [by eapply sandboxed_exec|]. rewrite Hs. by destruct es.
  - intros pre path t post Ha. rewrite Ha in R2. by apply sandboxed_split in R2.
Qed.

(** [addSnapshotBeforeRestoreAfterEach] undoes a test completely: after it,
    the chain and the snapshots are what they were before. *)
Theorem sandbox_restores blockchain t p : NoDup (snapshots p).*1 ->
  exists blockchain' p1 p2, sandbox_before blockchain p = Ok (blockchain', p1) /\
    sandbox_after blockchain' (body t p1) = Ok p2 /\
    chain_of p1 = chain_of p /\ chain_of p2 = chain_of p /\ snapshots p2 = snapshots p.
Proof.
  intros HN. destruct (save_runs blockchain p) as (i & p1 & E1 & C1 & S1 & Hf).
  assert (HN1 : NoDup (snapshots p1).*1) by (rewrite S1; cbn; by apply NoDup_cons).
  destruct (body_respects t p1) as [new Hnew]. pose proof (body_fresh t p1 HN1) as HN2.
  rewrite Hnew, S1, fmap_app, NoDup_app in HN2. destruct HN2 as (_ & Hd & _).
  rewrite S1 in Hnew.
  destruct (rpc_revert (body t p1) new i (chain_of p) (snapshots p) Hnew) as (p2 & E2 & C2 & S2).
  { intros Hi. apply (Hd i Hi). cbn. set_solver. }
  exists (Blockchain.mk (JStr i)), p1, p2. unfold sandbox_before. rewrite E1. split; [done|].
  split; [|done]. unfold sandbox_after, revertAsync, sendJSONRpcRequestAsync. cbn [_snapshotId].
  by rewrite E2.
Qed.

(** [waitBlocksAsync] mines exactly as many blocks as asked, none for a
    count that is not positive. *)
Theorem waitBlocksAsync_mines count p : exists p', waitBlocksAsync count p = Ok p' /\
  blockNumber (chain_of p') = blockNumber (chain_of p) + Z.max 0 count /\
  snapshots p' = snapshots p.
Proof.
  unfold waitBlocksAsync, sendJSONRpcRequestAsync.
  replace (Z.max 0 count) with (Z.of_nat (Z.to_nat count)) by lia.
  generalize (Z.to_nat count) as n, 0%nat as k. intros n. revert p.
  induction n as [|n IH]; intros p k; [exists p; split; [done|]; split; [lia|done]|].
  destruct (rpc_mine p) as (r & p1 & E & B & S). cbn [seq foldM]. rewrite E. run_result. cbn [snd].
  destruct (IH p1 (Datatypes.S k)) as (p' & E' & B' & S'). exists p'. split; [done|].
  split; [lia|congruence].
Qed.

End Theorems.

(** ** A concrete node

    The chain is its block number; the id of a snapshot is longer than all the
    others together. *)

Record ref_provider := mkRef { ref_chain : Z; ref_snapshots : list (string * Z) }.

Definition fresh_id (l : list (string * Z)) : string :=
  String "s"%char (foldr (fun e acc => (e.1 ++ acc)%string) EmptyString l).

Lemma fresh_id_longer e l : e ∈ l -> (String.length e.1 < String.length (fresh_id l))%nat.
Proof.
  unfold fresh_id. cbn [String.length]. intros H. apply Nat.lt_succ_r.
  induction l as [|x l IH]; [by apply not_elem_of_nil in H|]. cbn [foldr].
  rewrite length_app_str. apply elem_of_cons in H as [->|H]; [lia|]. specialize (IH H). lia.
Qed.

Lemma fresh_id_fresh l : fresh_id l ∉ l.*1.
Proof.
  intros H. apply list_elem_of_fmap in H as (e & E & He). apply fresh_id_longer in He.
  rewrite E in He. lia.
Qed.

(** The snapshots below the one with the id. *)
Fixpoint revert_to (i : string) (l : list (string * Z)) : option (Z * list (string * Z)) :=
  match l with
  | [] => None
  | e :: l' => if String.eqb i e.1 then Some (e.2, l') else revert_to i l'
  end.

Lemma revert_to_app i pre c post : i ∉ pre.*1 -> revert_to i (pre ++ (i, c) :: post) = Some (c, post).
Proof.
  induction pre as [|e pre IH]; intros Hi; cbn [app revert_to fst]; [by rewrite String.eqb_refl|].
  destruct (String.eqb_spec i e.1) as [->|_]; [|apply IH]; set_solver.
Qed.

Lemma revert_to_unknown i l : i ∉ l.*1 -> revert_to i l = None.
Proof.
  induction l as [|e l IH]; intros Hi; cbn [revert_to]; [done|].
  destruct (String.eqb_spec i e.1) as [->|_]; [|apply IH]; set_solver.
Qed.

Definition ref_rpc (method : string) (params : list jsv) (p : ref_provider)
    : result (jsv * ref_provider) :=
  if String.eqb method "evm_snapshot" then
    let i := fresh_id (ref_snapshots p) in
    Ok (JStr i, mkRef (ref_chain p) ((i, ref_chain p) :: ref_snapshots p))
  else if String.eqb method "evm_revert" then
    match params with
    | [JStr i] => match revert_to i (ref_snapshots p) with
                  | Some (c, l) => Ok (JBool true, mkRef c l)
                  | None => Ok (JBool false, p)
                  end
    | _ => Throw "invalid argument"
    end
  else if String.eqb method "evm_mine" then
    Ok (JStr "0x0", mkRef (ref_chain p + 1) (ref_snapshots p))
  else Throw "method not found".

#[local, refine] Instance ref_node : Provider := {|
  provider := ref_provider; chain := Z; chain_of := ref_chain; snapshots := ref_snapshots;
  blockNumber := fun c => c; rpc := ref_rpc |}.
Proof.
  - intros p. exists (fresh_id (ref_snapshots p)). eexists. split; [reflexivity|].
    split; [done|]. split; [done|]. apply fresh_id_fresh.
  - intros p pre i c post E Hi. exists (mkRef c post). unfold ref_rpc. cbn [String.eqb].
    rewrite E, revert_to_app by done. done.
  - intros p i Hi. unfold ref_rpc. cbn [String.eqb]. by rewrite revert_to_unknown.
  - intros p. do 2 eexists. split; [reflexivity|]. done.
Defined.

Definition adds (n : Z) : setup.
Proof.
  refine (mkSetup (fun p => Ok (mkRef (ref_chain p + n) (ref_snapshots p))) (fun c => c + n) _).
  intros p. by eexists.
Defined.

(** A test that changes the chain and leaves a snapshot behind. *)
Definition dirty_test : test.
Proof.
  refine (mkTest (fun p => mkRef (ref_chain p * 100)
    ((fresh_id (ref_snapshots p), 0) :: ref_snapshots p)) _ _).
  - intros p. by exists [(fresh_id (ref_snapshots p), 0)].
  - intros p H. cbn. apply NoDup_cons. split; [|done]. apply fresh_id_fresh.
Defined.

(** A suite with a nested one; the inner tests start at 5 + 1 + 10 + 1000. *)
Definition outer_hooks : list hook := [Cache 0 (adds 1); Plain (adds 10)].
Definition inner_hooks : list hook := [Cache 1 (adds 1000)].
Definition inner_suite : suite := Suite inner_hooks [dirty_test; dirty_test] [].

Definition outer_acts : list action := map Before outer_hooks ++ [Test outer_hooks dirty_test].
Definition inner_test : list action :=
  map Before (outer_hooks ++ inner_hooks) ++ [Test (outer_hooks ++ inner_hooks) dirty_test].
Definition suite_acts : list action :=
  outer_acts ++ ((inner_test ++ inner_test) ++ [] ++ map After inner_hooks) ++ map After outer_hooks.

Lemma suite_acts_run : suite_run [] (Suite outer_hooks [dirty_test] [inner_suite]) suite_acts.
Proof.
  unfold suite_acts. constructor.
  - unfold outer_acts. cbn [app]. apply tests_cons. constructor.
  - rewrite <- (app_nil_r ((inner_test ++ inner_test) ++ _)). apply suites_cons; [|constructor].
    constructor; [|constructor]. unfold inner_test. rewrite <- (app_assoc (map Before _)).
    apply (tests_cons _ dirty_test), (tests_cons _ dirty_test). constructor.
Qed.

Definition start_provider : provider := mkRef 5 [].
Definition start : state := mkState start_provider [] ∅.

Lemma cacheBeforeEach_witness : exists s1,
  exec_actions (outer_acts ++ inner_test ++ map Before (outer_hooks ++ inner_hooks)) start = Ok s1 /\ chain_of (prov s1) = 1016.
Proof.
  destruct (cacheBeforeEach_sandboxes outer_hooks [dirty_test] [inner_suite] suite_acts start
    suite_acts_run ltac:(done) ltac:(by vm_compute; repeat constructor; set_solver)
    ltac:(set_solver) ltac:(constructor)) as [_ H].
  destruct (H (outer_acts ++ inner_test ++ map Before (outer_hooks ++ inner_hooks))
    (outer_hooks ++ inner_hooks) dirty_test (map After inner_hooks ++ map After outer_hooks) eq_refl)
    as (s1 & E & C).
  exists s1. split; [exact E|]. rewrite C. reflexivity.
Defined.

Lemma sandbox_witness : exists b p1 p2,
  sandbox_before Blockchain.constructor start_provider = Ok (b, p1) /\
  sandbox_after b (body dirty_test p1) = Ok p2 /\ chain_of p2 = 5.
Proof.
  destruct (sandbox_restores Blockchain.constructor dirty_test start_provider ltac:(constructor))
    as (b & p1 & p2 & E1 & E2 & _ & C & _).
  by exists b, p1, p2.
Defined.
