(* ===== verification/Traces.v ===== *)
(** * What a program did

    A program that ran from the history [h0] appended events to it. [Ran] keeps
    those events and the number of transactions the owner has sent, which gives
    the addresses of the contracts it deploys; [calls_to] lists the methods
    called on a contract, in order. The tactic [trace_step] runs a program one
    step and extends the list. *)

From S2P Require Import Prelude JsString Ethers Constants UnitsUtils Evm.
From Stdlib Require Import String.

Local Open Scope Z_scope.

(** The methods called on [a] by transactions, in order. *)
Definition calls_to (a : Address) (evs : list event) : list string :=
  omap (fun ev => match ev with
                  | Sent _ to m _ _ => if decide (to = a) then Some m else None
                  | Deployed _ _ _ _ _ => None
                  end) evs.

Section Traces.
Context `{ND : Node}.

Definition Ran (owner : Address) (h0 : history) (evs : list event) (n : nat) (h : history) : Prop :=
  h = h0 ++ evs /\ nonce owner h = n.

Lemma Ran_start owner h : Ran owner h [] (nonce owner h) h.
Proof. split; [by rewrite app_nil_r|done]. Qed.

Lemma Ran_snoc owner h0 evs n h ev : Ran owner h0 evs n h -> sender ev = owner ->
  Ran owner h0 (evs ++ [ev]) (S n) (h ++ [ev]).
Proof.
  intros [-> Hn] Hs. split; [by rewrite app_assoc|].
  rewrite nonce_app, nonce_one, decide_True by done. lia.
Qed.

Lemma Ran_other owner h0 evs n h ev : Ran owner h0 evs n h -> sender ev <> owner ->
  Ran owner h0 (evs ++ [ev]) n (h ++ [ev]).
Proof.
  intros [-> Hn] Hs. split; [by rewrite app_assoc|].
  rewrite nonce_app, nonce_one, decide_False by done. lia.
Qed.

Lemma Ran_app owner h0 evs n h h' evs' m : Ran owner h0 evs n h -> Ran owner h evs' m h' ->
  Ran owner h0 (evs ++ evs') m h'.
Proof. intros [-> _] [-> Hm]. split; [by rewrite app_assoc|done]. Qed.

Lemma deploy_ran owner h0 evs n h c l args a h' :
  Ran owner h0 evs n h -> deploy owner c l args h = Ok (a, h') ->
  a = create owner n /\
  Ran owner h0 (evs ++ [Deployed (create owner n) owner c l args]) (S n) h'.
Proof.
  intros R E. pose proof R as [_ Hn]. apply deploy_Ok in E as (-> & -> & _). rewrite Hn in *.
  split; [done|]. by apply Ran_snoc.
Qed.

Lemma send_ran owner h0 evs n h to m args v r h' :
  Ran owner h0 evs n h -> send_value owner to m args v h = Ok (r, h') ->
  Ran owner h0 (evs ++ [Sent owner to m args v]) (S n) h'.
Proof. intros R E. apply send_Ok in E as [-> _]. by apply Ran_snoc. Qed.

(** A transaction of an account that may be the owner. *)
Lemma send_any_ran owner h0 evs n h from to m args v r h' :
  Ran owner h0 evs n h -> send_value from to m args v h = Ok (r, h') ->
  exists n', Ran owner h0 (evs ++ [Sent from to m args v]) n' h' /\ (n <= n')%nat.
Proof.
  intros R E. apply send_Ok in E as [-> _]. destruct (decide (from = owner)) as [->|Hne].
  - exists (S n). split; [by apply Ran_snoc|lia].
  - exists n. split; [by apply Ran_other|lia].
Qed.

Lemma send_detached_ran owner h0 evs n h to m args r h' :
  Ran owner h0 evs n h -> send_detached owner to m args h = Ok (r, h') ->
  exists evs' n', Ran owner h0 (evs ++ evs') n' h' /\ (n <= n')%nat /\
    (evs' = [] \/ evs' = [Sent owner to m args 0]).
Proof.
  intros R E. apply send_detached_Ok in E as [->| ->].
  - exists [], n. rewrite app_nil_r. split; [done|]. split; [done|by left].
  - exists [Sent owner to m args 0], (S n). split; [by apply Ran_snoc|]. split; [lia|by right].
Qed.

Lemma create_neq owner i j : i <> j -> create owner i <> create owner j.
Proof. intros Hij [_ E]%create_inj. done. Qed.

(** ** Calls to a contract *)

Lemma calls_to_app a e1 e2 : calls_to a (e1 ++ e2) = calls_to a e1 ++ calls_to a e2.
Proof. apply omap_app. Qed.

Lemma calls_to_deployed a b f c l args evs : calls_to a (Deployed b f c l args :: evs) = calls_to a evs.
Proof. done. Qed.

Lemma calls_to_same a f m args v evs : calls_to a (Sent f a m args v :: evs) = m :: calls_to a evs.
Proof. unfold calls_to. cbn. by rewrite decide_True. Qed.

Lemma calls_to_other a f b m args v evs : b <> a ->
  calls_to a (Sent f b m args v :: evs) = calls_to a evs.
Proof. intros H. unfold calls_to. cbn. by rewrite decide_False. Qed.

End Traces.

(** One step of the run in [E], from the events [R]. *)
Ltac trace_step :=
  match goal with
  | R : Ran _ _ _ _ ?h, E : mbind _ _ ?h = Ok _ |- _ =>
      let a := fresh "a" in let h1 := fresh "h" in let E1 := fresh "St" in
      apply evm_bind_Ok in E as (a & h1 & E1 & E)
  | R : Ran _ _ _ _ ?h, E : lift _ ?h = Ok (_, _) |- _ => apply lift_Ok in E as [? ->]
  | R : Ran _ _ _ _ ?h, E : or_default _ _ ?h = Ok (_, _) |- _ => unfold or_default in E; apply lift_Ok in E as [? ->]
  | R : Ran _ _ _ _ ?h, E : mret _ ?h = Ok (_, _) |- _ => apply evm_ret_Ok in E as [-> ->]
  | R : Ran _ _ _ _ ?h, E : deploy _ _ _ _ ?h = Ok (_, _) |- _ =>
      let R' := fresh "R" in apply (deploy_ran _ _ _ _ _ _ _ _ _ _ R) in E as (-> & R'); clear R
  | R : Ran ?o _ _ _ ?h, E : send_value ?o _ _ _ _ ?h = Ok (_, _) |- _ =>
      let R' := fresh "R" in apply (send_ran _ _ _ _ _ _ _ _ _ _ _ R) in E as R'; clear R
  | R : Ran _ _ _ _ ?h, E : send_value _ _ _ _ _ ?h = Ok (_, _) |- _ =>
      let n := fresh "n" in let R' := fresh "R" in let L := fresh "L" in
      apply (send_any_ran _ _ _ _ _ _ _ _ _ _ _ _ R) in E as (n & R' & L); clear R
  | R : Ran _ _ _ _ ?h, E : send_detached _ _ _ _ ?h = Ok (_, _) |- _ =>
      let evs := fresh "evs" in let n := fresh "n" in let R' := fresh "R" in
      let L := fresh "L" in let D := fresh "D" in
      apply (send_detached_ran _ _ _ _ _ _ _ _ _ _ R) in E as (evs & n & R' & L & D); clear R
  | R : Ran _ _ _ _ ?h, E : read _ _ _ ?h = Ok (_, _) |- _ =>
      let V := fresh "V" in apply read_Ok in E as [-> V]
  | R : Ran _ _ _ _ ?h, E : ?m ?h = Ok _ |- _ => let f := head_of m in unfold f in E
  end.

(** Skips events until the first call to the contract; the contracts of a run
    have different nonces. *)
Ltac first_call :=
  repeat first
    [ rewrite calls_to_same; reflexivity
    | rewrite calls_to_deployed
    | rewrite calls_to_other by (apply create_neq; lia) ].
