(* ===== verification/Ownable.v ===== *)
(** * Ownership of contracts

    [Ownable] of the OpenZeppelin package, from which the controller, the factory and
    the registry of integrations inherit. The package is third-party code, so the
    interface states what it documents: only the owner hands a contract on, never to
    the zero address, or gives it up, which leaves it with the zero address.
    [ownable_ref] is a concrete instance. *)

From S2P Require Import Prelude JsString Ethers Constants.
From Stdlib Require Import String.

Class Ownable := {
  ownable_transfer : Address -> Address -> Address -> result Address;   (** sender, new owner, owner *)
  ownable_renounce : Address -> Address -> result Address;
  ownable_transfer_law sender n o o' :
    ownable_transfer sender n o = Ok o' <-> sender = o /\ n <> ADDRESS_ZERO /\ o' = n;
  ownable_renounce_law sender o o' :
    ownable_renounce sender o = Ok o' <-> sender = o /\ o' = ADDRESS_ZERO;
}.

#[refine, export] Instance ownable_ref : Ownable := {|
  ownable_transfer sender n o :=
    _ ← require (bool_decide (sender = o)) "Ownable: caller is not the owner";
    _ ← require (bool_decide (n <> ADDRESS_ZERO)) "Ownable: new owner is the zero address";
    Ok n;
  ownable_renounce sender o :=
    _ ← require (bool_decide (sender = o)) "Ownable: caller is not the owner"; Ok ADDRESS_ZERO;
|}.
Proof.
  - intros sender n o o'. split.
    + intros Q. inv_result. apply bool_decide_eq_true in E, E0. done.
    + intros (-> & Hn & ->). by rewrite !bool_decide_eq_true_2.
  - intros sender o o'. split.
    + intros Q. inv_result. by apply bool_decide_eq_true in E.
    + intros [-> ->]. by rewrite bool_decide_eq_true_2.
Defined.
