(* ===== verification/Controller.v ===== *)
(** * The registry contracts

    [contracts/protocol/Controller.sol] with the array operations of
    [contracts/lib/AddressArrayUtils.sol]: the state the deployment code of
    this repository sets up. A [mapping(address => bool)] is the set of the
    addresses mapped to true, a mapping to addresses or integers a finite map
    whose absent keys are zero. Each external function takes the caller, its
    arguments and the state, and returns the new state or reverts. The
    modifier [onlyOwner] is OpenZeppelin's: it compares the caller with the
    owner, who is the deployer at first and hands the contract on through the
    functions inherited from [Ownable]. *)

From S2P Require Import Prelude JsString Ethers Constants Ownable.
From Stdlib Require Import String.

Local Open Scope Z_scope.

(** ** AddressArrayUtils *)

Module AddressArrayUtils.

(** Index of the first occurrence: [(index, isIn)]. *)
Fixpoint indexOf_from (i : nat) (A : list Address) (a : Address) : option nat :=
  match A with
  | [] => None
  | x :: A' => if bool_decide (x = a) then Some i else indexOf_from (S i) A' a
  end.

Definition indexOf (A : list Address) (a : Address) : option nat := indexOf_from 0 A a.

Definition contains (A : list Address) (a : Address) : bool :=
  match indexOf A a with Some _ => true | None => false end.

(** The loop over [i] of [hasDuplicate]: does a later element equal [A[i]]. *)
Fixpoint hasDuplicate_loop (A : list Address) : bool :=
  match A with
  | [] => false
  | current :: A' => if contains A' current then true else hasDuplicate_loop A'
  end.

Definition hasDuplicate (A : list Address) : result bool :=
  _ ← require (0 <? List.length A)%nat "A is empty"; Ok (hasDuplicate_loop A).

Definition pop (A : list Address) (index : nat) : result (list Address * Address) :=
  match A !! index with
  | None => Throw "Index must be < A length"
  | Some a => Ok (take index A ++ drop (S index) A, a)
  end.

Definition remove (A : list Address) (a : Address) : result (list Address) :=
  match indexOf A a with
  | None => Throw "Address not in array."
  | Some index => p ← pop A index; Ok p.1
  end.

(** The last element takes the place of the removed one. *)
Definition removeStorage (A : list Address) (a : Address) : result (list Address) :=
  match indexOf A a with
  | None => Throw "Address not in array."
  | Some index =>
      let lastIndex := (List.length A - 1)%nat in
      match A !! lastIndex with
      | Some x => Ok (take lastIndex (if (index =? lastIndex)%nat then A else <[ index := x ]> A))
      | None => Throw "invalid opcode"
      end
  end.

End AddressArrayUtils.

Import AddressArrayUtils.

(** ** Controller *)

Module Controller.

Inductive Event :=
  | FactoryAdded (f : Address) | FactoryRemoved (f : Address)
  | FeeEdited (m : Address) (t p : Z) | FeeRecipientChanged (r : Address)
  | ModuleAdded (m : Address) | ModuleRemoved (m : Address)
  | ResourceAdded (r : Address) (id : Z) | ResourceRemoved (r : Address) (id : Z)
  | SetAdded (s f : Address) | SetRemoved (s : Address)
  | OwnershipTransferred (previousOwner newOwner : Address).

Record state := mk {
  owner : Address;
  sets : list Address;
  factories : list Address;
  modules : list Address;
  resources : list Address;
  isSet : gset Address;
  isFactory : gset Address;
  isModule : gset Address;
  isResource : gset Address;
  fees : gmap (Address * Z) Z;
  resourceIds : gmap Z Address;
  feeRecipient : Address;
  isInitialized : bool;
  emitted : list Event;
}.

Definition resourceId (s : state) (id : Z) : Address := default ADDRESS_ZERO (resourceIds s !! id).
Definition getModuleFee (s : state) (m : Address) (t : Z) : Z := default 0 (fees s !! (m, t)).

(** Assignments to the storage variables, followed by [emit]. *)
Definition set_sets (s : state) l b e := mk (owner s) l (factories s) (modules s) (resources s) b
  (isFactory s) (isModule s) (isResource s) (fees s) (resourceIds s) (feeRecipient s)
  (isInitialized s) (emitted s ++ [e]).
Definition set_factories (s : state) l b e := mk (owner s) (sets s) l (modules s) (resources s)
  (isSet s) b (isModule s) (isResource s) (fees s) (resourceIds s) (feeRecipient s)
  (isInitialized s) (emitted s ++ [e]).
Definition set_modules (s : state) l b e := mk (owner s) (sets s) (factories s) l (resources s)
  (isSet s) (isFactory s) b (isResource s) (fees s) (resourceIds s) (feeRecipient s)
  (isInitialized s) (emitted s ++ [e]).
Definition set_resources (s : state) l b ids e := mk (owner s) (sets s) (factories s) (modules s) l
  (isSet s) (isFactory s) (isModule s) b (fees s) ids (feeRecipient s)
  (isInitialized s) (emitted s ++ [e]).
Definition set_fees (s : state) f e := mk (owner s) (sets s) (factories s) (modules s) (resources s)
  (isSet s) (isFactory s) (isModule s) (isResource s) f (resourceIds s) (feeRecipient s)
  (isInitialized s) (emitted s ++ [e]).
Definition set_feeRecipient (s : state) r e := mk (owner s) (sets s) (factories s) (modules s)
  (resources s) (isSet s) (isFactory s) (isModule s) (isResource s) (fees s) (resourceIds s) r
  (isInitialized s) (emitted s ++ [e]).

Definition set_owner (s : state) o e := mk o (sets s) (factories s) (modules s) (resources s)
  (isSet s) (isFactory s) (isModule s) (isResource s) (fees s) (resourceIds s) (feeRecipient s)
  (isInitialized s) (emitted s ++ [e]).

Definition constructor (msg_sender _feeRecipient : Address) : state :=
  mk msg_sender [] [] [] [] ∅ ∅ ∅ ∅ ∅ ∅ _feeRecipient false [OwnershipTransferred ADDRESS_ZERO msg_sender].

Definition onlyOwner (msg_sender : Address) (s : state) : result unit :=
  require (bool_decide (msg_sender = owner s)) "Ownable: caller is not the owner".
Definition onlyInitialized (s : state) : result unit :=
  require (isInitialized s) "Contract must be initialized.".
Definition onlyFactory (msg_sender : Address) (s : state) : result unit :=
  require (bool_decide (msg_sender ∈ isFactory s)) "Only valid factories can call".

(** The loops of [initialize]: flags of the listed addresses. *)
Definition flagAll (l : list Address) (flags : gset Address) : result (gset Address) :=
  foldM (fun flags a =>
    _ ← require (bool_decide (a <> ADDRESS_ZERO)) "Zero address submitted.";
    Ok ({[ a ]} ∪ flags)) flags l.

Definition addResources (l : list (Address * Z)) (acc : gset Address * gmap Z Address)
    : result (gset Address * gmap Z Address) :=
  foldM (fun acc (ri : Address * Z) =>
    _ ← require (bool_decide (ri.1 <> ADDRESS_ZERO)) "Zero address submitted.";
    _ ← require (bool_decide (default ADDRESS_ZERO (acc.2 !! ri.2) = ADDRESS_ZERO))
          "Resource ID already exists";
    Ok ({[ ri.1 ]} ∪ acc.1, <[ ri.2 := ri.1 ]> acc.2)) acc l.

Definition initialize (msg_sender : Address) (_factories _modules _resources : list Address)
    (_resourceIds : list Z) (s : state) : result state :=
  _ ← onlyOwner msg_sender s;
  _ ← require (negb (isInitialized s)) "Controller is already initialized";
  _ ← require (List.length _resources =? List.length _resourceIds)%nat "Array lengths do not match.";
  fs ← flagAll _factories (isFactory s);
  ms ← flagAll _modules (isModule s);
  rs ← addResources (combine _resources _resourceIds) (isResource s, resourceIds s);
  Ok (mk (owner s) (sets s) _factories _modules _resources (isSet s) fs ms rs.1 (fees s) rs.2
        (feeRecipient s) true (emitted s)).

Definition addSet (msg_sender _setToken : Address) (s : state) : result state :=
  _ ← onlyInitialized s;
  _ ← onlyFactory msg_sender s;
  _ ← require (bool_decide (_setToken ∉ isSet s)) "Set already exists";
  Ok (set_sets s (sets s ++ [_setToken]) ({[ _setToken ]} ∪ isSet s) (SetAdded _setToken msg_sender)).

Definition removeSet (msg_sender _setToken : Address) (s : state) : result state :=
  _ ← onlyInitialized s;
  _ ← onlyOwner msg_sender s;
  _ ← require (bool_decide (_setToken ∈ isSet s)) "Set does not exist";
  l ← remove (sets s) _setToken;
  Ok (set_sets s l (isSet s ∖ {[ _setToken ]}) (SetRemoved _setToken)).

Definition addFactory (msg_sender _factory : Address) (s : state) : result state :=
  _ ← onlyInitialized s;
  _ ← onlyOwner msg_sender s;
  _ ← require (bool_decide (_factory ∉ isFactory s)) "Factory already exists";
  Ok (set_factories s (factories s ++ [_factory]) ({[ _factory ]} ∪ isFactory s)
        (FactoryAdded _factory)).

Definition removeFactory (msg_sender _factory : Address) (s : state) : result state :=
  _ ← onlyInitialized s;
  _ ← onlyOwner msg_sender s;
  _ ← require (bool_decide (_factory ∈ isFactory s)) "Factory does not exist";
  l ← remove (factories s) _factory;
  Ok (set_factories s l (isFactory s ∖ {[ _factory ]}) (FactoryRemoved _factory)).

Definition addModule (msg_sender _module : Address) (s : state) : result state :=
  _ ← onlyInitialized s;
  _ ← onlyOwner msg_sender s;
  _ ← require (bool_decide (_module ∉ isModule s)) "Module already exists";
  Ok (set_modules s (modules s ++ [_module]) ({[ _module ]} ∪ isModule s) (ModuleAdded _module)).

Definition removeModule (msg_sender _module : Address) (s : state) : result state :=
  _ ← onlyInitialized s;
  _ ← onlyOwner msg_sender s;
  _ ← require (bool_decide (_module ∈ isModule s)) "Module does not exist";
  l ← remove (modules s) _module;
  Ok (set_modules s l (isModule s ∖ {[ _module ]}) (ModuleRemoved _module)).

Definition addResource (msg_sender _resource : Address) (_id : Z) (s : state) : result state :=
  _ ← onlyInitialized s;
  _ ← onlyOwner msg_sender s;
  _ ← require (bool_decide (_resource ∉ isResource s)) "Resource already exists";
  _ ← require (bool_decide (resourceId s _id = ADDRESS_ZERO)) "Resource ID already exists";
  Ok (set_resources s (resources s ++ [_resource]) ({[ _resource ]} ∪ isResource s)
        (<[ _id := _resource ]> (resourceIds s)) (ResourceAdded _resource _id)).

Definition removeResource (msg_sender : Address) (_id : Z) (s : state) : result state :=
  _ ← onlyInitialized s;
  _ ← onlyOwner msg_sender s;
  let resourceToRemove := resourceId s _id in
  _ ← require (bool_decide (resourceToRemove <> ADDRESS_ZERO)) "Resource does not exist";
  l ← remove (resources s) resourceToRemove;
  Ok (set_resources s l (isResource s ∖ {[ resourceToRemove ]}) (delete _id (resourceIds s))
        (ResourceRemoved resourceToRemove _id)).

Definition addFee (msg_sender _module : Address) (_feeType _newFeePercentage : Z) (s : state)
    : result state :=
  _ ← onlyInitialized s;
  _ ← onlyOwner msg_sender s;
  _ ← require (bool_decide (_module ∈ isModule s)) "Module does not exist";
  _ ← require (getModuleFee s _module _feeType =? 0) "Fee type already exists on module";
  Ok (set_fees s (<[ (_module, _feeType) := _newFeePercentage ]> (fees s))
        (FeeEdited _module _feeType _newFeePercentage)).

Definition editFee (msg_sender _module : Address) (_feeType _newFeePercentage : Z) (s : state)
    : result state :=
  _ ← onlyInitialized s;
  _ ← onlyOwner msg_sender s;
  _ ← require (bool_decide (_module ∈ isModule s)) "Module does not exist";
  _ ← require (negb (getModuleFee s _module _feeType =? 0)) "Fee type does not exist on module";
  Ok (set_fees s (<[ (_module, _feeType) := _newFeePercentage ]> (fees s))
        (FeeEdited _module _feeType _newFeePercentage)).

Definition editFeeRecipient (msg_sender _newFeeRecipient : Address) (s : state) : result state :=
  _ ← onlyInitialized s;
  _ ← onlyOwner msg_sender s;
  _ ← require (bool_decide (_newFeeRecipient <> ADDRESS_ZERO)) "Address must not be 0";
  Ok (set_feeRecipient s _newFeeRecipient (FeeRecipientChanged _newFeeRecipient)).

Definition isSystemContract (this _contractAddress : Address) (s : state) : bool :=
  bool_decide (_contractAddress ∈ isSet s) || bool_decide (_contractAddress ∈ isModule s)
  || bool_decide (_contractAddress ∈ isResource s) || bool_decide (_contractAddress ∈ isFactory s)
  || bool_decide (_contractAddress = this).

Section Calls.
Context `{OW : Ownable}.

(** Inherited from [Ownable]. *)
Definition transferOwnership (msg_sender newOwner : Address) (s : state) : result state :=
  o ← ownable_transfer msg_sender newOwner (owner s);
  Ok (set_owner s o (OwnershipTransferred (owner s) o)).

Definition renounceOwnership (msg_sender : Address) (s : state) : result state :=
  o ← ownable_renounce msg_sender (owner s);
  Ok (set_owner s o (OwnershipTransferred (owner s) o)).

(** The state-changing calls a controller accepts. *)
Inductive Call :=
  | Initialize (fs ms rs : list Address) (ids : list Z)
  | AddSet (a : Address) | RemoveSet (a : Address)
  | AddFactory (a : Address) | RemoveFactory (a : Address)
  | AddModule (a : Address) | RemoveModule (a : Address)
  | AddResource (a : Address) (id : Z) | RemoveResource (id : Z)
  | AddFee (m : Address) (t p : Z) | EditFee (m : Address) (t p : Z)
  | EditFeeRecipient (r : Address)
  | TransferOwnership (o : Address) | RenounceOwnership.

Definition exec (msg_sender : Address) (c : Call) (s : state) : result state :=
  match c with
  | Initialize fs ms rs ids => initialize msg_sender fs ms rs ids s
  | AddSet a => addSet msg_sender a s
  | RemoveSet a => removeSet msg_sender a s
  | AddFactory a => addFactory msg_sender a s
  | RemoveFactory a => removeFactory msg_sender a s
  | AddModule a => addModule msg_sender a s
  | RemoveModule a => removeModule msg_sender a s
  | AddResource a id => addResource msg_sender a id s
  | RemoveResource id => removeResource msg_sender id s
  | AddFee m t p => addFee msg_sender m t p s
  | EditFee m t p => editFee msg_sender m t p s
  | EditFeeRecipient r => editFeeRecipient msg_sender r s
  | TransferOwnership o => transferOwnership msg_sender o s
  | RenounceOwnership => renounceOwnership msg_sender s
  end.

(** A transaction whose call satisfies [ok]; one that reverts changes nothing. No
    transaction comes from the zero address. *)
Inductive step (ok : Call -> Prop) : state -> state -> Prop :=
  | step_ok sender c s s' : sender <> ADDRESS_ZERO -> ok c -> exec sender c s = Ok s' -> step ok s s'
  | step_revert sender c s e : exec sender c s = Throw e -> step ok s s.

End Calls.

End Controller.

Import Controller.

(** ** Lemmas on address arrays *)

Lemma indexOf_from_Some i A a n : indexOf_from i A a = Some n ->
  exists k, n = (i + k)%nat /\ A !! k = Some a.
Proof.
  revert i; induction A as [|x A IH]; intros i; cbn [indexOf_from]; [done|].
  case_bool_decide as E.
  - intros [= <-]. exists 0%nat. split; [lia|]. cbn. by subst.
  - intros H. destruct (IH _ H) as (k & -> & Hk). exists (S k). split; [lia|done].
Qed.

Lemma indexOf_from_None i A a : indexOf_from i A a = None <-> a ∉ A.
Proof.
  revert i; induction A as [|x A IH]; intros i; cbn [indexOf_from]; [set_solver|].
  case_bool_decide as E; [subst; set_solver|]. rewrite IH. set_solver.
Qed.

Lemma contains_spec A a : contains A a = bool_decide (a ∈ A).
Proof.
  unfold contains, indexOf. destruct (indexOf_from 0 A a) as [n|] eqn:E.
  - destruct (indexOf_from_Some _ _ _ _ E) as (k & -> & Hk).
    symmetry. apply bool_decide_eq_true. by eapply list_elem_of_lookup_2.
  - symmetry. apply bool_decide_eq_false. by apply (indexOf_from_None 0).
Qed.

Lemma hasDuplicate_loop_spec A : hasDuplicate_loop A = bool_decide (~ NoDup A).
Proof.
  induction A as [|x A IH]; cbn [hasDuplicate_loop].
  - symmetry. apply bool_decide_eq_false. intros H. apply H. constructor.
  - rewrite contains_spec, IH. destruct (decide (x ∈ A)) as [E|E].
    + rewrite bool_decide_eq_true_2 by done. symmetry. apply bool_decide_eq_true.
      rewrite NoDup_cons. tauto.
    + rewrite bool_decide_eq_false_2 by done. apply bool_decide_ext. rewrite NoDup_cons. tauto.
Qed.

(** Removing a listed address from a duplicate-free array never fails. *)
Lemma remove_spec A a : NoDup A -> a ∈ A ->
  exists A', remove A a = Ok A' /\ NoDup A' /\ (forall b, b ∈ A' <-> b ∈ A /\ b <> a).
Proof.
  intros HN Ha. unfold remove, indexOf, pop.
  destruct (indexOf_from 0 A a) as [n|] eqn:E; [|by apply indexOf_from_None in E].
  destruct (indexOf_from_Some _ _ _ _ E) as (k & -> & Hk). rewrite Nat.add_0_l, Hk. run_result.
  eexists. split; [reflexivity|]. cbn [fst].
  rewrite <- (take_drop_middle A k a Hk), NoDup_app, NoDup_cons in HN.
  destruct HN as (N1 & Hd & Hn & N2). split.
  - apply NoDup_app. set_solver.
  - intros b. rewrite <- (take_drop_middle A k a Hk) at 3. set_solver.
Qed.

Lemma removeStorage_Ok A a A' : removeStorage A a = Ok A' -> A ≡ₚ a :: A'.
Proof.
  unfold removeStorage, indexOf. destruct (indexOf_from 0 A a) as [n|] eqn:E; [|done].
  destruct (indexOf_from_Some _ _ _ _ E) as (k & -> & Hk). rewrite Nat.add_0_l.
  destruct A as [|y A0] using rev_ind; [done|]. clear IHA0.
  rewrite length_app, Nat.add_sub, list_lookup_middle by done.
  intros Q. injection Q as <-. destruct (Nat.eqb_spec k (List.length A0)) as [->|Hn].
  - rewrite take_app_length. rewrite list_lookup_middle in Hk by done. injection Hk as ->.
    by rewrite Permutation_app_comm.
  - assert (Hk' : A0 !! k = Some a).
    { rewrite lookup_app_l in Hk; [done|]. apply lookup_lt_Some in Hk. rewrite length_app in Hk.
      cbn in Hk. lia. }
    pose proof (lookup_lt_Some _ _ _ Hk') as Hl. rewrite insert_app_l by done.
    replace (List.length A0) with (List.length (<[k:=y]> A0)) by apply length_insert.
    rewrite take_app_length, insert_take_drop by done.
    rewrite <- (take_drop_middle A0 k a Hk') at 1. rewrite <- app_assoc. cbn [app].
    rewrite <- !Permutation_middle. constructor. rewrite Permutation_app_comm. cbn [app].
    by rewrite app_nil_r, Permutation_app_comm.
Qed.

Lemma removeStorage_listed A a : a ∈ A -> exists A', removeStorage A a = Ok A'.
Proof.
  intros Ha. unfold removeStorage, indexOf.
  destruct (indexOf_from 0 A a) as [n|] eqn:E; [|by apply indexOf_from_None in E].
  destruct A as [|y A0] using rev_ind; [by apply not_elem_of_nil in Ha|]. clear IHA0.
  rewrite length_app, Nat.add_sub, list_lookup_middle by done. by eexists.
Qed.

(** ** The registry invariant *)

(** A list and its membership flags agree, and nothing is listed twice. *)
Definition listing (l : list Address) (flags : gset Address) : Prop :=
  NoDup l /\ forall a, a ∈ l <-> a ∈ flags.

Lemma listing_add l f a : listing l f -> a ∉ f -> listing (l ++ [a]) ({[ a ]} ∪ f).
Proof.
  intros [HN HE] Ha. split.
  - apply NoDup_app. split_and!; [done| |apply NoDup_singleton]. intros x Hx Hxa.
    apply list_elem_of_singleton in Hxa. subst. by apply Ha, HE.
  - intros b. specialize (HE b). set_solver.
Qed.

Lemma listing_remove l f a : listing l f -> a ∈ f ->
  exists l', remove l a = Ok l' /\ listing l' (f ∖ {[ a ]}).
Proof.
  intros [HN HE] Ha. destruct (remove_spec l a HN) as (l' & -> & HN' & HE'); [by apply HE|].
  exists l'. split; [done|]. split; [done|]. intros b. rewrite HE'. specialize (HE b). set_solver.
Qed.

(** The resource ids are a bijection between the used ids and the resources. *)
Definition ids_of (flags : gset Address) (ids : gmap Z Address) : Prop :=
  (forall a, a ∈ flags <-> exists id, ids !! id = Some a) /\
  (forall i j a, ids !! i = Some a -> ids !! j = Some a -> i = j) /\
  (forall i a, ids !! i = Some a -> a <> ADDRESS_ZERO).

Record Inv (s : state) : Prop := {
  inv_sets : listing (sets s) (isSet s);
  inv_factories : listing (factories s) (isFactory s);
  inv_modules : listing (modules s) (isModule s);
  inv_resources : listing (resources s) (isResource s);
  inv_ids : ids_of (isResource s) (resourceIds s);
  inv_fresh : isInitialized s = false ->
    isSet s = ∅ /\ isFactory s = ∅ /\ isModule s = ∅ /\ isResource s = ∅ /\ resourceIds s = ∅;
}.

(** What the contract does not check about its arguments: duplicates in the
    lists of [initialize], and the zero address in [addResource]. *)
Definition wf_call (c : Call) : Prop :=
  match c with
  | Initialize fs ms rs _ => NoDup fs /\ NoDup ms /\ NoDup rs
  | AddResource a _ => a <> ADDRESS_ZERO
  | _ => True
  end.

Lemma listing_nil : listing [] ∅.
Proof. split; [constructor|set_solver]. Qed.

Lemma ids_of_empty : ids_of ∅ ∅.
Proof.
  split_and!; [|set_solver|set_solver]. intros a. split; [set_solver|]. intros [id H]. set_solver.
Qed.

Lemma Inv_constructor sender r : Inv (constructor sender r).
Proof. constructor; try apply listing_nil; try apply ids_of_empty. done. Qed.

Lemma flagAll_spec l f r : flagAll l f = Ok r -> r = list_to_set l ∪ f /\ ADDRESS_ZERO ∉ l.
Proof.
  revert f; induction l as [|a l IH]; intros f; cbn [flagAll foldM].
  - intros [= <-]. set_solver.
  - unfold require. case_bool_decide as E; run_result; [|done]. intros H.
    destruct (IH _ H) as [-> Hz]. set_solver.
Qed.

Lemma ids_of_lookup f m id : ids_of f m -> default ADDRESS_ZERO (m !! id) = ADDRESS_ZERO ->
  m !! id = None.
Proof.
  intros (_ & _ & Hz) E. destruct (m !! id) as [a|] eqn:Ea; [|done]. by apply Hz in Ea.
Qed.

Lemma ids_of_insert f m a id : ids_of f m -> a ∉ f -> a <> ADDRESS_ZERO -> m !! id = None ->
  ids_of ({[ a ]} ∪ f) (<[ id := a ]> m).
Proof.
  intros (HE & HI & HZ) Ha Hnz Hid. split_and!.
  - intros b. rewrite elem_of_union, elem_of_singleton. split.
    + intros [->|Hb]; [exists id; by rewrite lookup_insert_eq|].
      apply HE in Hb as [i Hi]. exists i. rewrite lookup_insert_ne; [done|]. congruence.
    + intros [i Hi]. apply lookup_insert_Some in Hi as [[_ ->]|[_ Hi]]; [by left|].
      right. apply HE. by exists i.
  - intros i j b Hi Hj. apply lookup_insert_Some in Hi, Hj.
    assert (Hnot : forall k, m !! k <> Some a) by (intros k Hk; apply Ha, HE; by exists k).
    destruct Hi as [[<- Eb]|[_ Hi]], Hj as [[<- Eb']|[_ Hj]]; subst; try done;
      [by destruct (Hnot j) | by destruct (Hnot i) | by eapply HI].
  - intros i b Hi. apply lookup_insert_Some in Hi as [[_ <-]|[_ Hi]]; [done|]. by eapply HZ.
Qed.

Lemma ids_of_delete f m a id : ids_of f m -> m !! id = Some a ->
  ids_of (f ∖ {[ a ]}) (delete id m).
Proof.
  intros (HE & HI & HZ) Hid. split_and!.
  - intros b. rewrite elem_of_difference, elem_of_singleton, HE. split.
    + intros [[i Hi] Hb]. exists i. rewrite lookup_delete_ne; [done|]. congruence.
    + intros [i Hi]. apply lookup_delete_Some in Hi as [Hne Hi]. split; [by exists i|].
      intros ->. by apply Hne, (HI _ _ _ Hid Hi).
  - intros i j b Hi Hj. apply lookup_delete_Some in Hi as [_ Hi], Hj as [_ Hj]. by eapply HI.
  - intros i b Hi. apply lookup_delete_Some in Hi as [_ Hi]. by eapply HZ.
Qed.

Lemma addResources_spec l f m r : NoDup l.*1 -> (forall a, a ∈ l.*1 -> a ∉ f) -> ids_of f m ->
  addResources l (f, m) = Ok r -> r.1 = list_to_set l.*1 ∪ f /\ ids_of r.1 r.2.
Proof.
  revert f m; induction l as [|[a id] l IH]; intros f m HN Hf Hids; cbn [addResources foldM].
  - intros [= <-]. cbn [fst snd fmap list_fmap list_to_set]. split; [set_solver|done].
  - cbn [fst snd]. intros H. apply bind_Ok_inv in H as (acc & H1 & H). inv_result.
    apply bool_decide_eq_true in E as Enz. apply bool_decide_eq_true in E0 as Eid.
    cbn [fmap list_fmap] in HN, Hf |- *. apply NoDup_cons in HN as [Ha HN]. cbn [fst] in *.
    apply IH in H as [-> Hids'].
    + split; [set_solver|done].
    + done.
    + intros b Hb. specialize (Hf b). set_solver.
    + apply ids_of_insert; [done|by apply Hf; left|done|by eapply ids_of_lookup].
Qed.

Lemma fst_combine {A B} (l : list A) (l' : list B) : List.length l = List.length l' ->
  (combine l l').*1 = l.
Proof. revert l'; induction l as [|x l IH]; intros [|y l']; cbn; try done. intros [= H]. by rewrite IH. Qed.

(** Peels the modifiers and [require]s off a successful call. *)
Ltac call_Ok :=
  cbn [exec]; unfold initialize, addSet, removeSet, addFactory, removeFactory, addModule,
    removeModule, addResource, removeResource, addFee, editFee, editFeeRecipient,
    transferOwnership, renounceOwnership, onlyOwner, onlyInitialized, onlyFactory, require;
  repeat match goal with
  | |- context [if ?b then Ok tt else Throw _] =>
      let E := fresh "G" in destruct b eqn:E; run_result; [|discriminate]
  end;
  repeat match goal with
  | G : bool_decide _ = true |- _ => apply bool_decide_eq_true in G
  | G : negb _ = true |- _ => apply negb_true_iff in G
  | G : (_ =? _)%nat = true |- _ => apply Nat.eqb_eq in G
  | G : (_ =? _)%Z = true |- _ => apply Z.eqb_eq in G
  end.

Lemma Inv_initialize sender fs ms rs ids s s' : NoDup fs -> NoDup ms -> NoDup rs ->
  Inv s -> initialize sender fs ms rs ids s = Ok s' -> Inv s'.
Proof.
  intros Nf Nm Nr I. call_Ok. generalize (inv_sets s I). destruct (inv_fresh s I ltac:(done)) as (-> & -> & -> & -> & ->).
  destruct (flagAll fs ∅) as [f|] eqn:Ef; run_result; [|done].
  destruct (flagAll ms ∅) as [m|] eqn:Em; run_result; [|done].
  destruct (addResources _ _) as [r|] eqn:Er; run_result; [|done].
  apply flagAll_spec in Ef as [-> _], Em as [-> _].
  apply addResources_spec in Er as [Er1 Er2]; [|rewrite fst_combine; done|set_solver|apply ids_of_empty].
  rewrite fst_combine in Er1 by done. intros Is [= <-].
  constructor; cbn [sets isSet factories isFactory modules isModule resources isResource
    resourceIds isInitialized]; rewrite ?Er1; try done;
    solve [split; [done|set_solver] | by rewrite <- Er1].
Qed.

Section Calls.
Context `{OW : Ownable}.

(** Every call of the owner or a factory preserves the invariant. *)
Lemma Inv_exec sender c s s' : wf_call c -> Inv s -> exec sender c s = Ok s' -> Inv s'.
Proof.
  destruct c as [fs ms rs ids|a|a|a|a|a|a|a id|id|m t p|m t p|r|o|]; cbn [wf_call]; intros W I.
  1: { destruct W as (? & ? & ?). by apply Inv_initialize. }
  all: destruct I as [Is If Im Ir Ii Ifr]; call_Ok.
  all: try (destruct (listing_remove _ _ _ Is ltac:(done)) as (l' & -> & L); run_result).
  all: try (destruct (listing_remove _ _ _ If ltac:(done)) as (l' & -> & L); run_result).
  all: try (destruct (listing_remove _ _ _ Im ltac:(done)) as (l' & -> & L); run_result).
  8: { set (a := resourceId s id) in *. unfold resourceId in a.
       destruct (resourceIds s !! id) as [a'|] eqn:Ea; [|by destruct G1].
       assert (Ha : a ∈ isResource s) by (apply (proj1 Ii); by exists id).
       destruct (listing_remove _ _ _ Ir Ha) as (l' & -> & L). run_result. intros [= <-].
       constructor; try done; [by apply ids_of_delete|].
       cbn [isInitialized set_resources]. congruence. }
  all: try (destruct (ownable_transfer _ _ _); run_result; [|done]).
  all: try (destruct (ownable_renounce _ _); run_result; [|done]).
  all: intros [= <-]; constructor; try done; try by apply listing_add.
  all: try (cbn; congruence).
  apply ids_of_insert; try done. by eapply ids_of_lookup.
Qed.

(** Calls that are Ownable's, and what they make of the owner. *)
Definition inherited (c : Call) : bool :=
  match c with TransferOwnership _ | RenounceOwnership => true | _ => false end.

Definition next_owner (c : Call) (o : Address) : Address :=
  match c with TransferOwnership n => n | RenounceOwnership => ADDRESS_ZERO | _ => o end.

(** The owner that a log of events tells of: the last one it was transferred to. *)
Definition logged_owner (l : list Event) : Address :=
  foldl (fun o e => match e with OwnershipTransferred _ n => n | _ => o end) ADDRESS_ZERO l.

(** Who may call, when, and what a call leaves alone. *)
Lemma exec_Ok_inv sender c s s' : exec sender c s = Ok s' ->
  match c with AddSet _ => sender ∈ isFactory s | _ => sender = owner s end /\
  (if inherited c then isInitialized s' = isInitialized s
   else isInitialized s = match c with Initialize _ _ _ _ => false | _ => true end /\ isInitialized s' = true) /\
  owner s' = next_owner c (owner s) /\ (forall n, c = TransferOwnership n -> n <> ADDRESS_ZERO) /\
  (logged_owner (emitted s) = owner s -> logged_owner (emitted s') = owner s').
Proof.
  destruct c; cbn [inherited next_owner]; call_Ok;
    try (destruct (ownable_transfer _ _ _) eqn:E; run_result; [|done]; apply ownable_transfer_law in E as (-> & ? & ->));
    try (destruct (ownable_renounce _ _) eqn:E; run_result; [|done]; apply ownable_renounce_law in E as (-> & ->));
    repeat match goal with
    | |- mbind _ ?m = Ok _ -> _ => destruct m; run_result; [|done]
    end; intros [= <-]; split_and!; try done; try congruence;
    unfold logged_owner; cbn [emitted set_sets set_factories set_modules set_resources set_fees set_feeRecipient set_owner];
    rewrite ?foldl_app; done.
Qed.

Lemma step_initialized ok s s' : step ok s s' -> isInitialized s = true -> isInitialized s' = true.
Proof.
  destruct 1 as [sender c s s' _ _ H|]; [|done]. destruct (exec_Ok_inv _ _ _ _ H) as (_ & HI & _).
  destruct (inherited c); [congruence|]. by destruct HI.
Qed.

Lemma steps_initialized ok s s' : rtc (step ok) s s' -> isInitialized s = true -> isInitialized s' = true.
Proof. induction 1 as [|? ? ? Hs _ IH]; [done|]. intros H. by apply IH, (step_initialized _ _ _ Hs). Qed.

(** The log always tells the owner, and a contract without owner never gets one. *)
Lemma step_owner ok s s' : step ok s s' -> logged_owner (emitted s) = owner s ->
  logged_owner (emitted s') = owner s' /\ (owner s = ADDRESS_ZERO -> owner s' = ADDRESS_ZERO).
Proof.
  destruct 1 as [sender c s s' Hz _ H|]; [|done]. destruct (exec_Ok_inv _ _ _ _ H) as (HA & _ & HO & _ & HL).
  intros E. split; [by apply HL|]. intros E0. rewrite HO. destruct c; cbn [next_owner]; congruence.
Qed.

Lemma steps_owner ok s s' : rtc (step ok) s s' -> logged_owner (emitted s) = owner s ->
  logged_owner (emitted s') = owner s' /\ (owner s = ADDRESS_ZERO -> owner s' = ADDRESS_ZERO).
Proof.
  induction 1 as [|s s1 s2 Hs _ IH]; [done|]. intros E. destruct (step_owner _ _ _ Hs E) as [E1 Z1].
  destruct (IH E1) as [E2 Z2]. by split; [|intros; apply Z2, Z1].
Qed.

(** Only [removeResource] clears a resource flag, and never that of address zero. *)
Lemma exec_keeps_zero_resource sender c s s' : isInitialized s = true ->
  exec sender c s = Ok s' -> ADDRESS_ZERO ∈ isResource s -> ADDRESS_ZERO ∈ isResource s'.
Proof.
  intros Hi H HZ. destruct (exec_Ok_inv _ _ _ _ H) as (_ & Hinit & _). revert H.
  destruct c; cbn [inherited] in Hinit; try (destruct Hinit; congruence); call_Ok;
    repeat match goal with
    | |- mbind _ ?m = Ok _ -> _ => destruct m; run_result; [|done]
    end; intros [= <-]; cbn [isResource set_sets set_factories set_modules set_resources set_fees
      set_feeRecipient set_owner]; set_solver.
Qed.

(** Resources are registered under their ids. *)
Lemma addResources_lookup l f m r : addResources l (f, m) = Ok r ->
  (forall i a, m !! i = Some a -> a <> ADDRESS_ZERO -> r.2 !! i = Some a) /\
  (forall a i, (a, i) ∈ l -> r.2 !! i = Some a).
Proof.
  revert f m; induction l as [|[a id] l IH]; intros f m; cbn [addResources foldM].
  - intros [= <-]. split; [done|set_solver].
  - cbn [fst snd]. intros H. apply bind_Ok_inv in H as (acc & H1 & H). inv_result.
    apply bool_decide_eq_true in E as Enz. apply bool_decide_eq_true in E0 as Eid.
    destruct (IH _ _ H) as [IH1 IH2]. split.
    + intros i b Hi Hb. apply IH1; [|done]. rewrite lookup_insert_ne; [done|].
      intros ->. rewrite Hi in Eid. done.
    + intros b i [Heq|Hb]%elem_of_cons; [|by apply IH2]. injection Heq as -> ->.
      apply IH1; [by rewrite lookup_insert_eq|done].
Qed.

(** A controller that has been set up with the given owner, fee recipient,
    factories, modules, and resources with their ids, and nothing else. *)
Definition configured (s : state) (own fee : Address) (fs ms : list Address)
    (rs : list (Address * Z)) : Prop :=
  isInitialized s = true /\ owner s = own /\ feeRecipient s = fee /\ sets s = [] /\
  factories s = fs /\ modules s = ms /\ resources s = rs.*1 /\
  (forall a i, (a, i) ∈ rs -> resourceId s i = a) /\ Inv s.

Lemma initialize_configured own fee fs ms rs ids s :
  NoDup fs -> NoDup ms -> NoDup rs ->
  initialize own fs ms rs ids (constructor own fee) = Ok s ->
  configured s own fee fs ms (combine rs ids).
Proof.
  intros Nf Nm Nr H.
  pose proof (Inv_initialize _ _ _ _ _ _ _ Nf Nm Nr (Inv_constructor own fee) H) as I.
  revert H. call_Ok. cbn [isFactory isModule isResource resourceIds constructor].
  destruct (flagAll fs ∅) as [f|]; run_result; [|done].
  destruct (flagAll ms ∅) as [m|]; run_result; [|done].
  destruct (addResources _ _) as [r|] eqn:Er; run_result; [|done]. intros [= Es].
  apply addResources_lookup in Er as [_ Er]. unfold configured. rewrite fst_combine by done.
  subst s. split_and!; try done.
  intros a i Hi. unfold resourceId. cbn [resourceIds]. by rewrite (Er a i Hi).
Qed.

(** ** Theorems *)

(** C12: In every state reachable from deployment the four registries are
    consistent: a list and its flags agree and list nothing twice, and the
    resource ids are a bijection between the ids in use and the resources;
    provided [initialize] got lists without duplicates and no resource at the
    zero address was added. *)
Theorem registry_invariant sender r s :
  rtc (step wf_call) (constructor sender r) s -> Inv s.
Proof.
  intros H. remember (constructor sender r) as s0 eqn:E.
  assert (I : Inv s0) by (subst; apply Inv_constructor). clear E.
  induction H as [|s0 s1 s Hs _ IH]; [done|]. apply IH.
  destruct Hs as [sender' c ? ? _ W Hc|]; [by eapply Inv_exec|done].
Qed.

(** C23: Authorisation and life cycle. A call takes effect only when made by the owner
    ([addSet]: by an enabled factory), who is the one that the log of events last
    names: the deployer, until the owner hands the contract on. It comes after
    [initialize], unless it is that or concerns the ownership, and [initialize] takes
    effect once. A contract whose owner gave it up accepts nothing but new SetTokens
    any more, for ever. *)
Theorem calls_authorised deployer r ok s sender c s' :
  rtc (step ok) (constructor deployer r) s -> exec sender c s = Ok s' ->
  match c with AddSet _ => sender ∈ isFactory s | _ => sender = logged_owner (emitted s) end /\
  (logged_owner (emitted s') = match c with
     | TransferOwnership n => n | RenounceOwnership => ADDRESS_ZERO | _ => logged_owner (emitted s) end) /\
  (inherited c = false -> isInitialized s = match c with Initialize _ _ _ _ => false | _ => true end) /\
  forall s'' sender' c', rtc (step ok) s' s'' -> sender' <> ADDRESS_ZERO -> is_Ok (exec sender' c' s'') = true ->
    (isInitialized s' = true -> forall fs ms rs ids, c' <> Initialize fs ms rs ids) /\
    (logged_owner (emitted s') = ADDRESS_ZERO -> exists a, c' = AddSet a).
Proof.
  intros Hr Hc. destruct (exec_Ok_inv _ _ _ _ Hc) as (HA & HI & HO & _ & HL).
  destruct (steps_owner _ _ _ Hr eq_refl) as [E _]. specialize (HL E). rewrite HL, E. split; [exact HA|].
  split; [by rewrite HO; destruct c|]. split; [by intros Hi; rewrite Hi in HI; destruct HI|].
  intros s2 sender' c' H Hz [s3 H3]%is_Ok_true. destruct (exec_Ok_inv _ _ _ _ H3) as (HA' & HI' & _).
  destruct (steps_owner _ _ _ H HL) as [_ HZ]. split.
  - intros Hi fs ms rs ids ->. pose proof (steps_initialized _ _ _ H Hi). destruct HI' as [? _]. congruence.
  - intros H0. specialize (HZ H0). destruct c'; try congruence. by eexists.
Qed.

(** On a consistent registry the owner can always undo an addition: what was
    added can be removed, which restores the list and the flags. *)
Theorem addModule_removeModule s m s' : Inv s -> addModule (owner s) m s = Ok s' ->
  exists s'', removeModule (owner s) m s' = Ok s'' /\
    (forall a, a ∈ modules s'' <-> a ∈ modules s) /\ isModule s'' = isModule s /\ Inv s''.
Proof.
  intros I H. pose proof (Inv_exec (owner s) (AddModule m) s s' Logic.I I H) as I'.
  revert H. call_Ok. intros [= Hs']. unfold removeModule, onlyInitialized, onlyOwner, require.
  destruct (listing_remove (modules s') (isModule s') m) as (l & El & L);
    [apply I' | subst s'; cbn; set_solver |]. rewrite El.
  replace (isInitialized s') with true by (by subst s').
  rewrite (bool_decide_eq_true_2 (owner s = owner s')) by (by subst s').
  rewrite bool_decide_eq_true_2 by (subst s'; cbn; set_solver). run_result.
  eexists. split; [reflexivity|].
  assert (E : isModule s' ∖ {[m]} = isModule s) by (subst s'; cbn; set_solver).
  split_and!; [|exact E|].
  - intros a. cbn [modules set_modules]. destruct L as [_ L]. rewrite L, E.
    symmetry. apply (inv_modules s I).
  - destruct I'. constructor; try done. cbn. intros Hf. subst s'. cbn in Hf. congruence.
Qed.

(** The zero address can be made a resource but never unmade: once added it
    stays flagged as a system resource whatever is called afterwards. *)
Theorem zero_resource_permanent sender id s s' s'' :
  addResource sender ADDRESS_ZERO id s = Ok s' -> rtc (step (fun _ => True)) s' s'' ->
  ADDRESS_ZERO ∈ isResource s''.
Proof.
  intros Ha Hr. destruct (exec_Ok_inv sender (AddResource ADDRESS_ZERO id) s s' Ha) as (_ & [_ Hi] & _).
  assert (Hz : ADDRESS_ZERO ∈ isResource s') by (revert Ha; call_Ok; intros [= <-]; cbn; set_solver).
  clear Ha. induction Hr as [|s1 s2 s3 Hs _ IH]; [done|].
  apply IH; [by apply (step_initialized _ _ _ Hs)|].
  destruct Hs as [? ? ? ? _ _ H|]; [by eapply exec_keeps_zero_resource|done].
Qed.

End Calls.

(** ** Concrete instances *)

Section Instances.

Definition deployed : state := constructor "owner" "fees".
Definition running : state :=
  match initialize "owner" ["factory"] ["module"] ["registry"] [0] deployed with
  | Ok s => s | Throw _ => deployed
  end%string.

Lemma running_initialized :
  initialize "owner" ["factory"]%string ["module"]%string ["registry"]%string [0] deployed
    = Ok running.
Proof. vm_compute. reflexivity. Qed.

Lemma running_reachable : rtc (step wf_call) deployed running.
Proof.
  eapply rtc_once, (step_ok _ "owner" (Initialize ["factory"]%string ["module"]%string
    ["registry"]%string [0])); [done | cbn; split_and!; apply NoDup_singleton | apply running_initialized].
Qed.

Lemma registry_invariant_witness : Inv running.
Proof. apply (registry_invariant "owner" "fees"), running_reachable. Defined.

(** Without that proviso the invariant fails: a module listed twice and removed
    once is still listed, with its flag cleared. *)
Definition doubled : result state :=
  s ← initialize "owner" [] ["m"; "m"]%string [] [] deployed; removeModule "owner" "m" s.

Example duplicate_modules_inconsistent :
  (s ← doubled; Ok (modules s, bool_decide ("m"%string ∈ isModule s))) = Ok (["m"%string], false).
Proof. vm_compute. reflexivity. Qed.

Definition with_module : state :=
  match addModule "owner" "new" running with Ok s => s | Throw _ => running end.

Lemma with_module_added : addModule "owner" "new" running = Ok with_module.
Proof. vm_compute. reflexivity. Qed.

(** The owner hands the controller on, and the new owner gives it up: only factories
    are listened to then. *)
Definition handed : state :=
  match transferOwnership "owner" "dao" running with Ok s => s | Throw _ => running end.
Definition renounced : state :=
  match renounceOwnership "dao" handed with Ok s => s | Throw _ => handed end.

Lemma handed_reachable : rtc (step wf_call) deployed handed.
Proof.
  eapply rtc_r; [exact running_reachable|]. apply (step_ok _ "owner" (TransferOwnership "dao")); [done|exact I|].
  vm_compute. reflexivity.
Qed.

Lemma calls_authorised_witness : logged_owner (emitted handed) = "dao"%string /\
  exec "dao" RenounceOwnership handed = Ok renounced /\ is_Ok (addModule "dao" "new" renounced) = false.
Proof.
  assert (Hc : exec "dao" RenounceOwnership handed = Ok renounced) by (vm_compute; reflexivity).
  destruct (calls_authorised "owner" "fees" wf_call handed "dao" RenounceOwnership renounced handed_reachable Hc)
    as (HA & HL & _ & HN).
  split; [by rewrite <- HA|]. split; [exact Hc|].
  destruct (is_Ok (exec "dao" (AddModule "new") renounced)) eqn:E; [|exact E].
  destruct (HN renounced "dao"%string (AddModule "new") (rtc_refl _ _) ltac:(done) E) as [_ HZ].
  destruct (HZ HL) as [b Hb]. discriminate Hb.
Defined.

Lemma addModule_removeModule_witness : exists s'',
  removeModule "owner" "new" with_module = Ok s'' /\
    (forall a, a ∈ modules s'' <-> a ∈ modules running) /\ isModule s'' = isModule running /\ Inv s''.
Proof.
  apply (addModule_removeModule running "new" with_module).
  - eapply (Inv_exec "owner" (Initialize ["factory"]%string ["module"]%string ["registry"]%string [0])
      deployed); [cbn; split_and!; apply NoDup_singleton | apply Inv_constructor | apply running_initialized].
  - apply with_module_added.
Defined.

Definition zero_added : state :=
  match addResource "owner" ADDRESS_ZERO 7 running with Ok s => s | Throw _ => running end.

Lemma zero_resource_witness : ADDRESS_ZERO ∈ isResource zero_added.
Proof.
  apply (zero_resource_permanent "owner" 7 running zero_added); [vm_compute; reflexivity|apply rtc_refl].
Defined.

End Instances.
