(* ===== verification/PriceOracle.v ===== *)
(** * The price oracle

    [contracts/protocol/PriceOracle.sol]: which oracle, bridge asset or adapter a
    price comes from. Oracles and adapters are contracts of third parties: what
    reading them returns is a parameter. The theorems say where a price comes from
    and that the price of a pair and of its inverse never multiply to a gain. *)

From S2P Require Import Prelude JsString Ethers Constants MathUtils SafeMath PreciseUnitMath Controller.
From Stdlib Require Import String.

Local Open Scope Z_scope.

Module PriceOracle.

Inductive Event :=
  | PairAdded (_assetOne _assetTwo _oracle : Address)
  | PairRemoved (_assetOne _assetTwo _oracle : Address)
  | PairEdited (_assetOne _assetTwo _newOracle : Address)
  | AdapterAdded (_adapter : Address)
  | AdapterRemoved (_adapter : Address)
  | MasterQuoteAssetEdited (_newMasterQuote : Address).

Record state := mk {
  owner : Address;
  oracles : gmap (Address * Address) Address;
  masterQuoteAsset : Address;
  adapters : list Address;
  emitted : list Event;
}.

Definition oracle (s : state) (_assetOne _assetTwo : Address) : Address :=
  default ADDRESS_ZERO (oracles s !! (_assetOne, _assetTwo)).

Definition set_oracles (s : state) o e := mk (owner s) o (masterQuoteAsset s) (adapters s) (emitted s ++ [e]).
Definition set_adapters (s : state) l e := mk (owner s) (oracles s) (masterQuoteAsset s) l (emitted s ++ [e]).
Definition set_master (s : state) a e := mk (owner s) (oracles s) a (adapters s) (emitted s ++ [e]).

Definition constructor (msg_sender _masterQuoteAsset : Address) (_adapters _assetOnes _assetTwos _oracles : list Address)
    : result state :=
  _ ← require ((List.length _assetOnes =? List.length _assetTwos)%nat &&
               (List.length _assetTwos =? List.length _oracles)%nat) "Array lengths do not match.";
  Ok (mk msg_sender
        (foldl (fun m (p : Address * Address * Address) => <[ p.1 := p.2 ]> m) ∅
           (combine (combine _assetOnes _assetTwos) _oracles))
        _masterQuoteAsset _adapters []).

(** ** Governance *)

Definition onlyOwner (msg_sender : Address) (s : state) : result unit :=
  require (bool_decide (msg_sender = owner s)) "Ownable: caller is not the owner".

Definition addPair (msg_sender _assetOne _assetTwo _oracle : Address) (s : state) : result state :=
  _ ← onlyOwner msg_sender s;
  _ ← require (bool_decide (oracle s _assetOne _assetTwo = ADDRESS_ZERO)) "PriceOracle.addPair: Pair already exists.";
  Ok (set_oracles s (<[ (_assetOne, _assetTwo) := _oracle ]> (oracles s)) (PairAdded _assetOne _assetTwo _oracle)).

Definition editPair (msg_sender _assetOne _assetTwo _oracle : Address) (s : state) : result state :=
  _ ← onlyOwner msg_sender s;
  _ ← require (bool_decide (oracle s _assetOne _assetTwo <> ADDRESS_ZERO)) "PriceOracle.editPair: Pair doesn't exist.";
  Ok (set_oracles s (<[ (_assetOne, _assetTwo) := _oracle ]> (oracles s)) (PairEdited _assetOne _assetTwo _oracle)).

Definition removePair (msg_sender _assetOne _assetTwo : Address) (s : state) : result state :=
  _ ← onlyOwner msg_sender s;
  _ ← require (bool_decide (oracle s _assetOne _assetTwo <> ADDRESS_ZERO))
        "PriceOracle.removePair: Pair doesn't exist.";
  let oldOracle := oracle s _assetOne _assetTwo in
  Ok (set_oracles s (delete (_assetOne, _assetTwo) (oracles s)) (PairRemoved _assetOne _assetTwo oldOracle)).

Definition addAdapter (msg_sender _adapter : Address) (s : state) : result state :=
  _ ← onlyOwner msg_sender s;
  _ ← require (negb (AddressArrayUtils.contains (adapters s) _adapter))
        "PriceOracle.addAdapter: Adapter already exists.";
  Ok (set_adapters s (adapters s ++ [_adapter]) (AdapterAdded _adapter)).

Definition removeAdapter (msg_sender _adapter : Address) (s : state) : result state :=
  _ ← onlyOwner msg_sender s;
  _ ← require (AddressArrayUtils.contains (adapters s) _adapter)
        "PriceOracle.removeAdapter: Adapter does not exist.";
  l ← AddressArrayUtils.remove (adapters s) _adapter;
  Ok (set_adapters s l (AdapterRemoved _adapter)).

Definition editMasterQuoteAsset (msg_sender _newMasterQuoteAsset : Address) (s : state) : result state :=
  _ ← onlyOwner msg_sender s; Ok (set_master s _newMasterQuoteAsset (MasterQuoteAssetEdited _newMasterQuoteAsset)).

Inductive Call :=
  | AddPair (a b o : Address) | EditPair (a b o : Address) | RemovePair (a b : Address)
  | AddAdapter (a : Address) | RemoveAdapter (a : Address) | EditMasterQuoteAsset (a : Address).

Definition exec (msg_sender : Address) (c : Call) (s : state) : result state :=
  match c with
  | AddPair a b o => addPair msg_sender a b o s
  | EditPair a b o => editPair msg_sender a b o s
  | RemovePair a b => removePair msg_sender a b s
  | AddAdapter a => addAdapter msg_sender a s
  | RemoveAdapter a => removeAdapter msg_sender a s
  | EditMasterQuoteAsset a => editMasterQuoteAsset msg_sender a s
  end.

(** ** Prices

    [read] is [IOracle.read] of an address; [adapterPrice] is
    [IOracleAdapter.getPrice]: whether it knows the pair, and the price. *)

Section Prices.
Context `{OZ : OpenZeppelin}.
Context (read : Address -> result Z) (adapterPrice : Address -> Address -> Address -> result (bool * Z)).

Definition _calculateInversePrice (_inverseOracle : Address) : result Z :=
  inverseValue ← read _inverseOracle; PreciseUnitMath.preciseDiv PRECISE_UNIT inverseValue.

Definition _getDirectOrInversePrice (s : state) (_assetOne _assetTwo : Address) : result (bool * Z) :=
  let directOracle := oracle s _assetOne _assetTwo in
  if negb (bool_decide (directOracle = ADDRESS_ZERO)) then p ← read directOracle; Ok (true, p)
  else
    let inverseOracle := oracle s _assetTwo _assetOne in
    if negb (bool_decide (inverseOracle = ADDRESS_ZERO)) then p ← _calculateInversePrice inverseOracle; Ok (true, p)
    else Ok (false, 0).

Definition _getPriceFromMasterQuote (s : state) (_assetOne _assetTwo : Address) : result (bool * Z) :=
  one ← _getDirectOrInversePrice s _assetOne (masterQuoteAsset s);
  two ← _getDirectOrInversePrice s _assetTwo (masterQuoteAsset s);
  if (one.1 : bool) && two.1 then p ← PreciseUnitMath.preciseDiv one.2 two.2; Ok (true, p) else Ok (false, 0).

Fixpoint fromAdapters (_assetOne _assetTwo : Address) (l : list Address) : result (bool * Z) :=
  match l with
  | [] => Ok (false, 0)
  | adapter :: l =>
      r ← adapterPrice adapter _assetOne _assetTwo;
      if (r.1 : bool) then Ok r else fromAdapters _assetOne _assetTwo l
  end.

Definition _getPriceFromAdapters (s : state) (_assetOne _assetTwo : Address) : result (bool * Z) :=
  fromAdapters _assetOne _assetTwo (adapters s).

(** [isSystem]: [controller.isSystemContract]. *)
Definition getPrice (isSystem : Address -> bool) (msg_sender _assetOne _assetTwo : Address) (s : state) : result Z :=
  _ ← require (isSystem msg_sender) "PriceOracle.getPrice: Caller must be system contract.";
  r ← _getDirectOrInversePrice s _assetOne _assetTwo;
  r ← (if negb (r.1 : bool) then _getPriceFromMasterQuote s _assetOne _assetTwo else Ok r);
  r ← (if negb (r.1 : bool) then _getPriceFromAdapters s _assetOne _assetTwo else Ok r);
  _ ← require (r.1 : bool) "PriceOracle.getPrice: Price not found.";
  Ok r.2.

(** ** Where a price comes from *)

(** An oracle of the pair, in one direction or the other. *)
Inductive paired (s : state) (a b : Address) : Z -> Prop :=
  | paired_direct p : oracle s a b <> ADDRESS_ZERO -> read (oracle s a b) = Ok p -> paired s a b p
  | paired_inverse v : oracle s a b = ADDRESS_ZERO -> oracle s b a <> ADDRESS_ZERO ->
      read (oracle s b a) = Ok v -> 0 < v -> paired s a b (PRECISE_UNIT * PRECISE_UNIT / v).

Definition unpaired (s : state) (a b : Address) : Prop :=
  oracle s a b = ADDRESS_ZERO /\ oracle s b a = ADDRESS_ZERO.

(** A pair without an oracle is priced over the master quote asset, and without
    that by the first adapter that knows it. *)
Inductive quoted (s : state) (a b : Address) : Z -> Prop :=
  | quoted_pair p : paired s a b p -> quoted s a b p
  | quoted_master x y : unpaired s a b ->
      paired s a (masterQuoteAsset s) x -> paired s b (masterQuoteAsset s) y -> 0 < y ->
      quoted s a b (x * PRECISE_UNIT / y)
  | quoted_adapter l1 ad l2 p : unpaired s a b ->
      unpaired s a (masterQuoteAsset s) \/ unpaired s b (masterQuoteAsset s) ->
      adapters s = l1 ++ ad :: l2 ->
      Forall (fun ad => exists q, adapterPrice ad a b = Ok (false, q)) l1 ->
      adapterPrice ad a b = Ok (true, p) -> quoted s a b p.

(** What oracles return fits the type. *)
Context (read_uint256 : forall o p, read o = Ok p -> is_uint256 p).

Lemma direct_or_inverse s a b r : _getDirectOrInversePrice s a b = Ok r ->
  (r.1 = true /\ paired s a b r.2 /\ is_uint256 r.2) \/ (r = (false, 0) /\ unpaired s a b).
Proof.
  intros Q. unfold _getDirectOrInversePrice in Q. case_bool_decide as D1; cbn [negb] in Q.
  - case_bool_decide as D2; cbn [negb] in Q; [right; apply Ok_inj in Q as <-; done|left].
    apply bind_Ok_inv in Q as (p & Qp & Q). apply Ok_inj in Q as <-. unfold _calculateInversePrice in Qp.
    apply bind_Ok_inv in Qp as (v & Qv & Qp). pose proof (read_uint256 _ _ Qv) as Hv.
    apply preciseDiv_Ok in Qp as (H0 & -> & U); [|apply PRECISE_UNIT_uint256|done].
    split; [done|]. split; [by eapply paired_inverse|exact U].
  - left. apply bind_Ok_inv in Q as (p & Qp & Q). apply Ok_inj in Q as <-. cbn [fst snd].
    split; [done|]. split; [by apply paired_direct|by eapply read_uint256].
Qed.

Lemma fromAdapters_Ok a b l r : fromAdapters a b l = Ok r -> r.1 = true ->
  exists l1 ad l2, l = l1 ++ ad :: l2 /\ Forall (fun ad => exists q, adapterPrice ad a b = Ok (false, q)) l1 /\
    adapterPrice ad a b = Ok r.
Proof.
  induction l as [|ad l IH]; cbn [fromAdapters]; intros Q Hr; [by apply Ok_inj in Q as <-|].
  apply bind_Ok_inv in Q as ([f q] & Q1 & Q). cbn [fst] in Q. destruct f.
  - apply Ok_inj in Q as <-. by exists [], ad, l.
  - destruct (IH Q Hr) as (l1 & ad' & l2 & -> & HF & Q2). exists (ad :: l1), ad', l2.
    split; [done|]. split; [|done]. constructor; [by exists q|done].
Qed.

(** A price that is returned is the one of the first source that has the pair. *)
Lemma getPrice_quoted isSystem sender a b s p : getPrice isSystem sender a b s = Ok p ->
  isSystem sender = true /\ quoted s a b p.
Proof.
  unfold getPrice. intros Q. apply bind_Ok_inv in Q as (u & Hs & Q). apply require_Ok_inv in Hs. split; [done|].
  apply bind_Ok_inv in Q as (r1 & Q1 & Q). apply bind_Ok_inv in Q as (r2 & Q2 & Q).
  apply bind_Ok_inv in Q as (r3 & Q3 & Q). apply bind_Ok_inv in Q as (u' & Hr & Q).
  apply require_Ok_inv in Hr. apply Ok_inj in Q as <-.
  apply direct_or_inverse in Q1 as [(E1 & P1 & _)|(-> & N1)].
  { rewrite E1 in Q2. cbn [negb] in Q2. apply Ok_inj in Q2 as <-. rewrite E1 in Q3. cbn [negb] in Q3.
    apply Ok_inj in Q3 as <-. by apply quoted_pair. }
  cbn [fst negb] in Q2. unfold _getPriceFromMasterQuote in Q2.
  apply bind_Ok_inv in Q2 as (x & Qx & Q2). apply bind_Ok_inv in Q2 as (y & Qy & Q2).
  apply direct_or_inverse in Qx. apply direct_or_inverse in Qy.
  destruct Qx as [(Ex & Px & Ux)|(-> & Nx)], Qy as [(Ey & Py & Uy)|(-> & Ny)];
    cbn [fst snd andb] in Q2; rewrite ?Ex, ?Ey in Q2; cbn [andb] in Q2.
  - apply bind_Ok_inv in Q2 as (z & Qz & Q2). apply Ok_inj in Q2 as <-. cbn [fst negb] in Q3.
    apply Ok_inj in Q3 as <-. apply preciseDiv_Ok in Qz as (H0 & -> & _); [|done..]. by apply quoted_master.
  - apply Ok_inj in Q2 as <-. cbn [fst negb] in Q3.
    destruct (fromAdapters_Ok _ _ _ _ Q3 Hr) as (l1 & ad & l2 & E & HF & QA). destruct r3 as [f q]. cbn in Hr. subst f.
    eapply quoted_adapter; [done|by right|exact E|exact HF|exact QA].
  - apply Ok_inj in Q2 as <-. cbn [fst negb] in Q3.
    destruct (fromAdapters_Ok _ _ _ _ Q3 Hr) as (l1 & ad & l2 & E & HF & QA). destruct r3 as [f q]. cbn in Hr. subst f.
    eapply quoted_adapter; [done|by left|exact E|exact HF|exact QA].
  - apply Ok_inj in Q2 as <-. cbn [fst negb] in Q3.
    destruct (fromAdapters_Ok _ _ _ _ Q3 Hr) as (l1 & ad & l2 & E & HF & QA). destruct r3 as [f q]. cbn in Hr. subst f.
    eapply quoted_adapter; [done|by left|exact E|exact HF|exact QA].
Qed.

Lemma getPrice_uint256 isSystem sender a b s p : (forall ad a b r, adapterPrice ad a b = Ok r -> is_uint256 r.2) ->
  getPrice isSystem sender a b s = Ok p -> is_uint256 p.
Proof.
  intros HA. unfold getPrice. intros Q. apply bind_Ok_inv in Q as (u & _ & Q).
  apply bind_Ok_inv in Q as (r1 & Q1 & Q). apply bind_Ok_inv in Q as (r2 & Q2 & Q).
  apply bind_Ok_inv in Q as (r3 & Q3 & Q). apply bind_Ok_inv in Q as (u' & _ & Q). apply Ok_inj in Q as <-.
  assert (HD : forall x y r, _getDirectOrInversePrice s x y = Ok r -> is_uint256 r.2).
  { intros x y r Q. by apply direct_or_inverse in Q as [(_ & _ & U)|(-> & _)]. }
  assert (H2 : is_uint256 r2.2).
  { destruct (negb r1.1); [|apply Ok_inj in Q2 as <-; by eapply HD].
    unfold _getPriceFromMasterQuote in Q2. apply bind_Ok_inv in Q2 as (x & Qx & Q2).
    apply bind_Ok_inv in Q2 as (y & Qy & Q2). destruct (x.1 && y.1); [|by apply Ok_inj in Q2 as <-].
    apply bind_Ok_inv in Q2 as (z & Qz & Q2). apply Ok_inj in Q2 as <-.
    by apply preciseDiv_Ok in Qz as (_ & _ & U); [|by eapply HD..]. }
  destruct (negb r2.1); [|by apply Ok_inj in Q3 as <-].
  revert Q3. unfold _getPriceFromAdapters. induction (adapters s) as [|ad l IH]; cbn [fromAdapters]; intros Q3.
  { by apply Ok_inj in Q3 as <-. }
  apply bind_Ok_inv in Q3 as (r & Qr & Q3). destruct (r.1); [|by apply IH].
  apply Ok_inj in Q3 as <-. by eapply HA.
Qed.

(** ** No gain over the inverse price *)

Lemma paired_nonneg s a b p : paired s a b p -> 0 <= p.
Proof.
  intros [q Ho Q|v _ _ Q Hv]; [apply read_uint256, is_uint256_spec in Q; lia|].
  pose proof PRECISE_UNIT_pos. apply Z.div_pos; nia.
Qed.

(** A pair with an oracle in one direction only. *)
Lemma paired_reciprocal s a b p q : oracle s a b = ADDRESS_ZERO \/ oracle s b a = ADDRESS_ZERO ->
  paired s a b p -> paired s b a q ->
  p * q <= PRECISE_UNIT * PRECISE_UNIT /\ (0 < p -> 0 < q -> PRECISE_UNIT * PRECISE_UNIT < p * q + Z.max p q).
Proof.
  intros Hone Hp Hq. pose proof PRECISE_UNIT_pos as HU. set (U2 := PRECISE_UNIT * PRECISE_UNIT).
  assert (HF : forall v, 0 < v -> U2 / v * v <= U2 < (U2 / v + 1) * v) by (intros; by apply floor_bounds).
  destruct Hp as [p Ho Q|v H1 H2 Q Hv], Hq as [q Ho' Q'|w H1' H2' Q' Hw];
    [tauto| |  |tauto]; fold U2.
  - rewrite Q in Q'. injection Q' as <-. specialize (HF p Hw). revert HF. generalize (U2 / p). intros z HF.
    split; [lia|]. intros. pose proof (Z.le_max_l p z). lia.
  - rewrite Q' in Q. injection Q as <-. specialize (HF q Hv). revert HF. generalize (U2 / q). intros z HF.
    split; [lia|]. intros. pose proof (Z.le_max_r z q). lia.
Qed.

Lemma paired_unpaired s a b p : paired s a b p -> unpaired s a b -> False.
Proof. intros [] []; tauto. Qed.

Lemma paired_functional s a b p q : paired s a b p -> paired s a b q -> p = q.
Proof. intros [] []; try tauto; congruence. Qed.

Lemma unpaired_sym s a b : unpaired s a b -> unpaired s b a.
Proof. unfold unpaired. tauto. Qed.

(** C30: Converting at the price of a pair and back at the price of its inverse never
    gains. For every pair that has an oracle in one direction at most, and
    that the adapters are not asked for, the two prices multiply to at most one
    (in precise units), whether they come from the oracle, from its inverse or
    over the master quote asset; and with an oracle of the pair itself the product
    misses one by less than one unit of the larger price. *)
Theorem inverse_never_gains isSystem sender a b s p q :
  oracle s a b = ADDRESS_ZERO \/ oracle s b a = ADDRESS_ZERO ->
  (~ unpaired s a b \/ ~ (unpaired s a (masterQuoteAsset s) \/ unpaired s b (masterQuoteAsset s))) ->
  getPrice isSystem sender a b s = Ok p -> getPrice isSystem sender b a s = Ok q ->
  p * q <= PRECISE_UNIT * PRECISE_UNIT /\
  (~ unpaired s a b -> 0 < p -> 0 < q -> PRECISE_UNIT * PRECISE_UNIT < p * q + Z.max p q).
Proof.
  intros Hone Hsrc Qp Qq. apply getPrice_quoted in Qp as [_ Hp], Qq as [_ Hq].
  pose proof PRECISE_UNIT_pos as HU.
  destruct Hp as [p Hp|x y Hn Hx Hy H0|l1 ad l2 p Hn Hm _ _ _]; [| |tauto].
  - destruct Hq as [q Hq|x y Hn _ _ _|l1 ad l2 q Hn _ _ _ _];
      [|exfalso; exact (paired_unpaired _ _ _ _ Hp (unpaired_sym _ _ _ Hn))..].
    destruct (paired_reciprocal s a b p q) as [H1 H2]; [done..|]. split; [exact H1|intros _; exact H2].
  - destruct Hq as [q Hq|x' y' _ Hx' Hy' H0'|l1 ad l2 q _ Hm _ _ _];
      [exfalso; exact (paired_unpaired _ _ _ _ Hq (unpaired_sym _ _ _ Hn))| |tauto].
    pose proof (paired_functional _ _ _ _ _ Hx Hy') as <-. pose proof (paired_functional _ _ _ _ _ Hy Hx') as <-.
    split; [|done]. pose proof (floor_bounds (x * PRECISE_UNIT) y H0) as HF.
    pose proof (floor_bounds (y * PRECISE_UNIT) x H0') as HG.
    set (p := x * PRECISE_UNIT / y) in *. set (q := y * PRECISE_UNIT / x) in *.
    assert (0 <= p) by (apply Z.div_pos; nia). assert (0 <= q) by (apply Z.div_pos; nia).
    assert (HM : (p * q) * (x * y) <= (PRECISE_UNIT * PRECISE_UNIT) * (x * y)) by nia.
    apply Z.mul_le_mono_pos_r in HM; [done|nia].
Qed.

End Prices.

(** ** Governance *)

(** Only the owner changes the oracle through its own functions, none of which hands
    it on (those inherited from [Ownable] do); and no adapter comes to be listed twice. *)
Theorem oracle_governance sender c s s' : exec sender c s = Ok s' ->
  sender = owner s /\ owner s' = owner s /\ (NoDup (adapters s) -> NoDup (adapters s')).
Proof.
  intros Q. destruct c; cbn [exec] in Q;
    unfold addPair, editPair, removePair, addAdapter, removeAdapter, editMasterQuoteAsset, onlyOwner in Q;
    guards; (split; [done|]); (split; [done|]); try done.
  - intros HN. cbn. apply NoDup_app. split; [done|]. split; [|apply NoDup_singleton].
    intros x Hx ->%list_elem_of_singleton. rewrite contains_spec in *. by guards.
  - intros HN. cbn. rewrite contains_spec in *. guards.
    destruct (remove_spec (adapters s) a HN ltac:(done)) as (l & Ql & HL). rewrite Ql in *. guards.
    destruct HL. done.
Qed.

(** ** Instances *)

(** Ether is quoted in dollars, and bitcoin in dollars the other way round. *)
Definition sample : state :=
  mk "owner" (<[ ("ETH", "USD")%string := "o1"%string ]> {[ ("USD", "BTC")%string := "o2"%string ]}) "USD" ["ad"%string] [].

Definition sample_read (o : Address) : result Z :=
  if String.eqb o "o1" then Ok (1700 * 10 ^ 18 + 7) else if String.eqb o "o2" then Ok (3 * 10 ^ 13) else Throw "no oracle".

Definition sample_adapter (ad a b : Address) : result (bool * Z) := Ok (String.eqb a "LP", 5).

Lemma sample_read_uint256 o p : sample_read o = Ok p -> is_uint256 p.
Proof.
  unfold sample_read. destruct (String.eqb o "o1"); [intros <-%Ok_inj; by vm_compute|].
  destruct (String.eqb o "o2"); [intros <-%Ok_inj; by vm_compute|]. intros Q. discriminate Q.
Qed.

(** Bitcoin in ether and ether in bitcoin, over the dollar. *)
Lemma inverse_never_gains_witness : exists p q,
  getPrice sample_read sample_adapter (fun _ => true) "valuer" "ETH" "BTC" sample = Ok p /\
  getPrice sample_read sample_adapter (fun _ => true) "valuer" "BTC" "ETH" sample = Ok q /\
  p * q <= PRECISE_UNIT * PRECISE_UNIT.
Proof.
  assert (Hp : getPrice sample_read sample_adapter (fun _ => true) "valuer" "ETH" "BTC" sample = Ok 51000000000000000)
    by (vm_compute; reflexivity).
  assert (Hq : getPrice sample_read sample_adapter (fun _ => true) "valuer" "BTC" "ETH" sample = Ok 19607843137254901960)
    by (vm_compute; reflexivity).
  assert (H1 : oracle sample "ETH" "BTC" = ADDRESS_ZERO) by reflexivity.
  assert (H2 : ~ (unpaired sample "ETH" (masterQuoteAsset sample) \/ unpaired sample "BTC" (masterQuoteAsset sample)))
    by (intros [[H _]|[_ H]]; vm_compute in H; discriminate H).
  eexists _, _. split; [exact Hp|]. split; [exact Hq|].
  exact (proj1 (inverse_never_gains sample_read sample_adapter sample_read_uint256 (fun _ => true) "valuer" "ETH" "BTC"
    sample _ _ (or_introl H1) (or_intror H2) Hp Hq)).
Defined.

End PriceOracle.
