(* ===== verification/SetToken.v ===== *)
(** * SetToken

    [contracts/protocol/SetToken.sol]: the portfolio token of the protocol.
    [state] is the storage the contract declares, with the name and symbol of
    the token; the balances are the ledger of Erc20.v. Every external function
    takes its sender and arguments. [isModule] is the answer of the controller
    to [isModule] at the time of the call.

    [invoke] and [removeModule] call out of the contract, and the callee may
    call back: [calls] is a sequence of calls with those made during a call
    nested in it. *)

From S2P Require Import Prelude JsString Ethers Constants SafeMath PreciseUnitMath Erc20 Controller.
From Stdlib Require Import String.

Local Open Scope Z_scope.

Import AddressArrayUtils.

Module SetToken.

(** ** Storage *)

Record ExternalPosition := mkExternal { ext_virtualUnit : Z; ext_data : string }.

Record ComponentPosition := mkComponent {
  virtualUnit : Z;
  externalPositionModules : list Address;
  externalPositions : gmap Address ExternalPosition;
}.

Inductive Event :=
  | Invoked (target : Address) (value : Z) (data returnValue : string)
  | ModuleAdded (module : Address)
  | ModuleRemoved (module : Address)
  | ModuleInitialized (module : Address)
  | ManagerEdited (newManager oldManager : Address)
  | PendingModuleRemoved (module : Address)
  | PositionMultiplierEdited (newMultiplier : Z)
  | ComponentAdded (component : Address)
  | ComponentRemoved (component : Address)
  | DefaultPositionUnitEdited (component : Address) (realUnit : Z)
  | ExternalPositionUnitEdited (component positionModule : Address) (realUnit : Z)
  | ExternalPositionDataEdited (component positionModule : Address) (data : string)
  | PositionModuleAdded (component positionModule : Address)
  | PositionModuleRemoved (component positionModule : Address).

Record state := mk {
  controller : Address;
  manager : Address;
  locker : Address;
  modules : list Address;
  moduleStates : gmap Address MODULE_STATE;
  isLocked : bool;
  components : list Address;
  componentPositions : gmap Address ComponentPosition;
  positionMultiplier : Z;
  name : string;
  symbol : string;
  emitted : list Event;
}.

(** Reads of the mappings, zero for an absent key. *)
Definition moduleState (s : state) (m : Address) : MODULE_STATE := default NONE (moduleStates s !! m).

Definition no_position : ComponentPosition := mkComponent 0 [] ∅.

Definition position (s : state) (c : Address) : ComponentPosition :=
  default no_position (componentPositions s !! c).

Definition externalPosition (s : state) (c m : Address) : ExternalPosition :=
  default (mkExternal 0 "") (externalPositions (position s c) !! m).

(** Assignments to the storage variables, followed by [emit]. *)
Definition set_manager (s : state) v e := mk (controller s) v (locker s) (modules s) (moduleStates s)
  (isLocked s) (components s) (componentPositions s) (positionMultiplier s) (name s) (symbol s) (emitted s ++ [e]).
Definition set_lock (s : state) l b := mk (controller s) (manager s) l (modules s) (moduleStates s)
  b (components s) (componentPositions s) (positionMultiplier s) (name s) (symbol s) (emitted s).
Definition set_modules (s : state) l st e := mk (controller s) (manager s) (locker s) l st
  (isLocked s) (components s) (componentPositions s) (positionMultiplier s) (name s) (symbol s) (emitted s ++ [e]).
Definition set_components (s : state) l e := mk (controller s) (manager s) (locker s) (modules s) (moduleStates s)
  (isLocked s) l (componentPositions s) (positionMultiplier s) (name s) (symbol s) (emitted s ++ [e]).
Definition set_position (s : state) c p e := mk (controller s) (manager s) (locker s) (modules s) (moduleStates s)
  (isLocked s) (components s) (<[ c := p ]> (componentPositions s)) (positionMultiplier s) (name s) (symbol s)
  (emitted s ++ [e]).
Definition set_multiplier (s : state) v e := mk (controller s) (manager s) (locker s) (modules s) (moduleStates s)
  (isLocked s) (components s) (componentPositions s) v (name s) (symbol s) (emitted s ++ [e]).
Definition emit (s : state) e := mk (controller s) (manager s) (locker s) (modules s) (moduleStates s)
  (isLocked s) (components s) (componentPositions s) (positionMultiplier s) (name s) (symbol s) (emitted s ++ [e]).

Definition constructor (_components : list Address) (_units : list Z) (_modules : list Address)
    (_controller _manager : Address) (_name _symbol : string) : state :=
  mk _controller _manager ADDRESS_ZERO []
    (foldl (fun m a => <[ a := PENDING ]> m) ∅ _modules) false _components
    (foldl (fun m (cu : Address * Z) => <[ cu.1 := mkComponent cu.2 [] ∅ ]> m) ∅ (combine _components _units))
    PRECISE_UNIT _name _symbol [].

(** ** Modifiers *)

Section Functions.
Context `{OZ : OpenZeppelin} (isModule : Address -> bool).

Definition _validateOnlyModule (msg_sender : Address) (s : state) : result unit :=
  _ ← require (bool_decide (moduleState s msg_sender = INITIALIZED)) "Only the module can call";
  require (isModule msg_sender) "Module must be enabled on controller".

Definition _validateOnlyManager (msg_sender : Address) (s : state) : result unit :=
  require (bool_decide (msg_sender = manager s)) "Only manager can call".

Definition _validateWhenLockedOnlyLocker (msg_sender : Address) (s : state) : result unit :=
  if isLocked s then require (bool_decide (msg_sender = locker s)) "When locked, only the locker can call"
  else Ok tt.

(** [onlyModule whenLockedOnlyLocker] *)
Definition privileged (msg_sender : Address) (s : state) : result unit :=
  _ ← _validateOnlyModule msg_sender s; _validateWhenLockedOnlyLocker msg_sender s.

(** ** Getters *)

Definition isComponent (s : state) (_component : Address) : bool := contains (components s) _component.

Definition isExternalPositionModule (s : state) (_component _module : Address) : bool :=
  contains (externalPositionModules (position s _component)) _module.

Definition isInitializedModule (s : state) (_module : Address) : bool :=
  bool_decide (moduleState s _module = INITIALIZED).

Definition isPendingModule (s : state) (_module : Address) : bool :=
  bool_decide (moduleState s _module = PENDING).

Definition _convertVirtualToRealUnit (s : state) (_virtualUnit : Z) : result Z :=
  conservativePreciseMul _virtualUnit (positionMultiplier s).

Definition _convertRealToVirtualUnit (s : state) (_realUnit : Z) : result Z :=
  virtualUnit ← conservativePreciseDiv _realUnit (positionMultiplier s);
  _ ← require (negb ((0 <? _realUnit) && (virtualUnit =? 0))) "Real to Virtual unit conversion invalid";
  _ ← (if 0 <? _realUnit
       then real ← _convertVirtualToRealUnit s virtualUnit;
            require (negb (real =? 0)) "Virtual to Real unit conversion invalid"
       else Ok tt);
  Ok virtualUnit.

Definition getDefaultPositionRealUnit (s : state) (_component : Address) : result Z :=
  _convertVirtualToRealUnit s (virtualUnit (position s _component)).

Definition getExternalPositionRealUnit (s : state) (_component _positionModule : Address) : result Z :=
  _convertVirtualToRealUnit s (ext_virtualUnit (externalPosition s _component _positionModule)).

(** [-_a] wraps on the least integer. *)
Definition _absoluteValue (_a : Z) : result Z :=
  if 0 <=? _a then toUint256 _a else toUint256 (wrap_int256 (- _a)).

(** The test on one unit in the loops of [_getPositionsAbsMinimumVirtualUnit]. *)
Definition minimum (minimumUnit unit : Z) : Z :=
  if (0 <? unit) && (unit <? minimumUnit) then unit else minimumUnit.

Definition _getPositionsAbsMinimumVirtualUnit (s : state) : result Z :=
  minimumUnit ← foldM (fun minimumUnit component =>
    defaultUnit ← toUint256 (virtualUnit (position s component));
    foldM (fun minimumUnit currentModule =>
      unit ← _absoluteValue (ext_virtualUnit (externalPosition s component currentModule));
      Ok (minimum minimumUnit unit))
      (minimum minimumUnit defaultUnit) (externalPositionModules (position s component)))
    (2 ^ 256 - 1) (components s);
  toInt256 minimumUnit.

Definition _validateNewMultiplier (s : state) (_newMultiplier : Z) : result unit :=
  minVirtualUnit ← _getPositionsAbsMinimumVirtualUnit s;
  m ← conservativePreciseMul minVirtualUnit _newMultiplier;
  require (0 <? m) "New multiplier too small".

(** One round of the loop of [_getPositionCount]; [positionCount++] wraps, [add]
    is SafeMath's. *)
Definition countPositions (s : state) (positionCount : Z) (component : Address) : result Z :=
  let positionCount := if 0 <? virtualUnit (position s component)
                       then wrap_uint256 (positionCount + 1) else positionCount in
  let externalModules := externalPositionModules (position s component) in
  if (0 <? List.length externalModules)%nat
  then sm_add positionCount (Z.of_nat (List.length externalModules)) else Ok positionCount.

Definition _getPositionCount (s : state) : result Z := foldM (countPositions s) 0 (components s).

Record Position := mkPosition {
  component : Address;
  module : Address;
  unit_ : Z;
  positionState : POSITION_STATE;
  data : string;
}.

(** [positions[positionCount] = p; positionCount++] on a memory array, whose
    slots are empty until they are assigned. *)
Definition fill (a : list (option Position) * nat) (p : Position) : result (list (option Position) * nat) :=
  if (a.2 <? List.length a.1)%nat then Ok (<[ a.2 := Some p ]> a.1, S a.2) else Throw "invalid opcode".

(** One round of the loop of [getPositions]. *)
Definition fillPositions (s : state) (a : list (option Position) * nat) (component : Address)
    : result (list (option Position) * nat) :=
  a ← (if 0 <? virtualUnit (position s component)
       then u ← getDefaultPositionRealUnit s component;
            fill a (mkPosition component ADDRESS_ZERO u DEFAULT "")
       else Ok a);
  foldM (fun a currentModule =>
    u ← getExternalPositionRealUnit s component currentModule;
    fill a (mkPosition component currentModule u EXTERNAL
              (ext_data (externalPosition s component currentModule))))
    a (externalPositionModules (position s component)).

Definition getPositions (s : state) : result (list (option Position)) :=
  n ← _getPositionCount s;
  r ← foldM (fillPositions s) (replicate (Z.to_nat n) None, 0%nat) (components s);
  Ok r.1.

Definition getTotalComponentRealUnits (s : state) (_component : Address) : result Z :=
  totalUnits ← getDefaultPositionRealUnit s _component;
  foldM (fun totalUnits m => u ← getExternalPositionRealUnit s _component m; ssm_add totalUnits u)
    totalUnits (externalPositionModules (position s _component)).

(** ** Functions of modules *)

Definition addComponent (msg_sender _component : Address) (s : state) : result state :=
  _ ← privileged msg_sender s;
  _ ← require (negb (isComponent s _component)) "Must not be component";
  Ok (set_components s (components s ++ [_component]) (ComponentAdded _component)).

Definition removeComponent (msg_sender _component : Address) (s : state) : result state :=
  _ ← privileged msg_sender s;
  l ← removeStorage (components s) _component;
  Ok (set_components s l (ComponentRemoved _component)).

Definition editDefaultPositionUnit (msg_sender _component : Address) (_realUnit : Z) (s : state)
    : result state :=
  _ ← privileged msg_sender s;
  v ← _convertRealToVirtualUnit s _realUnit;
  let p := position s _component in
  Ok (set_position s _component (mkComponent v (externalPositionModules p) (externalPositions p))
        (DefaultPositionUnitEdited _component _realUnit)).

Definition addExternalPositionModule (msg_sender _component _positionModule : Address) (s : state)
    : result state :=
  _ ← privileged msg_sender s;
  _ ← require (negb (isExternalPositionModule s _component _positionModule)) "Module already added";
  let p := position s _component in
  Ok (set_position s _component
        (mkComponent (virtualUnit p) (externalPositionModules p ++ [_positionModule]) (externalPositions p))
        (PositionModuleAdded _component _positionModule)).

Definition removeExternalPositionModule (msg_sender _component _positionModule : Address) (s : state)
    : result state :=
  _ ← privileged msg_sender s;
  let p := position s _component in
  l ← removeStorage (externalPositionModules p) _positionModule;
  Ok (set_position s _component
        (mkComponent (virtualUnit p) l (delete _positionModule (externalPositions p)))
        (PositionModuleRemoved _component _positionModule)).

Definition editExternalPositionUnit (msg_sender _component _positionModule : Address) (_realUnit : Z)
    (s : state) : result state :=
  _ ← privileged msg_sender s;
  v ← _convertRealToVirtualUnit s _realUnit;
  let p := position s _component in
  let x := externalPosition s _component _positionModule in
  Ok (set_position s _component
        (mkComponent (virtualUnit p) (externalPositionModules p)
           (<[ _positionModule := mkExternal v (ext_data x) ]> (externalPositions p)))
        (ExternalPositionUnitEdited _component _positionModule _realUnit)).

Definition editExternalPositionData (msg_sender _component _positionModule : Address) (_data : string)
    (s : state) : result state :=
  _ ← privileged msg_sender s;
  let p := position s _component in
  let x := externalPosition s _component _positionModule in
  Ok (set_position s _component
        (mkComponent (virtualUnit p) (externalPositionModules p)
           (<[ _positionModule := mkExternal (ext_virtualUnit x) _data ]> (externalPositions p)))
        (ExternalPositionDataEdited _component _positionModule _data)).

Definition editPositionMultiplier (msg_sender : Address) (_newMultiplier : Z) (s : state) : result state :=
  _ ← privileged msg_sender s;
  _ ← _validateNewMultiplier s _newMultiplier;
  Ok (set_multiplier s _newMultiplier (PositionMultiplierEdited _newMultiplier)).

Definition lock (msg_sender : Address) (s : state) : result state :=
  _ ← _validateOnlyModule msg_sender s;
  _ ← require (negb (isLocked s)) "Must not be locked";
  Ok (set_lock s msg_sender true).

Definition unlock (msg_sender : Address) (s : state) : result state :=
  _ ← _validateOnlyModule msg_sender s;
  _ ← require (isLocked s) "Must be locked";
  _ ← require (bool_decide (locker s = msg_sender)) "Must be locker";
  Ok (set_lock s ADDRESS_ZERO false).

(** ** Functions of the manager and initialization *)

Definition addModule (msg_sender _module : Address) (s : state) : result state :=
  _ ← _validateOnlyManager msg_sender s;
  _ ← require (bool_decide (moduleState s _module = NONE)) "Module must not be added";
  _ ← require (isModule _module) "Must be enabled on Controller";
  Ok (set_modules s (modules s) (<[ _module := PENDING ]> (moduleStates s)) (ModuleAdded _module)).

Definition removePendingModule (msg_sender _module : Address) (s : state) : result state :=
  _ ← _validateOnlyManager msg_sender s;
  _ ← require (negb (isLocked s)) "Only when unlocked";
  _ ← require (bool_decide (moduleState s _module = PENDING)) "Module must be pending";
  Ok (set_modules s (modules s) (<[ _module := NONE ]> (moduleStates s)) (PendingModuleRemoved _module)).

Definition initializeModule (msg_sender : Address) (s : state) : result state :=
  _ ← require (negb (isLocked s)) "Only when unlocked";
  _ ← require (bool_decide (moduleState s msg_sender = PENDING)) "Module must be pending";
  Ok (set_modules s (modules s ++ [msg_sender]) (<[ msg_sender := INITIALIZED ]> (moduleStates s))
        (ModuleInitialized msg_sender)).

Definition setManager (msg_sender _manager : Address) (s : state) : result state :=
  _ ← _validateOnlyManager msg_sender s;
  _ ← require (negb (isLocked s)) "Only when unlocked";
  Ok (set_manager s _manager (ManagerEdited _manager (manager s))).

(** [removeModule] before and after its call of the module. *)
Definition removeModule_checks (msg_sender _module : Address) (s : state) : result unit :=
  _ ← _validateOnlyManager msg_sender s;
  _ ← require (negb (isLocked s)) "Only when unlocked";
  require (bool_decide (moduleState s _module = INITIALIZED)) "Module must be added".

Definition removeModule_finish (_module : Address) (s : state) : result state :=
  l ← removeStorage (modules s) _module;
  Ok (set_modules s l (<[ _module := NONE ]> (moduleStates s)) (ModuleRemoved _module)).

End Functions.

(** ** The contract *)

Section Contract.
Context `{OZ : OpenZeppelin} `{ET : ERC20}.

Record contract := mkContract { vars : state; tokens : ledger }.

Definition on_vars (f : state -> result state) (c : contract) : result contract :=
  s ← f (vars c); Ok (mkContract s (tokens c)).

Definition mint (isModule : Address -> bool) (msg_sender _account : Address) (_quantity : Z) (c : contract)
    : result contract :=
  _ ← privileged isModule msg_sender (vars c);
  l ← _mint _account _quantity (tokens c); Ok (mkContract (vars c) l).

Definition burn (isModule : Address -> bool) (msg_sender _account : Address) (_quantity : Z) (c : contract)
    : result contract :=
  _ ← privileged isModule msg_sender (vars c);
  l ← _burn _account _quantity (tokens c); Ok (mkContract (vars c) l).

(** [call]: what [_target.functionCallWithValue(_data, _value)] does to this
    contract, and what it returns. *)
Definition invoke (isModule : Address -> bool)
    (call : Address -> Z -> string -> contract -> result (contract * string))
    (msg_sender _target : Address) (_value : Z) (_data : string) (c : contract) : result (contract * string) :=
  _ ← privileged isModule msg_sender (vars c);
  r ← call _target _value _data c;
  Ok (mkContract (emit (vars r.1) (Invoked _target _value _data r.2)) (tokens r.1), r.2).

(** [call]: what [IModule(_module).removeModule()] does to this contract. *)
Definition removeModule (call : Address -> contract -> result contract)
    (msg_sender _module : Address) (c : contract) : result contract :=
  _ ← removeModule_checks msg_sender _module (vars c);
  c' ← call _module c;
  on_vars (removeModule_finish _module) c'.

(** The calls that do not leave the contract. *)
Inductive Call :=
  | AddComponent (c : Address) | RemoveComponent (c : Address)
  | EditDefaultPositionUnit (c : Address) (u : Z)
  | AddExternalPositionModule (c m : Address) | RemoveExternalPositionModule (c m : Address)
  | EditExternalPositionUnit (c m : Address) (u : Z)
  | EditExternalPositionData (c m : Address) (d : string)
  | EditPositionMultiplier (v : Z)
  | Mint (a : Address) (q : Z) | Burn (a : Address) (q : Z)
  | Lock | Unlock
  | AddModule (m : Address) | RemovePendingModule (m : Address) | InitializeModule
  | SetManager (m : Address)
  | Public (t : TokenCall).

Definition exec (isModule : Address -> bool) (msg_sender : Address) (k : Call) (c : contract)
    : result contract :=
  match k with
  | AddComponent x => on_vars (addComponent isModule msg_sender x) c
  | RemoveComponent x => on_vars (removeComponent isModule msg_sender x) c
  | EditDefaultPositionUnit x u => on_vars (editDefaultPositionUnit isModule msg_sender x u) c
  | AddExternalPositionModule x m => on_vars (addExternalPositionModule isModule msg_sender x m) c
  | RemoveExternalPositionModule x m => on_vars (removeExternalPositionModule isModule msg_sender x m) c
  | EditExternalPositionUnit x m u => on_vars (editExternalPositionUnit isModule msg_sender x m u) c
  | EditExternalPositionData x m d => on_vars (editExternalPositionData isModule msg_sender x m d) c
  | EditPositionMultiplier v => on_vars (editPositionMultiplier isModule msg_sender v) c
  | Mint a q => mint isModule msg_sender a q c
  | Burn a q => burn isModule msg_sender a q c
  | Lock => on_vars (lock isModule msg_sender) c
  | Unlock => on_vars (unlock isModule msg_sender) c
  | AddModule m => on_vars (addModule isModule msg_sender m) c
  | RemovePendingModule m => on_vars (removePendingModule msg_sender m) c
  | InitializeModule => on_vars (initializeModule msg_sender) c
  | SetManager m => on_vars (setManager msg_sender m) c
  | Public t => l ← token_exec msg_sender t (tokens c); Ok (mkContract (vars c) l)
  end.

(** The arguments of a call fit their types. *)
Definition typed (k : Call) : Prop :=
  match k with
  | EditDefaultPositionUnit _ u | EditExternalPositionUnit _ _ u | EditPositionMultiplier u => is_int256 u
  | _ => True
  end.

(** Sequences of calls by senders that satisfy [who], with the calls made while
    the contract waits for [invoke] and [removeModule]. The controller may
    answer differently each time. *)
Inductive calls (who : Address -> Prop) : contract -> contract -> Prop :=
  | calls_done c : calls who c c
  | calls_exec isModule sender k c c1 c2 : who sender -> typed k -> exec isModule sender k c = Ok c1 ->
      calls who c1 c2 -> calls who c c2
  | calls_invoke isModule sender target value data ret c c1 c2 : who sender ->
      privileged isModule sender (vars c) = Ok tt -> calls who c c1 ->
      calls who (mkContract (emit (vars c1) (Invoked target value data ret)) (tokens c1)) c2 ->
      calls who c c2
  | calls_removeModule sender m c c1 c2 c3 : who sender ->
      removeModule_checks sender m (vars c) = Ok tt -> calls who c c1 ->
      on_vars (removeModule_finish m) c1 = Ok c2 -> calls who c2 c3 -> calls who c c3.

End Contract.

(** ** The invariant of the storage *)

Record Inv (s : state) : Prop := {
  inv_modules : NoDup (modules s);
  inv_listed m : m ∈ modules s <-> moduleState s m = INITIALIZED;
  inv_components : NoDup (components s);
  inv_external c : NoDup (externalPositionModules (position s c));
  inv_multiplier : 0 < positionMultiplier s;
  inv_multiplier_int : is_int256 (positionMultiplier s);
  inv_units c : is_int256 (virtualUnit (position s c));
  inv_external_units c m : is_int256 (ext_virtualUnit (externalPosition s c m));
  inv_unlocked : isLocked s = false -> locker s = ADDRESS_ZERO;
}.

Lemma moduleState_set_modules s l m x e a :
  moduleState (set_modules s l (<[ m := x ]> (moduleStates s)) e) a = if decide (a = m) then x else moduleState s a.
Proof.
  unfold moduleState, set_modules. cbn [moduleStates]. case_decide as E.
  - by rewrite E, lookup_insert_eq.
  - by rewrite lookup_insert_ne.
Qed.

Lemma position_set_position s c p e d :
  position (set_position s c p e) d = if decide (d = c) then p else position s d.
Proof.
  unfold position, set_position. cbn [componentPositions]. case_decide as E.
  - by rewrite E, lookup_insert_eq.
  - by rewrite lookup_insert_ne.
Qed.

(** A state that differs in modules and their states only. *)
Lemma Inv_set_modules s l st e : Inv s -> NoDup l ->
  (forall m, m ∈ l <-> moduleState (set_modules s l st e) m = INITIALIZED) -> Inv (set_modules s l st e).
Proof. intros [] HN HL. by constructor. Qed.

Lemma Inv_set_components s l e : Inv s -> NoDup l -> Inv (set_components s l e).
Proof. intros [] HN. by constructor. Qed.

Lemma Inv_set_position s c p e : Inv s -> NoDup (externalPositionModules p) ->
  is_int256 (virtualUnit p) ->
  (forall m, is_int256 (ext_virtualUnit (default (mkExternal 0 "") (externalPositions p !! m)))) ->
  Inv (set_position s c p e).
Proof.
  intros [HM HL HC HE H1 H2 HU HX HK] HN Hu Hx. constructor; try done.
  - intros d. rewrite position_set_position. by case_decide.
  - intros d. rewrite position_set_position. by case_decide.
  - intros d m. unfold externalPosition. rewrite position_set_position. case_decide; [apply Hx|apply HX].
Qed.

Section Invariant.
Context `{OZ : OpenZeppelin} `{ET : ERC20}.

Lemma Inv_set_multiplier s v e : Inv s -> 0 < v -> is_int256 v -> Inv (set_multiplier s v e).
Proof. intros [] H1 H2. by constructor. Qed.

Lemma Inv_set_lock s l b : Inv s -> (b = false -> l = ADDRESS_ZERO) -> Inv (set_lock s l b).
Proof. intros [] H. by constructor. Qed.

Lemma Inv_emit s e : Inv s -> Inv (emit s e).
Proof. intros []. by constructor. Qed.

Lemma Inv_set_manager s v e : Inv s -> Inv (set_manager s v e).
Proof. intros []. by constructor. Qed.

Lemma NoDup_snoc (l : list Address) a : NoDup l -> a ∉ l -> NoDup (l ++ [a]).
Proof.
  intros HN Ha. apply NoDup_app. split; [done|]. split; [|apply NoDup_singleton]. set_solver.
Qed.

Lemma removeStorage_NoDup A a A' : NoDup A -> removeStorage A a = Ok A' ->
  NoDup A' /\ forall b, b ∈ A' <-> b ∈ A /\ b <> a.
Proof.
  intros HN Q%removeStorage_Ok. rewrite Q in HN. apply NoDup_cons in HN as [Ha HN].
  split; [done|]. intros b. rewrite Q, elem_of_cons. split; [|naive_solver].
  intros Hb. split; [by right|]. by intros ->.
Qed.

Lemma contains_false A a : negb (contains A a) = true -> a ∉ A.
Proof. rewrite contains_spec. intros H%negb_true_iff. by apply bool_decide_eq_false in H. Qed.

Lemma _convertRealToVirtualUnit_Ok s u v : Inv s -> is_int256 u ->
  _convertRealToVirtualUnit s u = Ok v ->
  v = u * PRECISE_UNIT / positionMultiplier s /\ is_int256 v /\ is_int256 (u * PRECISE_UNIT) /\
  (0 < u -> 0 < v /\ exists r, _convertVirtualToRealUnit s v = Ok r /\ r <> 0).
Proof.
  intros HI Hu Q. unfold _convertRealToVirtualUnit in Q. inv_result.
  apply conservativePreciseDiv_Ok in E as (Hm & -> & Hv & Hw); [|done|apply HI].
  split; [done|]. split; [done|]. split; [done|]. intros Hp. rewrite (proj2 (Z.ltb_lt 0 u) Hp) in *. cbn [andb] in *.
  split.
  - apply negb_true_iff, Z.eqb_neq in E0. pose proof (inv_multiplier _ HI). pose proof PRECISE_UNIT_pos.
    assert (0 <= u * PRECISE_UNIT / positionMultiplier s) by (apply Z.div_pos; lia). lia.
  - inv_result. eexists. split; [done|]. by apply Z.eqb_neq, negb_true_iff.
Qed.

(** The sizes of the units that the loops over positions see. *)
Definition unit_sizes (s : state) : list Z :=
  components s ≫= fun c => virtualUnit (position s c) ::
    map (fun m => Z.abs (ext_virtualUnit (externalPosition s c m))) (externalPositionModules (position s c)).

Lemma foldl_minimum l acc : 0 < acc ->
  let r := foldl minimum acc l in
  0 < r <= acc /\ (r = acc \/ r ∈ l) /\ (forall u, u ∈ l -> 0 < u -> r <= u).
Proof.
  revert acc. induction l as [|x l IH]; intros acc Ha; cbn [foldl].
  - split; [lia|]. split; [by left|]. set_solver.
  - assert (Hm : 0 < minimum acc x <= acc /\ (0 < x -> minimum acc x <= x) /\
                 (minimum acc x = acc \/ minimum acc x = x)).
    { unfold minimum. destruct (Z.ltb_spec 0 x), (Z.ltb_spec x acc); cbn [andb]; lia. }
    destruct Hm as (Hm & Hx & Hc). destruct (IH (minimum acc x) ltac:(lia)) as (H1 & H2 & H3).
    split; [lia|]. split.
    + destruct H2 as [H2|H2]; [|right; set_solver]. destruct Hc as [Hc|Hc]; [left; lia|].
      right. rewrite H2, Hc. set_solver.
    + intros u [->|Hu]%elem_of_cons Hp; [pose proof (Hx Hp); lia|by apply H3].
Qed.

Lemma _absoluteValue_Ok a r : is_int256 a -> _absoluteValue a = Ok r -> r = Z.abs a.
Proof.
  intros Ha Q. unfold _absoluteValue in Q. destruct (Z.leb_spec 0 a).
  - apply toUint256_Ok in Q as [-> _]; [lia|done].
  - pose proof Ha as Hr%is_int256_spec. unfold wrap_int256 in Q. destruct (decide (a = - 2 ^ 255)) as [->|Hm].
    + replace (- - 2 ^ 255 + 2 ^ 255) with (2 ^ 256) in Q by reflexivity.
      rewrite Z.mod_same in Q by done. by apply toUint256_Ok in Q as [_ ?].
    + rewrite Z.mod_small in Q by (change (2 ^ 256) with (2 * 2 ^ 255); lia).
      apply toUint256_Ok in Q as [-> _]; [lia|]. apply is_int256_spec. lia.
Qed.

Lemma absoluteValue_defined a : is_int256 a -> a <> - 2 ^ 255 -> _absoluteValue a = Ok (Z.abs a).
Proof.
  intros Ha Hm. unfold _absoluteValue. pose proof Ha as Hr%is_int256_spec. destruct (Z.leb_spec 0 a).
  - rewrite Z.abs_eq by lia. by apply toUint256_defined.
  - unfold wrap_int256. rewrite Z.mod_small by (change (2 ^ 256) with (2 * 2 ^ 255); lia).
    replace (- a + 2 ^ 255 - 2 ^ 255) with (Z.abs a) by lia. apply toUint256_defined; [|lia].
    apply is_int256_spec. lia.
Qed.

(** The loops of [_getPositionsAbsMinimumVirtualUnit]. *)
Definition minimum_loop (s : state) (ms : list Address) (c : Address) (acc : Z) : result Z :=
  foldM (fun minimumUnit currentModule =>
    unit ← _absoluteValue (ext_virtualUnit (externalPosition s c currentModule));
    Ok (minimum minimumUnit unit)) acc ms.

Definition minimum_loops (s : state) (cs : list Address) (acc : Z) : result Z :=
  foldM (fun minimumUnit component =>
    defaultUnit ← toUint256 (virtualUnit (position s component));
    minimum_loop s (externalPositionModules (position s component)) component (minimum minimumUnit defaultUnit))
    acc cs.

Lemma minimum_loop_Ok s c ms acc r : Inv s -> minimum_loop s ms c acc = Ok r ->
  r = foldl minimum acc (map (fun m => Z.abs (ext_virtualUnit (externalPosition s c m))) ms).
Proof.
  intros HI. unfold minimum_loop. revert acc. induction ms as [|x ms IH]; intros acc Q; cbn [foldM map foldl] in *;
    inv_result; [done|].
  apply _absoluteValue_Ok in E0 as ->; [|apply (inv_external_units _ HI)]. by apply IH.
Qed.

Lemma minimum_loops_Ok s cs acc r : Inv s -> minimum_loops s cs acc = Ok r ->
  r = foldl minimum acc (cs ≫= fun c => virtualUnit (position s c) ::
    map (fun m => Z.abs (ext_virtualUnit (externalPosition s c m))) (externalPositionModules (position s c))).
Proof.
  intros HI. unfold minimum_loops. revert acc. induction cs as [|c cs IH]; intros acc Q; cbn [foldM] in Q;
    inv_result; [done|].
  apply toUint256_Ok in E0 as [-> _]; [|apply (inv_units _ HI)]. apply minimum_loop_Ok in E; [|done].
  apply IH in Q. rewrite Q, E. cbn [mbind list_bind]. by rewrite foldl_app.
Qed.

(** The loops compute the least positive size; with none there is no minimum
    and the conversion at the end reverts. *)
Lemma minimum_spec s m : Inv s -> _getPositionsAbsMinimumVirtualUnit s = Ok m ->
  0 < m < 2 ^ 255 /\ m ∈ unit_sizes s /\ (forall u, u ∈ unit_sizes s -> 0 < u -> m <= u).
Proof.
  intros HI Q. unfold _getPositionsAbsMinimumVirtualUnit in Q. apply bind_Ok_inv in Q as (r & Qr & Q).
  apply (minimum_loops_Ok s (components s)) in Qr as Hr; [|done].
  pose proof (foldl_minimum (unit_sizes s) (2 ^ 256 - 1) ltac:(done)) as HF0. cbv zeta in HF0.
  fold (unit_sizes s) in Hr. rewrite <- Hr in HF0. clear Hr Qr.
  destruct HF0 as (H1 & H2 & H3). assert (Hu : is_uint256 r) by (apply is_uint256_spec; lia).
  apply toInt256_Ok in Q as [-> HF%is_int256_spec]; [|done]. split; [lia|]. split; [|done].
  destruct H2 as [H2|H2]; [|done]. exfalso. rewrite H2 in HF. lia.
Qed.

(** The minimum exists when some unit is not zero, no default unit is negative
    and no external one is the least integer. *)
Lemma minimum_defined s : Inv s -> (forall c, c ∈ components s -> 0 <= virtualUnit (position s c)) ->
  (forall c m, ext_virtualUnit (externalPosition s c m) <> - 2 ^ 255) ->
  (exists u, u ∈ unit_sizes s /\ 0 < u < 2 ^ 255) -> exists m, _getPositionsAbsMinimumVirtualUnit s = Ok m.
Proof.
  intros HI HD HX (u & Hu & Hp).
  assert (HL : forall c ms acc, exists r, minimum_loop s ms c acc = Ok r).
  { intros c ms. induction ms as [|x ms IH]; intros acc; [by eexists|]. unfold minimum_loop. cbn [foldM].
    rewrite absoluteValue_defined by (apply HX || apply (inv_external_units _ HI)). rewrite !bind_Ok. apply IH. }
  assert (HO : forall cs acc, (forall c, c ∈ cs -> 0 <= virtualUnit (position s c)) ->
    exists r, minimum_loops s cs acc = Ok r).
  { intros cs. induction cs as [|c cs IH]; intros acc Hcs; [by eexists|]. unfold minimum_loops. cbn [foldM].
    pose proof (inv_units _ HI c) as Hc. rewrite toUint256_defined, bind_Ok by (done || apply Hcs; by left).
    destruct (HL c (externalPositionModules (position s c)) (minimum acc (virtualUnit (position s c)))) as [r ->].
    rewrite bind_Ok. apply IH. intros d Hd. apply Hcs. by right. }
  destruct (HO (components s) (2 ^ 256 - 1) HD) as [r Hr]. unfold _getPositionsAbsMinimumVirtualUnit.
  change (exists m, (minimum_loops s (components s) (2 ^ 256 - 1) ≫= toInt256) = Ok m). rewrite Hr, bind_Ok.
  apply minimum_loops_Ok in Hr; [|done]. fold (unit_sizes s) in Hr.
  pose proof (foldl_minimum (unit_sizes s) (2 ^ 256 - 1) ltac:(done)) as (H1 & _ & H3). rewrite <- Hr in H1, H3.
  pose proof (H3 u Hu (proj1 Hp)). exists r. apply toInt256_defined; [apply is_uint256_spec; lia|lia].
Qed.

Lemma _validateNewMultiplier_Ok s v : Inv s -> is_int256 v -> _validateNewMultiplier s v = Ok tt -> 0 < v.
Proof.
  intros HI Hv Q. unfold _validateNewMultiplier in Q.
  apply bind_Ok_inv in Q as (m & E & Q). apply bind_Ok_inv in Q as (x & E0 & Q). apply require_Ok_inv in Q.
  apply minimum_spec in E as (Hm & _); [|done].
  apply conservativePreciseMul_Ok in E0 as (-> & _ & _); [|apply is_int256_spec; lia|done].
  apply Z.ltb_lt in Q. pose proof PRECISE_UNIT_pos.
  apply Z.nle_gt. intros Hn. assert (m * v <= 0) by nia.
  assert (m * v / PRECISE_UNIT <= 0 / PRECISE_UNIT) as Hd by (apply Z.div_le_mono; lia).
  rewrite Z.div_0_l in Hd by lia. lia.
Qed.

Lemma privileged_Ok isModule a s u : privileged isModule a s = Ok u ->
  moduleState s a = INITIALIZED /\ isModule a = true /\ (isLocked s = true -> a = locker s).
Proof.
  unfold privileged, _validateOnlyModule, _validateWhenLockedOnlyLocker. intros Q. guards.
  split; [done|]. split; [done|]. intros Hl. rewrite Hl in Q. by guards.
Qed.

Lemma Inv_addModule isModule a m s s' : Inv s -> addModule isModule a m s = Ok s' -> Inv s'.
Proof.
  intros HI Q. unfold addModule in Q. guards.
  apply Inv_set_modules; [done|apply HI|]. intros b. rewrite moduleState_set_modules, (inv_listed _ HI).
  case_decide as D; [|done]. rewrite D. naive_solver congruence.
Qed.

Lemma Inv_removePendingModule a m s s' : Inv s -> removePendingModule a m s = Ok s' -> Inv s'.
Proof.
  intros HI Q. unfold removePendingModule in Q. guards.
  apply Inv_set_modules; [done|apply HI|]. intros b. rewrite moduleState_set_modules, (inv_listed _ HI).
  case_decide as D; [|done]. rewrite D. naive_solver congruence.
Qed.

Lemma Inv_initializeModule a s s' : Inv s -> initializeModule a s = Ok s' -> Inv s'.
Proof.
  intros HI Q. unfold initializeModule in Q. guards.
  apply Inv_set_modules; [done| |].
  - apply NoDup_snoc; [apply HI|]. rewrite (inv_listed _ HI). congruence.
  - intros b. rewrite moduleState_set_modules, elem_of_app, (inv_listed _ HI), list_elem_of_singleton.
    case_decide; naive_solver.
Qed.

Lemma Inv_removeModule_finish m s s' : Inv s -> removeModule_finish m s = Ok s' -> Inv s'.
Proof.
  intros HI Q. unfold removeModule_finish in Q. inv_result.
  apply removeStorage_NoDup in E as [HN HL]; [|apply HI].
  apply Inv_set_modules; [done|done|]. intros b. rewrite moduleState_set_modules, HL, (inv_listed _ HI).
  case_decide; naive_solver.
Qed.

(** Every call keeps the invariant. *)
Lemma removeStorage_stays A a A' : NoDup A -> removeStorage A a = Ok A' -> NoDup A'.
Proof. intros HN Q. by apply (removeStorage_NoDup A a A'). Qed.

(** The functions of modules, once past their modifiers. *)
Lemma Inv_module_call isModule a s s' : Inv s ->
  (exists x, addComponent isModule a x s = Ok s') \/
  (exists x, removeComponent isModule a x s = Ok s') \/
  (exists x u, is_int256 u /\ editDefaultPositionUnit isModule a x u s = Ok s') \/
  (exists x m, addExternalPositionModule isModule a x m s = Ok s') \/
  (exists x m, removeExternalPositionModule isModule a x m s = Ok s') \/
  (exists x m u, is_int256 u /\ editExternalPositionUnit isModule a x m u s = Ok s') \/
  (exists x m d, editExternalPositionData isModule a x m d s = Ok s') \/
  (exists v, is_int256 v /\ editPositionMultiplier isModule a v s = Ok s') -> Inv s'.
Proof.
  intros HI [(x & Q)|[(x & Q)|[(x & u & Hu & Q)|[(x & m & Q)|[(x & m & Q)|[(x & m & u & Hu & Q)|[(x & m & d & Q)|(v & Hv & Q)]]]]]]].
  - unfold addComponent in Q. inv_result. apply Inv_set_components; [done|].
    apply NoDup_snoc; [apply HI|]. by apply contains_false.
  - unfold removeComponent in Q. inv_result. apply Inv_set_components; [done|].
    eapply removeStorage_stays; [apply (inv_components _ HI)|done].
  - unfold editDefaultPositionUnit in Q. inv_result.
    match goal with H : _convertRealToVirtualUnit _ _ = Ok _ |- _ =>
      apply _convertRealToVirtualUnit_Ok in H as (_ & Hv & _); [|done..] end.
    apply Inv_set_position; [done|apply HI|done|apply (inv_external_units _ HI)].
  - unfold addExternalPositionModule in Q. inv_result.
    apply Inv_set_position; [done| |apply HI|apply (inv_external_units _ HI)].
    apply NoDup_snoc; [apply HI|]. by apply contains_false.
  - unfold removeExternalPositionModule in Q. inv_result.
    apply Inv_set_position; [done| |apply HI|]; cbn.
    + eapply removeStorage_stays; [apply (inv_external _ HI x)|done].
    + intros b. destruct (decide (b = m)) as [->|Hb]; [by rewrite lookup_delete_eq|].
      rewrite lookup_delete_ne by done. apply (inv_external_units _ HI).
  - unfold editExternalPositionUnit in Q. inv_result.
    match goal with H : _convertRealToVirtualUnit _ _ = Ok _ |- _ =>
      apply _convertRealToVirtualUnit_Ok in H as (_ & Hv & _); [|done..] end.
    apply Inv_set_position; [done|apply HI|apply HI|]; cbn.
    intros b. destruct (decide (b = m)) as [->|Hb]; [by rewrite lookup_insert_eq|].
    rewrite lookup_insert_ne by done. apply (inv_external_units _ HI).
  - unfold editExternalPositionData in Q. inv_result.
    apply Inv_set_position; [done|apply HI|apply HI|]; cbn.
    intros b. destruct (decide (b = m)) as [->|Hb];
      [rewrite lookup_insert_eq|rewrite lookup_insert_ne by done]; apply (inv_external_units _ HI).
  - unfold editPositionMultiplier in Q. inv_result.
    match goal with H : _validateNewMultiplier _ _ = Ok _ |- _ =>
      apply _validateNewMultiplier_Ok in H; [|done..] end.
    by apply Inv_set_multiplier.
Qed.

(** Every call keeps the invariant. *)
Lemma storage_exec isModule a k c c' : Inv (vars c) -> typed k -> exec isModule a k c = Ok c' -> Inv (vars c').
Proof.
  intros HI Ht Q. destruct k; cbn [exec typed] in *; unfold on_vars, mint, burn in Q; inv_result; try done;
    try (eapply Inv_module_call; [exact HI|solve [eauto 15]]).
  - unfold lock in *. inv_result. by apply Inv_set_lock.
  - unfold unlock in *. inv_result. by apply Inv_set_lock.
  - by eapply Inv_addModule.
  - by eapply Inv_removePendingModule.
  - by eapply Inv_initializeModule.
  - unfold setManager in *. inv_result. by apply Inv_set_manager.
Qed.

Lemma Inv_calls who c c' : Inv (vars c) -> calls who c c' -> Inv (vars c').
Proof.
  intros HI H. induction H as [c|isModule a k c c1 c2 Hw Ht E H IH
    |isModule a t v d r c c1 c2 Hw E H1 IH1 H2 IH2|a m c c1 c2 c3 Hw E H1 IH1 F H2 IH2]; [done| | |].
  - apply IH. by eapply storage_exec.
  - apply IH2. cbn. apply Inv_emit. by apply IH1.
  - apply IH2. unfold on_vars in F. inv_result. eapply Inv_removeModule_finish; [|done]. by apply IH1.
Qed.

(** ** Construction *)

Lemma moduleState_constructor cs us ms ctl m n sy a :
  moduleState (constructor cs us ms ctl m n sy) a = if decide (a ∈ ms) then PENDING else NONE.
Proof.
  unfold moduleState, constructor. cbn [moduleStates].
  assert (H : forall acc : gmap Address MODULE_STATE, foldl (fun m a => <[ a := PENDING ]> m) acc ms !! a =
    if decide (a ∈ ms) then Some PENDING else acc !! a).
  { induction ms as [|x ms IH]; intros acc; cbn [foldl]; [done|]. rewrite IH.
    destruct (decide (a ∈ ms)); [by rewrite decide_True by set_solver|].
    destruct (decide (a = x)) as [->|Hx]; [rewrite lookup_insert_eq, decide_True; [done|set_solver]|].
    rewrite lookup_insert_ne by done. by rewrite decide_False by set_solver. }
  rewrite H. by case_decide.
Qed.

Lemma position_constructor cs us ms ctl m n sy c :
  exists u, position (constructor cs us ms ctl m n sy) c = mkComponent u [] ∅ /\ (u ∈ us \/ u = 0).
Proof.
  unfold position, constructor. cbn [componentPositions].
  assert (H : forall l (acc : gmap Address ComponentPosition), (exists u, default no_position (acc !! c) = mkComponent u [] ∅ /\ (u ∈ us \/ u = 0)) ->
    (forall x, x ∈ l -> x.2 ∈ us) ->
    exists u, default no_position (foldl (fun m (cu : Address * Z) => <[ cu.1 := mkComponent cu.2 [] ∅ ]> m) acc l
      !! c) = mkComponent u [] ∅ /\ (u ∈ us \/ u = 0)).
  { induction l as [|x l IH]; intros acc Ha Hl; cbn [foldl]; [done|]. apply IH; [|set_solver].
    destruct (decide (x.1 = c)) as [->|Hx]; [|by rewrite lookup_insert_ne].
    rewrite lookup_insert_eq. exists x.2. split; [done|]. left. apply Hl. set_solver. }
  apply H; [exists 0; split; [done|by right]|].
  intros [x u] Hx. by apply list_elem_of_In, in_combine_r, list_elem_of_In in Hx.
Qed.

Lemma storage_constructor cs us ms ctl m n sy : NoDup cs -> Forall is_int256 us ->
  Inv (constructor cs us ms ctl m n sy).
Proof.
  intros HN HU. constructor.
  - constructor.
  - intros x. rewrite moduleState_constructor. case_decide; cbn; split; (done || set_solver).
  - exact HN.
  - intros c. destruct (position_constructor cs us ms ctl m n sy c) as (u & -> & _). constructor.
  - apply PRECISE_UNIT_pos.
  - apply PRECISE_UNIT_int256.
  - intros c. destruct (position_constructor cs us ms ctl m n sy c) as (u & -> & [Hu| ->]); [|done].
    rewrite Forall_forall in HU. by apply HU.
  - intros c x. unfold externalPosition.
    destruct (position_constructor cs us ms ctl m n sy c) as (u & -> & _). done.
  - done.
Qed.

(** ** Theorems *)

(** C2: The storage of a SetToken is consistent in every reachable state: from a
    constructor called with distinct components, whatever calls follow, those
    nested in external calls included, the list of modules is duplicate-free and
    exactly that of the initialized ones, components and external position
    modules are never listed twice, the multiplier stays positive, every unit
    fits its type, and an unlocked token has no locker. *)
Theorem storage_invariant cs us ms ctl m n sy l who c :
  NoDup cs -> Forall is_int256 us ->
  calls who (mkContract (constructor cs us ms ctl m n sy) l) c -> Inv (vars c).
Proof. intros HN HU H. eapply Inv_calls; [|exact H]. by apply storage_constructor. Qed.

(** What a lock protects. *)
Definition same_portfolio (c c' : contract) : Prop :=
  let s := vars c in let s' := vars c' in
  isLocked s' = isLocked s /\ locker s' = locker s /\ manager s' = manager s /\ modules s' = modules s /\
  components s' = components s /\ componentPositions s' = componentPositions s /\
  positionMultiplier s' = positionMultiplier s /\ totalSupply (tokens c') = totalSupply (tokens c).

Lemma same_portfolio_trans c1 c2 c3 : same_portfolio c1 c2 -> same_portfolio c2 c3 -> same_portfolio c1 c3.
Proof. unfold same_portfolio. intros H1 H2. intuition congruence. Qed.

(** A caller a lock keeps out: another than the locker, or any once the locker is
    no longer a module of the token. *)
Definition kept_out (a : Address) (s : state) : Prop :=
  a <> locker s \/ moduleState s (locker s) <> INITIALIZED.

(** A module moved from none to pending at most. *)
Definition only_pending (s s' : state) : Prop :=
  forall m, moduleState s' m = moduleState s m \/ (moduleState s m = NONE /\ moduleState s' m = PENDING).

Lemma exec_locked isModule a k c c' : isLocked (vars c) = true -> kept_out a (vars c) ->
  exec isModule a k c = Ok c' -> same_portfolio c c' /\ only_pending (vars c) (vars c').
Proof.
  intros HL Ha Q. unfold only_pending.
  assert (HP : forall u, privileged isModule a (vars c) <> Ok u).
  { intros u H. apply privileged_Ok in H as (Hi & _ & H). specialize (H HL). subst a. by destruct Ha. }
  destruct k; cbn [exec] in Q;
    unfold on_vars, mint, burn, addComponent, removeComponent, editDefaultPositionUnit,
      addExternalPositionModule, removeExternalPositionModule, editExternalPositionUnit,
      editExternalPositionData, editPositionMultiplier, lock, unlock, removePendingModule,
      initializeModule, setManager in Q; rewrite ?HL in Q; cbn [negb] in Q;
    try (repeat (apply bind_Ok_inv in Q as (? & ? & Q));
         repeat match goal with H : mbind _ _ = Ok _ |- _ => apply bind_Ok_inv in H as (? & ? & H) end;
         solve [exfalso; eapply HP; eassumption | discriminate]).
  - unfold _validateOnlyModule in Q. guards. exfalso. destruct Ha; congruence.
  - unfold addModule in Q. guards. split; [done|]. intros b. rewrite moduleState_set_modules.
    case_decide as D; [|by left]. right. by rewrite D.
  - guards. apply token_exec_supply in E. split; [|by left]. unfold same_portfolio. cbn. by rewrite E.
Qed.

Lemma only_pending_trans s1 s2 s3 : only_pending s1 s2 -> only_pending s2 s3 -> only_pending s1 s3.
Proof.
  intros H1 H2 b. destruct (H1 b) as [Q|[Q1 Q2]], (H2 b) as [R|[R1 R2]]; rewrite ?Q in *; rewrite ?Q2 in *; naive_solver.
Qed.

Lemma calls_locked who c c' : isLocked (vars c) = true -> (forall a, who a -> kept_out a (vars c)) -> calls who c c' ->
  same_portfolio c c' /\ only_pending (vars c) (vars c').
Proof.
  intros HL HW H. induction H as [c|isModule a k c c1 c2 Hw Ht E H IH
    |isModule a t v d r c c1 c2 Hw E H1 IH1 H2 IH2|a m c c1 c2 c3 Hw E H1 IH1 F H2 IH2].
  - split; [done|]. by left.
  - destruct (exec_locked _ _ _ _ _ HL (HW a Hw) E) as [HS HM]. pose proof HS as (H1 & H2 & _).
    destruct IH as [HS' HM'].
    + by rewrite H1.
    + intros b Hb. unfold kept_out. rewrite H2. destruct (HW b Hb) as [?|Hn]; [by left|right].
      destruct (HM (locker (vars c))) as [->|[_ ->]]; done.
    + split; [by eapply same_portfolio_trans|by eapply only_pending_trans].
  - apply privileged_Ok in E as (Hi & _ & E). specialize (E HL). subst a. by destruct (HW _ Hw).
  - unfold removeModule_checks in E. rewrite HL in E. by inv_result.
Qed.

(** C11: While a SetToken is locked, nobody but its locker can change the portfolio:
    whatever calls others make, re-entrant ones included, it stays locked by the
    same module with the same manager, modules, components, positions, multiplier
    and supply. All they can do is move balances, and add modules, which stay
    pending. *)
Theorem lock_excludes who c c' : isLocked (vars c) = true -> ~ who (locker (vars c)) -> calls who c c' ->
  same_portfolio c c' /\
  forall m, moduleState (vars c') m = moduleState (vars c) m \/
    (moduleState (vars c) m = NONE /\ moduleState (vars c') m = PENDING).
Proof. intros HL HW H. apply (calls_locked who); [done| |done]. intros a Ha. left. by intros ->. Qed.

(** C38: A lock outlives its module. Once the locker is no module of the token any
    more, which [removeModule] brings about when the module it calls locks the
    token, nobody ever unlocks it again: whatever calls follow, manager, modules,
    components, positions, multiplier and supply stay as they are, so no token is
    issued or redeemed any more. *)
Theorem orphaned_lock who c c' : isLocked (vars c) = true ->
  moduleState (vars c) (locker (vars c)) <> INITIALIZED -> calls who c c' ->
  isLocked (vars c') = true /\ moduleState (vars c') (locker (vars c')) <> INITIALIZED /\ same_portfolio c c'.
Proof.
  intros HL HN H. destruct (calls_locked who c c' HL (fun a _ => or_intror HN) H) as [HS HM].
  pose proof HS as (H1 & H2 & _). rewrite H1, H2. split; [done|]. split; [|done].
  destruct (HM (locker (vars c))) as [->|[_ ->]]; done.
Qed.

(** How a call may move a module from one state to another. *)
Definition module_move (isModule : Address -> bool) (a m : Address) (s s' : state) : Prop :=
  moduleState s' m = moduleState s m \/
  (moduleState s m = NONE /\ moduleState s' m = PENDING /\ a = manager s /\ isModule m = true) \/
  (moduleState s m = PENDING /\ moduleState s' m = NONE /\ a = manager s /\ isLocked s = false) \/
  (moduleState s m = PENDING /\ moduleState s' m = INITIALIZED /\ a = m /\ isLocked s = false).

(** Who may change what. A call that changes a component, a position or the
    multiplier, or mints or burns, comes from a module that is initialized and
    enabled on the controller, and from the locker when there is a lock; only
    the manager appoints another manager, on an unlocked token; and a module
    moves only from none to pending (by the manager, if the controller has
    enabled it), from pending back to none (by the manager) or from pending to
    initialized (by itself), the last two on an unlocked token. *)
Theorem setToken_authorised isModule a k c c' : exec isModule a k c = Ok c' ->
  let s := vars c in let s' := vars c' in
  ((components s', componentPositions s', positionMultiplier s', totalSupply (tokens c')) <>
     (components s, componentPositions s, positionMultiplier s, totalSupply (tokens c)) ->
     moduleState s a = INITIALIZED /\ isModule a = true /\ (isLocked s = true -> a = locker s)) /\
  (manager s' <> manager s -> a = manager s /\ isLocked s = false) /\
  (forall m, module_move isModule a m s s').
Proof.
  intros Q s s'. unfold module_move. destruct k; cbn [exec] in Q;
    unfold on_vars, mint, burn, addComponent, removeComponent, editDefaultPositionUnit,
      addExternalPositionModule, removeExternalPositionModule, editExternalPositionUnit,
      editExternalPositionData, editPositionMultiplier, lock, unlock in Q;
    try (repeat (apply bind_Ok_inv in Q as (? & ? & Q));
         repeat match goal with H : mbind _ _ = Ok _ |- _ => apply bind_Ok_inv in H as (? & ? & H) end;
         match goal with H : privileged _ _ _ = Ok _ |- _ => apply privileged_Ok in H as HP end;
         inv_result; split; [by intros _|split; [done|by left]]).
  all: unfold s, s' in *; clear s s'.
  - unfold _validateOnlyModule in Q. guards. split; [by intros []|]. split; [done|by left].
  - unfold _validateOnlyModule in Q. guards. split; [by intros []|]. split; [done|by left].
  - unfold addModule, _validateOnlyManager in Q. guards. split; [by intros []|]. split; [done|].
    intros b. rewrite moduleState_set_modules. case_decide as D; [|by left]. right; left. by rewrite D.
  - unfold removePendingModule, _validateOnlyManager in Q. guards. split; [by intros []|]. split; [done|].
    intros b. rewrite moduleState_set_modules. case_decide as D; [|by left]. right; right; left. by rewrite D.
  - unfold initializeModule in Q. guards. split; [by intros []|]. split; [done|].
    intros b. rewrite moduleState_set_modules. case_decide as D; [|by left]. right; right; right. by rewrite D.
  - unfold setManager, _validateOnlyManager in Q. guards. split; [by intros []|]. split; [done|by left].
  - guards. apply token_exec_supply in E. split; [by rewrite E|]. split; [done|by left].
Qed.

(** The real unit that a virtual unit made from [u] reads as. *)
Lemma real_of_virtual s u v : Inv s -> is_int256 u -> _convertRealToVirtualUnit s u = Ok v ->
  - 2 ^ 255 <= u * PRECISE_UNIT - positionMultiplier s ->
  exists r, _convertVirtualToRealUnit s v = Ok r /\ r <= u /\
    (u - r - 1) * PRECISE_UNIT < positionMultiplier s /\ (0 < u -> 0 < r).
Proof.
  intros HI Hu Q Hmin. pose proof (inv_multiplier _ HI) as Hm. pose proof PRECISE_UNIT_pos as HP.
  apply _convertRealToVirtualUnit_Ok in Q as (Hv & Hvi & Hw & Hpos); [|done..].
  pose proof (Z.div_mod (u * PRECISE_UNIT) (positionMultiplier s) ltac:(lia)) as Hd.
  pose proof (Z.mod_pos_bound (u * PRECISE_UNIT) (positionMultiplier s) Hm) as Hb. rewrite <- Hv in Hd.
  apply is_int256_spec in Hw.
  assert (Hp : is_int256 (v * positionMultiplier s)) by (apply is_int256_spec; lia).
  exists (v * positionMultiplier s / PRECISE_UNIT). unfold _convertVirtualToRealUnit in *.
  rewrite conservativePreciseMul_floor by (done || apply HI). split; [done|].
  pose proof (Z.div_mod (v * positionMultiplier s) PRECISE_UNIT ltac:(lia)) as Hd'.
  pose proof (Z.mod_pos_bound (v * positionMultiplier s) PRECISE_UNIT HP) as Hb'.
  set (r := v * positionMultiplier s / PRECISE_UNIT) in *.
  split; [nia|]. split; [nia|]. intros H0. destruct (Hpos H0) as (Hv0 & r' & Qr & Hr').
  rewrite conservativePreciseMul_floor in Qr by (done || apply HI). apply Ok_inj in Qr. fold r in Qr.
  assert (0 <= r) by (apply Z.div_pos; nia). lia.
Qed.

(** C36: Editing a default position and reading it back. The unit read is never
    more than the unit written; it is less than one unit plus the multiplier
    below it (so at most one unit below while the multiplier is at most one);
    a positive unit never becomes zero; and no other position changes. *)
Theorem default_unit_roundtrip isModule a x u s s' : Inv s -> is_int256 u ->
  - 2 ^ 255 <= u * PRECISE_UNIT - positionMultiplier s ->
  editDefaultPositionUnit isModule a x u s = Ok s' ->
  (exists r, getDefaultPositionRealUnit s' x = Ok r /\ r <= u /\
     (u - r - 1) * PRECISE_UNIT < positionMultiplier s /\ (0 < u -> 0 < r)) /\
  (forall y, y <> x -> getDefaultPositionRealUnit s' y = getDefaultPositionRealUnit s y) /\
  (forall y m, getExternalPositionRealUnit s' y m = getExternalPositionRealUnit s y m).
Proof.
  intros HI Hu Hmin Q. unfold editDefaultPositionUnit in Q.
  apply bind_Ok_inv in Q as (u0 & _ & Q). apply bind_Ok_inv in Q as (v & Qv & Q). apply Ok_inj in Q as <-.
  unfold getDefaultPositionRealUnit, getExternalPositionRealUnit, externalPosition.
  setoid_rewrite position_set_position. split; [|split].
  - rewrite decide_True by done. exact (real_of_virtual s u v HI Hu Qv Hmin).
  - intros y Hy. by rewrite decide_False.
  - intros y m. by case_decide; subst.
Qed.

(** An accepted multiplier is positive and leaves no unit zero. *)
Lemma editPositionMultiplier_Ok isModule a v s s' : Inv s -> is_int256 v ->
  editPositionMultiplier isModule a v s = Ok s' ->
  s' = set_multiplier s v (PositionMultiplierEdited v) /\ 0 < v /\
  (exists u, u ∈ unit_sizes s /\ 0 < u) /\
  forall u, u ∈ unit_sizes s -> 0 < u -> 0 < u * v / PRECISE_UNIT.
Proof.
  intros HI Hv Q. pose proof PRECISE_UNIT_pos as HP. unfold editPositionMultiplier in Q.
  apply bind_Ok_inv in Q as (u0 & _ & Q). apply bind_Ok_inv in Q as ([] & Qn & Q).
  apply Ok_inj in Q as <-. pose proof (_validateNewMultiplier_Ok _ _ HI Hv Qn) as Hv0.
  unfold _validateNewMultiplier in Qn.
  apply bind_Ok_inv in Qn as (m & Qm & Qn). apply bind_Ok_inv in Qn as (y & Qy & Qn).
  apply require_Ok_inv, Z.ltb_lt in Qn.
  apply minimum_spec in Qm as (Hm & Hin & Hmin); [|done].
  apply conservativePreciseMul_Ok in Qy as (-> & _); [|apply is_int256_spec; lia|done].
  split; [done|]. split; [done|]. split; [by exists m; split; [|lia]|].
  intros u Hu H0. pose proof (Hmin u Hu H0). eapply Z.lt_le_trans; [exact Qn|].
  apply Z.div_le_mono; nia.
Qed.

(** When a multiplier is accepted. *)
Lemma editPositionMultiplier_succeeds isModule a v s : Inv s -> is_int256 v -> 0 < v ->
  privileged isModule a s = Ok tt ->
  (forall c, c ∈ components s -> 0 <= virtualUnit (position s c)) ->
  (forall c m, ext_virtualUnit (externalPosition s c m) <> - 2 ^ 255) ->
  (exists u, u ∈ unit_sizes s /\ 0 < u < 2 ^ 255) ->
  (forall u, u ∈ unit_sizes s -> 0 < u -> PRECISE_UNIT <= u * v < 2 ^ 255) ->
  editPositionMultiplier isModule a v s = Ok (set_multiplier s v (PositionMultiplierEdited v)).
Proof.
  intros HI Hv H0 HA HD HX HU HP. destruct (minimum_defined s HI HD HX HU) as [m Hm].
  pose proof Hm as Hs. apply minimum_spec in Hs as (Hm0 & Hin & _); [|done].
  destruct (HP m Hin (proj1 Hm0)) as [H1 H2]. unfold editPositionMultiplier. rewrite HA, bind_Ok.
  unfold _validateNewMultiplier. rewrite Hm, bind_Ok.
  rewrite conservativePreciseMul_floor by (done || apply is_int256_spec; lia). rewrite bind_Ok.
  pose proof PRECISE_UNIT_pos as HPU.
  pose proof (Z.div_le_lower_bound (m * v) PRECISE_UNIT 1 HPU ltac:(lia)) as Hd.
  rewrite (proj2 (Z.ltb_lt 0 _)) by lia. by rewrite require_true, !bind_Ok.
Qed.

Lemma default_unit_size s c : c ∈ components s -> virtualUnit (position s c) ∈ unit_sizes s.
Proof. intros Hc. apply list_elem_of_bind. exists c. split; [by left|done]. Qed.

Lemma external_unit_size s c m : c ∈ components s -> m ∈ externalPositionModules (position s c) ->
  Z.abs (ext_virtualUnit (externalPosition s c m)) ∈ unit_sizes s.
Proof.
  intros Hc Hm. apply list_elem_of_bind. exists c. split; [|done]. right.
  exact (list_elem_of_fmap_2 (fun m => Z.abs (ext_virtualUnit (externalPosition s c m))) _ m Hm).
Qed.

(** A new multiplier is accepted only if it leaves every position of the
    token: no listed default or external unit other than zero reads as zero
    afterwards. A token without such a unit takes no multiplier at all. *)
Theorem multiplier_keeps_positions isModule a v s : Inv s -> is_int256 v ->
  (forall s', editPositionMultiplier isModule a v s = Ok s' ->
     positionMultiplier s' = v /\
     (forall c r, c ∈ components s -> 0 < virtualUnit (position s c) ->
        getDefaultPositionRealUnit s' c = Ok r -> 0 < r) /\
     (forall c m r, c ∈ components s -> m ∈ externalPositionModules (position s c) ->
        ext_virtualUnit (externalPosition s c m) <> 0 ->
        getExternalPositionRealUnit s' c m = Ok r -> r <> 0)) /\
  (Forall (fun u => u <= 0) (unit_sizes s) -> is_Ok (editPositionMultiplier isModule a v s) = false).
Proof.
  intros HI Hv. pose proof PRECISE_UNIT_pos as HP. split.
  - intros s' Q. apply editPositionMultiplier_Ok in Q as (-> & Hv0 & _ & Hpos); [|done..].
    split; [done|]. split.
    + intros c r Hc Hu Q. apply conservativePreciseMul_Ok in Q as (-> & _); [|apply (inv_units _ HI)|done].
      exact (Hpos _ (default_unit_size s c Hc) Hu).
    + intros c e r Hc He Hu Q.
      apply conservativePreciseMul_Ok in Q as (-> & _); [|apply (inv_external_units _ HI)|done].
      pose proof (external_unit_size s c e Hc He) as Hin.
      change (externalPosition (set_multiplier s v (PositionMultiplierEdited v)) c e) with (externalPosition s c e).
      cbn [positionMultiplier set_multiplier]. set (w := ext_virtualUnit (externalPosition s c e)) in *.
      destruct (decide (0 < w)) as [Hw|Hw].
      * rewrite Z.abs_eq in Hin by lia. pose proof (Hpos w Hin Hw). lia.
      * apply Z.lt_neq, Z.div_lt_upper_bound; nia.
  - intros HU. destruct (is_Ok _) eqn:Q; [|done]. exfalso. apply is_Ok_true in Q as [s' Q].
    apply editPositionMultiplier_Ok in Q as (_ & _ & (u & Hu & H0) & _); [|done..].
    rewrite Forall_forall in HU. apply HU in Hu. lia.
Qed.

(** *** The list of positions *)

Definition real_unit (s : state) (v : Z) : Z := v * positionMultiplier s / PRECISE_UNIT.

(** The positions of a component, the default one first. *)
Definition positions_of (s : state) (c : Address) : list Position :=
  (if 0 <? virtualUnit (position s c)
   then [mkPosition c ADDRESS_ZERO (real_unit s (virtualUnit (position s c))) DEFAULT ""] else []) ++
  map (fun m => mkPosition c m (real_unit s (ext_virtualUnit (externalPosition s c m))) EXTERNAL
                  (ext_data (externalPosition s c m))) (externalPositionModules (position s c)).

Definition listed_positions (s : state) : list Position := components s ≫= positions_of s.

(** An array whose first slots are filled, and the number of those. *)
Definition filled (d : list Position) (n : nat) : list (option Position) * nat :=
  (map Some d ++ replicate n None, List.length d).

Lemma fill_filled d n p : fill (filled d (S n)) p = Ok (filled (d ++ [p]) n).
Proof.
  unfold fill, filled. cbn [fst snd]. rewrite length_app, length_map, length_replicate.
  rewrite (proj2 (Nat.ltb_lt _ _)) by lia. f_equal. f_equal.
  - rewrite map_app, <- app_assoc. cbn [map app replicate].
    replace (List.length d) with (List.length (map Some d) + 0)%nat by (rewrite length_map; lia).
    by rewrite insert_app_r.
  - rewrite length_app. cbn. lia.
Qed.

Lemma fill_all {A} (f : A -> result Z) (g : A -> Z -> Position) (h : A -> Z) l d n :
  (forall x, x ∈ l -> f x = Ok (h x)) ->
  foldM (fun a x => u ← f x; fill a (g x u)) (filled d (List.length l + n)) l =
    Ok (filled (d ++ map (fun x => g x (h x)) l) n).
Proof.
  revert d. induction l as [|x l IH]; intros d Hf; cbn [foldM map List.length Nat.add].
  - by rewrite app_nil_r.
  - rewrite Hf, bind_Ok, fill_filled, bind_Ok by set_solver. rewrite IH by set_solver.
    by rewrite <- app_assoc.
Qed.

Lemma count_component s c acc : 0 <= acc -> acc + Z.of_nat (List.length (positions_of s c)) < 2 ^ 256 ->
  countPositions s acc c = Ok (acc + Z.of_nat (List.length (positions_of s c))).
Proof.
  unfold positions_of, countPositions. rewrite length_app, length_map.
  set (e := externalPositionModules (position s c)).
  generalize (0 <? virtualUnit (position s c)) as b. intros b Ha Hl. cbv zeta.
  assert (H1 : (if b then wrap_uint256 (acc + 1) else acc) = acc + (if b then 1 else 0)).
  { unfold wrap_uint256. destruct b; cbn in Hl; [rewrite Z.mod_small; lia|lia]. }
  rewrite H1. destruct (Nat.ltb_spec 0 (List.length e)) as [He|He].
  - rewrite sm_add_Ok; [f_equal|apply is_uint256_spec|apply is_uint256_spec|]; destruct b; cbn in *; lia.
  - f_equal. destruct b; cbn in *; lia.
Qed.

Lemma count_positions s cs acc : 0 <= acc -> acc + Z.of_nat (List.length (cs ≫= positions_of s)) < 2 ^ 256 ->
  foldM (countPositions s) acc cs = Ok (acc + Z.of_nat (List.length (cs ≫= positions_of s))).
Proof.
  revert acc. induction cs as [|c cs IH]; intros acc Ha Hl; cbn [foldM].
  - cbn. f_equal. lia.
  - rewrite bind_cons, length_app in *. rewrite count_component, bind_Ok, IH by lia. f_equal. lia.
Qed.

(** No conversion of a unit overflows. *)
Definition convertible (s : state) : Prop :=
  (forall c, is_int256 (virtualUnit (position s c) * positionMultiplier s)) /\
  (forall c m, is_int256 (ext_virtualUnit (externalPosition s c m) * positionMultiplier s)).

Lemma fill_positions s c d n : Inv s -> convertible s ->
  fillPositions s (filled d (List.length (positions_of s c) + n)) c = Ok (filled (d ++ positions_of s c) n).
Proof.
  intros HI [HU HX]. unfold fillPositions, positions_of, getDefaultPositionRealUnit.
  assert (HR : forall v, is_int256 v -> is_int256 (v * positionMultiplier s) ->
    _convertVirtualToRealUnit s v = Ok (real_unit s v)).
  { intros v H1 H2. apply conservativePreciseMul_floor; [done|apply HI|done]. }
  rewrite (HR _ (inv_units _ HI c) (HU c)). set (e := externalPositionModules (position s c)).
  assert (HE : forall d, foldM (fun a m => u ← getExternalPositionRealUnit s c m;
      fill a (mkPosition c m u EXTERNAL (ext_data (externalPosition s c m)))) (filled d (List.length e + n)) e =
    Ok (filled (d ++ map (fun m => mkPosition c m (real_unit s (ext_virtualUnit (externalPosition s c m)))
      EXTERNAL (ext_data (externalPosition s c m))) e) n)).
  { intros d'. apply (fill_all (getExternalPositionRealUnit s c)
      (fun m u => mkPosition c m u EXTERNAL (ext_data (externalPosition s c m)))).
    intros m _. exact (HR _ (inv_external_units _ HI c m) (HX c m)). }
  destruct (0 <? virtualUnit (position s c)); cbn [app List.length Nat.add]; rewrite length_map.
  - rewrite bind_Ok, fill_filled, bind_Ok, HE. by rewrite <- app_assoc.
  - by rewrite bind_Ok, HE.
Qed.

(** [getPositions] counts the positions first and then fills an array of that
    size: it never writes out of its bounds and leaves no slot empty, and what it
    returns is the list of the positions of each component, the default one (if
    its unit is positive) before the external ones, with their real units. *)
Theorem getPositions_lists s : Inv s -> convertible s ->
  Z.of_nat (List.length (listed_positions s)) < 2 ^ 256 ->
  getPositions s = Ok (map Some (listed_positions s)).
Proof.
  intros HI HC HL. unfold getPositions, _getPositionCount.
  rewrite count_positions, bind_Ok by (done || lia). rewrite Z.add_0_l, Nat2Z.id.
  assert (HF : forall cs d, foldM (fillPositions s) (filled d (List.length (cs ≫= positions_of s))) cs =
    Ok (filled (d ++ (cs ≫= positions_of s)) 0)).
  { induction cs as [|c cs IH]; intros d; cbn [foldM]; [by rewrite app_nil_r|].
    rewrite bind_cons, length_app, fill_positions, bind_Ok, IH by done. by rewrite app_assoc. }
  pose proof (HF (components s) []) as H0. unfold filled at 1 in H0. cbn [map app List.length] in H0.
  fold (listed_positions s) in H0 |- *. rewrite H0, bind_Ok. unfold filled. cbn [fst]. by rewrite app_nil_r.
Qed.

End Invariant.
(** ** Instances *)

Definition enabled (a : Address) : bool := true.

(** A token of two components with the module [M], before and after it is
    initialized. *)
Definition sample : state :=
  constructor ["A"; "B"]%string [10 ^ 18; 5] ["M"]%string "controller" "manager" "Set" "SET".

Definition running : state :=
  match initializeModule "M" sample with Ok s => s | Throw _ => sample end.

Definition sample_contract : contract := mkContract running empty_ledger.

Lemma sample_distinct : NoDup ["A"; "B"]%string.
Proof. apply (bool_decide_eq_true_1 _). vm_compute. reflexivity. Qed.

Lemma sample_units : Forall is_int256 [10 ^ 18; 5].
Proof. apply (bool_decide_eq_true_1 _). vm_compute. reflexivity. Qed.

Lemma Inv_sample : Inv sample.
Proof. exact (storage_constructor _ _ _ _ _ _ _ sample_distinct sample_units). Qed.

Lemma Inv_running : Inv running.
Proof. eapply (Inv_initializeModule "M" sample); [apply Inv_sample|reflexivity]. Qed.

(** [M] is initialized, locks the token and mints. *)
Lemma storage_invariant_witness : exists c,
  calls (fun _ => True) (mkContract sample empty_ledger) c /\ isLocked (vars c) = true /\ Inv (vars c).
Proof.
  assert (H : exists c, calls (fun _ => True) (mkContract sample empty_ledger) c /\ isLocked (vars c) = true).
  { eexists. split.
    - eapply (calls_exec _ enabled "M" InitializeModule); [done|done|reflexivity|].
      eapply (calls_exec _ enabled "M" Lock); [done|done|reflexivity|].
      eapply (calls_exec _ enabled "M" (Mint "holder" 10)); [done|done|reflexivity|]. apply calls_done.
    - reflexivity. }
  destruct H as (c & H & HL). exists c. split; [exact H|]. split; [exact HL|].
  exact (storage_invariant (ET := erc20_ref) ["A"; "B"]%string [10 ^ 18; 5] ["M"]%string "controller" "manager"
    "Set" "SET" empty_ledger (fun _ => True) c sample_distinct sample_units H).
Defined.

Definition locked_contract : contract :=
  mkContract (set_lock running "M" true) (mkLedger 10 {[ "holder"%string := 10 ]} ∅).

(** The manager adds a module and a holder moves tokens. *)
Lemma lock_excludes_witness : exists c,
  calls (fun a => a <> "M"%string) locked_contract c /\ moduleState (vars c) "N" = PENDING /\
  same_portfolio locked_contract c.
Proof.
  assert (H : exists c, calls (fun a => a <> "M"%string) locked_contract c /\ moduleState (vars c) "N" = PENDING).
  { eexists. split.
    - eapply (calls_exec _ enabled "manager" (AddModule "N")); [done|done|reflexivity|].
      eapply (calls_exec _ enabled "holder" (Public (Transfer "other" 4))); [done|done|reflexivity|].
      apply calls_done.
    - reflexivity. }
  destruct H as (c & H & HN). exists c. split; [exact H|]. split; [exact HN|].
  apply (lock_excludes (ET := erc20_ref) (fun a => a <> "M"%string) locked_contract c eq_refl); [|exact H].
  intros Hn. by apply Hn.
Defined.

(** The manager removes [M], which locks the token when it is called; afterwards
    the manager cannot even be changed. *)
Lemma orphaned_lock_witness : exists c,
  calls (fun _ => True) sample_contract c /\ moduleState (vars c) "M" = NONE /\ isLocked (vars c) = true /\
  forall c', calls (fun _ => True) c c' -> isLocked (vars c') = true /\ manager (vars c') = "manager"%string.
Proof.
  assert (H : exists c, calls (fun _ => True) sample_contract c /\ moduleState (vars c) "M" = NONE /\
    isLocked (vars c) = true /\ locker (vars c) = "M"%string /\ manager (vars c) = "manager"%string).
  { eexists. split.
    - eapply (calls_removeModule _ "manager" "M"); [done|reflexivity| | |apply calls_done].
      + eapply (calls_exec _ enabled "M" Lock); [done|done|reflexivity|]. apply calls_done.
      + reflexivity.
    - by split_and!. }
  destruct H as (c & H & HN & HL & HK & HM). exists c. split; [exact H|]. split; [exact HN|]. split; [exact HL|].
  intros c' Hc. assert (HN' : moduleState (vars c) (locker (vars c)) <> INITIALIZED) by (by rewrite HK, HN).
  destruct (orphaned_lock (ET := erc20_ref) (fun _ => True) c c' HL HN' Hc) as (HL' & _ & _ & _ & HM' & _).
  split; [exact HL'|]. by rewrite HM'.
Defined.

Lemma setToken_authorised_witness : exists c',
  exec enabled "M" (AddComponent "C") sample_contract = Ok c' /\ moduleState running "M" = INITIALIZED.
Proof.
  assert (H : exists c', exec enabled "M" (AddComponent "C") sample_contract = Ok c' /\
    components (vars c') = ["A"; "B"; "C"]%string) by (eexists; split; [reflexivity|reflexivity]).
  destruct H as (c' & H & HC). exists c'. split; [exact H|].
  destruct (setToken_authorised (ET := erc20_ref) enabled "M" (AddComponent "C") sample_contract c' H) as [HA _].
  apply HA. rewrite HC. intros E. apply (f_equal (fun x => x.1.1.1)) in E. discriminate E.
Defined.

Lemma default_unit_witness : exists s' r,
  editDefaultPositionUnit enabled "M" "A" 7 running = Ok s' /\
  getDefaultPositionRealUnit s' "A" = Ok r /\ r <= 7.
Proof.
  assert (H : exists s', editDefaultPositionUnit enabled "M" "A" 7 running = Ok s') by (eexists; vm_compute; reflexivity).
  destruct H as [s' H].
  destruct (default_unit_roundtrip enabled "M" "A" 7 running s' Inv_running ltac:(done)
    ltac:(vm_compute; discriminate) H) as [(r & Hr & Hle & _) _].
  exists s', r. by split_and!.
Defined.

Lemma multiplier_witness : exists s',
  editPositionMultiplier enabled "M" (5 * 10 ^ 17) running = Ok s' /\ positionMultiplier s' = 5 * 10 ^ 17.
Proof.
  assert (H : exists s', editPositionMultiplier enabled "M" (5 * 10 ^ 17) running = Ok s')
    by (eexists; vm_compute; reflexivity).
  destruct H as [s' H]. exists s'. split; [exact H|].
  destruct (multiplier_keeps_positions enabled "M" (5 * 10 ^ 17) running Inv_running ltac:(by vm_compute)) as [HM _].
  exact (proj1 (HM s' H)).
Defined.

Lemma getPositions_witness : getPositions sample = Ok (map Some (listed_positions sample)).
Proof.
  apply (getPositions_lists sample Inv_sample).
  - split; intros c.
    + destruct (position_constructor ["A"; "B"]%string [10 ^ 18; 5] ["M"]%string "controller" "manager" "Set" "SET" c)
        as (u & E & Hu). fold sample in E. rewrite E. cbn [virtualUnit].
      rewrite !elem_of_cons, elem_of_nil in Hu. destruct Hu as [[->|[->|[]]]| ->]; by vm_compute.
    + intros m. destruct (position_constructor ["A"; "B"]%string [10 ^ 18; 5] ["M"]%string "controller" "manager"
        "Set" "SET" c) as (u & E & _). fold sample in E. unfold externalPosition. rewrite E. by vm_compute.
  - by vm_compute.
Defined.

End SetToken.
