(* ===== verification/Position.v ===== *)
(** * Positions

    [contracts/protocol/lib/Position.sol]: how modules edit the positions of a
    SetToken. Every function is called by a module, which is the sender of the
    calls it makes to the SetToken. The theorems are about a token whose
    positions are edited through this library only. *)

From S2P Require Import Prelude JsString Ethers Constants SafeMath PreciseUnitMath Erc20 Controller SetToken.
From Stdlib Require Import String.

Local Open Scope Z_scope.

Import AddressArrayUtils.
Import SetToken.

Module PositionLib.

Section Position.
Context `{OZ : OpenZeppelin} (isModule : Address -> bool) (this : Address).

Definition hasDefaultPosition (s : state) (_component : Address) : result bool :=
  u ← getDefaultPositionRealUnit s _component; Ok (0 <? u).

Definition hasExternalPosition (s : state) (_component : Address) : bool :=
  (0 <? List.length (externalPositionModules (position s _component)))%nat.

Definition hasSufficientDefaultUnits (s : state) (_component : Address) (_unit : Z) : result bool :=
  r ← getDefaultPositionRealUnit s _component; u ← toInt256 _unit; Ok (u <=? r).

Definition hasSufficientExternalUnits (s : state) (_component _positionModule : Address) (_unit : Z)
    : result bool :=
  r ← getExternalPositionRealUnit s _component _positionModule; u ← toInt256 _unit; Ok (u <=? r).

Definition editDefaultPosition (_component : Address) (_newUnit : Z) (s : state) : result state :=
  isPositionFound ← hasDefaultPosition s _component;
  s ← (if negb isPositionFound && (0 <? _newUnit) then
         if negb (hasExternalPosition s _component) then addComponent isModule this _component s else Ok s
       else if isPositionFound && (_newUnit =? 0) then
         if negb (hasExternalPosition s _component) then removeComponent isModule this _component s else Ok s
       else Ok s);
  u ← toInt256 _newUnit;
  editDefaultPositionUnit isModule this _component u s.

Definition editExternalPosition (_component _module : Address) (_newUnit : Z) (_data : string) (s : state)
    : result state :=
  if negb (_newUnit =? 0) then
    s ← (if negb (isComponent s _component) then
           s ← addComponent isModule this _component s;
           addExternalPositionModule isModule this _component _module s
         else if negb (isExternalPositionModule s _component _module) then
           addExternalPositionModule isModule this _component _module s
         else Ok s);
    s ← editExternalPositionUnit isModule this _component _module _newUnit s;
    editExternalPositionData isModule this _component _module _data s
  else
    _ ← require (String.eqb _data "") "Passed data must be null";
    u ← getExternalPositionRealUnit s _component _module;
    if negb (u =? 0) then
      let positionModules := externalPositionModules (position s _component) in
      d ← getDefaultPositionRealUnit s _component;
      s ← (if (d =? 0) && (List.length positionModules =? 1)%nat then
             _ ← require (bool_decide (head positionModules = Some _module))
                   "External positions must be 0 to remove component";
             removeComponent isModule this _component s
           else Ok s);
      removeExternalPositionModule isModule this _component _module s
    else Ok s.

Definition getDefaultTotalNotional (_setTokenSupply _positionUnit : Z) : result Z :=
  preciseMul _setTokenSupply _positionUnit.

Definition getDefaultPositionUnit (_setTokenSupply _totalNotional : Z) : result Z :=
  preciseDiv _totalNotional _setTokenSupply.

Definition getDefaultTrackedBalance (s : state) (totalSupply : Z) (_component : Address) : result Z :=
  positionUnit ← getDefaultPositionRealUnit s _component;
  u ← toUint256 positionUnit; preciseMul totalSupply u.

Definition calculateDefaultEditPositionUnit
    (_setTokenSupply _preTotalNotional _postTotalNotional _prePositionUnit : Z) : result Z :=
  tracked ← preciseMul _prePositionUnit _setTokenSupply;
  airdroppedAmount ← sm_sub _preTotalNotional tracked;
  rest ← sm_sub _postTotalNotional airdroppedAmount;
  preciseDiv rest _setTokenSupply.

(** [currentBalance]: the balance of the SetToken in the component. *)
Definition calculateAndEditDefaultPosition (currentBalance : Z) (_component : Address)
    (_setTotalSupply _componentPreviousBalance : Z) (s : state) : result (state * (Z * Z * Z)) :=
  r ← getDefaultPositionRealUnit s _component;
  positionUnit ← toUint256 r;
  newTokenUnit ← (if 0 <? currentBalance
                  then calculateDefaultEditPositionUnit _setTotalSupply _componentPreviousBalance
                         currentBalance positionUnit
                  else Ok 0);
  s' ← editDefaultPosition _component newTokenUnit s;
  Ok (s', (currentBalance, positionUnit, newTokenUnit)).

End Position.

(** ** Tracked positions *)

(** A unit is zero, or its real unit is not. *)
Definition sound_unit (s : state) (v : Z) : Prop := 0 < v -> PRECISE_UNIT <= v * positionMultiplier s.

(** The components are exactly those with a position: a positive default unit
    or an external position module; the external modules are exactly those with
    a unit. *)
Record Tracked (s : state) : Prop := {
  tr_component c : c ∈ components s <->
    0 < virtualUnit (position s c) \/ externalPositionModules (position s c) <> [];
  tr_default c : 0 <= virtualUnit (position s c) /\ sound_unit s (virtualUnit (position s c));
  tr_external c m : m ∈ externalPositionModules (position s c) <->
    ext_virtualUnit (externalPosition s c m) <> 0;
  tr_external_unit c m : sound_unit s (ext_virtualUnit (externalPosition s c m));
}.

Section Tracking.
Context `{OZ : OpenZeppelin} (isModule : Address -> bool) (this : Address).

Lemma real_unit_pos s v r : Inv s -> is_int256 v -> sound_unit s v ->
  _convertVirtualToRealUnit s v = Ok r -> (0 < r <-> 0 < v) /\ (r = 0 <-> v = 0).
Proof.
  intros HI Hv Hs Q. pose proof PRECISE_UNIT_pos. pose proof (inv_multiplier _ HI) as Hm.
  apply conservativePreciseMul_Ok in Q as (-> & _ & _); [|done|apply (inv_multiplier_int _ HI)].
  destruct (Z.lt_trichotomy v 0) as [H0|[->|H0]].
  - assert (v * positionMultiplier s / PRECISE_UNIT < 0) by (apply Z.div_lt_upper_bound; nia). lia.
  - rewrite Z.mul_0_l, Z.div_0_l by lia. lia.
  - assert (1 <= v * positionMultiplier s / PRECISE_UNIT).
    { apply Z.div_le_lower_bound; [lia|]. pose proof (Hs H0). lia. } lia.
Qed.

Lemma sound_of_real s v r : Inv s -> is_int256 v -> _convertVirtualToRealUnit s v = Ok r ->
  (0 < v -> r <> 0) -> sound_unit s v.
Proof.
  intros HI Hv Q Hr H0. pose proof PRECISE_UNIT_pos. pose proof (inv_multiplier _ HI) as Hm.
  apply conservativePreciseMul_Ok in Q as (-> & _ & _); [|done|apply (inv_multiplier_int _ HI)].
  specialize (Hr H0). apply Z.nlt_ge. intros Hl. apply Hr. apply Z.div_small. nia.
Qed.

(** What a unit that is written becomes. *)
Lemma converted s u v : Inv s -> is_int256 u -> _convertRealToVirtualUnit s u = Ok v ->
  is_int256 v /\ sound_unit s v /\ (0 < v <-> 0 < u) /\ (v = 0 <-> u = 0).
Proof.
  intros HI Hu Q. apply _convertRealToVirtualUnit_Ok in Q as (-> & Hv & _ & Hp); [|done..].
  pose proof (inv_multiplier _ HI) as Hm. pose proof PRECISE_UNIT_pos as HP.
  split; [done|]. destruct (Z.lt_trichotomy u 0) as [H0|[->|H0]].
  - assert (u * PRECISE_UNIT / positionMultiplier s < 0) by (apply Z.div_lt_upper_bound; nia).
    split; [intros ?; lia|lia].
  - rewrite Z.mul_0_l, Z.div_0_l by lia. split; [intros ?; lia|lia].
  - destruct (Hp H0) as (Hv0 & r & Qr & Hr). split; [|lia].
    by eapply sound_of_real; [| |exact Qr|].
Qed.

Definition external_of (p : ComponentPosition) (m : Address) : Z :=
  ext_virtualUnit (default (mkExternal 0 "") (externalPositions p !! m)).

(** A state in which one component and its position have changed. *)
Lemma Tracked_edit s s' c p' : Tracked s ->
  positionMultiplier s' = positionMultiplier s ->
  (forall d, position s' d = if decide (d = c) then p' else position s d) ->
  (forall d, d <> c -> d ∈ components s' <-> d ∈ components s) ->
  (c ∈ components s' <-> 0 < virtualUnit p' \/ externalPositionModules p' <> []) ->
  0 <= virtualUnit p' -> sound_unit s (virtualUnit p') ->
  (forall m, ((m ∈ externalPositionModules p') <-> external_of p' m <> 0) /\ sound_unit s (external_of p' m)) ->
  Tracked s'.
Proof.
  intros [T1 T2 T3 T4] HM HP HC Hc H0 Hs HE.
  assert (HS : forall v, sound_unit s v -> sound_unit s' v) by (unfold sound_unit; by rewrite HM).
  constructor.
  - intros d. rewrite HP. case_decide as D; [by subst|]. by rewrite HC.
  - intros d. rewrite HP. case_decide; [by split; [|apply HS]|]. split; [|apply HS]; apply T2.
  - intros d m. unfold externalPosition. rewrite HP. case_decide; [apply HE|apply T3].
  - intros d m. unfold externalPosition. rewrite HP. apply HS. case_decide; [apply HE|apply T4].
Qed.

Lemma addComponent_Ok c s s' : addComponent isModule this c s = Ok s' ->
  (c ∉ components s) /\ s' = set_components s (components s ++ [c]) (ComponentAdded c).
Proof.
  unfold addComponent. intros Q. apply bind_Ok_inv in Q as (? & _ & Q).
  apply bind_Ok_inv in Q as (? & Q1 & Q). apply require_Ok_inv, contains_false in Q1.
  by apply Ok_inj in Q as <-.
Qed.

Lemma removeComponent_Ok c s s' : NoDup (components s) -> removeComponent isModule this c s = Ok s' ->
  exists l, (forall d, d ∈ l <-> d ∈ components s /\ d <> c) /\ s' = set_components s l (ComponentRemoved c).
Proof.
  unfold removeComponent. intros HN Q. apply bind_Ok_inv in Q as (? & _ & Q).
  apply bind_Ok_inv in Q as (l & Q1 & Q). apply removeStorage_NoDup in Q1 as [_ HL]; [|done].
  apply Ok_inj in Q as <-. by exists l.
Qed.

(** The change of the component list by [editDefaultPosition]. *)
Definition components_follow (c : Address) (u : Z) (s s1 : state) : Prop :=
  Inv s1 /\ positionMultiplier s1 = positionMultiplier s /\ componentPositions s1 = componentPositions s /\
  (forall d, d <> c -> d ∈ components s1 <-> d ∈ components s) /\
  (c ∈ components s1 <-> 0 < u \/ externalPositionModules (position s c) <> []).

Lemma no_external s c : hasExternalPosition s c = false <-> externalPositionModules (position s c) = [].
Proof.
  unfold hasExternalPosition. rewrite Nat.ltb_ge. split; [|by intros ->].
  destruct (externalPositionModules _); cbn; [done|lia].
Qed.

Lemma editDefault_components c u s s' : Inv s -> Tracked s -> 0 <= u ->
  (hasDefaultPosition s c ≫= fun isPositionFound =>
   if negb isPositionFound && (0 <? u) then
     if negb (hasExternalPosition s c) then addComponent isModule this c s else Ok s
   else if isPositionFound && (u =? 0) then
     if negb (hasExternalPosition s c) then removeComponent isModule this c s else Ok s
   else Ok s) = Ok s' -> components_follow c u s s'.
Proof.
  intros HI HT Hu Q. apply bind_Ok_inv in Q as (found & Qf & Q).
  unfold hasDefaultPosition in Qf. apply bind_Ok_inv in Qf as (r & Qr & Qf). apply Ok_inj in Qf as <-.
  pose proof (real_unit_pos _ _ _ HI (inv_units _ HI c) (proj2 (tr_default _ HT c)) Qr) as [Hr _].
  pose proof (tr_component _ HT c) as Hc. pose proof (no_external s c) as Hx.
  pose proof (tr_default _ HT c) as [H0 _].
  destruct (Z.ltb_spec 0 r) as [Hlt|Hge], (Z.ltb_spec 0 u) as [Hul|Hug];
    rewrite ?(proj2 (Z.eqb_neq u 0)) in Q by lia; cbn [negb andb] in Q.
  - apply Ok_inj in Q as <-. split_and!; [done..|]. naive_solver lia.
  - replace u with 0 in * by lia. cbn [Z.eqb] in Q. destruct (hasExternalPosition s c) eqn:E; cbn [negb] in Q.
    + apply Ok_inj in Q as <-. split_and!; [done..|]. rewrite Hc. split; [|naive_solver lia].
      intros _. right. intros Hn. by apply Hx in Hn.
    + pose proof Q as Q'. apply removeComponent_Ok in Q' as (l & HL & ->); [|apply (inv_components _ HI)].
      split_and!; [|done|done| |].
      * eapply Inv_module_call; [exact HI|]. right; left. by eexists.
      * intros d Hd. cbn [components set_components]. rewrite HL. naive_solver.
      * cbn [components set_components]. rewrite HL. apply no_external in E as ->. naive_solver lia.
  - destruct (hasExternalPosition s c) eqn:E; cbn [negb] in Q.
    + apply Ok_inj in Q as <-. split_and!; [done..|]. rewrite Hc. split; [naive_solver lia|].
      intros _. right. intros Hn. by apply Hx in Hn.
    + pose proof Q as Q'. apply addComponent_Ok in Q' as [Hn ->]. split_and!; [|done|done| |].
      * eapply Inv_module_call; [exact HI|]. left. by eexists.
      * intros d Hd. cbn [components set_components]. set_solver.
      * cbn [components set_components]. set_solver by lia.
  - apply Ok_inj in Q as <-. split_and!; [done..|]. naive_solver lia.
Qed.

(** Editing a default position. *)
Lemma editDefaultPosition_tracked c u s s' : Inv s -> Tracked s -> is_uint256 u ->
  editDefaultPosition isModule this c u s = Ok s' ->
  Inv s' /\ Tracked s' /\ (forall d, d <> c -> position s' d = position s d) /\
  positionMultiplier s' = positionMultiplier s /\
  externalPositionModules (position s' c) = externalPositionModules (position s c) /\
  _convertRealToVirtualUnit s u = Ok (virtualUnit (position s' c)).
Proof.
  intros HI HT Hu Q. pose proof Hu as H0%is_uint256_spec.
  unfold editDefaultPosition in Q. rewrite <- bind_assoc_result in Q.
  apply bind_Ok_inv in Q as (s1 & Q1 & Q).
  apply editDefault_components in Q1 as (HI1 & HM & HP & HC & Hc); [|done|done|lia].
  apply bind_Ok_inv in Q as (u' & Qu & Q). apply toInt256_Ok in Qu as [-> Hi]; [|done].
  assert (HI' : Inv s').
  { eapply Inv_module_call; [exact HI1|]. right; right; left. by exists c, u. }
  unfold editDefaultPositionUnit in Q. apply bind_Ok_inv in Q as (? & _ & Q).
  apply bind_Ok_inv in Q as (v & Qv & Q). apply Ok_inj in Q as <-.
  assert (Hpos : forall d, position s1 d = position s d) by (intros d; unfold position; by rewrite HP).
  assert (Qv' : _convertRealToVirtualUnit s u = Ok v).
  { revert Qv. unfold _convertRealToVirtualUnit, _convertVirtualToRealUnit. by rewrite HM. }
  pose proof (converted _ _ _ HI Hi Qv') as (_ & Hs & Hv & Hv0).
  split; [done|]. split; [|split; [|split; [done|]]].
  - apply (Tracked_edit s _ c (mkComponent v (externalPositionModules (position s c))
      (externalPositions (position s c)))); [done|done| |exact HC| |cbn; lia|exact Hs|].
    + intros d. rewrite position_set_position, !Hpos. reflexivity.
    + cbn [components set_position virtualUnit externalPositionModules]. rewrite Hc. naive_solver.
    + intros m. split; [apply (tr_external _ HT)|apply (tr_external_unit _ HT)].
  - intros d Hd. rewrite position_set_position, decide_False, Hpos; done.
  - rewrite position_set_position, decide_True by done. cbn. by rewrite Hpos.
Qed.

(** Editing a default position of any token. *)
Lemma editDefaultPosition_Ok c u s s' : Inv s -> is_uint256 u -> editDefaultPosition isModule this c u s = Ok s' ->
  Inv s' /\ positionMultiplier s' = positionMultiplier s /\ (forall d, d <> c -> position s' d = position s d) /\
  is_int256 u /\ _convertRealToVirtualUnit s u = Ok (virtualUnit (position s' c)).
Proof.
  intros HI Hu Q. unfold editDefaultPosition in Q. rewrite <- bind_assoc_result in Q.
  apply bind_Ok_inv in Q as (s1 & Q1 & Q). apply bind_Ok_inv in Q1 as (found & _ & Q1).
  assert (H1 : Inv s1 /\ positionMultiplier s1 = positionMultiplier s /\ componentPositions s1 = componentPositions s).
  { repeat case_match; try (apply Ok_inj in Q1 as <-; done).
    - split; [eapply Inv_module_call; [exact HI|]; left; by eexists|]. by apply addComponent_Ok in Q1 as [_ ->].
    - split; [eapply Inv_module_call; [exact HI|]; right; left; by eexists|].
      apply removeComponent_Ok in Q1 as (l & _ & ->); [done|apply (inv_components _ HI)]. }
  destruct H1 as (HI1 & HM & HP).
  apply bind_Ok_inv in Q as (u' & Qu & Q). apply toInt256_Ok in Qu as [-> Hi]; [|done].
  split; [eapply Inv_module_call; [exact HI1|]; right; right; left; by exists c, u|].
  unfold editDefaultPositionUnit in Q. apply bind_Ok_inv in Q as (? & _ & Q).
  apply bind_Ok_inv in Q as (v & Qv & Q). apply Ok_inj in Q as <-. split; [done|]. split.
  - intros d Hd. rewrite position_set_position, decide_False by done. unfold position. by rewrite HP.
  - split; [done|]. rewrite position_set_position, decide_True by done. cbn [virtualUnit]. rewrite <- Qv.
    unfold _convertRealToVirtualUnit, _convertVirtualToRealUnit. by rewrite HM.
Qed.

Lemma addExternalPositionModule_Ok c m s s' : addExternalPositionModule isModule this c m s = Ok s' ->
  s' = set_position s c (mkComponent (virtualUnit (position s c)) (externalPositionModules (position s c) ++ [m])
         (externalPositions (position s c))) (PositionModuleAdded c m).
Proof.
  unfold addExternalPositionModule. intros Q. apply bind_Ok_inv in Q as (? & _ & Q).
  apply bind_Ok_inv in Q as (? & _ & Q). by apply Ok_inj in Q as <-.
Qed.

(** [s1] is [s] with [m] among the external modules of the component [c]. *)
Definition module_listed (c m : Address) (s s1 : state) : Prop :=
  Inv s1 /\ positionMultiplier s1 = positionMultiplier s /\
  (forall d, d <> c -> position s1 d = position s d) /\
  virtualUnit (position s1 c) = virtualUnit (position s c) /\
  externalPositions (position s1 c) = externalPositions (position s c) /\
  (forall x, x ∈ externalPositionModules (position s1 c) <-> x ∈ externalPositionModules (position s c) \/ x = m) /\
  (forall d, d ∈ components s1 <-> d ∈ components s \/ d = c).

Lemma module_listed_add c m s s' : Inv s -> c ∈ components s ->
  addExternalPositionModule isModule this c m s = Ok s' -> module_listed c m s s'.
Proof.
  intros HI Hc Q. assert (HI' : Inv s').
  { eapply Inv_module_call; [exact HI|]. do 3 right; left. by eexists _, _. }
  apply addExternalPositionModule_Ok in Q as ->. split; [done|]. split; [done|].
  split; [intros d Hd; by rewrite position_set_position, decide_False|].
  rewrite !position_set_position, !decide_True by done. split; [done|]. split; [done|]. split.
  - intros x. cbn [externalPositionModules]. set_solver.
  - intros d. cbn [components set_position]. split; [by left|]. by intros [?| ->].
Qed.

Lemma editExternal_prepare c m s s' : Inv s ->
  (if negb (isComponent s c) then
     s ← addComponent isModule this c s; addExternalPositionModule isModule this c m s
   else if negb (isExternalPositionModule s c m) then addExternalPositionModule isModule this c m s
   else Ok s) = Ok s' -> module_listed c m s s'.
Proof.
  intros HI Q. unfold isComponent, isExternalPositionModule in Q. rewrite !contains_spec in Q.
  case_bool_decide as Hc; cbn [negb] in Q.
  - case_bool_decide as Hm; cbn [negb] in Q; [|by apply module_listed_add].
    apply Ok_inj in Q as <-. split_and!; try done; intros x; split; try (by left); by intros [?| ->].
  - apply bind_Ok_inv in Q as (s1 & Q1 & Q).
    assert (HI1 : Inv s1).
    { eapply Inv_module_call; [exact HI|]. left. by eexists. }
    apply addComponent_Ok in Q1 as [_ ->].
    apply module_listed_add in Q as (? & ? & HP & HV & HE & HL & HC); [|done|].
    + split_and!; [done..|]. intros d. rewrite HC. cbn [components set_components]. set_solver.
    + cbn [components set_components]. set_solver.
Qed.

Lemma external_insert (m : Address) x (e : gmap Address ExternalPosition) y :
  default (mkExternal 0 "") (<[ m := x ]> e !! y) = if decide (y = m) then x else default (mkExternal 0 "") (e !! y).
Proof. case_decide as D; [by rewrite D, lookup_insert_eq|by rewrite lookup_insert_ne]. Qed.

(** Opening or changing an external position. *)
Lemma editExternalPosition_set c m u dt s s' : Inv s -> Tracked s -> is_int256 u -> u <> 0 ->
  editExternalPosition isModule this c m u dt s = Ok s' -> Inv s' /\ Tracked s'.
Proof.
  intros HI HT Hu H0 Q. unfold editExternalPosition in Q. rewrite (proj2 (Z.eqb_neq u 0) H0) in Q.
  cbn [negb] in Q. apply bind_Ok_inv in Q as (s1 & Q1 & Q).
  apply editExternal_prepare in Q1 as (HI1 & HM & HP & HV & HE & HL & HC); [|done].
  apply bind_Ok_inv in Q as (s2 & Q2 & Q).
  assert (HI2 : Inv s2).
  { eapply Inv_module_call; [exact HI1|]. do 5 right; left. by eexists _, _, _. }
  assert (HI' : Inv s').
  { eapply Inv_module_call; [exact HI2|]. do 6 right; left. by eexists _, _, _. }
  split; [done|].
  unfold editExternalPositionUnit in Q2. apply bind_Ok_inv in Q2 as (? & _ & Q2).
  apply bind_Ok_inv in Q2 as (v & Qv & Q2). apply Ok_inj in Q2 as <-.
  unfold editExternalPositionData in Q. apply bind_Ok_inv in Q as (? & _ & Q). apply Ok_inj in Q as <-.
  assert (Qv' : _convertRealToVirtualUnit s u = Ok v).
  { revert Qv. unfold _convertRealToVirtualUnit, _convertVirtualToRealUnit. by rewrite HM. }
  pose proof (converted _ _ _ HI Hu Qv') as (_ & Hs & _ & Hv0).
  eapply (Tracked_edit s _ c); [done|done|intros d; rewrite !position_set_position; by case_decide; [|apply HP]| | | | |].
  all: rewrite ?position_set_position, ?decide_True by done;
       cbn [virtualUnit externalPositionModules externalPositions].
  - intros d Hd. cbn [components set_position]. rewrite HC. naive_solver.
  - cbn [components set_position]. rewrite HC. split; [|by right]. intros _. right. intros Hn.
    assert (Hin : m ∈ externalPositionModules (position s1 c)) by (apply HL; by right).
    rewrite Hn in Hin. set_solver.
  - rewrite HV. apply (tr_default _ HT).
  - rewrite HV. apply (tr_default _ HT).
  - intros y. unfold external_of. cbn [externalPositions externalPositionModules].
    unfold externalPosition. rewrite !position_set_position, !decide_True by done. cbn [externalPositions].
    rewrite !external_insert, HL, HE, (tr_external _ HT). destruct (decide (y = m)) as [->|D].
    + rewrite !decide_True by done. cbn [ext_virtualUnit]. split; [|done]. naive_solver.
    + split; [unfold externalPosition; naive_solver|apply (tr_external_unit _ HT)].
Qed.

(** The change of the component list when an external position is closed. *)
Lemma close_components c m d s s1 : Inv s -> Tracked s ->
  getDefaultPositionRealUnit s c = Ok d -> m ∈ externalPositionModules (position s c) ->
  (if (d =? 0) && (List.length (externalPositionModules (position s c)) =? 1)%nat then
     _ ← require (bool_decide (head (externalPositionModules (position s c)) = Some m))
           "External positions must be 0 to remove component";
     removeComponent isModule this c s
   else Ok s) = Ok s1 ->
  Inv s1 /\ positionMultiplier s1 = positionMultiplier s /\ componentPositions s1 = componentPositions s /\
  (forall x, x <> c -> x ∈ components s1 <-> x ∈ components s) /\
  (c ∈ components s1 <-> 0 < virtualUnit (position s c) \/
     (List.length (externalPositionModules (position s c)) <> 1)%nat).
Proof.
  intros HI HT Qd Hm Q.
  pose proof (real_unit_pos _ _ _ HI (inv_units _ HI c) (proj2 (tr_default _ HT c)) Qd) as [_ Hd].
  pose proof (tr_default _ HT c) as [H0 _].
  assert (Hne : externalPositionModules (position s c) <> []) by (intros E; rewrite E in Hm; set_solver).
  destruct (Z.eqb_spec d 0) as [Hd0|Hd0],
    (Nat.eqb_spec (List.length (externalPositionModules (position s c))) 1) as [Hn|Hn]; cbn [andb] in Q.
  2-4: apply Ok_inj in Q as <-; split_and!; [done..|]; rewrite (tr_component _ HT);
    split; [intros _; ((by right) || (left; lia))|]; by intros _; right.
  apply bind_Ok_inv in Q as (? & _ & Q). pose proof Q as Q'.
  apply removeComponent_Ok in Q' as (l & HL & ->); [|apply (inv_components _ HI)]. split_and!; [|done|done| |].
  - eapply Inv_module_call; [exact HI|]. right; left. by eexists.
  - intros y Hy. cbn [components set_components]. rewrite HL. naive_solver.
  - cbn [components set_components]. rewrite HL. split; [naive_solver|]. intros [?|?]; [lia|done].
Qed.

(** Closing an external position. *)
Lemma editExternalPosition_close c m dt s s' : Inv s -> Tracked s ->
  editExternalPosition isModule this c m 0 dt s = Ok s' -> Inv s' /\ Tracked s'.
Proof.
  intros HI HT Q. unfold editExternalPosition in Q. cbn [Z.eqb negb] in Q.
  apply bind_Ok_inv in Q as (? & _ & Q). apply bind_Ok_inv in Q as (u & Qu & Q).
  pose proof (real_unit_pos _ _ _ HI (inv_external_units _ HI c m) (tr_external_unit _ HT c m) Qu) as [_ Hu].
  destruct (Z.eqb_spec u 0) as [E|E]; cbn [negb] in Q; [by apply Ok_inj in Q as <-|].
  assert (Hm : m ∈ externalPositionModules (position s c)) by (apply (tr_external _ HT); tauto).
  apply bind_Ok_inv in Q as (d & Qd & Q). apply bind_Ok_inv in Q as (s1 & Q1 & Q).
  pose proof (close_components c m d s s1 HI HT Qd Hm Q1) as H1.
  destruct H1 as (HI1 & HM & HP & HC & Hc).
  assert (HI' : Inv s').
  { eapply Inv_module_call; [exact HI1|]. do 4 right; left. by eexists _, _. }
  split; [done|]. unfold removeExternalPositionModule in Q. apply bind_Ok_inv in Q as (? & _ & Q).
  apply bind_Ok_inv in Q as (l & Ql & Q). apply Ok_inj in Q as <-.
  assert (Hpos : forall d, position s1 d = position s d) by (intros y; unfold position; by rewrite HP).
  rewrite Hpos in *. pose proof (removeStorage_Ok _ _ _ Ql) as Hl.
  apply removeStorage_NoDup in Ql as [_ HL]; [|apply (inv_external _ HI)].
  apply (Tracked_edit s _ c (mkComponent (virtualUnit (position s c)) l
    (delete m (externalPositions (position s c))))); [done|done| |exact HC| | | |].
  - intros y. by rewrite position_set_position, Hpos.
  - cbn [components set_position virtualUnit externalPositionModules]. rewrite Hc, Hl. cbn [List.length].
    destruct l; cbn; naive_solver lia.
  - apply (tr_default _ HT).
  - apply (tr_default _ HT).
  - intros y. unfold external_of. cbn [externalPositions externalPositionModules]. rewrite HL.
    destruct (decide (y = m)) as [->|Hy].
    + rewrite lookup_delete_eq. cbn. split; [naive_solver|]. intros ?. lia.
    + rewrite lookup_delete_ne by done. split; [|apply (tr_external_unit _ HT)].
      rewrite (tr_external _ HT). unfold externalPosition. naive_solver.
Qed.

(** A new multiplier. *)
Lemma editPositionMultiplier_tracked a v s s' : Inv s -> Tracked s -> is_int256 v ->
  editPositionMultiplier isModule a v s = Ok s' -> Inv s' /\ Tracked s'.
Proof.
  intros HI HT Hv Q. assert (HI' : Inv s').
  { eapply Inv_module_call; [exact HI|]. do 7 right. by exists v. }
  split; [done|]. apply editPositionMultiplier_Ok in Q as (-> & Hv0 & _ & Hpos); [|done..].
  pose proof PRECISE_UNIT_pos as HP.
  assert (HS : forall u, u ∈ unit_sizes s -> 0 < u -> PRECISE_UNIT <= u * v).
  { intros u Hu H0. pose proof (Hpos u Hu H0). pose proof (Z.mul_div_le (u * v) PRECISE_UNIT HP). nia. }
  destruct HT as [T1 T2 T3 T4]. constructor; [exact T1| |exact T3|].
  - intros c. split; [apply T2|]. intros H0.
    exact (HS _ (default_unit_size s c (proj2 (T1 c) (or_introl H0))) H0).
  - intros c m H0. change (externalPosition (set_multiplier s v (PositionMultiplierEdited v)) c m)
      with (externalPosition s c m) in *.
    rewrite <- (Z.abs_eq (ext_virtualUnit (externalPosition s c m))) by lia.
    assert (Hm : m ∈ externalPositionModules (position s c)) by (apply T3; lia).
    apply HS; [|lia]. apply external_unit_size; [|done]. apply T1. right. intros E. rewrite E in Hm. set_solver.
Qed.

End Tracking.

(** ** Tokens edited through the library *)

(** The calls that leave positions and multiplier alone. *)
Definition no_position_call (k : Call) : Prop :=
  match k with
  | Mint _ _ | Burn _ _ | Lock | Unlock | AddModule _ | RemovePendingModule _ | InitializeModule
  | SetManager _ | Public _ => True
  | _ => False
  end.

Section Steps.
Context `{OZ : OpenZeppelin} `{ET : ERC20}.

Inductive edit : contract -> contract -> Prop :=
  | edit_default isModule this c u k k' : is_uint256 u ->
      on_vars (editDefaultPosition isModule this c u) k = Ok k' -> edit k k'
  | edit_external isModule this c m u d k k' : is_int256 u ->
      on_vars (editExternalPosition isModule this c m u d) k = Ok k' -> edit k k'
  | edit_multiplier isModule this v k k' : is_int256 v ->
      on_vars (editPositionMultiplier isModule this v) k = Ok k' -> edit k k'
  | edit_other isModule a c k k' : no_position_call c -> exec isModule a c k = Ok k' -> edit k k'
  | edit_removeModule m k k' : on_vars (removeModule_finish m) k = Ok k' -> edit k k'
  | edit_emit e k : edit k (mkContract (emit (vars k) e) (tokens k)).

(** What keeps components, positions and multiplier keeps them tracked. *)
Lemma Tracked_same s s' : Tracked s -> components s' = components s ->
  componentPositions s' = componentPositions s -> positionMultiplier s' = positionMultiplier s -> Tracked s'.
Proof.
  intros [T1 T2 T3 T4] HC HP HM.
  assert (HS : forall v, sound_unit s v -> sound_unit s' v) by (unfold sound_unit; by rewrite HM).
  assert (Hp : forall d, position s' d = position s d) by (intros d; unfold position; by rewrite HP).
  assert (He : forall d m, externalPosition s' d m = externalPosition s d m)
    by (intros d m; unfold externalPosition; by rewrite Hp).
  constructor; intros; rewrite ?HC, ?Hp, ?He; auto. split; [apply T2|apply HS, T2].
Qed.

Lemma no_position_same isModule a c k k' : no_position_call c -> exec isModule a c k = Ok k' ->
  components (vars k') = components (vars k) /\ componentPositions (vars k') = componentPositions (vars k) /\
  positionMultiplier (vars k') = positionMultiplier (vars k).
Proof.
  intros Hc Q. destruct c; try done; cbn [exec] in Q;
    unfold on_vars, mint, burn, lock, unlock, addModule, removePendingModule, initializeModule, setManager in Q;
    by inv_result.
Qed.

Lemma edit_tracked k k' : edit k k' -> Inv (vars k) -> Tracked (vars k) -> Inv (vars k') /\ Tracked (vars k').
Proof.
  intros H HI HT. destruct H as [isModule this c u k k' Hu Q|isModule this c m u d k k' Hu Q
    |isModule this v k k' Hv Q|isModule a c k k' Hc Q|m k k' Q|e k].
  - apply bind_Ok_inv in Q as (s' & Q & E). apply Ok_inj in E as <-.
    by apply editDefaultPosition_tracked in Q as (? & ? & _).
  - apply bind_Ok_inv in Q as (s' & Q & E). apply Ok_inj in E as <-.
    destruct (decide (u = 0)) as [->|H0]; [by eapply editExternalPosition_close|].
    by eapply editExternalPosition_set.
  - apply bind_Ok_inv in Q as (s' & Q & E). apply Ok_inj in E as <-.
    by eapply editPositionMultiplier_tracked.
  - assert (Ht : typed c) by (by destruct c).
    split; [by eapply storage_exec|]. apply no_position_same in Q as (? & ? & ?); [|done].
    by eapply Tracked_same.
  - apply bind_Ok_inv in Q as (s' & Q & E). apply Ok_inj in E as <-.
    split; [by eapply Inv_removeModule_finish|]. unfold removeModule_finish in Q.
    apply bind_Ok_inv in Q as (l & _ & Q). apply Ok_inj in Q as <-. by eapply Tracked_same.
  - split; [by apply Inv_emit|]. by eapply Tracked_same.
Qed.

(** The positions the constructor stores. *)
Lemma fold_positions c l (acc : gmap Address ComponentPosition) : NoDup l.*1 -> Forall (fun u => 0 < u) l.*2 ->
  (exists v, default no_position (acc !! c) = mkComponent v [] ∅ /\ 0 <= v) ->
  exists v, default no_position (foldl (fun m (cu : Address * Z) => <[ cu.1 := mkComponent cu.2 [] ∅ ]> m) acc l
    !! c) = mkComponent v [] ∅ /\
    (c ∈ l.*1 -> 0 < v) /\ (c ∉ l.*1 -> default no_position (acc !! c) = mkComponent v [] ∅) /\ 0 <= v.
Proof.
  revert acc. induction l as [|[d u] l IH]; intros acc Hn Hu (v & Hv & H0); cbn [foldl fst snd fmap list_fmap] in *.
  { exists v. split; [done|]. set_solver. }
  apply NoDup_cons in Hn as [Hd Hn]. apply Forall_cons in Hu as [Hu0 Hu]. cbn in Hu0.
  destruct (decide (c = d)) as [->|Hcd].
  - destruct (IH (<[ d := mkComponent u [] ∅ ]> acc) Hn Hu) as (v' & E & H1 & H2 & H3).
    { exists u. rewrite lookup_insert_eq. split; [done|lia]. }
    exists v'. split; [done|]. specialize (H2 Hd). rewrite lookup_insert_eq in H2.
    cbn in H2. injection H2 as <-. split; [done|]. split; [set_solver|done].
  - destruct (IH (<[ d := mkComponent u [] ∅ ]> acc) Hn Hu) as (v' & E & H1 & H2 & H3).
    { exists v. by rewrite lookup_insert_ne. }
    exists v'. split; [done|]. rewrite lookup_insert_ne in H2 by done. set_solver.
Qed.

Lemma snd_combine {A B} (l : list A) (l' : list B) : List.length l = List.length l' -> (combine l l').*2 = l'.
Proof. revert l'; induction l as [|x l IH]; intros [|y l']; cbn; try done. intros [= H]. by rewrite IH. Qed.

Lemma constructor_units cs us ms ctl m n sy c : NoDup cs -> List.length cs = List.length us ->
  Forall (fun u => 0 < u) us ->
  exists v, position (constructor cs us ms ctl m n sy) c = mkComponent v [] ∅ /\ (c ∈ cs <-> 0 < v) /\ 0 <= v.
Proof.
  intros HN HL HU. unfold position, constructor. cbn [componentPositions].
  destruct (fold_positions c (combine cs us) ∅) as (v & E & H1 & H2 & H3).
  - by rewrite fst_combine.
  - by rewrite snd_combine.
  - by exists 0.
  - rewrite fst_combine in H1, H2 by done. exists v. split; [done|]. split; [|done]. split; [done|].
    intros Hv. destruct (decide (c ∈ cs)) as [Hc|Hc]; [done|]. specialize (H2 Hc). rewrite lookup_empty in H2.
    cbn in H2. injection H2 as <-. lia.
Qed.

(** The constructor tracks the components it is given. *)
Lemma Tracked_constructor cs us ms ctl m n sy : NoDup cs -> List.length cs = List.length us ->
  Forall (fun u => 0 < u) us -> Tracked (constructor cs us ms ctl m n sy).
Proof.
  intros HN HL HU. pose proof (fun c => constructor_units cs us ms ctl m n sy c HN HL HU) as HP.
  constructor.
  - intros c. destruct (HP c) as (v & -> & Hc & _). cbn [components constructor virtualUnit externalPositionModules].
    rewrite Hc. split; [by left|]. by intros [?|?].
  - intros c. destruct (HP c) as (v & -> & _ & H0). cbn [virtualUnit]. split; [done|].
    unfold sound_unit. cbn [positionMultiplier constructor]. pose proof PRECISE_UNIT_pos. nia.
  - intros c x. unfold externalPosition. destruct (HP c) as (v & -> & _). cbn. rewrite lookup_empty. cbn. set_solver.
  - intros c x. unfold externalPosition. destruct (HP c) as (v & -> & _). cbn. rewrite lookup_empty. cbn.
    intros ?. lia.
Qed.

(** C4: A SetToken whose positions are edited through the library always lists as
    components exactly what it holds a position in. From a constructor called the
    way the factory calls it, through any edits of default and external positions
    by any modules, changes of the multiplier and all other calls: a component is
    listed if and only if it has a positive default unit or an external position
    module, and a module is listed for a component if and only if its external
    unit is not zero. *)
Theorem positions_tracked cs us ms ctl m n sy l k : NoDup cs -> List.length cs = List.length us ->
  Forall (fun u => 0 < u) us -> Forall is_int256 us ->
  rtc edit (mkContract (constructor cs us ms ctl m n sy) l) k ->
  let s := vars k in
  (forall c, c ∈ components s <->
     0 < virtualUnit (position s c) \/ externalPositionModules (position s c) <> []) /\
  (forall c x, x ∈ externalPositionModules (position s c) <-> ext_virtualUnit (externalPosition s c x) <> 0).
Proof.
  intros HN HL HU HI H s.
  assert (HT : Inv s /\ Tracked s); [|by destruct HT as [_ [? _ ? _]]].
  assert (H0 : Inv (constructor cs us ms ctl m n sy) /\ Tracked (constructor cs us ms ctl m n sy))
    by (split; [by apply storage_constructor|by apply Tracked_constructor]).
  remember (mkContract (constructor cs us ms ctl m n sy) l) as k0 eqn:E.
  assert (H1 : Inv (vars k0) /\ Tracked (vars k0)) by (by rewrite E). clear H0 E. unfold s. clear s.
  induction H as [k|k1 k2 k3 Hs _ IH]; [done|]. apply IH. destruct H1. by eapply edit_tracked.
Qed.

(** The unit that [calculateDefaultEditPositionUnit] returns for an action that
    took the balance of a component from [pre] to [post]: it accounts for the
    tracked balance plus the change and for no token that was airdropped before,
    rounded down by less than one unit per token of supply; so an action that
    changes nothing never raises the unit. *)
Theorem calculateDefaultEditPositionUnit_airdrop supply pre post unit r :
  is_uint256 supply -> is_uint256 pre -> is_uint256 post -> is_uint256 unit ->
  calculateDefaultEditPositionUnit supply pre post unit = Ok r ->
  let tracked := unit * supply / PRECISE_UNIT in
  0 < supply /\ tracked <= pre /\ pre - tracked <= post /\
  r * supply <= (tracked + (post - pre)) * PRECISE_UNIT < (r + 1) * supply /\
  (post = pre -> r <= unit).
Proof.
  intros Hs Hpre Hpost Hu Q tracked. unfold calculateDefaultEditPositionUnit in Q.
  apply bind_Ok_inv in Q as (t & Qt & Q). apply bind_Ok_inv in Q as (air & Qa & Q).
  apply bind_Ok_inv in Q as (rest & Qr & Q).
  apply preciseMul_sound in Qt as [Et Ut]; [|done..].
  pose proof PRECISE_UNIT_pos as HP. pose proof Hs as Hs'%is_uint256_spec. pose proof Hu as Hu'%is_uint256_spec.
  rewrite MathUtils.preciseMul_nonneg_eq in Et by lia. apply Ok_inj in Et. fold tracked in Et.
  apply sm_sub_inv in Qa as [Ea Ua]; [|done..]. apply sm_sub_inv in Qr as [Er Ur]; [|done..].
  apply preciseDiv_sound in Q as (Q & _ & H0); [|done..]. rewrite MathUtils.preciseDiv_nonneg_eq in Q by (apply is_uint256_spec in Ur; lia).
  apply Ok_inj in Q as <-. apply is_uint256_spec in Ua, Ur.
  pose proof (floor_bounds (rest * PRECISE_UNIT) supply ltac:(lia)) as HF.
  pose proof (floor_bounds (unit * supply) PRECISE_UNIT HP) as HT. fold tracked in HT.
  assert (Hrest : rest = tracked + (post - pre)) by lia. rewrite <- Hrest.
  split_and!; [lia..|]. intros E. nia.
Qed.

End Steps.

(** ** Instances *)

(** [M] is initialized, opens a default and a debt position of a new component,
    drops two default positions again and closes the debt. *)
Definition edited : result contract :=
  k ← exec enabled "M" InitializeModule (mkContract sample empty_ledger);
  k ← on_vars (editDefaultPosition enabled "M" "C" 7) k;
  k ← on_vars (editExternalPosition enabled "M" "C" "M" (-3) "debt") k;
  k ← on_vars (editDefaultPosition enabled "M" "C" 0) k;
  k ← on_vars (editDefaultPosition enabled "M" "A" 0) k;
  k ← on_vars (editExternalPosition enabled "M" "B" "M" 9 "") k;
  on_vars (editExternalPosition enabled "M" "B" "M" 0 "") k.

Lemma edited_reached k : edited = Ok k -> rtc edit (mkContract sample empty_ledger) k.
Proof.
  intros Q. unfold edited in Q.
  apply bind_Ok_inv in Q as (k1 & Q1 & Q). apply bind_Ok_inv in Q as (k2 & Q2 & Q).
  apply bind_Ok_inv in Q as (k3 & Q3 & Q). apply bind_Ok_inv in Q as (k4 & Q4 & Q).
  apply bind_Ok_inv in Q as (k5 & Q5 & Q). apply bind_Ok_inv in Q as (k6 & Q6 & Q).
  assert (Hu : is_uint256 7 /\ is_uint256 0 /\ is_int256 (-3) /\ is_int256 9 /\ is_int256 0).
  { apply (bool_decide_eq_true_1 _). by vm_compute. }
  destruct Hu as (H7 & H0 & H3 & H9 & Hi).
  eapply rtc_l; [exact (edit_other enabled "M" InitializeModule _ _ I Q1)|]. eapply rtc_l; [exact (edit_default _ _ _ _ _ _ H7 Q2)|].
  eapply rtc_l; [exact (edit_external _ _ _ _ _ _ _ _ H3 Q3)|].
  eapply rtc_l; [exact (edit_default _ _ _ _ _ _ H0 Q4)|]. eapply rtc_l; [exact (edit_default _ _ _ _ _ _ H0 Q5)|].
  eapply rtc_l; [exact (edit_external _ _ _ _ _ _ _ _ H9 Q6)|].
  apply rtc_once. exact (edit_external _ _ _ _ _ _ _ _ Hi Q).
Qed.

Lemma positions_tracked_witness : exists k,
  rtc edit (mkContract sample empty_ledger) k /\ components (vars k) = ["C"; "B"]%string /\
  (forall c, c ∈ components (vars k) <->
     0 < virtualUnit (position (vars k) c) \/ externalPositionModules (position (vars k) c) <> []).
Proof.
  assert (HE : exists k, edited = Ok k /\ components (vars k) = ["C"; "B"]%string).
  { assert (HO : is_Ok edited = true) by (by vm_compute). apply is_Ok_true in HO as [k Hk]. exists k. split; [done|].
    assert (HC : fmap (fun k => components (vars k)) edited = Ok ["C"; "B"]%string) by (by vm_compute).
    rewrite Hk in HC. by injection HC. }
  destruct HE as (k & Hk & HC). apply edited_reached in Hk. exists k. split; [exact Hk|]. split; [exact HC|].
  assert (HP : Forall (fun u => 0 < u) [10 ^ 18; 5]) by (by repeat constructor).
  exact (proj1 (positions_tracked (ET := erc20_ref) ["A"; "B"]%string [10 ^ 18; 5] _ _ _ _ _ _ k sample_distinct eq_refl HP sample_units Hk)).
Defined.

(** Two tokens of supply with a unit of 10 and 5 airdropped: spending 5 of the
    tracked 20 leaves a unit of 7. *)
Lemma airdrop_witness :
  calculateDefaultEditPositionUnit (2 * 10 ^ 18) 25 20 10 = Ok 7 /\
  7 * (2 * 10 ^ 18) <= (20 + (20 - 25)) * PRECISE_UNIT < (7 + 1) * (2 * 10 ^ 18).
Proof.
  assert (HQ : calculateDefaultEditPositionUnit (2 * 10 ^ 18) 25 20 10 = Ok 7) by (by vm_compute).
  split; [exact HQ|].
  assert (H1 : is_uint256 (2 * 10 ^ 18)) by (by vm_compute). assert (H2 : is_uint256 25) by (by vm_compute).
  assert (H3 : is_uint256 20) by (by vm_compute). assert (H4 : is_uint256 10) by (by vm_compute).
  destruct (calculateDefaultEditPositionUnit_airdrop (2 * 10 ^ 18) 25 20 10 7 H1 H2 H3 H4 HQ) as (_ & _ & _ & H & _).
  exact H.
Defined.

End PositionLib.
