(* ===== verification/ModuleBase.v ===== *)
(** * What modules share

    [contracts/protocol/lib/ModuleBase.sol]: the modifiers of modules, the protocol
    fee and the transfers; with the libraries those use,
    [contracts/lib/ExplicitERC20.sol] and [contracts/protocol/lib/Invoke.sol]. A
    module works on the controller and the SetTokens ([chain]); the controller of
    every SetToken is the controller of the module, and the addresses of SetTokens
    are those [setTokens] maps. The tokens that SetTokens hold are third-party
    contracts behind the interface [Coins]. *)

From S2P Require Import Prelude JsString Ethers Constants SafeMath PreciseUnitMath Erc20 Controller SetToken.
From Stdlib Require Import String Ascii.

Local Open Scope Z_scope.

(** OpenZeppelin's guard: [enter] is [nonReentrant] before the body of a
    function, [leave] after it. *)
Class ReentrancyGuard := {
  guard : Type;
  guard_new : guard;
  entered : guard -> bool;
  enter : guard -> result guard;
  leave : guard -> guard;
  guard_new_law : entered guard_new = false;
  enter_law g : if entered g then exists e, enter g = Throw e
                else exists g', enter g = Ok g' /\ entered g' = true;
  leave_law g : entered (leave g) = false;
}.

#[refine, export] Instance guard_ref : ReentrancyGuard := {|
  guard := bool; guard_new := false; entered := fun g => g;
  enter := fun g => if g then Throw "ReentrancyGuard: reentrant call" else Ok true;
  leave := fun _ => false |}.
Proof.
  - done.
  - intros [|]; by eexists.
  - done.
Defined.

(** The tokens of third parties: a balance per token and holder, a call of a token
    by a sender with its data, and the data of [approve], [transfer] and the
    transfer SafeERC20 makes. Nothing is assumed about what a token does with a
    call except that it is its own balances that it keeps. *)
Class Coins := {
  coins : Type;
  coin_balance : coins -> Address -> Address -> Z;
  coin_call : Address -> Address -> Z -> string -> coins -> result (coins * string);
  approve_data : Address -> Z -> string;
  transfer_data : Address -> Z -> string;
  safeTransferFrom : Address -> Address -> Address -> Address -> Z -> coins -> result coins;
  coin_balance_law w t a : is_uint256 (coin_balance w t a);
  coin_call_frame sender t v d w r t' a : coin_call sender t v d w = Ok r -> t' <> t ->
    coin_balance r.1 t' a = coin_balance w t' a;
  safeTransferFrom_frame sender t from to q w w' t' a : safeTransferFrom sender t from to q w = Ok w' -> t' <> t ->
    coin_balance w' t' a = coin_balance w t' a;
}.

(** *** Concrete tokens *)

(** Data that carries a recipient and an amount. *)
Fixpoint pos_string (p : positive) : string :=
  match p with
  | xH => "." | xO p => String "0"%char (pos_string p) | xI p => String "1"%char (pos_string p)
  end.

Fixpoint string_pos (s : string) : option positive :=
  match s with
  | String "."%char _ => Some xH
  | String "0"%char s => xO <$> string_pos s
  | String "1"%char s => xI <$> string_pos s
  | _ => None
  end.

Lemma string_pos_string p : string_pos (pos_string p) = Some p.
Proof. induction p as [p IH|p IH|]; cbn; [by rewrite IH|by rewrite IH|done]. Qed.

Abbreviation ref_coins := (gmap (Address * Address) Z).

Definition ref_coin_balance (m : ref_coins) (t a : Address) : Z :=
  let v := default 0 (m !! (t, a)) in if is_uint256 v then v else 0.

Definition ref_coin_move (t from to : Address) (q : Z) (m : ref_coins) : result ref_coins :=
  _ ← require (q <=? ref_coin_balance m t from) "ERC20: transfer amount exceeds balance";
  let m := <[ (t, from) := ref_coin_balance m t from - q ]> m in
  _ ← require (is_uint256 (ref_coin_balance m t to + q)) "ERC20: balance overflow";
  Ok (<[ (t, to) := ref_coin_balance m t to + q ]> m).

Definition ref_coin_call (sender t : Address) (v : Z) (d : string) (m : ref_coins) : result (ref_coins * string) :=
  match string_pos d ≫= decode with
  | Some (to, q) => m ← ref_coin_move t sender to q m; Ok (m, ""%string)
  | None => Ok (m, ""%string)
  end.

Lemma ref_coin_move_frame t from to q m m' t' a : ref_coin_move t from to q m = Ok m' -> t' <> t ->
  ref_coin_balance m' t' a = ref_coin_balance m t' a.
Proof.
  unfold ref_coin_move. intros Q Ht. inv_result. unfold ref_coin_balance.
  by rewrite !(lookup_insert_ne _ _ (t', a)) by congruence.
Qed.

(** What a holder has after a move. *)
Lemma ref_coin_insert m t a x t' b : is_uint256 x ->
  ref_coin_balance (<[ (t, a) := x ]> m) t' b = if decide (t' = t /\ b = a) then x else ref_coin_balance m t' b.
Proof.
  intros Hx. unfold ref_coin_balance. case_decide as D.
  - destruct D as [-> ->]. rewrite lookup_insert_eq. cbn. by destruct (is_uint256 x).
  - rewrite lookup_insert_ne; [done|]. naive_solver.
Qed.

Lemma ref_coin_range m t a : is_uint256 (ref_coin_balance m t a).
Proof. unfold ref_coin_balance. by destruct (is_uint256 (default 0 (m !! (t, a)))) eqn:E; [rewrite E|]. Qed.

Lemma ref_coin_move_Ok t from to q m m' : is_uint256 q -> ref_coin_move t from to q m = Ok m' -> forall t' b,
  ref_coin_balance m' t' b = ref_coin_balance m t' b + (if decide (t' = t /\ b = to) then q else 0)
                                                     - (if decide (t' = t /\ b = from) then q else 0).
Proof.
  unfold ref_coin_move. intros Hq Q t' b. apply bind_Ok_inv in Q as (u & Q1 & Q). apply require_Ok_inv, Z.leb_le in Q1.
  apply bind_Ok_inv in Q as (u' & Q2 & Q). apply require_Ok_inv in Q2. apply Ok_inj in Q as <-.
  apply is_uint256_spec in Hq. pose proof (ref_coin_range m t from) as Hf%is_uint256_spec.
  assert (Hd : is_uint256 (ref_coin_balance m t from - q)) by (apply is_uint256_spec; lia).
  rewrite ref_coin_insert by (by apply Is_true_true_2). rewrite !ref_coin_insert by done.
  repeat case_decide; naive_solver lia.
Qed.

#[refine, export] Instance coins_ref : Coins := {|
  coins := ref_coins; coin_balance := ref_coin_balance; coin_call := ref_coin_call;
  approve_data := fun _ _ => ""%string; transfer_data := fun to q => pos_string (encode (to, q));
  safeTransferFrom := fun _ => ref_coin_move |}.
Proof.
  - intros m t a. unfold ref_coin_balance. by destruct (is_uint256 (default 0 (m !! (t, a)))) eqn:E; [rewrite E|].
  - intros sender t v d m r t' a Q Ht. unfold ref_coin_call in Q.
    destruct (string_pos d ≫= decode) as [[to q]|]; [|by apply Ok_inj in Q as <-].
    apply bind_Ok_inv in Q as (m' & Q & E). apply Ok_inj in E as <-. by eapply ref_coin_move_frame.
  - intros sender t from to q m m' t' a Q Ht. by eapply ref_coin_move_frame.
Defined.

Module ModuleBase.

Section ModuleBase_.
Context `{OZ : OpenZeppelin} `{ET : ERC20} (this : Address).

Record chain := mkChain {
  controller : Controller.state;
  setTokens : gmap Address SetToken.contract;
}.

(** ** Calls of SetTokens *)

Definition isModule (w : chain) (a : Address) : bool := bool_decide (a ∈ Controller.isModule (controller w)).

Definition setToken (w : chain) (a : Address) : result SetToken.contract :=
  match setTokens w !! a with Some c => Ok c | None => Throw "not a SetToken" end.

Definition on_set (a : Address) (f : SetToken.contract -> result SetToken.contract) (w : chain) : result chain :=
  c ← setToken w a; c' ← f c; Ok (mkChain (controller w) (<[ a := c' ]> (setTokens w))).

(** ** Modifiers *)

Definition isSetPendingInitialization (_setToken : Address) (w : chain) : result bool :=
  c ← setToken w _setToken; Ok (SetToken.isPendingModule (SetToken.vars c) this).

Definition isSetManager (_setToken _toCheck : Address) (w : chain) : result bool :=
  c ← setToken w _setToken; Ok (bool_decide (SetToken.manager (SetToken.vars c) = _toCheck)).

Definition isSetValidAndInitialized (_setToken : Address) (w : chain) : result bool :=
  if bool_decide (_setToken ∈ Controller.isSet (controller w))
  then c ← setToken w _setToken; Ok (SetToken.isInitializedModule (SetToken.vars c) this) else Ok false.

Definition _validateOnlyManagerAndValidSet (_setToken msg_sender : Address) (w : chain) : result unit :=
  b ← isSetManager _setToken msg_sender w; _ ← require b "Must be the SetToken manager";
  b ← isSetValidAndInitialized _setToken w; require b "Must be a valid and initialized SetToken".

Definition _validateOnlySetManager (_setToken _caller : Address) (w : chain) : result unit :=
  b ← isSetManager _setToken _caller w; require b "Must be the SetToken manager".

Definition _validateOnlyValidAndInitializedSet (_setToken : Address) (w : chain) : result unit :=
  b ← isSetValidAndInitialized _setToken w; require b "Must be a valid and initialized SetToken".

Definition _validateOnlyModule (_setToken msg_sender : Address) (w : chain) : result unit :=
  c ← setToken w _setToken;
  _ ← require (bool_decide (SetToken.moduleState (SetToken.vars c) msg_sender = INITIALIZED)) "Only the module can call";
  require (isModule w msg_sender) "Module must be enabled on controller".

Definition _validateOnlyValidAndPendingSet (_setToken : Address) (w : chain) : result unit :=
  _ ← require (bool_decide (_setToken ∈ Controller.isSet (controller w))) "Must be controller-enabled SetToken";
  b ← isSetPendingInitialization _setToken w; require b "Must be pending initialization".

(** The fee of the module under an index, as a share of a quantity. *)
Definition getModuleFee (_feeIndex _quantity : Z) (w : chain) : result Z :=
  PreciseUnitMath.preciseMul _quantity (Controller.getModuleFee (controller w) this _feeIndex).

(** ** Facts *)

Lemma setToken_Ok w a c : setToken w a = Ok c <-> setTokens w !! a = Some c.
Proof. unfold setToken. destruct (setTokens w !! a); naive_solver. Qed.

Lemma on_set_Ok a f w w' : on_set a f w = Ok w' -> exists c c',
  setTokens w !! a = Some c /\ f c = Ok c' /\ w' = mkChain (controller w) (<[ a := c' ]> (setTokens w)).
Proof.
  unfold on_set. intros Q. apply bind_Ok_inv in Q as (c & Qc & Q). apply bind_Ok_inv in Q as (c' & Qf & Q).
  apply Ok_inj in Q as <-. apply setToken_Ok in Qc. by exists c, c'.
Qed.

Lemma on_set_run a f w c c' : setTokens w !! a = Some c -> f c = Ok c' ->
  on_set a f w = Ok (mkChain (controller w) (<[ a := c' ]> (setTokens w))).
Proof. intros Hc Hf. unfold on_set, setToken. by rewrite Hc, bind_Ok, Hf, bind_Ok. Qed.

Lemma manager_Ok a sender w u : _validateOnlySetManager a sender w = Ok u ->
  exists c, setTokens w !! a = Some c /\ SetToken.manager (SetToken.vars c) = sender.
Proof.
  unfold _validateOnlySetManager, isSetManager. intros Q. apply bind_Ok_inv in Q as (b & Q & R).
  apply bind_Ok_inv in Q as (c & Qc%setToken_Ok & Q). apply Ok_inj in Q as <-.
  exists c. split; [done|]. by apply require_Ok_inv, bool_decide_eq_true in R.
Qed.

Lemma pending_Ok a w u c : _validateOnlyValidAndPendingSet a w = Ok u -> setTokens w !! a = Some c ->
  a ∈ Controller.isSet (controller w) /\ SetToken.moduleState (SetToken.vars c) this = PENDING.
Proof.
  unfold _validateOnlyValidAndPendingSet, isSetPendingInitialization. intros Q Hc.
  apply bind_Ok_inv in Q as (v & Q1 & Q). apply bind_Ok_inv in Q as (b & Q & R).
  apply bind_Ok_inv in Q as (c2 & Qc%setToken_Ok & Q). rewrite Hc in Qc. injection Qc as <-. apply Ok_inj in Q as <-.
  unfold SetToken.isPendingModule in R. by guards.
Qed.

Lemma initialized_run a w c : a ∈ Controller.isSet (controller w) -> setTokens w !! a = Some c ->
  SetToken.moduleState (SetToken.vars c) this = INITIALIZED -> _validateOnlyValidAndInitializedSet a w = Ok tt.
Proof.
  intros Ha Hc Hm. unfold _validateOnlyValidAndInitializedSet, isSetValidAndInitialized, setToken.
  rewrite bool_decide_eq_true_2 by done. rewrite Hc, !bind_Ok. unfold SetToken.isInitializedModule.
  by rewrite bool_decide_eq_true_2.
Qed.

End ModuleBase_.

(** ** Transfers *)

Section Transfers.
Context `{OZ : OpenZeppelin} `{ET : ERC20} `{CN : Coins} (this : Address).

(** [ExplicitERC20.transferFrom] *)
Definition transferFrom (_token _from _to : Address) (_quantity : Z) (m : coins) : result coins :=
  if 0 <? _quantity then
    let existingBalance := coin_balance m _token _to in
    m ← safeTransferFrom this _token _from _to _quantity m;
    let newBalance := coin_balance m _token _to in
    expected ← sm_add existingBalance _quantity;
    _ ← require (newBalance =? expected) "Invalid post transfer balance";
    Ok m
  else Ok m.

(** [_setToken.invoke(_target, 0, callData)]: the SetToken calls a contract, which does
    what [call] says to the balances. *)
Definition invoke (_setToken _target : Address) (callData : string) (call : coins -> result (coins * string))
    (wm : chain * coins) : result (chain * coins) :=
  let (w, m) := wm in
  c ← setToken w _setToken;
  _ ← SetToken.privileged (isModule w) this (SetToken.vars c);
  r ← call m;
  w ← on_set _setToken (fun c => p ← SetToken.invoke (isModule w) (fun _ _ _ c => Ok (c, r.2)) this _target 0 callData c;
                                 Ok p.1) w;
  Ok (w, r.1).

(** [_setToken.invoke(_token, 0, callData)]: the SetToken calls the token. *)
Definition invoke_token (_setToken _token : Address) (callData : string) (wm : chain * coins) : result (chain * coins) :=
  invoke _setToken _token callData (coin_call _setToken _token 0 callData) wm.

Definition invokeApprove (_setToken _token _spender : Address) (_quantity : Z) (wm : chain * coins)
    : result (chain * coins) :=
  invoke_token _setToken _token (approve_data _spender _quantity) wm.

Definition invokeTransfer (_setToken _token _to : Address) (_quantity : Z) (wm : chain * coins)
    : result (chain * coins) :=
  if 0 <? _quantity then invoke_token _setToken _token (transfer_data _to _quantity) wm else Ok wm.

Definition strictInvokeTransfer (_setToken _token _to : Address) (_quantity : Z) (wm : chain * coins)
    : result (chain * coins) :=
  if 0 <? _quantity then
    let existingBalance := coin_balance wm.2 _token _setToken in
    wm ← invokeTransfer _setToken _token _to _quantity wm;
    let newBalance := coin_balance wm.2 _token _setToken in
    expected ← sm_sub existingBalance _quantity;
    _ ← require (newBalance =? expected) "Invalid post transfer balance";
    Ok wm
  else Ok wm.

Definition payProtocolFeeFromSetToken (_setToken _token : Address) (_feeQuantity : Z) (wm : chain * coins)
    : result (chain * coins) :=
  if 0 <? _feeQuantity
  then strictInvokeTransfer _setToken _token (Controller.feeRecipient (controller wm.1)) _feeQuantity wm
  else Ok wm.

(** ** What transfers move *)

(** A transfer to a holder credits exactly the quantity, and touches no other
    token. *)
Lemma transferFrom_Ok t from to q m m' : is_uint256 q -> transferFrom t from to q m = Ok m' ->
  coin_balance m' t to = coin_balance m t to + q /\
  forall t' a, t' <> t -> coin_balance m' t' a = coin_balance m t' a.
Proof.
  intros Hq Q. pose proof Hq as H0%is_uint256_spec. unfold transferFrom in Q. destruct (Z.ltb_spec 0 q) as [Hp|Hp].
  - apply bind_Ok_inv in Q as (m1 & Q1 & Q). apply bind_Ok_inv in Q as (x & Qx & Q).
    apply bind_Ok_inv in Q as (u & Qu & Q). apply Ok_inj in Q as <-.
    apply sm_add_inv in Qx as [-> _]; [|apply coin_balance_law|done].
    apply require_Ok_inv, Z.eqb_eq in Qu. split; [done|]. intros t' a Ht. by eapply safeTransferFrom_frame.
  - apply Ok_inj in Q as <-. split; [lia|done].
Qed.

(** The SetTokens after a call one of them made: only its event is new. *)
Definition invoked (a : Address) (w w' : chain) : Prop :=
  w' = w \/ exists c e, setTokens w !! a = Some c /\
    w' = mkChain (controller w) (<[ a := SetToken.mkContract (SetToken.emit (SetToken.vars c) e) (SetToken.tokens c) ]>
           (setTokens w)).

Lemma invoke_Ok a t d call w m w' m' : invoke a t d call (w, m) = Ok (w', m') ->
  (exists c e, setTokens w !! a = Some c /\
    w' = mkChain (controller w) (<[ a := SetToken.mkContract (SetToken.emit (SetToken.vars c) e) (SetToken.tokens c) ]>
           (setTokens w))) /\
  exists r, call m = Ok r /\ m' = r.1.
Proof.
  unfold invoke. intros Q. apply bind_Ok_inv in Q as (c & Qc%setToken_Ok & Q).
  apply bind_Ok_inv in Q as (u & _ & Q). apply bind_Ok_inv in Q as (r & Qr & Q).
  apply bind_Ok_inv in Q as (w1 & Qw & Q). apply Ok_inj in Q as [= <- <-].
  apply on_set_Ok in Qw as (c0 & c' & Hc & Q & ->). rewrite Qc in Hc. injection Hc as <-.
  unfold SetToken.invoke in Q. apply bind_Ok_inv in Q as (p & Q & E). apply bind_Ok_inv in Q as (v & _ & Q).
  rewrite bind_Ok in Q. apply Ok_inj in Q as <-. apply Ok_inj in E as <-. cbn [fst snd].
  split; [by eexists _, _|]. by exists r.
Qed.

Lemma invoke_token_Ok a t d w m w' m' : invoke_token a t d (w, m) = Ok (w', m') ->
  (exists c e, setTokens w !! a = Some c /\
    w' = mkChain (controller w) (<[ a := SetToken.mkContract (SetToken.emit (SetToken.vars c) e) (SetToken.tokens c) ]>
           (setTokens w))) /\
  forall t' b, t' <> t -> coin_balance m' t' b = coin_balance m t' b.
Proof.
  intros (H & r & Qr & ->)%invoke_Ok. split; [exact H|]. intros t' b Ht. by eapply coin_call_frame.
Qed.

(** What the SetToken sends leaves its balance, and no other token moves. *)
Lemma strictInvokeTransfer_Ok a t to q w m w' m' : is_uint256 q ->
  strictInvokeTransfer a t to q (w, m) = Ok (w', m') ->
  invoked a w w' /\ coin_balance m' t a = coin_balance m t a - q /\
  forall t' b, t' <> t -> coin_balance m' t' b = coin_balance m t' b.
Proof.
  intros Hq Q. pose proof Hq as H0%is_uint256_spec. unfold strictInvokeTransfer, invokeTransfer in Q.
  destruct (Z.ltb_spec 0 q) as [Hp|Hp].
  - apply bind_Ok_inv in Q as ([w1 m1] & Q1 & Q). apply bind_Ok_inv in Q as (x & Qx & Q).
    apply bind_Ok_inv in Q as (u & Qu & Q). apply Ok_inj in Q as [= <- <-].
    apply sm_sub_inv in Qx as [-> _]; [|apply coin_balance_law|done].
    apply require_Ok_inv, Z.eqb_eq in Qu. cbn [fst snd] in *. apply invoke_token_Ok in Q1 as [H1 H2].
    split; [by right|]. by split.
  - apply Ok_inj in Q as [= <- <-]. split; [by left|]. split; [lia|done].
Qed.

Lemma payProtocolFee_Ok a t q w m w' m' : is_uint256 q ->
  payProtocolFeeFromSetToken a t q (w, m) = Ok (w', m') ->
  invoked a w w' /\ coin_balance m' t a = coin_balance m t a - q /\
  forall t' b, t' <> t -> coin_balance m' t' b = coin_balance m t' b.
Proof.
  intros Hq Q. pose proof Hq as H0%is_uint256_spec. unfold payProtocolFeeFromSetToken in Q.
  destruct (Z.ltb_spec 0 q); [by apply strictInvokeTransfer_Ok in Q|].
  apply Ok_inj in Q as [= <- <-]. split; [by left|]. split; [lia|done].
Qed.

End Transfers.

End ModuleBase.
