(* ===== verification/SetValuer.v ===== *)
(** * The valuer of SetTokens

    [contracts/protocol/SetValuer.sol]: the value of a SetToken from the prices of
    its components. The price oracle is the one the controller names; [decimals]
    of a token is a parameter. The theorems bound what rounding does to a value. *)

From S2P Require Import Prelude JsString Ethers Constants MathUtils SafeMath PreciseUnitMath Erc20 Ownable Controller PriceOracle SetToken ModuleBase.
From Stdlib Require Import String.

Local Open Scope Z_scope.

(** [contracts/protocol/lib/ResourceIdentifier.sol] *)
Module ResourceIdentifier.

Definition INTEGRATION_REGISTRY_RESOURCE_ID : Z := 0.
Definition PRICE_ORACLE_RESOURCE_ID : Z := 1.
Definition SET_VALUER_RESOURCE_ID : Z := 2.

Definition getIntegrationRegistry (c : Controller.state) : Address :=
  Controller.resourceId c INTEGRATION_REGISTRY_RESOURCE_ID.
Definition getPriceOracle (c : Controller.state) : Address := Controller.resourceId c PRICE_ORACLE_RESOURCE_ID.
Definition getSetValuer (c : Controller.state) : Address := Controller.resourceId c SET_VALUER_RESOURCE_ID.

End ResourceIdentifier.

Module SetValuer.

Lemma Z_div_within x v m : 0 <= x < m -> 0 < v -> 0 <= x / v < m.
Proof.
  intros Hx Hv. pose proof (Z.div_pos x v (proj1 Hx) Hv).
  pose proof (Z.div_le_upper_bound x v x Hv ltac:(nia)). lia.
Qed.

(** [x] is what [u] base units at a price [p] are worth, [b] base units being one
    token: of the sign of [u], and not above it in size, by rounding twice. *)
Definition worth (u p b x : Z) : Prop :=
  0 <= x * u /\ Z.abs x * b <= Z.abs u * p /\
  Z.abs u * p * PRECISE_UNIT < (Z.abs x + 1) * b * PRECISE_UNIT + p * b.

Lemma worth_nonneg u p b : 0 <= u -> 0 <= p -> 0 < b -> worth u p b (u * PRECISE_UNIT / b * p / PRECISE_UNIT).
Proof.
  intros Hu Hp Hb. pose proof PRECISE_UNIT_pos as HU.
  pose proof (floor_bounds (u * PRECISE_UNIT) b Hb) as H1.
  set (n := u * PRECISE_UNIT / b) in *. assert (0 <= n) by (apply Z.div_pos; nia).
  pose proof (floor_bounds (n * p) PRECISE_UNIT HU) as H2.
  set (x := n * p / PRECISE_UNIT) in *. assert (0 <= x) by (apply Z.div_pos; nia).
  unfold worth. rewrite !Z.abs_eq by lia. revert H1 H2. generalize PRECISE_UNIT, HU. intros U HU' H1 H2.
  split; [nia|]. split.
  - apply (Z.mul_le_mono_pos_r _ _ U HU'). pose proof (Z.mul_le_mono_nonneg_r _ _ p Hp (proj1 H1)).
    pose proof (Z.mul_le_mono_nonneg_r _ _ b ltac:(lia) (proj1 H2)). lia.
  - destruct (decide (p = 0)) as [->|Hp0]; [nia|]. assert (u * U * p < (n + 1) * b * p) by nia.
    assert (n * p * b < (x + 1) * U * b) by nia. lia.
Qed.

Lemma worth_quot u p b : 0 <= p -> 0 < b -> worth u p b (u * PRECISE_UNIT ÷ b * p ÷ PRECISE_UNIT).
Proof.
  intros Hp Hb. pose proof PRECISE_UNIT_pos as HU.
  assert (HQ : forall u, 0 <= u -> u * PRECISE_UNIT ÷ b * p ÷ PRECISE_UNIT = u * PRECISE_UNIT / b * p / PRECISE_UNIT).
  { intros x Hx. assert (0 <= x * PRECISE_UNIT / b) by (apply Z.div_pos; nia).
    rewrite (quot_nonneg (x * PRECISE_UNIT)) by nia. apply quot_nonneg; nia. }
  destruct (Z.le_gt_cases 0 u) as [Hu|Hu]; [rewrite HQ by done; by apply worth_nonneg|].
  pose proof (worth_nonneg (- u) p b ltac:(lia) Hp Hb) as H. rewrite <- HQ in H by lia.
  rewrite Z.mul_opp_l, Z.quot_opp_l, Z.mul_opp_l, Z.quot_opp_l in H by lia.
  unfold worth in *. by rewrite !Z.abs_opp, Z.mul_opp_opp in H.
Qed.

Lemma unit_square_range : 0 <= PRECISE_UNIT * PRECISE_UNIT < 2 ^ 256.
Proof. by apply is_uint256_spec; vm_compute. Qed.

Section SetValuer_.
Context `{OZ : OpenZeppelin} `{ET : ERC20}.
Context (read : Address -> result Z) (adapterPrice : Address -> Address -> Address -> result (bool * Z)).
Context (decimals : Address -> result Z).
(** The addresses of the valuer and of the controller, and the deployed oracles. *)
Context (this controller : Address) (priceOracles : gmap Address PriceOracle.state).

Definition priceOracle (w : ModuleBase.chain) : result PriceOracle.state :=
  match priceOracles !! ResourceIdentifier.getPriceOracle (ModuleBase.controller w) with
  | Some o => Ok o | None => Throw "function call to a non-contract account" end.

(** A call of [getPrice] by the valuer. *)
Definition getPrice (w : ModuleBase.chain) (o : PriceOracle.state) (_assetOne _assetTwo : Address) : result Z :=
  PriceOracle.getPrice read adapterPrice
    (fun a => Controller.isSystemContract controller a (ModuleBase.controller w)) this _assetOne _assetTwo o.

(** One round of the loop: the value of a component. [**] wraps. *)
Definition componentValue (w : ModuleBase.chain) (o : PriceOracle.state) (k : SetToken.state) (component : Address)
    : result Z :=
  componentPrice ← getPrice w o component (PriceOracle.masterQuoteAsset o);
  aggregateUnits ← SetToken.getTotalComponentRealUnits k component;
  unitDecimals ← decimals component;
  let baseUnits := wrap_uint256 (10 ^ unitDecimals) in
  b ← toInt256 baseUnits;
  normalizedUnits ← preciseDivInt aggregateUnits b;
  p ← toInt256 componentPrice;
  preciseMulInt normalizedUnits p.

Definition calculateSetTokenValuation (_setToken _quoteAsset : Address) (w : ModuleBase.chain) : result Z :=
  o ← priceOracle w;
  let masterQuoteAsset := PriceOracle.masterQuoteAsset o in
  k ← ModuleBase.setToken w _setToken;
  valuation ← foldM (fun valuation component =>
    v ← componentValue w o (SetToken.vars k) component; ssm_add v valuation) 0 (SetToken.components (SetToken.vars k));
  valuation ← (if negb (bool_decide (masterQuoteAsset = _quoteAsset)) then
                 quoteToMaster ← getPrice w o _quoteAsset masterQuoteAsset;
                 q ← toInt256 quoteToMaster;
                 preciseDivInt valuation q
               else Ok valuation);
  toUint256 valuation.

(** ** What a value is *)

Context (read_uint256 : forall o p, read o = Ok p -> is_uint256 p).
Context (adapterPrice_uint256 : forall ad a b r, adapterPrice ad a b = Ok r -> is_uint256 r.2).

Lemma paired_uint256 o a b p : PriceOracle.paired read o a b p -> is_uint256 p.
Proof.
  intros [q _ Q|v _ _ Q Hv]; [exact (read_uint256 _ _ Q)|]. apply is_uint256_spec.
  exact (Z_div_within (PRECISE_UNIT * PRECISE_UNIT) v (2 ^ 256) unit_square_range Hv).
Qed.

Lemma total_units_int256 k c u : SetToken.Inv k -> SetToken.getTotalComponentRealUnits k c = Ok u -> is_int256 u.
Proof.
  intros HI Q. unfold SetToken.getTotalComponentRealUnits in Q. apply bind_Ok_inv in Q as (d & Qd & Q).
  apply conservativePreciseMul_Ok in Qd as (_ & Hd & _);
    [|apply (SetToken.inv_units _ HI)|apply (SetToken.inv_multiplier_int _ HI)].
  revert Q. apply (foldM_invariant is_int256); [exact Hd|]. intros acc m acc' _ Ha Q.
  apply bind_Ok_inv in Q as (x & Qx & Q). apply conservativePreciseMul_Ok in Qx as (_ & Hx & _);
    [|apply (SetToken.inv_external_units _ HI)|apply (SetToken.inv_multiplier_int _ HI)].
  by apply ssm_add_inv in Q as [-> ?].
Qed.

(** The value of a component, from a quote against the master quote asset. *)
Definition component_value (o : PriceOracle.state) (k : SetToken.state) (c : Address) (x : Z) : Prop :=
  exists u p d, SetToken.getTotalComponentRealUnits k c = Ok u /\ decimals c = Ok d /\
    PriceOracle.quoted read adapterPrice o c (PriceOracle.masterQuoteAsset o) p /\
    0 < wrap_uint256 (10 ^ d) /\ worth u p (wrap_uint256 (10 ^ d)) x.

Lemma wrap_uint256_typed z : is_uint256 (wrap_uint256 z).
Proof. apply is_uint256_spec. apply Z.mod_pos_bound. lia. Qed.

Lemma getPrice_Ok w o a b p : getPrice w o a b = Ok p ->
  PriceOracle.quoted read adapterPrice o a b p /\ is_uint256 p.
Proof.
  intros Q. split; [by eapply PriceOracle.getPrice_quoted|by eapply PriceOracle.getPrice_uint256].
Qed.

Lemma componentValue_Ok w o k c x : SetToken.Inv k -> componentValue w o k c = Ok x ->
  component_value o k c x /\ is_int256 x.
Proof.
  intros HI Q. unfold componentValue in Q. apply bind_Ok_inv in Q as (p & Qp & Q).
  apply bind_Ok_inv in Q as (u & Qu & Q). apply bind_Ok_inv in Q as (d & Qd & Q).
  apply bind_Ok_inv in Q as (b & Qb & Q). apply bind_Ok_inv in Q as (n & Qn & Q).
  apply bind_Ok_inv in Q as (p' & Qp' & Q). apply getPrice_Ok in Qp as [Hp Up].
  pose proof (total_units_int256 _ _ _ HI Qu) as Iu.
  pose proof (wrap_uint256_typed (10 ^ d)) as Ub. apply toInt256_Ok in Qb as [-> Ib]; [|exact Ub].
  apply preciseDivInt_Ok in Qn as (Hb & -> & In); [|done..]. apply toInt256_Ok in Qp' as [-> Ip]; [|exact Up].
  apply preciseMulInt_Ok in Q as [-> Ix]; [|done..]. apply is_uint256_spec in Ub, Up.
  split; [|exact Ix]. exists u, p, d. split; [done|]. split; [done|]. split; [done|].
  split; [lia|]. apply worth_quot; lia.
Qed.

Lemma sum_values w o k l acc v : SetToken.Inv k -> is_int256 acc ->
  foldM (fun valuation component => v ← componentValue w o k component; ssm_add v valuation) acc l = Ok v ->
  is_int256 v /\ exists xs, Forall2 (component_value o k) l xs /\ v = acc + zsum xs.
Proof.
  intros HI. revert acc. induction l as [|c l IH]; intros acc Ha Q; cbn [foldM] in Q.
  - apply Ok_inj in Q as <-. split; [done|]. exists []. split; [constructor|]. cbn. lia.
  - apply bind_Ok_inv in Q as (acc' & Q1 & Q). apply bind_Ok_inv in Q1 as (x & Qx & Q1).
    apply componentValue_Ok in Qx as [Hx Ix]; [|done]. apply ssm_add_inv in Q1 as [-> I1]; [|done..].
    destruct (IH _ I1 Q) as (Iv & xs & HF & ->). split; [done|]. exists (x :: xs).
    split; [by constructor|]. cbn [zsum]. lia.
Qed.

(** C20: The value of a SetToken is the sum of the values of its components, debts
    subtracted. Whenever the valuer answers, every component had a price against
    the master quote asset and its value is its units at that price, rounded
    towards zero and by less than the price plus one; the answer is the sum,
    converted at the price of the quote asset, and is never negative. *)
Theorem valuation_sums a quote w c v : ModuleBase.setTokens w !! a = Some c -> SetToken.Inv (SetToken.vars c) ->
  calculateSetTokenValuation a quote w = Ok v ->
  exists o xs, priceOracles !! ResourceIdentifier.getPriceOracle (ModuleBase.controller w) = Some o /\
    Forall2 (component_value o (SetToken.vars c)) (SetToken.components (SetToken.vars c)) xs /\ 0 <= v /\
    (quote = PriceOracle.masterQuoteAsset o -> v = zsum xs) /\
    (quote <> PriceOracle.masterQuoteAsset o -> exists q,
       PriceOracle.quoted read adapterPrice o quote (PriceOracle.masterQuoteAsset o) q /\ 0 < q /\
       v = zsum xs * PRECISE_UNIT ÷ q).
Proof.
  intros Hc HI Q. unfold calculateSetTokenValuation in Q. apply bind_Ok_inv in Q as (o & Qo & Q).
  unfold priceOracle in Qo. apply bind_Ok_inv in Q as (k & Qk%ModuleBase.setToken_Ok & Q). rewrite Hc in Qk.
  injection Qk as <-. apply bind_Ok_inv in Q as (s & Qs & Q). apply bind_Ok_inv in Q as (t & Qt & Q).
  destruct (priceOracles !! _) as [o'|] eqn:EO; [apply Ok_inj in Qo as ->|discriminate Qo].
  apply sum_values in Qs as (Is & xs & HF & ->); [|done|by vm_compute]. rewrite Z.add_0_l in *.
  exists o, xs. split; [done|]. split; [exact HF|]. case_bool_decide as D; cbn [negb] in Qt.
  - apply Ok_inj in Qt as <-. apply toUint256_Ok in Q as [-> H0]; [|done]. split; [done|]. by split.
  - apply bind_Ok_inv in Qt as (q & Qq & Qt). apply bind_Ok_inv in Qt as (q' & Qq' & Qt).
    apply getPrice_Ok in Qq as [Hq Uq]. apply toInt256_Ok in Qq' as [-> Iq]; [|done].
    apply preciseDivInt_Ok in Qt as (Hn & -> & It); [|done..]. apply toUint256_Ok in Q as [-> H0]; [|done].
    split; [done|]. split; [by intros ->|]. intros _. exists q. split; [exact Hq|]. apply is_uint256_spec in Uq.
    split; [lia|done].
Qed.

End SetValuer_.

(** ** Instances *)

Definition sample_decimals (t : Address) : result Z := Ok (if String.eqb t "BTC" then 8 else 18).

(** A controller with a price oracle and a valuer. *)
Definition sample_controller : Controller.state :=
  let s := Controller.constructor "owner" "protocol" in
  match Controller.exec "owner" (Controller.Initialize ["factory"]%string ["nav"]%string ["oracle"; "valuer"]%string [1; 2]) s with
  | Ok s => s | Throw _ => s end.

(** A tenth of a bitcoin and an ether, with a debt in ether. *)
Definition sample_vars : SetToken.state :=
  let s := SetToken.constructor ["BTC"; "ETH"]%string [10 ^ 7; 10 ^ 18 + 1] ["nav"]%string "controller" "manager" "Set" "SET" in
  match (s ← SetToken.initializeModule "nav" s;
         s ← SetToken.addExternalPositionModule (fun _ => true) "nav" "ETH" "nav" s;
         SetToken.editExternalPositionUnit (fun _ => true) "nav" "ETH" "nav" (- (10 ^ 17)) s) with
  | Ok s => s | Throw _ => s end.

Definition sample_token : SetToken.contract := SetToken.mkContract sample_vars empty_ledger.

Definition sample_chain : ModuleBase.chain := ModuleBase.mkChain sample_controller {[ "set"%string := sample_token ]}.

Lemma Inv_valued_vars : SetToken.Inv sample_vars.
Proof.
  pose (s0 := SetToken.constructor ["BTC"; "ETH"]%string [10 ^ 7; 10 ^ 18 + 1] ["nav"]%string "controller" "manager"
    "Set" "SET").
  assert (H0 : SetToken.Inv s0).
  { apply SetToken.storage_constructor; apply (bool_decide_eq_true_1 _); vm_compute; reflexivity. }
  pose (s1 := match SetToken.initializeModule "nav" s0 with Ok s => s | Throw _ => s0 end).
  assert (H1 : SetToken.Inv s1) by (eapply (SetToken.Inv_initializeModule "nav" s0); [exact H0|vm_compute; reflexivity]).
  pose (s2 := match SetToken.addExternalPositionModule (fun _ => true) "nav" "ETH" "nav" s1 with
              | Ok s => s | Throw _ => s1 end).
  assert (H2 : SetToken.Inv s2).
  { eapply (SetToken.Inv_module_call (fun _ => true) "nav" s1); [exact H1|].
    do 3 right. left. exists "ETH"%string, "nav"%string. vm_compute. reflexivity. }
  eapply (SetToken.Inv_module_call (fun _ => true) "nav" s2); [exact H2|].
  do 5 right. left. exists "ETH"%string, "nav"%string, (- (10 ^ 17)). split; vm_compute; reflexivity.
Qed.

Definition sample_oracles : gmap Address PriceOracle.state := {[ "oracle"%string := PriceOracle.sample ]}.

Abbreviation sample_value a quote w := (calculateSetTokenValuation PriceOracle.sample_read PriceOracle.sample_adapter
  sample_decimals "valuer" "controller" sample_oracles a quote w).

Lemma sample_adapter_uint256 ad a b r : PriceOracle.sample_adapter ad a b = Ok r -> is_uint256 r.2.
Proof. intros <-%Ok_inj. vm_compute. exact I. Qed.

(** The token of a tenth of a bitcoin, in ether: two values, and their sum at the
    price of ether. *)
Lemma valuation_sums_witness : sample_value "set"%string "ETH"%string sample_chain = Ok 2860784313725490197 /\
  exists xs, List.length xs = 2%nat /\ 2860784313725490197 = zsum xs * PRECISE_UNIT ÷ (1700 * 10 ^ 18 + 7).
Proof.
  assert (HV : sample_value "set"%string "ETH"%string sample_chain = Ok 2860784313725490197) by (vm_compute; reflexivity).
  split; [exact HV|].
  destruct (valuation_sums (ET := erc20_ref) PriceOracle.sample_read PriceOracle.sample_adapter sample_decimals "valuer"
    "controller" sample_oracles PriceOracle.sample_read_uint256 sample_adapter_uint256 "set" "ETH" sample_chain
    sample_token _ (lookup_singleton_eq _ _) Inv_valued_vars HV)
    as (o & xs & Ho & HF & _ & _ & HQ).
  exists xs. apply Forall2_length in HF. split; [exact (eq_sym HF)|].
  assert (Eo : o = PriceOracle.sample) by (vm_compute in Ho; injection Ho as <-; reflexivity). subst o.
  destruct HQ as (q & Hq & _ & E); [intros D; vm_compute in D; discriminate D|].
  inversion Hq as [p Hp E1|x y [Hn _] _ _ _ E1|l1 ad l2 p [Hn _] _ _ _ _ E1]; [|vm_compute in Hn; discriminate Hn..].
  inversion Hp as [p' _ Hr E2|p' Hn _ _ _ E2]; [|vm_compute in Hn; discriminate Hn].
  apply Ok_inj in Hr. rewrite Hr. subst. exact E.
Defined.

End SetValuer.
