(* ===== verification/LeverageModules.v ===== *)
(** * The hooks of the leverage modules

    What issuance asks of the modules that keep external positions, in
    [contracts/protocol/modules/v1/AaveLeverageModule.sol] and
    [contracts/protocol/modules/v2/PerpV2LeverageModuleV2.sol]: [componentIssueHook] and
    [componentRedeemHook], with the helpers they call down to [SetToken.invoke] and the
    libraries [integration/lib/AaveV2.sol] and [integration/lib/PerpV2.sol]. Lending
    pool and vault are third parties behind the interface [Venues]. The lemmas say
    what a hook moves: which side rounds up, and which side down. *)

From S2P Require Import Prelude JsString Ethers Constants MathUtils SafeMath PreciseUnitMath Erc20 Ownable Controller SetToken ModuleBase.
From Stdlib Require Import String.

Local Open Scope Z_scope.

(** Aave's lending pool and the vault of Perpetual Protocol: what a call of theirs by a
    sender does to balances, the data of the calls, the address the provider gives for
    the pool, and the tokens that represent debt. The laws are the documented
    behaviour: [borrow] pays out the amount, [repay] takes at most the amount,
    [deposit] takes it, [withdraw] pays it out, [approve] moves nothing. *)
Class Venues `{CN : Coins} := {
  venue_call : Address -> Address -> string -> coins -> result (coins * string);
  getLendingPool : Address;
  perpVault : Address;
  isDebtToken : Address -> bool;
  borrow_data : Address -> Z -> Z -> Z -> Address -> string;
  repay_data : Address -> Z -> Z -> Address -> string;
  deposit_data : Address -> Z -> string;
  withdraw_data : Address -> Z -> string;
  approve_law a t to n w r t' b : coin_call a t 0 (approve_data to n) w = Ok r -> coin_balance r.1 t' b = coin_balance w t' b;
  borrow_law a x n rate code w r : is_uint256 n -> venue_call a getLendingPool (borrow_data x n rate code a) w = Ok r ->
    coin_balance r.1 x a = coin_balance w x a + n /\ forall t, t <> x -> coin_balance w t a <= coin_balance r.1 t a;
  repay_law a x n rate w r : is_uint256 n -> venue_call a getLendingPool (repay_data x n rate a) w = Ok r ->
    coin_balance w x a - n <= coin_balance r.1 x a /\
    forall t, t <> x -> isDebtToken t = false -> coin_balance w t a <= coin_balance r.1 t a;
  deposit_law a x n w r : is_uint256 n -> venue_call a perpVault (deposit_data x n) w = Ok r ->
    coin_balance r.1 x a = coin_balance w x a - n /\ forall t, t <> x -> coin_balance w t a <= coin_balance r.1 t a;
  withdraw_law a x n w r : is_uint256 n -> venue_call a perpVault (withdraw_data x n) w = Ok r ->
    coin_balance r.1 x a = coin_balance w x a + n /\ forall t, t <> x -> coin_balance w t a <= coin_balance r.1 t a;
}.

(** A pool and a vault of unlimited means, which pay and take exact amounts. *)
Definition venue_data (pays : bool) (x : Address) (n : Z) : string := pos_string (encode (pays, x, n)).

Definition ref_venue_call (sender target : Address) (d : string) (m : ref_coins) : result (ref_coins * string) :=
  match string_pos d ≫= decode with
  | Some (pays, x, n) =>
      let b := ref_coin_balance m x sender + (if (pays : bool) then n else - n) in
      _ ← require (is_uint256 b) "no such amount"; Ok (<[ (x, sender) := b ]> m, ""%string)
  | None => Throw "no such function"
  end.

Lemma ref_venue_moves a target pays x n m r : ref_venue_call a target (venue_data pays x n) m = Ok r ->
  ref_coin_balance r.1 x a = ref_coin_balance m x a + (if pays then n else - n) /\
  forall t, t <> x -> ref_coin_balance r.1 t a = ref_coin_balance m t a.
Proof.
  unfold ref_venue_call, venue_data. rewrite string_pos_string. cbn [mbind option_bind]. rewrite decode_encode.
  intros Q. apply bind_Ok_inv in Q as (u & Qu%require_Ok_inv%Is_true_true_2 & Q). apply Ok_inj in Q as <-. cbn [fst].
  rewrite ref_coin_insert by done. rewrite decide_True by done. split; [done|]. intros t Ht.
  rewrite ref_coin_insert by done. by rewrite decide_False by naive_solver.
Qed.

#[refine, export] Instance venues_ref : Venues := {|
  venue_call := ref_venue_call; getLendingPool := "pool"; perpVault := "vault";
  isDebtToken := fun t => String.eqb t "variableDebtUSDC";
  borrow_data := fun x n _ _ _ => venue_data true x n; repay_data := fun x n _ _ => venue_data false x n;
  deposit_data := venue_data false; withdraw_data := venue_data true |}.
Proof.
  - intros a t to n w r t' b Q. by apply Ok_inj in Q as <-.
  - intros a x n rate code w r _ [E H]%ref_venue_moves. split; [exact E|]. intros t Ht. cbn. by rewrite H.
  - intros a x n rate w r _ [E H]%ref_venue_moves. split; [cbn in *; rewrite E; lia|]. intros t Ht _. cbn. by rewrite H.
  - intros a x n w r _ [E H]%ref_venue_moves. split; [exact E|]. intros t Ht. cbn. by rewrite H.
  - intros a x n w r _ [E H]%ref_venue_moves. split; [exact E|]. intros t Ht. cbn. by rewrite H.
Defined.

(** ** Shares *)

Definition long (v : Z) : Z := Z.max v 0.
Definition short (v : Z) : Z := Z.max (- v) 0.

(** The equity or the debt of a position. *)
Definition side (isEquity : bool) (v : Z) : Z := if isEquity then long v else short v.

(** What the module of a position of [v] per token moves to the token when called for
    [q] tokens. On issue it takes its share of equity in and brings its share of debt
    up; on redemption it brings equity up and takes debt in. What it takes is rounded
    up and what it brings is rounded down. *)
Definition moved (isIssue isEquity : bool) (v q : Z) : Z :=
  let n := side isEquity v * q in if Bool.eqb isIssue isEquity then - cdiv n PRECISE_UNIT else n / PRECISE_UNIT.

Module AaveLeverageModule.
Section AaveLeverageModule_.
Context `{OZ : OpenZeppelin} `{ET : ERC20} `{CN : Coins} `{VN : !Venues} (this : Address).

Definition BORROW_RATE_MODE : Z := 2.

(** [AaveV2.invokeBorrow]: on behalf of the SetToken, without a referral. *)
Definition invokeBorrow (_setToken _lendingPool _asset : Address) (_amountNotional _interestRateMode : Z) :=
  let callData := borrow_data _asset _amountNotional _interestRateMode 0 _setToken in
  ModuleBase.invoke this _setToken _lendingPool callData (venue_call _setToken _lendingPool callData).

(** [AaveV2.invokeRepay]; the amount repaid, which it returns, is not used by hooks. *)
Definition invokeRepay (_setToken _lendingPool _asset : Address) (_amountNotional _interestRateMode : Z) :=
  let callData := repay_data _asset _amountNotional _interestRateMode _setToken in
  ModuleBase.invoke this _setToken _lendingPool callData (venue_call _setToken _lendingPool callData).

Definition _repayBorrow (_setToken _lendingPool _asset : Address) (_notionalQuantity : Z) (wm : ModuleBase.chain * coins)
    : result (ModuleBase.chain * coins) :=
  wm ← ModuleBase.invokeApprove this _setToken _asset _lendingPool _notionalQuantity wm;
  invokeRepay _setToken _lendingPool _asset _notionalQuantity BORROW_RATE_MODE wm.

Definition _repayBorrowForHook (_setToken _asset : Address) (_notionalQuantity : Z) :=
  _repayBorrow _setToken getLendingPool _asset _notionalQuantity.

Definition _borrow (_setToken _lendingPool _asset : Address) (_notionalQuantity : Z) :=
  invokeBorrow _setToken _lendingPool _asset _notionalQuantity BORROW_RATE_MODE.

Definition _borrowForHook (_setToken _asset : Address) (_notionalQuantity : Z) :=
  _borrow _setToken getLendingPool _asset _notionalQuantity.

Definition componentIssueHook (msg_sender _setToken : Address) (_setTokenQuantity : Z) (_component : Address)
    (_isEquity : bool) (wm : ModuleBase.chain * coins) : result (ModuleBase.chain * coins) :=
  _ ← ModuleBase._validateOnlyModule _setToken msg_sender wm.1;
  if negb _isEquity then
    k ← ModuleBase.setToken wm.1 _setToken;
    componentDebt ← SetToken.getExternalPositionRealUnit (SetToken.vars k) _component this;
    _ ← require (componentDebt <? 0) "Component must be negative";
    n ← ssm_mul componentDebt (-1);
    d ← toUint256 n;
    notionalDebt ← PreciseUnitMath.preciseMul d _setTokenQuantity;
    _borrowForHook _setToken _component notionalDebt wm
  else Ok wm.

Definition componentRedeemHook (msg_sender _setToken : Address) (_setTokenQuantity : Z) (_component : Address)
    (_isEquity : bool) (wm : ModuleBase.chain * coins) : result (ModuleBase.chain * coins) :=
  _ ← ModuleBase._validateOnlyModule _setToken msg_sender wm.1;
  if negb _isEquity then
    k ← ModuleBase.setToken wm.1 _setToken;
    componentDebt ← SetToken.getExternalPositionRealUnit (SetToken.vars k) _component this;
    _ ← require (componentDebt <? 0) "Component must be negative";
    n ← ssm_mul componentDebt (-1);
    d ← toUint256 n;
    notionalDebt ← PreciseUnitMath.preciseMulCeil d _setTokenQuantity;
    _repayBorrowForHook _setToken _component notionalDebt wm
  else Ok wm.

End AaveLeverageModule_.
End AaveLeverageModule.

Module PerpV2LeverageModuleV2.
Section PerpV2LeverageModuleV2_.
Context `{OZ : OpenZeppelin} `{ET : ERC20} `{CN : Coins} `{VN : !Venues} (this collateralToken : Address).

(** [PerpV2.invokeDeposit] *)
Definition invokeDeposit (_setToken _vault _asset : Address) (_amountNotional : Z) :=
  let callData := deposit_data _asset _amountNotional in
  ModuleBase.invoke this _setToken _vault callData (venue_call _setToken _vault callData).

(** [PerpV2.invokeWithdraw] *)
Definition invokeWithdraw (_setToken _vault _asset : Address) (_amountNotional : Z) :=
  let callData := withdraw_data _asset _amountNotional in
  ModuleBase.invoke this _setToken _vault callData (venue_call _setToken _vault callData).

Definition _deposit (_setToken : Address) (_collateralNotionalQuantity : Z) (wm : ModuleBase.chain * coins)
    : result (ModuleBase.chain * coins) :=
  wm ← ModuleBase.invokeApprove this _setToken collateralToken perpVault _collateralNotionalQuantity wm;
  invokeDeposit _setToken perpVault collateralToken _collateralNotionalQuantity wm.

Definition _withdraw (_setToken : Address) (_collateralNotionalQuantity : Z) (wm : ModuleBase.chain * coins)
    : result (ModuleBase.chain * coins) :=
  if _collateralNotionalQuantity =? 0 then Ok wm
  else invokeWithdraw _setToken perpVault collateralToken _collateralNotionalQuantity wm.

Definition componentIssueHook (msg_sender _setToken : Address) (_setTokenQuantity : Z) (_component : Address)
    (_isEquity : bool) (wm : ModuleBase.chain * coins) : result (ModuleBase.chain * coins) :=
  _ ← ModuleBase._validateOnlyModule _setToken msg_sender wm.1;
  if _isEquity then
    k ← ModuleBase.setToken wm.1 _setToken;
    externalPositionUnit ← SetToken.getExternalPositionRealUnit (SetToken.vars k) _component this;
    u ← toUint256 externalPositionUnit;
    usdcTransferInNotionalQuantity ← PreciseUnitMath.preciseMulCeil _setTokenQuantity u;
    _deposit _setToken usdcTransferInNotionalQuantity wm
  else Ok wm.

Definition componentRedeemHook (msg_sender _setToken : Address) (_setTokenQuantity : Z) (_component : Address)
    (_isEquity : bool) (wm : ModuleBase.chain * coins) : result (ModuleBase.chain * coins) :=
  _ ← ModuleBase._validateOnlyModule _setToken msg_sender wm.1;
  if _isEquity then
    k ← ModuleBase.setToken wm.1 _setToken;
    externalPositionUnit ← SetToken.getExternalPositionRealUnit (SetToken.vars k) _component this;
    u ← toUint256 externalPositionUnit;
    usdcTransferOutNotionalQuantity ← PreciseUnitMath.preciseMul _setTokenQuantity u;
    _withdraw _setToken usdcTransferOutNotionalQuantity wm
  else Ok wm.

End PerpV2LeverageModuleV2_.
End PerpV2LeverageModuleV2.

(** ** What the hooks move *)

Section Facts.
Context `{OZ : OpenZeppelin} `{ET : ERC20} `{CN : Coins} `{VN : !Venues}.

(** The SetToken at [a] calls others: nothing but its events is new, it gains at least
    [d] of the component [x], and loses of others at most tokens that represent debt. *)
Definition calls (a x : Address) (d : Z) (wm wm' : ModuleBase.chain * coins) : Prop :=
  rtc (ModuleBase.invoked a) wm.1 wm'.1 /\ coin_balance wm.2 x a + d <= coin_balance wm'.2 x a /\
  forall t, t <> x -> isDebtToken t = false -> coin_balance wm.2 t a <= coin_balance wm'.2 t a.

Lemma calls_refl a x wm : calls a x 0 wm wm.
Proof. split; [reflexivity|]. split; [lia|done]. Qed.

Lemma calls_trans a x d d' wm1 wm2 wm3 : calls a x d wm1 wm2 -> calls a x d' wm2 wm3 -> calls a x (d + d') wm1 wm3.
Proof.
  intros (H1 & H2 & H3) (H4 & H5 & H6). split; [by etransitivity|]. split; [lia|]. intros t Ht Hd.
  pose proof (H3 t Ht Hd). pose proof (H6 t Ht Hd). lia.
Qed.

(** A call of a venue that is within the law of that venue. *)
Lemma calls_invoke this a x target data call d wm wm' :
  (forall r, call wm.2 = Ok r -> coin_balance wm.2 x a + d <= coin_balance r.1 x a /\
     forall t, t <> x -> isDebtToken t = false -> coin_balance wm.2 t a <= coin_balance r.1 t a) ->
  ModuleBase.invoke this a target data call wm = Ok wm' -> calls a x d wm wm'.
Proof.
  destruct wm as [w m], wm' as [w' m']. intros HL (HI & r & Qr & ->)%ModuleBase.invoke_Ok. cbn [fst snd] in *.
  split; [apply rtc_once; by right|]. by apply HL.
Qed.

Lemma approve_calls this a x t to n wm wm' : ModuleBase.invokeApprove this a t to n wm = Ok wm' -> calls a x 0 wm wm'.
Proof.
  unfold ModuleBase.invokeApprove, ModuleBase.invoke_token. apply calls_invoke. intros r Qr.
  split; [rewrite (approve_law _ _ _ _ _ _ _ _ Qr); lia|]. intros t' _ _. by rewrite (approve_law _ _ _ _ _ _ _ _ Qr).
Qed.

Lemma borrow_calls this a x n wm wm' : is_uint256 n ->
  AaveLeverageModule._borrowForHook this a x n wm = Ok wm' -> calls a x n wm wm'.
Proof.
  intros Hn. apply calls_invoke. intros r Qr. destruct (borrow_law _ _ _ _ _ _ _ Hn Qr) as [-> H].
  split; [lia|]. intros t Ht _. by apply H.
Qed.

Lemma repay_calls this a x n wm wm' : is_uint256 n ->
  AaveLeverageModule._repayBorrowForHook this a x n wm = Ok wm' -> calls a x (- n) wm wm'.
Proof.
  intros Hn Q. apply bind_Ok_inv in Q as (wm1 & Qa & Q). apply (approve_calls _ _ x) in Qa. change (- n) with (0 + - n).
  eapply calls_trans; [exact Qa|]. revert Q. apply calls_invoke. intros r Qr.
  exact (repay_law _ _ _ _ _ _ Hn Qr).
Qed.

Lemma deposit_calls this a x n wm wm' : is_uint256 n ->
  PerpV2LeverageModuleV2._deposit this x a n wm = Ok wm' -> calls a x (- n) wm wm'.
Proof.
  intros Hn Q. apply bind_Ok_inv in Q as (wm1 & Qa & Q). apply (approve_calls _ _ x) in Qa. change (- n) with (0 + - n).
  eapply calls_trans; [exact Qa|]. revert Q. apply calls_invoke. intros r Qr.
  destruct (deposit_law _ _ _ _ _ Hn Qr) as [-> H]. split; [lia|]. intros t Ht _. by apply H.
Qed.

Lemma withdraw_calls this a x n wm wm' : is_uint256 n ->
  PerpV2LeverageModuleV2._withdraw this x a n wm = Ok wm' -> calls a x n wm wm'.
Proof.
  intros Hn Q. unfold PerpV2LeverageModuleV2._withdraw in Q. destruct (Z.eqb_spec n 0) as [->|_].
  - apply Ok_inj in Q as <-. apply calls_refl.
  - revert Q. apply calls_invoke. intros r Qr. destruct (withdraw_law _ _ _ _ _ Hn Qr) as [-> H].
    split; [lia|]. intros t Ht _. by apply H.
Qed.

(** The hook of [v] below zero reads it as a debt. *)
Lemma debt_read v n d : is_int256 v -> ssm_mul v (-1) = Ok n -> toUint256 n = Ok d -> d = - v /\ 0 <= - v /\ is_uint256 d.
Proof.
  intros Hv Qn Qd. apply ssm_mul_inv in Qn as [-> Un]; [|done|by vm_compute]. apply toUint256_Ok in Qd as [-> H0]; [|done].
  split; [lia|]. split; [lia|]. apply is_int256_spec in Un. apply is_uint256_spec. change (2 ^ 256) with (2 * 2 ^ 255). lia.
Qed.

Lemma moved_nothing (b e : bool) v q : side e v = 0 -> moved b e v q = 0.
Proof. intros E. unfold moved. rewrite E, Z.mul_0_l. by destruct b, e. Qed.

(** The hooks of the Aave module, for a position that is no equity. *)
Lemma aave_moves this sender a q x (b e : bool) v c wm wm' : is_uint256 q -> ModuleBase.setTokens wm.1 !! a = Some c ->
  SetToken.getExternalPositionRealUnit (SetToken.vars c) x this = Ok v -> is_int256 v -> v <= 0 ->
  (if b then AaveLeverageModule.componentIssueHook this sender a q x e wm
   else AaveLeverageModule.componentRedeemHook this sender a q x e wm) = Ok wm' -> calls a x (moved b e v q) wm wm'.
Proof.
  intros Hq Hc Hv Iv H0 Q. destruct e.
  - rewrite moved_nothing by (unfold side, long; lia).
    destruct b; apply bind_Ok_inv in Q as (u & _ & Q); apply Ok_inj in Q as <-; apply calls_refl.
  - destruct b; apply bind_Ok_inv in Q as (u & _ & Q); cbn [negb] in Q; apply bind_Ok_inv in Q as (k & Qk%ModuleBase.setToken_Ok & Q);
      rewrite Hc in Qk; injection Qk as <-; rewrite Hv, bind_Ok in Q; apply bind_Ok_inv in Q as (u' & _ & Q);
      apply bind_Ok_inv in Q as (n & Qn & Q); apply bind_Ok_inv in Q as (d & Qd & Q); apply bind_Ok_inv in Q as (t & Qt & Q);
      destruct (debt_read _ _ _ Iv Qn Qd) as (-> & _ & Ud).
    + apply preciseMul_Ok in Qt as [-> Ut]; [|done..]. apply borrow_calls in Q; [|done].
      unfold moved, side, short. by rewrite Z.max_l by lia.
    + apply mulCeil_Ok in Qt as [-> Ut]; [|done..]. apply repay_calls in Q; [|done].
      unfold moved, side, short. by rewrite Z.max_l by lia.
Qed.

(** The hooks of the PerpV2 module, for a position in its collateral that is no debt. *)
Lemma perp_moves this sender a q x (b e : bool) v c wm wm' : is_uint256 q -> ModuleBase.setTokens wm.1 !! a = Some c ->
  SetToken.getExternalPositionRealUnit (SetToken.vars c) x this = Ok v -> is_int256 v -> 0 <= v ->
  (if b then PerpV2LeverageModuleV2.componentIssueHook this x sender a q x e wm
   else PerpV2LeverageModuleV2.componentRedeemHook this x sender a q x e wm) = Ok wm' -> calls a x (moved b e v q) wm wm'.
Proof.
  intros Hq Hc Hv Iv H0 Q. assert (Uv : is_uint256 v).
  { apply is_int256_spec in Iv. apply is_uint256_spec. change (2 ^ 256) with (2 * 2 ^ 255). lia. }
  destruct e.
  - destruct b; apply bind_Ok_inv in Q as (u & _ & Q); apply bind_Ok_inv in Q as (k & Qk%ModuleBase.setToken_Ok & Q);
      rewrite Hc in Qk; injection Qk as <-; rewrite Hv, bind_Ok in Q; apply bind_Ok_inv in Q as (d & Qd & Q);
      apply toUint256_Ok in Qd as [-> _]; try done; apply bind_Ok_inv in Q as (t & Qt & Q).
    + apply mulCeil_Ok in Qt as [-> Ut]; [|done..]. apply deposit_calls in Q; [|done].
      unfold moved, side, long. by rewrite Z.max_l, (Z.mul_comm v) by lia.
    + apply preciseMul_Ok in Qt as [-> Ut]; [|done..]. apply withdraw_calls in Q; [|done].
      unfold moved, side, long. by rewrite Z.max_l, (Z.mul_comm v) by lia.
  - rewrite moved_nothing by (unfold side, short; lia).
    destruct b; apply bind_Ok_inv in Q as (u & _ & Q); apply Ok_inj in Q as <-; apply calls_refl.
Qed.

End Facts.
