(* ===== verification/StreamingFeeModule.v ===== *)
(** * The streaming fee module

    [contracts/protocol/modules/v1/StreamingFeeModule.sol]. The state is that of
    the module, of the controller and of the SetTokens: a function of the module
    calls both. [this] is the address of the module. The theorems compare an accrual with what
    [utils/common/feeModuleUtils.ts] expects of it. *)

From S2P Require Import Prelude JsString Ethers Constants MathUtils FeeModuleUtils SafeMath PreciseUnitMath Erc20 Ownable Controller SetToken ModuleBase.
From Stdlib Require Import String.

Local Open Scope Z_scope.

Module StreamingFeeModule.

Record FeeState := mkFeeState {
  feeRecipient : Address;
  maxStreamingFeePercentage : Z;
  streamingFeePercentage : Z;
  lastStreamingFeeTimestamp : Z;
}.

Inductive Event :=
  | FeeActualized (_setToken : Address) (_managerFee _protocolFee : Z)
  | StreamingFeeUpdated (_setToken : Address) (_newStreamingFee : Z)
  | FeeRecipientUpdated (_setToken _newFeeRecipient : Address).

Definition PROTOCOL_STREAMING_FEE_INDEX : Z := 0.

(** [365.25 days] *)
Definition YEAR : Z := 36525 * 24 * 60 * 60 / 100.

Section Module_.
Context `{OZ : OpenZeppelin} `{ET : ERC20} `{RG : ReentrancyGuard} (this : Address).

Record state := mk {
  status : guard;
  feeStates : gmap Address FeeState;
  emitted : list Event;
  controller : Controller.state;
  setTokens : gmap Address SetToken.contract;
}.

Definition set_status (s : state) g := mk g (feeStates s) (emitted s) (controller s) (setTokens s).
Definition set_feeStates (s : state) m e := mk (status s) m (emitted s ++ e) (controller s) (setTokens s).
Definition set_setTokens (s : state) m := mk (status s) (feeStates s) (emitted s) (controller s) m.

Definition no_fee : FeeState := mkFeeState ADDRESS_ZERO 0 0 0.

Definition feeState (s : state) (_set : Address) : FeeState := default no_fee (feeStates s !! _set).

Definition constructor (_controller : Controller.state) (sets : gmap Address SetToken.contract) : state :=
  mk guard_new ∅ [] _controller sets.

(** ** Calls of SetTokens *)

(** Controller and SetTokens, as the modifiers of ModuleBase see them. *)
Definition world (s : state) : ModuleBase.chain := ModuleBase.mkChain (controller s) (setTokens s).

Definition isModule (s : state) (a : Address) : bool := ModuleBase.isModule (world s) a.

Definition setToken (s : state) (a : Address) : result SetToken.contract := ModuleBase.setToken (world s) a.

Definition on_set (a : Address) (f : SetToken.contract -> result SetToken.contract) (s : state) : result state :=
  w ← ModuleBase.on_set a f (world s); Ok (set_setTokens s (ModuleBase.setTokens w)).

(** ** Internal functions; [now] is [block.timestamp] *)

Definition _calculateStreamingFee (now : Z) (_setToken : Address) (s : state) : result Z :=
  timeSinceLastFee ← sm_sub now (lastStreamingFeeTimestamp (feeState s _setToken));
  x ← sm_mul timeSinceLastFee (streamingFeePercentage (feeState s _setToken));
  sm_div x YEAR.

Definition _calculateStreamingFeeInflation (_setToken : Address) (_feePercentage : Z) (s : state) : result Z :=
  k ← setToken s _setToken;
  a ← sm_mul _feePercentage (totalSupply (SetToken.tokens k));
  b ← sm_sub PRECISE_UNIT _feePercentage;
  sm_div a b.

Definition _mintManagerAndProtocolFee (_setToken : Address) (_feeQuantity : Z) (s : state)
    : result (state * (Z * Z)) :=
  let protocolFeeRecipient := Controller.feeRecipient (controller s) in
  let protocolFee := Controller.getModuleFee (controller s) this PROTOCOL_STREAMING_FEE_INDEX in
  protocolFeeAmount ← PreciseUnitMath.preciseMul _feeQuantity protocolFee;
  managerFeeAmount ← sm_sub _feeQuantity protocolFeeAmount;
  s ← on_set _setToken
        (SetToken.mint (isModule s) this (feeRecipient (feeState s _setToken)) managerFeeAmount) s;
  s ← (if 0 <? protocolFeeAmount
       then on_set _setToken (SetToken.mint (isModule s) this protocolFeeRecipient protocolFeeAmount) s
       else Ok s);
  Ok (s, (managerFeeAmount, protocolFeeAmount)).

Definition _editPositionMultiplier (_setToken : Address) (_inflationFee : Z) (s : state) : result state :=
  k ← setToken s _setToken;
  d ← sm_sub PRECISE_UNIT _inflationFee;
  d ← toInt256 d;
  newMultiplier ← preciseMulInt (SetToken.positionMultiplier (SetToken.vars k)) d;
  on_set _setToken
    (SetToken.on_vars (SetToken.editPositionMultiplier (isModule s) this newMultiplier)) s.

(** ** External functions *)

Definition accrueFee (now : Z) (_setToken : Address) (s : state) : result state :=
  g ← enter (status s);
  let s := set_status s g in
  _ ← ModuleBase._validateOnlyValidAndInitializedSet this _setToken (world s);
  r ← (if 0 <? streamingFeePercentage (feeState s _setToken) then
         inflationFeePercentage ← _calculateStreamingFee now _setToken s;
         feeQuantity ← _calculateStreamingFeeInflation _setToken inflationFeePercentage s;
         r ← _mintManagerAndProtocolFee _setToken feeQuantity s;
         s ← _editPositionMultiplier _setToken inflationFeePercentage r.1;
         Ok (s, r.2)
       else Ok (s, (0, 0)));
  let s := r.1 in
  let f := feeState s _setToken in
  let s := set_feeStates s
    (<[ _setToken := mkFeeState (feeRecipient f) (maxStreamingFeePercentage f) (streamingFeePercentage f) now ]>
       (feeStates s)) [FeeActualized _setToken r.2.1 r.2.2] in
  Ok (set_status s (leave (status s))).

Definition initialize (msg_sender : Address) (now : Z) (_setToken : Address) (_settings : FeeState) (s : state)
    : result state :=
  _ ← ModuleBase._validateOnlySetManager _setToken msg_sender (world s);
  _ ← ModuleBase._validateOnlyValidAndPendingSet this _setToken (world s);
  _ ← require (bool_decide (feeRecipient _settings <> ADDRESS_ZERO)) "Fee Recipient must be non-zero address.";
  _ ← require (maxStreamingFeePercentage _settings <? PRECISE_UNIT) "Max fee must be < 100%.";
  _ ← require (streamingFeePercentage _settings <=? maxStreamingFeePercentage _settings) "Fee must be <= max.";
  let _settings := mkFeeState (feeRecipient _settings) (maxStreamingFeePercentage _settings)
                     (streamingFeePercentage _settings) now in
  let s := set_feeStates s (<[ _setToken := _settings ]> (feeStates s)) [] in
  on_set _setToken (SetToken.on_vars (SetToken.initializeModule this)) s.

Definition removeModule (msg_sender : Address) (s : state) : state :=
  set_feeStates s (delete msg_sender (feeStates s)) [].

Definition updateStreamingFee (msg_sender : Address) (now : Z) (_setToken : Address) (_newFee : Z) (s : state)
    : result state :=
  _ ← ModuleBase._validateOnlySetManager _setToken msg_sender (world s);
  _ ← ModuleBase._validateOnlyValidAndInitializedSet this _setToken (world s);
  _ ← require (_newFee <? maxStreamingFeePercentage (feeState s _setToken)) "Fee must be less than max";
  s ← accrueFee now _setToken s;
  let f := feeState s _setToken in
  Ok (set_feeStates s
    (<[ _setToken := mkFeeState (feeRecipient f) (maxStreamingFeePercentage f) _newFee
                       (lastStreamingFeeTimestamp f) ]> (feeStates s)) [StreamingFeeUpdated _setToken _newFee]).

Definition updateFeeRecipient (msg_sender : Address) (_setToken _newFeeRecipient : Address) (s : state)
    : result state :=
  _ ← ModuleBase._validateOnlySetManager _setToken msg_sender (world s);
  _ ← ModuleBase._validateOnlyValidAndInitializedSet this _setToken (world s);
  _ ← require (bool_decide (_newFeeRecipient <> ADDRESS_ZERO)) "Fee Recipient must be non-zero address.";
  let f := feeState s _setToken in
  Ok (set_feeStates s
    (<[ _setToken := mkFeeState _newFeeRecipient (maxStreamingFeePercentage f) (streamingFeePercentage f)
                       (lastStreamingFeeTimestamp f) ]> (feeStates s))
    [FeeRecipientUpdated _setToken _newFeeRecipient]).

Definition getFee (now : Z) (_setToken : Address) (s : state) : result Z := _calculateStreamingFee now _setToken s.

(** The calls that change the state. *)
Inductive Call :=
  | AccrueFee (_setToken : Address)
  | Initialize (_setToken : Address) (_settings : FeeState)
  | RemoveModule
  | UpdateStreamingFee (_setToken : Address) (_newFee : Z)
  | UpdateFeeRecipient (_setToken _newFeeRecipient : Address).

Definition exec (msg_sender : Address) (now : Z) (k : Call) (s : state) : result state :=
  match k with
  | AccrueFee a => accrueFee now a s
  | Initialize a settings => initialize msg_sender now a settings s
  | RemoveModule => Ok (removeModule msg_sender s)
  | UpdateStreamingFee a fee => updateStreamingFee msg_sender now a fee s
  | UpdateFeeRecipient a r => updateFeeRecipient msg_sender a r s
  end.

(** ** Accrual *)

(** The state fits the types of the contracts. *)
Record typed (s : state) : Prop := {
  typed_fee a : is_uint256 (streamingFeePercentage (feeState s a)) /\
                is_uint256 (lastStreamingFeeTimestamp (feeState s a));
  typed_set a c : setTokens s !! a = Some c ->
                  SetToken.Inv (SetToken.vars c) /\ is_uint256 (totalSupply (SetToken.tokens c));
  typed_protocol : is_uint256 (Controller.getModuleFee (controller s) this PROTOCOL_STREAMING_FEE_INDEX);
}.

Lemma token_Ok s a c : setToken s a = Ok c <-> setTokens s !! a = Some c.
Proof. apply ModuleBase.setToken_Ok. Qed.

Lemma token_step_Ok a f s s' : on_set a f s = Ok s' -> exists c c',
  setTokens s !! a = Some c /\ f c = Ok c' /\ s' = set_setTokens s (<[ a := c' ]> (setTokens s)).
Proof.
  unfold on_set. intros Q. apply bind_Ok_inv in Q as (w & Q & E). apply Ok_inj in E as <-.
  apply ModuleBase.on_set_Ok in Q as (c & c' & Hc & Hf & ->). by exists c, c'.
Qed.

(** The fee of the time elapsed since the last accrual. *)
Lemma _calculateStreamingFee_Ok now a s fee : typed s -> is_uint256 now ->
  _calculateStreamingFee now a s = Ok fee ->
  fee = (now - lastStreamingFeeTimestamp (feeState s a)) * streamingFeePercentage (feeState s a) / YEAR /\
  lastStreamingFeeTimestamp (feeState s a) <= now /\ 0 <= fee /\ is_uint256 fee.
Proof.
  intros HT Hn Q. destruct (typed_fee _ HT a) as [Hp Hl]. unfold _calculateStreamingFee in Q.
  apply bind_Ok_inv in Q as (t & Qt & Q). apply bind_Ok_inv in Q as (x & Qx & Q).
  apply sm_sub_inv in Qt as [-> Ht]; [|done..]. apply sm_mul_inv in Qx as [-> Hx]; [|done..].
  apply sm_div_inv in Q as [-> _]; [|done|done].
  apply is_uint256_spec in Ht, Hx. split; [done|]. split; [lia|].
  revert Hx. generalize ((now - lastStreamingFeeTimestamp (feeState s a)) * streamingFeePercentage (feeState s a)).
  intros x Hx. assert (HY : 0 < YEAR) by done. pose proof (Z.div_pos x YEAR (proj1 Hx) HY).
  pose proof (Z.div_le_upper_bound x YEAR x HY ltac:(nia)). split; [done|]. apply is_uint256_spec. lia.
Qed.

(** Minting leaves the storage of the token alone. *)
Lemma mint_step a s s' isM r q : on_set a (SetToken.mint isM this r q) s = Ok s' -> exists c c',
  setTokens s !! a = Some c /\ s' = set_setTokens s (<[ a := c' ]> (setTokens s)) /\
  SetToken.vars c' = SetToken.vars c /\
  totalSupply (SetToken.tokens c') = totalSupply (SetToken.tokens c) + q /\
  forall b, balanceOf (SetToken.tokens c') b = balanceOf (SetToken.tokens c) b + if decide (b = r) then q else 0.
Proof.
  intros Q. apply token_step_Ok in Q as (c & c' & Hc & Q & ->). exists c, c'. split; [done|]. split; [done|].
  unfold SetToken.mint in Q. apply bind_Ok_inv in Q as (u & _ & Q). apply bind_Ok_inv in Q as (l & Ql & Q).
  apply Ok_inj in Q as <-. apply mint_Ok in Ql as (_ & HS & HB). by split_and!.
Qed.

(** [s'] differs from [s] in the token [a] only, which went from [c] to [c']. *)
Definition only_token (a : Address) (c' : SetToken.contract) (s s' : state) : Prop :=
  s' = set_setTokens s (<[ a := c' ]> (setTokens s)).

Lemma only_token_trans a c c' s s1 s2 : only_token a c s s1 -> only_token a c' s1 s2 -> only_token a c' s s2.
Proof. unfold only_token. intros -> ->. unfold set_setTokens. cbn. by rewrite insert_insert_eq. Qed.

Lemma _mintManagerAndProtocolFee_Ok a q s s' mp c : setTokens s !! a = Some c ->
  is_uint256 q -> is_uint256 (Controller.getModuleFee (controller s) this PROTOCOL_STREAMING_FEE_INDEX) ->
  _mintManagerAndProtocolFee a q s = Ok (s', mp) -> exists c',
  only_token a c' s s' /\ SetToken.vars c' = SetToken.vars c /\
  totalSupply (SetToken.tokens c') = totalSupply (SetToken.tokens c) + q /\
  mp.1 + mp.2 = q /\ 0 <= mp.1 /\ 0 <= mp.2 /\
  forall b, balanceOf (SetToken.tokens c') b = balanceOf (SetToken.tokens c) b +
    (if decide (b = feeRecipient (feeState s a)) then mp.1 else 0) +
    (if decide (b = Controller.feeRecipient (controller s)) then mp.2 else 0).
Proof.
  intros Hc Hq Hp Q. unfold _mintManagerAndProtocolFee in Q.
  apply bind_Ok_inv in Q as (p & Qp & Q). apply bind_Ok_inv in Q as (m & Qm & Q).
  apply preciseMul_sound in Qp as [_ Up]; [|done..]. apply sm_sub_inv in Qm as [-> Um]; [|done..].
  apply is_uint256_spec in Up, Um.
  apply bind_Ok_inv in Q as (s1 & Q1 & Q). apply bind_Ok_inv in Q as (s2 & Q2 & Q). apply Ok_inj in Q as [= <- <-].
  apply mint_step in Q1 as (c0 & c1 & Hc0 & E1 & V1 & S1 & B1). rewrite Hc in Hc0. injection Hc0 as <-.
  cbn [fst snd]. destruct (Z.ltb_spec 0 p) as [Hp0|Hp0].
  - apply mint_step in Q2 as (c2 & c3 & Hc2 & E2 & V2 & S2 & B2).
    rewrite E1 in Hc2. cbn in Hc2. rewrite lookup_insert_eq in Hc2. injection Hc2 as <-.
    exists c3. split; [by eapply only_token_trans|]. split; [congruence|]. split_and!; try lia.
    intros b. by rewrite B2, B1.
  - apply Ok_inj in Q2 as <-. exists c1. split_and!; try done; try lia.
    intros b. rewrite B1. replace p with 0 by lia. repeat case_decide; lia.
Qed.

Lemma _editPositionMultiplier_Ok a fee s s' c : setTokens s !! a = Some c ->
  SetToken.Inv (SetToken.vars c) -> is_uint256 fee -> _editPositionMultiplier a fee s = Ok s' ->
  let m := SetToken.positionMultiplier (SetToken.vars c) * (PRECISE_UNIT - fee) / PRECISE_UNIT in
  only_token a (SetToken.mkContract (SetToken.set_multiplier (SetToken.vars c) m
    (SetToken.PositionMultiplierEdited m)) (SetToken.tokens c)) s s' /\
  0 < m /\ is_int256 m /\ fee <= PRECISE_UNIT /\
  exists u, u ∈ SetToken.unit_sizes (SetToken.vars c) /\ 0 < u.
Proof.
  intros Hc HI Hf Q m. unfold _editPositionMultiplier in Q.
  apply bind_Ok_inv in Q as (k & Qk & Q). apply token_Ok in Qk. rewrite Hc in Qk. injection Qk as <-.
  apply bind_Ok_inv in Q as (d & Qd & Q). apply bind_Ok_inv in Q as (d' & Qd' & Q).
  apply bind_Ok_inv in Q as (n & Qn & Q).
  apply sm_sub_inv in Qd as [-> Ud]; [|apply PRECISE_UNIT_uint256|done].
  apply toInt256_Ok in Qd' as [-> Id]; [|done].
  apply preciseMulInt_Ok in Qn as [-> In]; [|apply (SetToken.inv_multiplier_int _ HI)|done].
  pose proof (SetToken.inv_multiplier _ HI) as HM. pose proof PRECISE_UNIT_pos as HP.
  apply is_uint256_spec in Ud. rewrite quot_nonneg in Q, In by nia. fold m in Q, In.
  apply token_step_Ok in Q as (c0 & c' & Hc0 & Q & ->). rewrite Hc in Hc0. injection Hc0 as <-.
  unfold SetToken.on_vars in Q. apply bind_Ok_inv in Q as (v & Qv & Q). apply Ok_inj in Q as <-.
  apply SetToken.editPositionMultiplier_Ok in Qv as (-> & Hm & Hu & _); [|done..].
  split; [done|]. split; [done|]. split; [done|]. split; [lia|done].
Qed.

(** What an accrual of a positive fee does: [fee] is the share of the supply,
    [q] the quantity minted for it. *)
Record accrued (now : Z) (a : Address) (s s' : state) (c c' : SetToken.contract) (fee q mq pq : Z) : Prop := {
  acc_fee : fee = (now - lastStreamingFeeTimestamp (feeState s a)) *
                  streamingFeePercentage (feeState s a) / YEAR;
  acc_time : lastStreamingFeeTimestamp (feeState s a) <= now;
  acc_range : 0 <= fee < PRECISE_UNIT;
  acc_quantity : q = fee * totalSupply (SetToken.tokens c) / (PRECISE_UNIT - fee);
  acc_supply : totalSupply (SetToken.tokens c') = totalSupply (SetToken.tokens c) + q;
  acc_split : mq + pq = q /\ 0 <= mq /\ 0 <= pq;
  acc_balance b : balanceOf (SetToken.tokens c') b = balanceOf (SetToken.tokens c) b +
    (if decide (b = feeRecipient (feeState s a)) then mq else 0) +
    (if decide (b = Controller.feeRecipient (controller s)) then pq else 0);
  acc_multiplier : SetToken.positionMultiplier (SetToken.vars c') =
    SetToken.positionMultiplier (SetToken.vars c) * (PRECISE_UNIT - fee) / PRECISE_UNIT;
  acc_positive : 0 < SetToken.positionMultiplier (SetToken.vars c');
  acc_vars : SetToken.vars c' = SetToken.set_multiplier (SetToken.vars c)
    (SetToken.positionMultiplier (SetToken.vars c'))
    (SetToken.PositionMultiplierEdited (SetToken.positionMultiplier (SetToken.vars c')));
  acc_unit : exists u, u ∈ SetToken.unit_sizes (SetToken.vars c) /\ 0 < u;
  acc_tokens : setTokens s' = <[ a := c' ]> (setTokens s);
}.

(** The rest of the state after an accrual. *)
Definition stamped (now : Z) (a : Address) (s s' : state) : Prop :=
  controller s' = controller s /\ entered (status s') = false /\
  forall b, feeState s' b = if decide (b = a)
    then mkFeeState (feeRecipient (feeState s a)) (maxStreamingFeePercentage (feeState s a))
           (streamingFeePercentage (feeState s a)) now
    else feeState s b.

Lemma feeState_insert s a f e b : feeState (set_feeStates s (<[ a := f ]> (feeStates s)) e) b =
  if decide (b = a) then f else feeState s b.
Proof.
  unfold feeState, set_feeStates. cbn. case_decide as E; [by rewrite E, lookup_insert_eq|].
  by rewrite lookup_insert_ne.
Qed.

(** [s'] differs from [s] in the tokens only. *)
Definition same_fees (s s' : state) : Prop := s' = set_setTokens s (setTokens s').

Lemma same_fees_on_set a f s s' : on_set a f s = Ok s' -> same_fees s s'.
Proof. intros Q. by apply token_step_Ok in Q as (c & c' & _ & _ & ->). Qed.

Lemma same_fees_trans s s1 s2 : same_fees s s1 -> same_fees s1 s2 -> same_fees s s2.
Proof. unfold same_fees. intros E1 E2. rewrite E1 in E2. exact E2. Qed.

Lemma same_fees_mint a q s s' mp : _mintManagerAndProtocolFee a q s = Ok (s', mp) -> same_fees s s'.
Proof.
  intros Q. unfold _mintManagerAndProtocolFee in Q.
  apply bind_Ok_inv in Q as (p & _ & Q). apply bind_Ok_inv in Q as (m & _ & Q).
  apply bind_Ok_inv in Q as (s1 & Q1 & Q). apply bind_Ok_inv in Q as (s2 & Q2 & Q). apply Ok_inj in Q as [= <- _].
  apply same_fees_on_set in Q1. destruct (0 <? p).
  - apply same_fees_on_set in Q2. by eapply same_fees_trans.
  - by apply Ok_inj in Q2 as <-.
Qed.

Lemma same_fees_edit a fee s s' : _editPositionMultiplier a fee s = Ok s' -> same_fees s s'.
Proof.
  intros Q. unfold _editPositionMultiplier in Q. apply bind_Ok_inv in Q as (k & _ & Q).
  apply bind_Ok_inv in Q as (d & _ & Q). apply bind_Ok_inv in Q as (d' & _ & Q).
  apply bind_Ok_inv in Q as (n & _ & Q). by apply same_fees_on_set in Q.
Qed.

Lemma accrueFee_stamped now a s s' : accrueFee now a s = Ok s' -> stamped now a s s'.
Proof.
  intros Q. unfold accrueFee in Q. apply bind_Ok_inv in Q as (g & _ & Q).
  apply bind_Ok_inv in Q as (u & _ & Q). apply bind_Ok_inv in Q as (r & Qr & Q). apply Ok_inj in Q as <-.
  assert (E : same_fees (set_status s g) r.1).
  { destruct (0 <? _); [|by apply Ok_inj in Qr as <-].
    apply bind_Ok_inv in Qr as (fee & _ & Qr). apply bind_Ok_inv in Qr as (q & _ & Qr).
    apply bind_Ok_inv in Qr as ([s1 mp] & Q1 & Qr). apply bind_Ok_inv in Qr as (s2 & Q2 & Qr).
    apply Ok_inj in Qr as <-. apply same_fees_mint in Q1. apply same_fees_edit in Q2. by eapply same_fees_trans. }
  rewrite E. split; [done|]. split; [apply leave_law|]. intros b.
  exact (feeState_insert (set_status s g) a _ [] b).
Qed.

Lemma accrueFee_Ok now a s s' c : typed s -> is_uint256 now -> setTokens s !! a = Some c ->
  accrueFee now a s = Ok s' -> stamped now a s s' /\
  (streamingFeePercentage (feeState s a) <= 0 -> setTokens s' = setTokens s) /\
  (0 < streamingFeePercentage (feeState s a) -> exists c' fee q mq pq, accrued now a s s' c c' fee q mq pq).
Proof.
  intros HT Hn Hc Q. pose proof (accrueFee_stamped _ _ _ _ Q) as HS'. split; [exact HS'|]. clear HS'.
  unfold accrueFee in Q. apply bind_Ok_inv in Q as (g & _ & Q).
  apply bind_Ok_inv in Q as (u & _ & Q). apply bind_Ok_inv in Q as (r & Qr & Q). apply Ok_inj in Q as <-.
  destruct (Z.ltb_spec 0 (streamingFeePercentage (feeState (set_status s g) a))) as [Hp|Hp];
    change (feeState (set_status s g) a) with (feeState s a) in Hp.
  2:{ apply Ok_inj in Qr as <-. by split; [|lia]. }
  apply bind_Ok_inv in Qr as (fee & Qf & Qr). apply bind_Ok_inv in Qr as (q & Qq & Qr).
  apply bind_Ok_inv in Qr as ([s1 [mq pq]] & Q1 & Qr). apply bind_Ok_inv in Qr as (s2 & Q2 & Qr).
  apply Ok_inj in Qr as <-. cbn [fst snd] in *.
  destruct (typed_set _ HT a c Hc) as [HI HS].
  change (_calculateStreamingFee now a s = Ok fee) in Qf.
  apply _calculateStreamingFee_Ok in Qf as (Ef & Ht & H0 & Uf); [|done..].
  unfold _calculateStreamingFeeInflation in Qq. apply bind_Ok_inv in Qq as (k & Qk & Qq).
  change (setToken s a = Ok k) in Qk. apply token_Ok in Qk. rewrite Hc in Qk. injection Qk as <-.
  apply bind_Ok_inv in Qq as (x & Qx & Qq). apply bind_Ok_inv in Qq as (y & Qy & Qq).
  apply sm_mul_inv in Qx as [-> Ux]; [|done..].
  apply sm_sub_inv in Qy as [-> Uy]; [|apply PRECISE_UNIT_uint256|done].
  apply sm_div_inv in Qq as [Eq Hy]; [|done..]. pose proof Uy as Uy'%is_uint256_spec.
  assert (Uq : is_uint256 q).
  { rewrite Eq. apply is_uint256_spec in Ux. apply is_uint256_spec. revert Ux.
    generalize (fee * totalSupply (SetToken.tokens c)). intros z Hz.
    pose proof (Z.div_pos z (PRECISE_UNIT - fee) ltac:(lia) ltac:(lia)).
    pose proof (Z.div_le_upper_bound z (PRECISE_UNIT - fee) z ltac:(lia) ltac:(nia)). lia. }
  pose proof (_mintManagerAndProtocolFee_Ok a q (set_status s g) s1 (mq, pq) c Hc Uq (typed_protocol _ HT) Q1) as H1.
  destruct H1 as (c1 & E1 & V1 & S1 & Hsum & Hm0 & Hp0 & B1).
  assert (Hc1 : setTokens s1 !! a = Some c1) by (rewrite E1; apply lookup_insert_eq).
  apply (_editPositionMultiplier_Ok a fee s1 s2 c1) in Q2; [|done|by rewrite V1|done].
  cbv zeta in Q2. rewrite V1 in Q2. destruct Q2 as (E2 & Hm & Im & _ & Hu).
  pose proof (only_token_trans _ _ _ _ _ _ E1 E2) as E. unfold only_token in E.
  split; [lia|]. intros _. eexists _, fee, q, mq, pq. rewrite E.
  constructor; try reflexivity; try done; cbn; lia.
Qed.

(** ** When an accrual goes through *)

(** The fee due at [now], the quantity it mints and the multiplier it leaves. *)
Definition fee_due (now : Z) (a : Address) (s : state) : Z :=
  (now - lastStreamingFeeTimestamp (feeState s a)) * streamingFeePercentage (feeState s a) / YEAR.
Definition minted (fee supply : Z) : Z := fee * supply / (PRECISE_UNIT - fee).
Definition reduced (fee m : Z) : Z := m * (PRECISE_UNIT - fee) / PRECISE_UNIT.

(** The module is enabled everywhere, the token is not locked by another module,
    the fee is below 100%, the protocol's cut at most that, the values fit their
    types, and every position survives the new multiplier. *)
Record ready (now : Z) (a : Address) (s : state) (c : SetToken.contract) : Prop := {
  ready_guard : entered (status s) = false;
  ready_set : a ∈ Controller.isSet (controller s);
  ready_token : SetToken.privileged (isModule s) this (SetToken.vars c) = Ok tt;
  ready_recipients : feeRecipient (feeState s a) <> ADDRESS_ZERO /\
                     Controller.feeRecipient (controller s) <> ADDRESS_ZERO;
  ready_time : lastStreamingFeeTimestamp (feeState s a) <= now /\
    (now - lastStreamingFeeTimestamp (feeState s a)) * streamingFeePercentage (feeState s a) < 2 ^ 256;
  ready_fee : fee_due now a s < PRECISE_UNIT;
  ready_cut : Controller.getModuleFee (controller s) this PROTOCOL_STREAMING_FEE_INDEX <= PRECISE_UNIT;
  ready_supply : let S := totalSupply (SetToken.tokens c) in
    fee_due now a s * S < 2 ^ 256 /\ (S + minted (fee_due now a s) S) * PRECISE_UNIT < 2 ^ 256;
  ready_positions : (forall x, x ∈ SetToken.components (SetToken.vars c) ->
      0 <= SetToken.virtualUnit (SetToken.position (SetToken.vars c) x)) /\
    (forall x m, SetToken.ext_virtualUnit (SetToken.externalPosition (SetToken.vars c) x m) <> - 2 ^ 255) /\
    (exists u, u ∈ SetToken.unit_sizes (SetToken.vars c) /\ 0 < u < 2 ^ 255);
  ready_multiplier : let m := SetToken.positionMultiplier (SetToken.vars c) in
    m * PRECISE_UNIT < 2 ^ 255 /\
    forall u, u ∈ SetToken.unit_sizes (SetToken.vars c) -> 0 < u ->
      PRECISE_UNIT <= u * reduced (fee_due now a s) m < 2 ^ 255;
}.

Lemma token_step_run a f s c c' : setTokens s !! a = Some c -> f c = Ok c' ->
  on_set a f s = Ok (set_setTokens s (<[ a := c' ]> (setTokens s))).
Proof. intros Hc Hf. unfold on_set. by rewrite (ModuleBase.on_set_run _ _ _ c c'). Qed.

Lemma mint_run a s c r q : setTokens s !! a = Some c -> SetToken.privileged (isModule s) this (SetToken.vars c) = Ok tt ->
  r <> ADDRESS_ZERO -> is_uint256 q -> totalSupply (SetToken.tokens c) + q < 2 ^ 256 ->
  exists c', on_set a (SetToken.mint (isModule s) this r q) s = Ok (set_setTokens s (<[ a := c' ]> (setTokens s))) /\
    SetToken.vars c' = SetToken.vars c /\
    totalSupply (SetToken.tokens c') = totalSupply (SetToken.tokens c) + q.
Proof.
  intros Hc HP Hr Hq HS. destruct (mint_succeeds r q (SetToken.tokens c) Hr Hq HS) as [l Hl].
  pose proof (mint_Ok _ _ _ _ Hl) as (_ & Hs & _).
  exists (SetToken.mkContract (SetToken.vars c) l). split; [|done]. apply (token_step_run _ _ _ c); [done|].
  unfold SetToken.mint. by rewrite HP, bind_Ok, Hl, bind_Ok.
Qed.

Lemma mintManagerAndProtocolFee_run a q s c : setTokens s !! a = Some c ->
  SetToken.privileged (isModule s) this (SetToken.vars c) = Ok tt ->
  feeRecipient (feeState s a) <> ADDRESS_ZERO -> Controller.feeRecipient (controller s) <> ADDRESS_ZERO ->
  let cut := Controller.getModuleFee (controller s) this PROTOCOL_STREAMING_FEE_INDEX in
  is_uint256 cut -> cut <= PRECISE_UNIT -> is_uint256 q -> 0 <= totalSupply (SetToken.tokens c) ->
  (totalSupply (SetToken.tokens c) + q) * PRECISE_UNIT < 2 ^ 256 ->
  exists s' mp c', _mintManagerAndProtocolFee a q s = Ok (s', mp) /\ setTokens s' !! a = Some c' /\
    SetToken.vars c' = SetToken.vars c /\ controller s' = controller s.
Proof.
  intros Hc HP Hr Hr' cut Hcut Hle Hq H0 HS. pose proof PRECISE_UNIT_pos as HU.
  pose proof Hq as Hq'%is_uint256_spec. pose proof Hcut as Hc'%is_uint256_spec.
  assert (Hq2 : q * cut < 2 ^ 256) by nia.
  assert (Hp : 0 <= q * cut / PRECISE_UNIT <= q).
  { split; [apply Z.div_pos; nia|]. apply Z.div_le_upper_bound; nia. }
  assert (HS' : totalSupply (SetToken.tokens c) + q < 2 ^ 256) by nia.
  unfold _mintManagerAndProtocolFee. fold cut. rewrite preciseMul_defined by done. rewrite bind_Ok.
  set (p := q * cut / PRECISE_UNIT) in *. clearbody p.
  assert (Up : is_uint256 p) by (apply is_uint256_spec; lia).
  rewrite sm_sub_Ok by (done || lia). rewrite bind_Ok.
  assert (Uq : is_uint256 (q - p)) by (apply is_uint256_spec; lia).
  destruct (mint_run a s c (feeRecipient (feeState s a)) (q - p) Hc HP Hr Uq ltac:(lia)) as (c1 & -> & V1 & S1).
  rewrite bind_Ok. set (s1 := set_setTokens s (<[ a := c1 ]> (setTokens s))).
  assert (Hc1 : setTokens s1 !! a = Some c1) by apply lookup_insert_eq.
  destruct (Z.ltb_spec 0 p) as [Hp0|Hp0].
  - rewrite <- V1 in HP. destruct (mint_run a s1 c1 (Controller.feeRecipient (controller s)) p Hc1 HP Hr' Up ltac:(lia))
      as (c2 & E2 & V2 & _). rewrite E2, !bind_Ok. eexists _, _, c2. split; [reflexivity|].
    split; [apply lookup_insert_eq|]. by rewrite V2.
  - rewrite !bind_Ok. by eexists _, _, c1.
Qed.

Lemma editPositionMultiplier_run a fee s c : setTokens s !! a = Some c -> SetToken.Inv (SetToken.vars c) ->
  SetToken.privileged (isModule s) this (SetToken.vars c) = Ok tt -> 0 <= fee < PRECISE_UNIT ->
  (forall x, x ∈ SetToken.components (SetToken.vars c) ->
      0 <= SetToken.virtualUnit (SetToken.position (SetToken.vars c) x)) ->
  (forall x m, SetToken.ext_virtualUnit (SetToken.externalPosition (SetToken.vars c) x m) <> - 2 ^ 255) ->
  (exists u, u ∈ SetToken.unit_sizes (SetToken.vars c) /\ 0 < u < 2 ^ 255) ->
  let m := SetToken.positionMultiplier (SetToken.vars c) in m * PRECISE_UNIT < 2 ^ 255 ->
  (forall u, u ∈ SetToken.unit_sizes (SetToken.vars c) -> 0 < u -> PRECISE_UNIT <= u * reduced fee m < 2 ^ 255) ->
  exists s', _editPositionMultiplier a fee s = Ok s'.
Proof.
  intros Hc HI HP Hf HD HX HU m Hm HS. pose proof PRECISE_UNIT_pos as HPU.
  pose proof (SetToken.inv_multiplier _ HI) as Hm0. fold m in Hm0.
  pose proof (SetToken.inv_multiplier_int _ HI) as Im. fold m in Im.
  assert (HPU' : PRECISE_UNIT < 2 ^ 255) by done.
  assert (Uf : is_uint256 fee) by (apply is_uint256_spec; change (2 ^ 256) with (2 * 2 ^ 255); lia).
  assert (Ud : is_uint256 (PRECISE_UNIT - fee)) by (apply is_uint256_spec; change (2 ^ 256) with (2 * 2 ^ 255); lia).
  assert (Id : is_int256 (PRECISE_UNIT - fee)) by (apply is_int256_spec; lia).
  assert (Hmd : m * (PRECISE_UNIT - fee) < 2 ^ 255) by nia.
  destruct HU as (u & Hu & Hu0). destruct (HS u Hu (proj1 Hu0)) as [Hr _].
  assert (Hrm : 0 < reduced fee m) by nia. assert (Hle : reduced fee m <= m) by (apply Z.div_le_upper_bound; nia).
  unfold _editPositionMultiplier. rewrite (proj2 (token_Ok s a c) Hc), bind_Ok.
  rewrite sm_sub_Ok; [|apply PRECISE_UNIT_uint256|exact Uf|lia].
  rewrite bind_Ok, toInt256_defined; [|exact Ud|lia]. rewrite bind_Ok. fold m.
  rewrite preciseMulInt_defined; [|exact Im|exact Id|lia|lia|exact Hmd]. rewrite bind_Ok. fold (reduced fee m).
  eexists. apply (token_step_run _ _ _ c); [done|]. unfold SetToken.on_vars.
  assert (Ir : is_int256 (reduced fee m)) by (apply is_int256_spec in Im; apply is_int256_spec; lia).
  rewrite (SetToken.editPositionMultiplier_succeeds (isModule s) this (reduced fee m) (SetToken.vars c) HI Ir Hrm HP HD HX
    (ex_intro _ u (conj Hu Hu0)) HS). rewrite bind_Ok. reflexivity.
Qed.

End Module_.

(** ** Units *)

(** The rounding of the expected unit is the floor for both signs. *)
Lemma post_fee_unit_floor f u : 0 <= f <= PRECISE_UNIT -> post_fee_unit f u = u * (PRECISE_UNIT - f) / PRECISE_UNIT.
Proof.
  intros Hf. pose proof PRECISE_UNIT_pos as HP. unfold post_fee_unit. destruct (Z.leb_spec 0 u) as [Hu|Hu].
  - rewrite quot_nonneg by nia. done.
  - destruct (decide (f = PRECISE_UNIT)) as [->|Hne]; [by rewrite Z.sub_diag, Z.mul_0_r|].
    rewrite div_away_neg_l by nia. unfold cdiv. by rewrite Z.opp_involutive, Z.opp_involutive.
Qed.

(** Scaling a virtual unit by the new multiplier and scaling the old real unit
    by the fee differ by less than [v / PRECISE_UNIT + 2]. *)
Lemma scaled_unit v m f : 0 < m -> 0 <= f <= PRECISE_UNIT ->
  Z.abs (v * (m * (PRECISE_UNIT - f) / PRECISE_UNIT) / PRECISE_UNIT -
         v * m / PRECISE_UNIT * (PRECISE_UNIT - f) / PRECISE_UNIT) * PRECISE_UNIT < Z.abs v + 2 * PRECISE_UNIT.
Proof.
  intros Hm Hf. pose proof PRECISE_UNIT_pos as HP. revert HP Hf. generalize PRECISE_UNIT as P. intros P HP Hf.
  pose proof (floor_bounds (m * (P - f)) P HP) as H1. set (m' := m * (P - f) / P) in *.
  pose proof (floor_bounds (v * m) P HP) as H2. set (u := v * m / P) in *.
  pose proof (floor_bounds (v * m') P HP) as H3. set (u' := v * m' / P) in *.
  pose proof (floor_bounds (u * (P - f)) P HP) as H4. set (e := u * (P - f) / P) in *.
  clearbody m' u u' e.
  assert (HA : Z.abs (v * m' * P - v * m * (P - f)) <= Z.abs v * P).
  { replace (v * m' * P - v * m * (P - f)) with (v * (m' * P - m * (P - f))) by lia.
    rewrite Z.abs_mul. apply Z.mul_le_mono_nonneg_l; lia. }
  assert (HB : 0 <= v * m * (P - f) - u * P * (P - f) <= P * P) by nia.
  assert (HC : (u' * P - e * P) * P < (Z.abs v + 2 * P) * P) by nia.
  assert (HD : (e * P - u' * P) * P < (Z.abs v + 2 * P) * P) by nia.
  apply Z.mul_lt_mono_pos_r in HC, HD; lia.
Qed.

(** Supply and multiplier: what one loses covers what the other gains. *)
Lemma inflation_covered S m f : 0 <= S -> 0 < m -> 0 <= f < PRECISE_UNIT ->
  (S + f * S / (PRECISE_UNIT - f)) * (m * (PRECISE_UNIT - f) / PRECISE_UNIT) <= S * m.
Proof.
  intros HS Hm Hf. pose proof PRECISE_UNIT_pos as HP. revert HP Hf. generalize PRECISE_UNIT as P. intros P HP Hf.
  pose proof (floor_bounds (m * (P - f)) P HP) as H1. set (m' := m * (P - f) / P) in *.
  pose proof (floor_bounds (f * S) (P - f) ltac:(lia)) as H2. set (q := f * S / (P - f)) in *.
  assert (Hq : 0 <= q) by (apply Z.div_pos; nia). assert (Hm' : 0 <= m') by (apply Z.div_pos; nia).
  clearbody m' q. assert (Hs : (S + q) * (P - f) <= S * P) by lia.
  assert (Hx : (S + q) * (m' * P) <= (S + q) * (m * (P - f))) by (apply Z.mul_le_mono_nonneg_l; lia).
  assert (Hy : (S + q) * (P - f) * m <= S * P * m) by (apply Z.mul_le_mono_nonneg_r; lia).
  apply (Z.mul_le_mono_pos_r _ _ P HP). lia.
Qed.

(** ** Theorems on an accrual *)

Section Theorems.
Context `{OZ : OpenZeppelin} `{ET : ERC20} `{RG : ReentrancyGuard} `{BN : BigNumber} (this : Address).

(** The state of the module as the getter [feeStates] returns it. *)
Definition getter (s : state) (a : Address) : result StreamingFeeState :=
  let f := feeState s a in
  Ok (mkStreamingFeeState (feeRecipient f) (streamingFeePercentage f) (maxStreamingFeePercentage f)
        (lastStreamingFeeTimestamp f)).

(** Scaling a position by the new multiplier. *)
Lemma rescaled s m' v u : SetToken.Inv s -> 0 < m' <= SetToken.positionMultiplier s -> is_int256 v ->
  SetToken._convertVirtualToRealUnit s v = Ok u ->
  u = v * SetToken.positionMultiplier s / PRECISE_UNIT /\
  conservativePreciseMul v m' = Ok (v * m' / PRECISE_UNIT).
Proof.
  intros HI Hm Hv Q. pose proof (SetToken.inv_multiplier_int _ HI) as HM.
  apply conservativePreciseMul_Ok in Q as (-> & _ & HP); [|done..]. split; [done|].
  apply is_int256_spec in HM, HP, Hv. apply conservativePreciseMul_floor; apply is_int256_spec; [done|lia|].
  set (m := SetToken.positionMultiplier s) in *. destruct (Z.le_ge_cases 0 v) as [H0|H0].
  - pose proof (Z.mul_le_mono_nonneg_l m' m v H0 ltac:(lia)). pose proof (Z.mul_nonneg_nonneg v m' H0 ltac:(lia)). lia.
  - pose proof (Z.mul_le_mono_nonpos_l m' m v H0 ltac:(lia)). pose proof (Z.mul_nonpos_nonneg v m' H0 ltac:(lia)). lia.
Qed.

(** C5: An accrual of a positive fee is the one [utils/common/feeModuleUtils.ts]
    expects: the fee is [getStreamingFee] of the elapsed time, the quantity
    minted, to manager and protocol together, [getStreamingFeeInflationAmount] of
    it. Every position keeps its virtual unit, and its real unit is the one of
    [getPostFeePositionUnits] exactly while the multiplier was still one, and
    afterwards up to an error of less than [|v| / 10^18 + 2] for virtual unit [v]. *)
Theorem accrueFee_expected now a s s' c : typed this s -> is_uint256 now -> setTokens s !! a = Some c ->
  0 < streamingFeePercentage (feeState s a) -> accrueFee this now a s = Ok s' ->
  exists c' fee q, setTokens s' !! a = Some c' /\
    getStreamingFee (getter s) a (lastStreamingFeeTimestamp (feeState s a)) now None = Ok fee /\
    getStreamingFeeInflationAmount fee (totalSupply (SetToken.tokens c)) = Ok q /\
    totalSupply (SetToken.tokens c') = totalSupply (SetToken.tokens c) + q /\
    SetToken.componentPositions (SetToken.vars c') = SetToken.componentPositions (SetToken.vars c) /\
    forall v u, is_int256 v -> SetToken._convertVirtualToRealUnit (SetToken.vars c) v = Ok u ->
      exists u' e, SetToken._convertVirtualToRealUnit (SetToken.vars c') v = Ok u' /\
        getPostFeePositionUnits [u] fee = Ok [e] /\
        (SetToken.positionMultiplier (SetToken.vars c) = PRECISE_UNIT -> u' = e) /\
        Z.abs (u' - e) * PRECISE_UNIT < Z.abs v + 2 * PRECISE_UNIT.
Proof.
  intros HT Hn Hc Hp Q. destruct (accrueFee_Ok _ _ _ _ _ _ HT Hn Hc Q) as (_ & _ & HA).
  destruct (HA Hp) as (c' & fee & q & mq & pq & [Ef Ht Hf Eq ES _ _ EM HM EV _ Et]). clear HA Q.
  destruct (typed_set _ _ HT a c Hc) as [HI HS%is_uint256_spec]. pose proof PRECISE_UNIT_pos as HP.
  exists c', fee, q. rewrite Et, lookup_insert_eq. split; [done|]. split; [|split; [|split; [done|split]]].
  - rewrite (getStreamingFee_eq _ _ _ _ _ _ eq_refl), Ef. cbn [default getter Constants.streamingFeePercentage].
    change ONE_YEAR_IN_SECONDS with YEAR. by rewrite quot_nonneg by (done || apply Z.mul_nonneg_nonneg; lia).
  - unfold getStreamingFeeInflationAmount. bn_simpl. rewrite bn_div_law by lia.
    rewrite quot_nonneg; [by rewrite Eq|apply Z.mul_nonneg_nonneg; lia|lia].
  - by rewrite EV.
  - intros v u Hv Qv. set (m := SetToken.positionMultiplier (SetToken.vars c)) in *.
    pose proof (SetToken.inv_multiplier _ HI) as Hm. fold m in Hm.
    assert (Hle : SetToken.positionMultiplier (SetToken.vars c') <= m).
    { rewrite EM. apply Z.div_le_upper_bound; nia. }
    destruct (rescaled _ _ v u HI (conj HM Hle) Hv Qv) as [Eu Q'].
    eexists _, _. split; [exact Q'|]. rewrite getPostFeePositionUnits_eq. split; [reflexivity|].
    rewrite post_fee_unit_floor by lia. rewrite Eu, EM. fold m. split.
    + intros ->. by rewrite (Z.mul_comm PRECISE_UNIT), !Z.div_mul by lia.
    + apply scaled_unit; lia.
Qed.

(** An accrual dilutes nobody by more than the fee and takes nothing from the
    backing of the token. The quantity minted goes to the fee recipient and the
    protocol, who together hold at most the fee's share of the new supply; every
    other balance, every other token and all terms stay; and the components that
    supply and multiplier claim for any virtual unit after the accrual are at most
    those the exact, unrounded claims were before. *)
Theorem accrueFee_backed now a s s' c : typed this s -> is_uint256 now -> setTokens s !! a = Some c ->
  0 < streamingFeePercentage (feeState s a) -> accrueFee this now a s = Ok s' ->
  exists c' mq pq, setTokens s' = <[ a := c' ]> (setTokens s) /\ 0 <= mq /\ 0 <= pq /\
    (forall b, balanceOf (SetToken.tokens c') b = balanceOf (SetToken.tokens c) b +
       (if decide (b = feeRecipient (feeState s a)) then mq else 0) +
       (if decide (b = Controller.feeRecipient (controller s)) then pq else 0)) /\
    totalSupply (SetToken.tokens c') = totalSupply (SetToken.tokens c) + (mq + pq) /\
    (mq + pq) * PRECISE_UNIT <= (now - lastStreamingFeeTimestamp (feeState s a)) *
      streamingFeePercentage (feeState s a) / YEAR * totalSupply (SetToken.tokens c') /\
    forall v u', 0 <= v -> is_int256 v -> SetToken._convertVirtualToRealUnit (SetToken.vars c') v = Ok u' ->
      totalSupply (SetToken.tokens c') * u' * PRECISE_UNIT <=
      totalSupply (SetToken.tokens c) * (v * SetToken.positionMultiplier (SetToken.vars c)).
Proof.
  intros HT Hn Hc Hp Q. destruct (accrueFee_Ok _ _ _ _ _ _ HT Hn Hc Q) as (_ & _ & HA).
  destruct (HA Hp) as (c' & fee & q & mq & pq & [Ef Ht Hf Eq ES (Esum & Hm & Hpq) EB EM HM EV _ Et]). clear HA Q.
  destruct (typed_set _ _ HT a c Hc) as [HI HS%is_uint256_spec].
  pose proof (SetToken.inv_multiplier _ HI) as HM0. pose proof PRECISE_UNIT_pos as HP.
  exists c', mq, pq. rewrite Esum, <- Ef. split_and!; try done.
  - pose proof (floor_bounds (fee * totalSupply (SetToken.tokens c)) (PRECISE_UNIT - fee) ltac:(lia)) as HF.
    rewrite <- Eq in HF. rewrite ES. lia.
  - intros v u' Hv Hi Qu.
    assert (HI' : is_int256 (SetToken.positionMultiplier (SetToken.vars c'))).
    { pose proof (SetToken.inv_multiplier_int _ HI) as Hx%is_int256_spec. apply is_int256_spec.
      assert (SetToken.positionMultiplier (SetToken.vars c') <= SetToken.positionMultiplier (SetToken.vars c))
        by (rewrite EM; apply Z.div_le_upper_bound; nia). lia. }
    apply conservativePreciseMul_Ok in Qu as (-> & _); [|done..].
    pose proof (inflation_covered _ _ fee (proj1 HS) HM0 Hf) as HC. rewrite <- EM, <- Eq, <- ES in HC.
    set (S' := totalSupply (SetToken.tokens c')) in *. set (m' := SetToken.positionMultiplier (SetToken.vars c')) in *.
    pose proof (Z.mul_div_le (v * m') PRECISE_UNIT HP) as HD.
    assert (0 <= S') by (rewrite ES, <- Esum; lia). transitivity (S' * (v * m')); nia.
Qed.

(** C33: An accrual goes through whenever it should: with the module enabled, the
    token free, sound terms, a fee below 100% and positions that the new
    multiplier leaves above zero, [accrueFee] returns, whoever calls it. *)
Theorem accrueFee_succeeds now a s c : typed this s -> is_uint256 now -> setTokens s !! a = Some c ->
  ready this now a s c -> exists s', accrueFee this now a s = Ok s'.
Proof.
  intros HT Hn Hc [HG HSet HA [Hr Hr'] [Ht Hel] Hf Hcut [HS HS'] (HD & HX & HU) [Hm HPos]].
  destruct (typed_set _ _ HT a c Hc) as [HI US]. destruct (typed_fee _ _ HT a) as [Up Ul].
  pose proof PRECISE_UNIT_pos as HP. pose proof Up as Hp%is_uint256_spec. pose proof US as HS0%is_uint256_spec.
  pose proof (enter_law (status s)) as HE. rewrite HG in HE. destruct HE as (g & Eg & _).
  unfold accrueFee. rewrite Eg, bind_Ok. set (s0 := set_status s g).
  assert (HV : ModuleBase._validateOnlyValidAndInitializedSet this a (world s0) = Ok tt).
  { apply (ModuleBase.initialized_run this a (world s0) c HSet Hc). by apply SetToken.privileged_Ok in HA as (HA & _). }
  rewrite HV, bind_Ok. destruct (Z.ltb_spec 0 (streamingFeePercentage (feeState s0 a))) as [Hp0|_];
    [|by eexists].
  assert (HF : _calculateStreamingFee now a s0 = Ok (fee_due now a s) /\ 0 <= fee_due now a s).
  { unfold _calculateStreamingFee, fee_due. change (feeState s0 a) with (feeState s a).
    rewrite sm_sub_Ok by done. rewrite bind_Ok. apply is_uint256_spec in Ul.
    pose proof (Z.mul_nonneg_nonneg (now - lastStreamingFeeTimestamp (feeState s a))
      (streamingFeePercentage (feeState s a)) ltac:(lia) ltac:(lia)) as H0.
    apply is_uint256_spec in Hn. rewrite sm_mul_Ok by (done || apply is_uint256_spec; lia). rewrite bind_Ok.
    split; [|by apply Z.div_pos]. apply sm_div_spec; [by apply is_uint256_spec|done|done]. }
  destruct HF as [-> H0]. rewrite bind_Ok.
  set (fee := fee_due now a s) in *. clearbody fee. set (S := totalSupply (SetToken.tokens c)) in *.
  assert (HP256 : PRECISE_UNIT < 2 ^ 256) by (by vm_compute). assert (Uf : is_uint256 fee) by (apply is_uint256_spec; lia).
  assert (Hq : 0 <= minted fee S) by (apply Z.div_pos; [apply Z.mul_nonneg_nonneg; lia|lia]).
  assert (HQ : _calculateStreamingFeeInflation a fee s0 = Ok (minted fee S)).
  { unfold _calculateStreamingFeeInflation. rewrite (proj2 (token_Ok s0 a c) Hc), bind_Ok. fold S.
    rewrite sm_mul_Ok by done. rewrite bind_Ok, sm_sub_Ok; [|apply PRECISE_UNIT_uint256|exact Uf|lia].
    rewrite bind_Ok. apply sm_div_spec; [apply is_uint256_spec; split; [apply Z.mul_nonneg_nonneg; lia|done] | |lia].
    apply is_uint256_spec. lia. }
  rewrite HQ, bind_Ok. assert (Uq : is_uint256 (minted fee S)) by (apply is_uint256_spec; nia).
  destruct (mintManagerAndProtocolFee_run this a (minted fee S) s0 c Hc HA Hr Hr' (typed_protocol _ _ HT) Hcut Uq
    (proj1 HS0) HS') as (s1 & mp & c1 & -> & Hc1 & V1 & E1). rewrite bind_Ok. cbn [fst snd].
  assert (HA1 : SetToken.privileged (isModule s1) this (SetToken.vars c1) = Ok tt)
    by (unfold isModule, ModuleBase.isModule, world; cbn; rewrite V1, E1; exact HA).
  rewrite <- V1 in HI, HD, HU, Hm, HPos.
  assert (HX1 : forall x m, SetToken.ext_virtualUnit (SetToken.externalPosition (SetToken.vars c1) x m) <> - 2 ^ 255)
    by (by rewrite V1).
  destruct (editPositionMultiplier_run this a fee s1 c1 Hc1 HI HA1 (conj H0 Hf) HD HX1 HU Hm HPos) as [s2 ->].
  rewrite !bind_Ok. by eexists.
Qed.

(** ** When it never does *)

Lemma accrueFee_token now a s s' : 0 < streamingFeePercentage (feeState s a) -> accrueFee this now a s = Ok s' ->
  exists c, setTokens s !! a = Some c.
Proof.
  intros Hp Q. unfold accrueFee in Q. apply bind_Ok_inv in Q as (g & _ & Q). apply bind_Ok_inv in Q as (u & _ & Q).
  apply bind_Ok_inv in Q as (r & Qr & _). change (feeState (set_status s g) a) with (feeState s a) in Qr.
  rewrite (proj2 (Z.ltb_lt _ _) Hp) in Qr. apply bind_Ok_inv in Qr as (fee & _ & Qr).
  apply bind_Ok_inv in Qr as (q & Qq & _). unfold _calculateStreamingFeeInflation in Qq.
  apply bind_Ok_inv in Qq as (c & Qc%token_Ok & _). by exists c.
Qed.

(** What an accrual of a positive fee presupposes. *)
Lemma accrueFee_needs now a s s' : typed this s -> is_uint256 now -> 0 < streamingFeePercentage (feeState s a) ->
  accrueFee this now a s = Ok s' -> fee_due now a s < PRECISE_UNIT /\
  exists c, setTokens s !! a = Some c /\ SetToken.components (SetToken.vars c) <> [].
Proof.
  intros HT Hn Hp Q. destruct (accrueFee_token _ _ _ _ Hp Q) as [c Hc].
  destruct (accrueFee_Ok _ _ _ _ _ _ HT Hn Hc Q) as (_ & _ & HA).
  destruct (HA Hp) as (c' & fee & q & mq & pq & [Ef _ Hf _ _ _ _ _ _ _ (u & Hu & _) _]).
  split; [unfold fee_due; rewrite <- Ef; apply Hf|]. exists c. split; [done|]. intros E.
  unfold SetToken.unit_sizes in Hu. rewrite E in Hu. by apply elem_of_nil in Hu.
Qed.

Lemma updateStreamingFee_accrues sender now a fee s s' : updateStreamingFee this sender now a fee s = Ok s' ->
  exists s1, accrueFee this now a s = Ok s1.
Proof.
  intros E. unfold updateStreamingFee in E. do 3 apply bind_Ok_inv in E as (? & _ & E).
  apply bind_Ok_inv in E as (s1 & E & _). by exists s1.
Qed.

(** Without any component left, a positive fee can neither be accrued nor changed. *)
Theorem accrueFee_without_components now a s c : typed this s -> is_uint256 now -> setTokens s !! a = Some c ->
  0 < streamingFeePercentage (feeState s a) -> SetToken.components (SetToken.vars c) = [] ->
  is_Ok (accrueFee this now a s) = false /\
  forall sender fee, is_Ok (updateStreamingFee this sender now a fee s) = false.
Proof.
  intros HT Hn Hc Hp H0.
  assert (HA : forall s', accrueFee this now a s <> Ok s').
  { intros s' Q. destruct (accrueFee_needs _ _ _ _ HT Hn Hp Q) as (_ & c' & Hc' & HN).
    rewrite Hc in Hc'. by injection Hc' as <-. }
  split; [destruct (accrueFee _ _ _ _) as [s'|e] eqn:E; [by destruct (HA s')|done]|]. intros sender fee.
  destruct (updateStreamingFee _ _ _ _ _ _) as [s'|e] eqn:E; [|done].
  apply updateStreamingFee_accrues in E as [s1 E]. by destruct (HA s1).
Qed.

(** ** The terms of a fee *)

(** The terms of one SetToken at time [now]. *)
Definition sound_terms (now : Z) (f : FeeState) : Prop :=
  0 <= streamingFeePercentage f <= maxStreamingFeePercentage f /\ maxStreamingFeePercentage f < PRECISE_UNIT /\
  (0 < maxStreamingFeePercentage f -> feeRecipient f <> ADDRESS_ZERO) /\ lastStreamingFeeTimestamp f <= now.

Definition call_typed (k : Call) : Prop :=
  match k with
  | Initialize _ f => is_uint256 (streamingFeePercentage f)
  | UpdateStreamingFee _ fee => is_uint256 fee
  | _ => True
  end.

(** A call of anyone, time that passes, and what happens to controller and
    SetTokens meanwhile. *)
Inductive move : Z * state -> Z * state -> Prop :=
  | move_call sender k now s s' : call_typed k -> exec this sender now k s = Ok s' -> move (now, s) (now, s')
  | move_time now now' s : now <= now' -> move (now, s) (now', s)
  | move_world now s c sets : move (now, s) (now, mk (status s) (feeStates s) (emitted s) c sets).

Lemma feeState_delete s a b : feeState (set_feeStates s (delete a (feeStates s)) []) b =
  if decide (b = a) then no_fee else feeState s b.
Proof.
  unfold feeState, set_feeStates. cbn. case_decide as E; [by rewrite E, lookup_delete_eq|].
  by rewrite lookup_delete_ne.
Qed.

(** What each call does to the terms of every SetToken. *)
Lemma exec_terms sender now k s s' : exec this sender now k s = Ok s' -> forall b,
  match k with
  | AccrueFee a => feeState s' b = if decide (b = a)
      then mkFeeState (feeRecipient (feeState s a)) (maxStreamingFeePercentage (feeState s a))
             (streamingFeePercentage (feeState s a)) now else feeState s b
  | Initialize a f => feeRecipient f <> ADDRESS_ZERO /\ maxStreamingFeePercentage f < PRECISE_UNIT /\
      streamingFeePercentage f <= maxStreamingFeePercentage f /\
      (exists c, setTokens s !! a = Some c /\ SetToken.manager (SetToken.vars c) = sender /\
         SetToken.moduleState (SetToken.vars c) this = PENDING) /\
      feeState s' b = if decide (b = a) then mkFeeState (feeRecipient f) (maxStreamingFeePercentage f)
                                               (streamingFeePercentage f) now else feeState s b
  | RemoveModule => feeState s' b = if decide (b = sender) then no_fee else feeState s b
  | UpdateStreamingFee a fee => fee < maxStreamingFeePercentage (feeState s a) /\
      (exists c, setTokens s !! a = Some c /\ SetToken.manager (SetToken.vars c) = sender) /\
      feeState s' b = if decide (b = a)
        then mkFeeState (feeRecipient (feeState s a)) (maxStreamingFeePercentage (feeState s a)) fee now
        else feeState s b
  | UpdateFeeRecipient a r => r <> ADDRESS_ZERO /\
      (exists c, setTokens s !! a = Some c /\ SetToken.manager (SetToken.vars c) = sender) /\
      feeState s' b = if decide (b = a)
        then mkFeeState r (maxStreamingFeePercentage (feeState s a)) (streamingFeePercentage (feeState s a))
               (lastStreamingFeeTimestamp (feeState s a))
        else feeState s b
  end.
Proof.
  intros Q b. destruct k as [a|a f| |a fee|a r]; cbn [exec] in Q.
  - apply accrueFee_stamped in Q as (_ & _ & Q). apply Q.
  - unfold initialize in Q. apply bind_Ok_inv in Q as (u1 & Q1 & Q). apply bind_Ok_inv in Q as (u2 & Q2 & Q).
    apply bind_Ok_inv in Q as (u3 & Q3 & Q). apply bind_Ok_inv in Q as (u4 & Q4 & Q).
    apply bind_Ok_inv in Q as (u5 & Q5 & Q). apply ModuleBase.manager_Ok in Q1 as (c & Hc & Hm).
    apply (ModuleBase.pending_Ok this _ _ _ _ Q2) in Hc as Hp. destruct Hp as [_ Hp].
    apply same_fees_on_set in Q. guards.
    split; [done|]. split; [done|]. split; [done|]. split; [by exists c|].
    rewrite Q. exact (feeState_insert s a _ [] b).
  - apply Ok_inj in Q as <-. apply feeState_delete.
  - unfold updateStreamingFee in Q. apply bind_Ok_inv in Q as (u1 & Q1 & Q). apply bind_Ok_inv in Q as (u2 & Q2 & Q).
    apply bind_Ok_inv in Q as (u3 & Q3 & Q). apply bind_Ok_inv in Q as (s1 & Qs & Q). apply Ok_inj in Q as <-.
    apply require_Ok_inv, Z.ltb_lt in Q3. apply ModuleBase.manager_Ok in Q1. split; [done|]. split; [done|].
    apply accrueFee_stamped in Qs as (_ & _ & Qs). rewrite feeState_insert, !Qs.
    destruct (decide (b = a)); [by rewrite !decide_True by done|done].
  - unfold updateFeeRecipient in Q. apply bind_Ok_inv in Q as (u1 & Q1 & Q). apply bind_Ok_inv in Q as (u2 & Q2 & Q).
    apply bind_Ok_inv in Q as (u3 & Q3 & Q). apply Ok_inj in Q as <-.
    apply require_Ok_inv, bool_decide_eq_true in Q3. apply ModuleBase.manager_Ok in Q1. split; [done|]. split; [done|].
    apply feeState_insert.
Qed.

Lemma move_terms x y : move x y -> 0 <= x.1 -> (forall a, sound_terms x.1 (feeState x.2 a)) ->
  0 <= y.1 /\ forall a, sound_terms y.1 (feeState y.2 a).
Proof.
  intros H H0 HI. destruct H as [sender k now s s' Hk Q|now now' s Ht|now s c sets]; cbn [fst snd] in *.
  - split; [done|]. intros b. pose proof (exec_terms _ _ _ _ _ Q b) as E. pose proof (HI b) as Hb.
    pose proof PRECISE_UNIT_pos as HP. unfold sound_terms in *.
    destruct k as [a|a f| |a fee|a r]; cbn [call_typed] in Hk.
    + rewrite E. case_decide as D; [subst; cbn; naive_solver lia|done].
    + destruct E as (? & ? & ? & _ & ->). apply is_uint256_spec in Hk. case_decide; cbn; [naive_solver lia|done].
    + rewrite E. case_decide; cbn; [naive_solver lia|done].
    + destruct E as (? & _ & ->). apply is_uint256_spec in Hk. case_decide as D; [subst; cbn|done].
      naive_solver lia.
    + destruct E as (? & _ & ->). case_decide as D; [subst; cbn; naive_solver lia|done].
  - split; [lia|]. intros a. destruct (HI a) as (? & ? & ? & ?). unfold sound_terms. naive_solver lia.
  - done.
Qed.

(** C15: The terms of every fee stay sound, whoever calls the module in whatever
    order while time passes and controller and SetTokens change: the fee is at
    most the maximum, the maximum below 100%, a SetToken with a maximum above zero
    has a recipient, and no accrual lies in the future. *)
Theorem fee_terms ctl sets t0 now s : 0 <= t0 -> rtc move (t0, constructor ctl sets) (now, s) ->
  forall a, sound_terms now (feeState s a).
Proof.
  intros H0 H. assert (HI : 0 <= t0 /\ forall a, sound_terms t0 (feeState (constructor ctl sets) a)).
  { split; [done|]. intros a. unfold feeState, constructor, sound_terms. cbn. rewrite lookup_empty. cbn.
    pose proof PRECISE_UNIT_pos. naive_solver lia. }
  remember (t0, constructor ctl sets) as x eqn:Ex. remember (now, s) as y eqn:Ey.
  change t0 with (t0, constructor ctl sets).1 in HI at 1.
  assert (HX : 0 <= x.1 /\ forall a, sound_terms x.1 (feeState x.2 a)) by (by rewrite Ex). clear HI Ex.
  induction H as [x|x y z Hs _ IH]; [by subst; apply HX|]. apply IH; [done|]. destruct HX. by apply (move_terms x y).
Qed.

(** ** A fee that has run up *)

(** Calls that leave the module on the token at [a]. *)
Definition installed (a sender : Address) (k : Call) : Prop :=
  match k with Initialize b _ => b <> a | RemoveModule => sender <> a | _ => True end.

(** What may happen while it is: calls of anyone, where the values of the state fit
    their types; time that passes; anything done to controller and SetTokens. *)
Inductive life (a : Address) : Z * state -> Z * state -> Prop :=
  | life_call sender k now s s' : installed a sender k -> typed this s -> is_uint256 now ->
      exec this sender now k s = Ok s' -> life a (now, s) (now, s')
  | life_time now now' s : now <= now' -> life a (now, s) (now', s)
  | life_world now s c sets : life a (now, s) (now, mk (status s) (feeStates s) (emitted s) c sets).

Definition run_up (a : Address) (p : Z) (x : Z * state) : Prop :=
  streamingFeePercentage (feeState x.2 a) = p /\ PRECISE_UNIT <= fee_due x.1 a x.2.

Lemma life_run_up a p x y : 0 < p -> life a x y -> run_up a p x -> run_up a p y.
Proof.
  intros Hp H [Ep HU]. unfold run_up. destruct H as [sender k now s s' Hk HT Hn Q|now now' s Ht|now s c sets]; cbn [fst snd] in *.
  - pose proof (exec_terms _ _ _ _ _ Q a) as E.
    assert (HN : forall b s1, accrueFee this now b s = Ok s1 -> b <> a).
    { intros b s1 Q1 ->. apply accrueFee_needs in Q1 as [Q1 _]; [|done..|lia]. lia. }
    assert (HS : feeState s' a = feeState s a \/ exists r, feeState s' a =
      mkFeeState r (maxStreamingFeePercentage (feeState s a)) (streamingFeePercentage (feeState s a))
        (lastStreamingFeeTimestamp (feeState s a))).
    { destruct k as [b|b f| |b fee|b r]; cbn [exec installed] in *.
      - apply HN in Q. rewrite decide_False in E by done. by left.
      - destruct E as (_ & _ & _ & _ & E). rewrite decide_False in E by done. by left.
      - rewrite decide_False in E by done. by left.
      - apply updateStreamingFee_accrues in Q as (s1 & Q%HN). destruct E as (_ & _ & E).
        rewrite decide_False in E by done. by left.
      - destruct E as (_ & _ & E). case_decide as D; [subst b; right; by exists r|by left]. }
    unfold fee_due in *. destruct HS as [->|(r & ->)]; by split.
  - split; [done|]. etransitivity; [exact HU|]. unfold fee_due. apply Z.div_le_mono; [done|nia].
  - by split.
Qed.

(** C40: A fee that can never be accrued again. Once a positive fee has run up to 100% of
    the supply, every accrual reverts and with it every change of the fee, at any later
    time, whoever has called the module meanwhile and whatever has become of the
    token, its supply and positions, and of the controller: the rate stays what it
    is, and the manager cannot even set it to zero, until the token removes the module. *)
Theorem accrueFee_stuck now a s now' s' : 0 < streamingFeePercentage (feeState s a) ->
  PRECISE_UNIT <= (now - lastStreamingFeeTimestamp (feeState s a)) * streamingFeePercentage (feeState s a) / YEAR ->
  rtc (life a) (now, s) (now', s') -> typed this s' -> is_uint256 now' ->
  streamingFeePercentage (feeState s' a) = streamingFeePercentage (feeState s a) /\
  is_Ok (accrueFee this now' a s') = false /\
  forall sender fee, is_Ok (updateStreamingFee this sender now' a fee s') = false.
Proof.
  intros Hp HU H HT Hn. set (p := streamingFeePercentage (feeState s a)) in *.
  assert (HR : run_up a p (now', s')).
  { assert (HR : run_up a p (now, s)) by done. clear HT Hn HU. revert HR. generalize (now, s) as x, (now', s') as y, H.
    induction 1 as [x|x y z Hs _ IH]; [done|]. intros HR. by apply IH, (life_run_up a p x). }
  destruct HR as [Ep HD]. cbn [fst snd] in *. split; [done|].
  assert (HA : forall s1, accrueFee this now' a s' <> Ok s1).
  { intros s1 Q. apply accrueFee_needs in Q as [Q _]; [|done..|lia]. lia. }
  split; [destruct (accrueFee _ _ _ _) as [s1|e] eqn:E; [by destruct (HA s1)|done]|]. intros sender fee.
  destruct (updateStreamingFee _ _ _ _ _ _) as [s1|e] eqn:E; [|done].
  apply updateStreamingFee_accrues in E as [s2 E]. by destruct (HA s2).
Qed.

(** Who may change which term. The maximum a manager commits to changes only
    when the manager initializes the module while it is pending on the token, or
    when the token itself removes it; fee and recipient change only by the manager
    or that removal, and a new fee is below the maximum; a change of the fee
    restarts the time that is charged, so none of the time before is charged at
    the new rate; and the terms of other tokens never change. *)
Theorem fee_authorised sender now k s s' : exec this sender now k s = Ok s' -> forall a,
  let f := feeState s a in let f' := feeState s' a in
  f' = f \/ (k = RemoveModule /\ sender = a /\ f' = no_fee) \/
  (k = AccrueFee a /\ f' = mkFeeState (feeRecipient f) (maxStreamingFeePercentage f) (streamingFeePercentage f) now) \/
  exists c, setTokens s !! a = Some c /\ SetToken.manager (SetToken.vars c) = sender /\
    ((SetToken.moduleState (SetToken.vars c) this = PENDING /\ lastStreamingFeeTimestamp f' = now) \/
     (maxStreamingFeePercentage f' = maxStreamingFeePercentage f /\
      (streamingFeePercentage f' = streamingFeePercentage f \/
       (streamingFeePercentage f' < maxStreamingFeePercentage f /\ lastStreamingFeeTimestamp f' = now)))).
Proof.
  intros Q b f f'. pose proof (exec_terms _ _ _ _ _ Q b) as E. fold f f' in E.
  destruct k as [a|a x| |a fee|a r]; (destruct (decide (b = a)) as [D|D] || destruct (decide (b = sender)) as [D|D]).
  - right. right. left. subst a. by split.
  - by left.
  - destruct E as (_ & _ & _ & (c & Hc & Hm & Hp) & E). subst a. do 3 right. exists c. rewrite E.
    split; [done|]. split; [done|]. by left.
  - left. apply E.
  - right. left. by subst.
  - by left.
  - destruct E as (Hf & (c & Hc & Hm) & E). subst a. do 3 right. exists c. rewrite E.
    split; [done|]. split; [done|]. right. split; [done|]. by right.
  - left. apply E.
  - destruct E as (Hf & (c & Hc & Hm) & E). subst a. do 3 right. exists c. rewrite E.
    split; [done|]. split; [done|]. right. split; [done|]. by left.
  - left. apply E.
Qed.

End Theorems.

(** ** Instances *)

(** A token of two components and a supply of 100, with a fee of 2% a year of
    which the protocol gets a tenth. *)
Definition sample_new : SetToken.state := SetToken.constructor ["A"; "B"]%string [10 ^ 18; 12345678]
  ["fees"]%string "controller" "manager" "Set" "SET".

Definition sample_vars : SetToken.state :=
  match SetToken.initializeModule "fees" sample_new with Ok s => s | Throw _ => sample_new end.

Definition sample_token : SetToken.contract :=
  SetToken.mkContract sample_vars (mkLedger (10 ^ 20) {[ "holder"%string := 10 ^ 20 ]} ∅).

Definition sample_controller : result Controller.state :=
  let s := Controller.constructor "owner" "protocol" in
  s ← Controller.exec "owner" (Controller.Initialize ["factory"]%string ["fees"]%string [] []) s;
  s ← Controller.exec "factory" (Controller.AddSet "set") s;
  Controller.exec "owner" (Controller.AddFee "fees" 0 (10 ^ 17)) s.

Definition sample_terms : FeeState := mkFeeState "recipient" (10 ^ 17) (2 * 10 ^ 16) 1000.

Definition sample_state : state :=
  mk guard_new {[ "set"%string := sample_terms ]} []
    match sample_controller with Ok s => s | Throw _ => Controller.constructor "owner" "protocol" end
    {[ "set"%string := sample_token ]}.

Lemma Inv_fee_token : SetToken.Inv sample_vars.
Proof.
  eapply (SetToken.Inv_initializeModule "fees" sample_new); [|by reflexivity]. apply SetToken.storage_constructor.
  - apply (bool_decide_eq_true_1 _). by vm_compute.
  - apply (bool_decide_eq_true_1 _). by vm_compute.
Qed.

Lemma sample_typed : typed "fees" sample_state.
Proof.
  constructor.
  - intros a. unfold feeState, sample_state. cbn [feeStates]. destruct (decide (a = "set"%string)) as [->|D].
    + rewrite lookup_singleton_eq. split; by vm_compute.
    + rewrite lookup_singleton_ne by done. split; by vm_compute.
  - intros a c Hc. unfold sample_state in Hc. cbn [setTokens] in Hc. apply lookup_singleton_Some in Hc as [_ <-]. split; [exact Inv_fee_token|by vm_compute].
  - by vm_compute.
Qed.

Lemma fee_token_listed : setTokens sample_state !! "set"%string = Some sample_token.
Proof. apply lookup_singleton_eq. Qed.

Definition later : Z := 1000 + YEAR.

Lemma later_uint256 : is_uint256 later.
Proof. by vm_compute. Qed.

Lemma later_after : 1000 <= later.
Proof. by vm_compute. Qed.

Lemma year_later : later <= later + YEAR.
Proof. by vm_compute. Qed.

Lemma sample_positive : 0 < streamingFeePercentage (feeState sample_state "set").
Proof. by vm_compute. Qed.

Lemma sample_runs : exists s', accrueFee "fees" later "set" sample_state = Ok s'.
Proof. apply is_Ok_true. by vm_compute. Qed.

Lemma sample_typed_unit : is_int256 (10 ^ 18).
Proof. by vm_compute. Qed.

(** After a year at 2%: the real unit of [A] is 98% of what it was, as expected. *)
Lemma accrueFee_expected_witness : exists s' c' fee, accrueFee "fees" later "set" sample_state = Ok s' /\
  setTokens s' !! "set"%string = Some c' /\
  getStreamingFee (getter sample_state) "set" 1000 later None = Ok fee /\
  exists e, getPostFeePositionUnits [10 ^ 18] fee = Ok [e] /\
    SetToken._convertVirtualToRealUnit (SetToken.vars c') (10 ^ 18) = Ok e.
Proof.
  destruct sample_runs as [s' Hs'].
  destruct (accrueFee_expected (ET := erc20_ref) "fees" later "set" sample_state s' sample_token sample_typed
    later_uint256 fee_token_listed sample_positive Hs') as (c' & fee & q & Hc' & Hf & _ & _ & _ & HU).
  exists s', c', fee. split; [exact Hs'|]. split; [exact Hc'|]. split; [exact Hf|].
  destruct (HU (10 ^ 18) (10 ^ 18) sample_typed_unit ltac:(by vm_compute)) as (u' & e & Hu & He & HE & _).
  exists e. split; [exact He|]. rewrite <- (HE ltac:(by vm_compute)). exact Hu.
Defined.

Lemma accrueFee_backed_witness : exists s' c' mq pq, accrueFee "fees" later "set" sample_state = Ok s' /\
  setTokens s' = <[ "set"%string := c' ]> (setTokens sample_state) /\ 0 <= mq /\ 0 <= pq /\
  totalSupply (SetToken.tokens c') = 10 ^ 20 + (mq + pq).
Proof.
  destruct sample_runs as [s' Hs'].
  destruct (accrueFee_backed (ET := erc20_ref) "fees" later "set" sample_state s' sample_token sample_typed
    later_uint256 fee_token_listed sample_positive Hs') as (c' & mq & pq & Ht & Hm & Hp & _ & HS & _).
  exists s', c', mq, pq. split; [exact Hs'|]. by split_and!.
Defined.

(** Sixty years without an accrual, in the course of which the manager names another
    recipient. *)
Definition sample_redirected : result state :=
  exec "fees" "manager" (1000 + 50 * YEAR) (UpdateFeeRecipient "set" "other") sample_state.

Lemma redirected_Ok : exists s, sample_redirected = Ok s /\ controller s = controller sample_state /\
  setTokens s = setTokens sample_state.
Proof.
  assert (HO : is_Ok sample_redirected = true) by (by vm_compute). apply is_Ok_true in HO as [s Hs].
  exists s. split; [exact Hs|]. unfold sample_redirected in Hs. cbn [exec] in Hs. unfold updateFeeRecipient in Hs.
  do 3 apply bind_Ok_inv in Hs as (? & _ & Hs). apply Ok_inj in Hs as <-. done.
Qed.

Lemma redirected_typed s : sample_redirected = Ok s -> controller s = controller sample_state ->
  setTokens s = setTokens sample_state -> typed "fees" s.
Proof.
  intros Hs EC ET. destruct sample_typed as [F1 F2 F3]. constructor; [|by rewrite ET|by rewrite EC].
  intros b. pose proof (exec_terms _ _ _ _ _ _ Hs b) as (_ & _ & ->). case_decide as D; [|apply F1]. subst b. apply F1.
Qed.

Lemma fifty_years : is_uint256 (1000 + 50 * YEAR) /\ is_uint256 (1000 + 60 * YEAR) /\
  1000 + 50 * YEAR <= 1000 + 60 * YEAR /\
  PRECISE_UNIT <= (1000 + 50 * YEAR - lastStreamingFeeTimestamp (feeState sample_state "set")) *
    streamingFeePercentage (feeState sample_state "set") / YEAR.
Proof. by vm_compute. Qed.

Lemma accrueFee_stuck_witness : exists s, sample_redirected = Ok s /\
  is_Ok (accrueFee "fees" (1000 + 60 * YEAR) "set" s) = false /\
  is_Ok (updateStreamingFee "fees" "manager" (1000 + 60 * YEAR) "set" 0 s) = false.
Proof.
  destruct redirected_Ok as (s & Hs & EC & ET). destruct fifty_years as (U1 & U2 & HL & HP). exists s. split; [exact Hs|].
  destruct (accrueFee_stuck (ET := erc20_ref) "fees" (1000 + 50 * YEAR) "set" sample_state (1000 + 60 * YEAR) s
    sample_positive HP) as (_ & H1 & H2).
  - eapply rtc_l; [exact (life_call "fees" "set" "manager" (UpdateFeeRecipient "set" "other") _ _ _ I sample_typed U1 Hs)|].
    apply rtc_once. exact (life_time "fees" "set" _ _ s HL).
  - by apply redirected_typed.
  - exact U2.
  - split; [exact H1|]. apply H2.
Defined.

Lemma sample_ready : ready "fees" later "set" sample_state sample_token.
Proof.
  assert (HU : SetToken.unit_sizes sample_vars = [10 ^ 18; 12345678]) by (by vm_compute).
  constructor.
  - by vm_compute.
  - apply (bool_decide_eq_true_1 _). by vm_compute.
  - by vm_compute.
  - split; apply (bool_decide_eq_true_1 _); by vm_compute.
  - split; by vm_compute.
  - by vm_compute.
  - by vm_compute.
  - split; by vm_compute.
  - split; [|split].
    + intros x Hx. destruct (SetToken.position_constructor ["A"; "B"]%string [10 ^ 18; 12345678] ["fees"]%string
        "controller" "manager" "Set" "SET" x) as (u & E & Hu).
      change (SetToken.position (SetToken.vars sample_token) x) with (SetToken.position sample_new x).
      fold sample_new in E. rewrite E. cbn. rewrite !elem_of_cons, elem_of_nil in Hu. lia.
    + intros x m. destruct (SetToken.position_constructor ["A"; "B"]%string [10 ^ 18; 12345678] ["fees"]%string
        "controller" "manager" "Set" "SET" x) as (u & E & _). unfold SetToken.externalPosition.
      change (SetToken.position (SetToken.vars sample_token) x) with (SetToken.position sample_new x).
      fold sample_new in E. rewrite E. by vm_compute.
    + exists (10 ^ 18). change (SetToken.vars sample_token) with sample_vars. rewrite HU.
      split; [by left|split; by vm_compute].
  - split; [by vm_compute|]. change (SetToken.vars sample_token) with sample_vars. rewrite HU.
    intros u Hu _. set (r := reduced _ _).
    assert (HB : forallb (fun u => (PRECISE_UNIT <=? u * r) && (u * r <? 2 ^ 255)) [10 ^ 18; 12345678] = true)
      by (vm_compute; reflexivity).
    clearbody r. rewrite forallb_forall in HB. specialize (HB u (proj1 (list_elem_of_In _ _) Hu)). cbv beta in HB.
    apply andb_true_iff in HB as [H1%Z.leb_le H2%Z.ltb_lt]. by split.
Qed.

Lemma accrueFee_succeeds_witness : exists s', accrueFee "fees" later "set" sample_state = Ok s'.
Proof.
  exact (accrueFee_succeeds (ET := erc20_ref) "fees" later "set" sample_state sample_token sample_typed later_uint256
    fee_token_listed sample_ready).
Defined.

(** The module initialized, its fee changed after a year, and accrued a year later. *)
Definition sample_pending : state :=
  constructor (controller sample_state) {[ "set"%string := SetToken.mkContract sample_new (SetToken.tokens sample_token) ]}.

Definition sample_calls : result state :=
  s ← exec "fees" "manager" 1000 (Initialize "set" sample_terms) sample_pending;
  s ← exec "fees" "manager" later (UpdateStreamingFee "set" (3 * 10 ^ 16)) s;
  exec "fees" "anyone" (later + YEAR) (AccrueFee "set") s.

Lemma fee_terms_witness : exists s, sample_calls = Ok s /\ sound_terms (later + YEAR) (feeState s "set").
Proof.
  assert (HO : is_Ok sample_calls = true) by (by vm_compute). apply is_Ok_true in HO as [s Hs].
  exists s. split; [exact Hs|]. unfold sample_calls in Hs.
  apply bind_Ok_inv in Hs as (s1 & H1 & Hs). apply bind_Ok_inv in Hs as (s2 & H2 & H3).
  apply (fee_terms (ET := erc20_ref) "fees" (controller sample_state)
    {[ "set"%string := SetToken.mkContract sample_new (SetToken.tokens sample_token) ]} 1000 (later + YEAR) s
    ltac:(by vm_compute)).
  assert (K1 : call_typed (Initialize "set" sample_terms)) by (vm_compute; exact I).
  assert (K2 : call_typed (UpdateStreamingFee "set" (3 * 10 ^ 16))) by (vm_compute; exact I).
  assert (K3 : call_typed (AccrueFee "set")) by exact I.
  eapply rtc_l; [exact (move_call _ _ _ _ _ _ K1 H1)|].
  eapply rtc_l; [exact (move_time "fees" 1000 later s1 later_after)|].
  eapply rtc_l; [exact (move_call _ _ _ _ _ _ K2 H2)|].
  eapply rtc_l; [exact (move_time _ later (later + YEAR) s2 year_later)|].
  apply rtc_once. exact (move_call _ _ _ _ _ _ K3 H3).
Defined.

Lemma fee_authorised_witness : exists s', exec "fees" "manager" later (UpdateStreamingFee "set" 0) sample_state = Ok s' /\
  (feeState s' "set" = feeState sample_state "set" \/ lastStreamingFeeTimestamp (feeState s' "set") = later).
Proof.
  assert (HO : is_Ok (exec "fees" "manager" later (UpdateStreamingFee "set" 0) sample_state) = true) by (by vm_compute).
  apply is_Ok_true in HO as [s' Hs]. exists s'. split; [exact Hs|].
  destruct (fee_authorised (ET := erc20_ref) "fees" "manager" later (UpdateStreamingFee "set" 0) sample_state s' Hs "set")
    as [E|[(E & _)|[(E & _)|(c & _ & _ & [(_ & E)|(_ & _)])]]]; [by left|discriminate E|discriminate E|by right|].
  right. pose proof (exec_terms _ _ _ _ _ _ Hs "set") as (_ & _ & ->). by rewrite decide_True.
Defined.

(** What the supply of the token is entitled to of the component [B]. *)
Definition claim (s : state) : result Z :=
  c ← setToken s "set";
  u ← SetToken.getDefaultPositionRealUnit (SetToken.vars c) "B";
  Ok (u * totalSupply (SetToken.tokens c)).

Definition two_accruals : result (state * state * Z * Z) :=
  s1 ← accrueFee "fees" later "set" sample_state;
  s2 ← accrueFee "fees" (later + 9 * 86400) "set" s1;
  k1 ← claim s1; k2 ← claim s2; Ok (s1, s2, k1, k2).

(** An accrual can leave a token short of a component. Units are rounded down,
    and less for a new multiplier than for the old one: a balance of [B], a token
    of 8 decimals, that covers every claim after a first accrual, such as that of
    a token just issued, does not cover the claims after a second one nine days
    later. By [accrueFee_backed] the shortfall is below one base unit per token of
    supply. *)
Theorem accrual_shortfall : exists s1 s2 k1 k2 balance,
  accrueFee "fees" later "set" sample_state = Ok s1 /\ accrueFee "fees" (later + 9 * 86400) "set" s1 = Ok s2 /\
  claim s1 = Ok k1 /\ claim s2 = Ok k2 /\ k1 <= balance * PRECISE_UNIT < k2.
Proof.
  assert (HO : is_Ok two_accruals = true) by (by vm_compute). apply is_Ok_true in HO as [[[[s1 s2] k1] k2] H].
  assert (HK : fmap (fun r : state * state * Z * Z => (r.1.2, r.2)) two_accruals =
    Ok (1234567755102040816315666416, 1234567798990744296420973596)) by (by vm_compute).
  rewrite H in HK. injection HK as -> ->. unfold two_accruals in H.
  apply bind_Ok_inv in H as (s1' & H1 & H). apply bind_Ok_inv in H as (s2' & H2 & H).
  apply bind_Ok_inv in H as (k1 & H3 & H). apply bind_Ok_inv in H as (k2 & H4 & H). apply Ok_inj in H.
  exists s1', s2', k1, k2, 1234567756. pose proof (f_equal (fun r : state * state * Z * Z => r.1.2) H) as E1.
  pose proof (f_equal snd H) as E2. cbn [fst snd] in E1, E2. rewrite E1 in *. rewrite E2 in *. split; [exact H1|]. split; [exact H2|].
  split; [exact H3|]. split; [exact H4|]. split; [apply Z.leb_le|apply Z.ltb_lt]; vm_compute; reflexivity.
Qed.

End StreamingFeeModule.
