(* ===== verification/BasicIssuanceModule.v ===== *)
(** * The basic issuance module

    [contracts/protocol/modules/v1/BasicIssuanceModule.sol] with
    [contracts/protocol/Pausable.sol]: issuing a SetToken for its components and
    redeeming it for them. What an issuance hook does is a parameter ([hook]): a
    function of the address of the hook and of the state. The theorems show that a
    token stays backed by the components it holds. *)

From S2P Require Import Prelude JsString Ethers Constants MathUtils SafeMath PreciseUnitMath Erc20 Ownable Controller SetToken Position ModuleBase StreamingFeeModule.
From Stdlib Require Import String.

Local Open Scope Z_scope.

Module BasicIssuanceModule.

Inductive Event :=
  | SetTokenIssued (_setToken _issuer _to _hookContract : Address) (_quantity : Z)
  | SetTokenRedeemed (_setToken _redeemer _to : Address) (_quantity : Z) (_components : list Address) (_fees : list Z)
  | Paused (account : Address) | Unpaused (account : Address).

Definition BASIC_ISSUANCE_MODULE_REDEEM_FEE_INDEX : Z := 0.

Section Module_.
Context `{OZ : OpenZeppelin} `{ET : ERC20} `{RG : ReentrancyGuard} `{CN : Coins} (this : Address).

Record state := mk {
  status : guard;
  owner : Address;
  _paused : bool;
  managerIssuanceHook : gmap Address Address;
  emitted : list Event;
  world : ModuleBase.chain;
  money : coins;
}.

Definition set_status (s : state) g := mk g (owner s) (_paused s) (managerIssuanceHook s) (emitted s) (world s) (money s).
Definition set_paused (s : state) b e := mk (status s) (owner s) b (managerIssuanceHook s) (emitted s ++ [e]) (world s) (money s).
Definition set_hooks (s : state) h := mk (status s) (owner s) (_paused s) h (emitted s) (world s) (money s).
Definition set_world (s : state) w m e := mk (status s) (owner s) (_paused s) (managerIssuanceHook s) (emitted s ++ e) w m.

Definition constructor (msg_sender : Address) (w : ModuleBase.chain) (m : coins) : state :=
  mk guard_new msg_sender false ∅ [] w m.

(** ** Pausable *)

Definition onlyOwner (msg_sender : Address) (s : state) : result unit :=
  require (bool_decide (msg_sender = owner s)) "Ownable: caller is not the owner".

Definition whenNotPaused (s : state) : result unit := require (negb (_paused s)) "Pausable: paused".
Definition whenPaused (s : state) : result unit := require (_paused s) "Pausable: not paused".

Definition pause (msg_sender : Address) (s : state) : result state :=
  _ ← onlyOwner msg_sender s; _ ← whenNotPaused s; Ok (set_paused s true (Paused msg_sender)).

Definition unpause (msg_sender : Address) (s : state) : result state :=
  _ ← onlyOwner msg_sender s; _ ← whenPaused s; Ok (set_paused s false (Unpaused msg_sender)).

(** ** Quantities *)

Definition getRequiredComponentUnitsForIssue (_setToken : Address) (_quantity : Z) (w : ModuleBase.chain)
    : result (list Address * list Z) :=
  _ ← ModuleBase._validateOnlyValidAndInitializedSet this _setToken w;
  k ← ModuleBase.setToken w _setToken;
  let components := SetToken.components (SetToken.vars k) in
  notionalUnits ← mapM (fun component =>
    _ ← require (negb (PositionLib.hasExternalPosition (SetToken.vars k) component))
          "Only default positions are supported";
    r ← SetToken.getDefaultPositionRealUnit (SetToken.vars k) component;
    u ← toUint256 r;
    PreciseUnitMath.preciseMulCeil u _quantity) components;
  Ok (components, notionalUnits).

(** Components, quantities to transfer and protocol fees. *)
Definition getRequiredComponentUnitsForRedeem (_setToken : Address) (_quantity : Z) (w : ModuleBase.chain)
    : result (list Address * list (Z * Z)) :=
  _ ← ModuleBase._validateOnlyValidAndInitializedSet this _setToken w;
  k ← ModuleBase.setToken w _setToken;
  let components := SetToken.components (SetToken.vars k) in
  units ← mapM (fun component =>
    _ ← require (negb (PositionLib.hasExternalPosition (SetToken.vars k) component))
          "Only default positions are supported";
    r ← SetToken.getDefaultPositionRealUnit (SetToken.vars k) component;
    u ← toUint256 r;
    componentQuantity ← PreciseUnitMath.preciseMul u _quantity;
    protocolFee ← ModuleBase.getModuleFee this BASIC_ISSUANCE_MODULE_REDEEM_FEE_INDEX componentQuantity w;
    notional ← sm_sub componentQuantity protocolFee;
    Ok (notional, protocolFee)) components;
  Ok (components, units).

(** ** Issuance and redemption *)

(** [preIssueHook.invokePreIssueHook(_setToken, _quantity, _caller, _to)] *)
Context (hook : Address -> Address -> Z -> Address -> Address -> state -> result state).

Definition _callPreIssueHooks (_setToken : Address) (_quantity : Z) (_caller _to : Address) (s : state)
    : result (state * Address) :=
  let preIssueHook := default ADDRESS_ZERO (managerIssuanceHook s !! _setToken) in
  if negb (bool_decide (preIssueHook = ADDRESS_ZERO)) then
    s ← hook preIssueHook _setToken _quantity _caller _to s; Ok (s, preIssueHook)
  else Ok (s, ADDRESS_ZERO).

Definition issue (msg_sender _setToken : Address) (_quantity : Z) (_to : Address) (s : state) : result state :=
  g ← enter (status s);
  let s := set_status s g in
  _ ← ModuleBase._validateOnlyValidAndInitializedSet this _setToken (world s);
  _ ← whenNotPaused s;
  _ ← require (0 <? _quantity) "Issue quantity must be > 0";
  h ← _callPreIssueHooks _setToken _quantity msg_sender _to s;
  let s := h.1 in
  cq ← getRequiredComponentUnitsForIssue _setToken _quantity (world s);
  m ← foldM (fun m (p : Address * Z) => ModuleBase.transferFrom this p.1 msg_sender _setToken p.2 m)
        (money s) (combine cq.1 cq.2);
  w ← ModuleBase.on_set _setToken (SetToken.mint (ModuleBase.isModule (world s)) this _to _quantity) (world s);
  let s := set_world s w m [SetTokenIssued _setToken msg_sender _to h.2 _quantity] in
  Ok (set_status s (leave (status s))).

Definition redeem (msg_sender _setToken : Address) (_quantity : Z) (_to : Address) (s : state) : result state :=
  g ← enter (status s);
  let s := set_status s g in
  _ ← ModuleBase._validateOnlyValidAndInitializedSet this _setToken (world s);
  _ ← require (0 <? _quantity) "Redeem quantity must be > 0";
  w ← ModuleBase.on_set _setToken (SetToken.burn (ModuleBase.isModule (world s)) this msg_sender _quantity) (world s);
  cq ← getRequiredComponentUnitsForRedeem _setToken _quantity w;
  wm ← foldM (fun wm (p : Address * (Z * Z)) =>
         wm ← ModuleBase.payProtocolFeeFromSetToken this _setToken p.1 p.2.2 wm;
         ModuleBase.strictInvokeTransfer this _setToken p.1 _to p.2.1 wm)
         (w, money s) (combine cq.1 cq.2);
  let s := set_world s wm.1 wm.2 [SetTokenRedeemed _setToken msg_sender _to _quantity cq.1 (map snd cq.2)] in
  Ok (set_status s (leave (status s))).

(** ** Initialization and removal *)

Definition initialize (msg_sender _setToken _preIssueHook : Address) (s : state) : result state :=
  _ ← ModuleBase._validateOnlySetManager _setToken msg_sender (world s);
  _ ← ModuleBase._validateOnlyValidAndPendingSet this _setToken (world s);
  let s := set_hooks s (<[ _setToken := _preIssueHook ]> (managerIssuanceHook s)) in
  w ← ModuleBase.on_set _setToken (SetToken.on_vars (SetToken.initializeModule this)) (world s);
  Ok (set_world s w (money s) []).

Definition removeModule (s : state) : result state := Throw "The BasicIssuanceModule module cannot be removed".

End Module_.

Section Facts.
Context `{OZ : OpenZeppelin} `{ET : ERC20} `{RG : ReentrancyGuard} `{CN : Coins} `{BN : BigNumber} (this : Address).

(** ** Loops over components *)

(** A loop whose rounds each move the balance of one token by [d] and keep [K]. *)
Lemma foldM_moves {S B} (bal : S -> Address -> Z) (K : S -> Prop) (d : Address * B -> Z)
    (f : S -> Address * B -> result S) l s s' :
  (forall s p s', p ∈ l -> K s -> f s p = Ok s' ->
     K s' /\ bal s' p.1 = bal s p.1 + d p /\ forall t, t <> p.1 -> bal s' t = bal s t) ->
  NoDup l.*1 -> K s -> foldM f s l = Ok s' ->
  K s' /\ (forall p, p ∈ l -> bal s' p.1 = bal s p.1 + d p) /\ forall t, t ∉ l.*1 -> bal s' t = bal s t.
Proof.
  revert s. induction l as [|p l IH]; intros s HF HN HK Q; cbn [foldM] in Q.
  - apply Ok_inj in Q as <-. split; [done|]. split; [|done]. intros p Hp. by apply elem_of_nil in Hp.
  - apply bind_Ok_inv in Q as (s1 & Q1 & Q). cbn in HN. apply NoDup_cons in HN as [Hn HN].
    destruct (HF s p s1) as (HK1 & Hb & Ho); [by left|done|done|].
    destruct (IH s1) as (HK' & HB & HO); [|done|done|done|].
    { intros. apply HF; [by right|done|done]. }
    split; [done|]. split.
    + intros x [->|Hx]%elem_of_cons; [by rewrite HO|]. rewrite HB by done. rewrite Ho; [done|].
      intros E. apply Hn. rewrite <- E. by apply list_elem_of_fmap_2.
    + intros t Ht. cbn in Ht. rewrite HO by set_solver. apply Ho. set_solver.
Qed.

Lemma combine_fst {A B} (l : list A) (l' : list B) : List.length l = List.length l' -> (combine l l').*1 = l.
Proof. revert l'; induction l as [|x l IH]; intros [|y l']; cbn; try done. intros [= H]. by rewrite IH. Qed.

Lemma Forall2_combine {A B} (P : A -> B -> Prop) l l' x : Forall2 P l l' -> x ∈ l ->
  exists y, (x, y) ∈ combine l l' /\ P x y.
Proof.
  induction 1 as [|a b l l' HP _ IH]; intros Hx; [by apply elem_of_nil in Hx|]. cbn.
  apply elem_of_cons in Hx as [->|Hx]; [exists b; by split; [left|]|].
  destruct (IH Hx) as (y & Hy & Py). exists y. by split; [right|].
Qed.

Lemma combine_Forall2 {A B} (P : A -> B -> Prop) l l' p : Forall2 P l l' -> p ∈ combine l l' -> P p.1 p.2.
Proof.
  induction 1 as [|a b l l' HP _ IH]; intros Hp; cbn in Hp; [by apply elem_of_nil in Hp|].
  by apply elem_of_cons in Hp as [->|Hp]; [|apply IH].
Qed.

(** ** Quantities *)

Lemma real_unit_uint256 k x r u : SetToken.Inv k -> SetToken.getDefaultPositionRealUnit k x = Ok r ->
  toUint256 r = Ok u -> u = r /\ 0 <= r /\ is_uint256 r.
Proof.
  intros HI Q Q1. apply conservativePreciseMul_Ok in Q as (_ & Hr & _);
    [|apply (SetToken.inv_units _ HI)|apply (SetToken.inv_multiplier_int _ HI)].
  apply toUint256_Ok in Q1 as [-> H0]; [|done]. split; [done|]. split; [done|].
  apply is_int256_spec in Hr. apply is_uint256_spec. change (2 ^ 256) with (2 * 2 ^ 255). lia.
Qed.

(** What the issuer of [q] owes of the component [x]. *)
Definition owed (k : SetToken.state) (q : Z) (x : Address) (n : Z) : Prop :=
  exists u, SetToken.getDefaultPositionRealUnit k x = Ok u /\ 0 <= u /\ n = cdiv (u * q) PRECISE_UNIT /\ is_uint256 n.

(** What a redemption of [q] pays of the component [x], to recipient and protocol. *)
Definition paid (k : SetToken.state) (q : Z) (x : Address) (p : Z * Z) : Prop :=
  exists u, SetToken.getDefaultPositionRealUnit k x = Ok u /\ 0 <= u /\ p.1 + p.2 = u * q / PRECISE_UNIT /\
    is_uint256 p.1 /\ is_uint256 p.2.

Lemma issue_units a q w c l us : ModuleBase.setTokens w !! a = Some c -> SetToken.Inv (SetToken.vars c) ->
  is_uint256 q -> getRequiredComponentUnitsForIssue this a q w = Ok (l, us) ->
  l = SetToken.components (SetToken.vars c) /\ Forall2 (owed (SetToken.vars c) q) l us.
Proof.
  intros Hc HI Hq Q. unfold getRequiredComponentUnitsForIssue in Q. apply bind_Ok_inv in Q as (u0 & _ & Q).
  apply bind_Ok_inv in Q as (k & Qk%ModuleBase.setToken_Ok & Q). rewrite Hc in Qk. injection Qk as <-.
  apply bind_Ok_inv in Q as (us' & Qu & Q). apply Ok_inj in Q as [= <- <-]. split; [done|].
  apply mapM_Ok_Forall2 in Qu. eapply Forall2_impl; [exact Qu|]. intros x n Q. cbn beta in Q.
  apply bind_Ok_inv in Q as (u1 & _ & Q). apply bind_Ok_inv in Q as (r & Qr & Q).
  apply bind_Ok_inv in Q as (u & Q1 & Q). destruct (real_unit_uint256 _ _ _ _ HI Qr Q1) as (-> & H0 & Hu).
  exists r. split; [done|]. split; [done|]. pose proof Hq as H0q%is_uint256_spec.
  pose proof (preciseMulCeil_uint256 _ _ _ Hu Hq Q) as Hn. split; [|done].
  apply preciseMulCeil_sound in Q; [|done..]. rewrite MathUtils.preciseMulCeil_nonneg_eq in Q by lia.
  by apply Ok_inj in Q.
Qed.

Lemma redeem_units a q w c l us : ModuleBase.setTokens w !! a = Some c -> SetToken.Inv (SetToken.vars c) ->
  is_uint256 q -> is_uint256 (Controller.getModuleFee (ModuleBase.controller w) this BASIC_ISSUANCE_MODULE_REDEEM_FEE_INDEX) ->
  getRequiredComponentUnitsForRedeem this a q w = Ok (l, us) ->
  l = SetToken.components (SetToken.vars c) /\ Forall2 (paid (SetToken.vars c) q) l us.
Proof.
  intros Hc HI Hq Hf Q. unfold getRequiredComponentUnitsForRedeem in Q. apply bind_Ok_inv in Q as (u0 & _ & Q).
  apply bind_Ok_inv in Q as (k & Qk%ModuleBase.setToken_Ok & Q). rewrite Hc in Qk. injection Qk as <-.
  apply bind_Ok_inv in Q as (us' & Qu & Q). apply Ok_inj in Q as [= <- <-]. split; [done|].
  apply mapM_Ok_Forall2 in Qu. eapply Forall2_impl; [exact Qu|]. intros x n Q. cbn beta in Q.
  apply bind_Ok_inv in Q as (u1 & _ & Q). apply bind_Ok_inv in Q as (r & Qr & Q).
  apply bind_Ok_inv in Q as (u & Q1 & Q). destruct (real_unit_uint256 _ _ _ _ HI Qr Q1) as (-> & H0 & Hu).
  apply bind_Ok_inv in Q as (y & Qy & Q). apply bind_Ok_inv in Q as (f & Qf & Q).
  apply bind_Ok_inv in Q as (z & Qz & Q). apply Ok_inj in Q as <-. pose proof Hq as H0q%is_uint256_spec.
  apply preciseMul_sound in Qy as [Ey Uy]; [|done..]. rewrite MathUtils.preciseMul_nonneg_eq in Ey by lia.
  apply Ok_inj in Ey as <-. unfold ModuleBase.getModuleFee in Qf. apply preciseMul_sound in Qf as [_ Uf]; [|done..].
  apply sm_sub_inv in Qz as [-> Uz]; [|done..]. exists r. cbn [fst snd]. split; [done|]. split; [done|].
  split; [lia|done].
Qed.

(** ** What issuing and redeeming do *)

(** What the claims of holders on components depend on. *)
Definition same_claims (k k' : SetToken.state) : Prop :=
  SetToken.components k' = SetToken.components k /\
  SetToken.componentPositions k' = SetToken.componentPositions k /\
  SetToken.positionMultiplier k' = SetToken.positionMultiplier k.

Lemma same_claims_unit k k' x : same_claims k k' ->
  SetToken.getDefaultPositionRealUnit k' x = SetToken.getDefaultPositionRealUnit k x.
Proof.
  intros (_ & HP & HM). unfold SetToken.getDefaultPositionRealUnit, SetToken._convertVirtualToRealUnit, SetToken.position.
  by rewrite HP, HM.
Qed.

(** An issue, from the state [s1] the hook left: the token at [a] went from [c]
    to [c']. *)
Record issued (a to : Address) (q : Z) (s1 s' : state) (c c' : SetToken.contract) : Prop := {
  issued_sets : ModuleBase.setTokens (world s') = <[ a := c' ]> (ModuleBase.setTokens (world s1));
  issued_vars : SetToken.vars c' = SetToken.vars c;
  issued_supply : totalSupply (SetToken.tokens c') = totalSupply (SetToken.tokens c) + q;
  issued_balance b : balanceOf (SetToken.tokens c') b =
    balanceOf (SetToken.tokens c) b + if decide (b = to) then q else 0;
  issued_money x : x ∈ SetToken.components (SetToken.vars c) -> exists u,
    SetToken.getDefaultPositionRealUnit (SetToken.vars c) x = Ok u /\ 0 <= u /\
    coin_balance (money s') x a = coin_balance (money s1) x a + cdiv (u * q) PRECISE_UNIT;
  issued_others t : t ∉ SetToken.components (SetToken.vars c) -> coin_balance (money s') t a = coin_balance (money s1) t a;
  issued_controller : ModuleBase.controller (world s') = ModuleBase.controller (world s1);
  issued_free : entered (status s') = false;
}.

Lemma issue_Ok hook sender a q to s s' : is_uint256 q -> issue this hook sender a q to s = Ok s' ->
  0 < q /\ exists g s1 h, _callPreIssueHooks hook a q sender to (set_status s g) = Ok (s1, h) /\
  forall c, ModuleBase.setTokens (world s1) !! a = Some c -> SetToken.Inv (SetToken.vars c) ->
    exists c', issued a to q s1 s' c c'.
Proof.
  intros Hq Q. unfold issue in Q. apply bind_Ok_inv in Q as (g & _ & Q).
  apply bind_Ok_inv in Q as (u1 & _ & Q). apply bind_Ok_inv in Q as (u2 & _ & Q).
  apply bind_Ok_inv in Q as (u3 & Q3 & Q). apply require_Ok_inv, Z.ltb_lt in Q3.
  apply bind_Ok_inv in Q as ([s1 h] & Qh & Q). split; [done|]. exists g, s1, h. split; [done|].
  apply bind_Ok_inv in Q as ([l us] & Qu & Q). apply bind_Ok_inv in Q as (m & Qm & Q).
  apply bind_Ok_inv in Q as (w & Qw & Q). apply Ok_inj in Q as <-. cbn [fst snd] in *.
  intros c Hc HI. destruct (issue_units _ _ _ _ _ _ Hc HI Hq Qu) as [-> HF].
  apply ModuleBase.on_set_Ok in Qw as (c0 & c' & Hc0 & Qt & Ew). rewrite Hc in Hc0. injection Hc0 as <-.
  unfold SetToken.mint in Qt. apply bind_Ok_inv in Qt as (u4 & _ & Qt). apply bind_Ok_inv in Qt as (lg & Ql & Qt).
  apply Ok_inj in Qt as <-. apply mint_Ok in Ql as (_ & HS & HB).
  pose proof (combine_fst _ _ (Forall2_length _ _ _ HF)) as Hfst.
  apply (foldM_moves (fun m t => coin_balance m t a) (fun _ => True) snd) in Qm as (_ & HM & HO);
    [| |by rewrite Hfst; apply (SetToken.inv_components _ HI)|done].
  2:{ intros m0 p m1 Hp _ Qp. split; [done|]. apply (combine_Forall2 _ _ _ _ HF) in Hp as (u & _ & _ & _ & Hu).
      destruct (ModuleBase.transferFrom_Ok _ _ _ _ _ _ _ Hu Qp) as [H1 H2]. split; [exact H1|]. intros t Ht. by apply H2. }
  exists (SetToken.mkContract (SetToken.vars c) lg). constructor; cbn.
  - by rewrite Ew.
  - done.
  - done.
  - done.
  - intros x Hx. destruct (Forall2_combine _ _ _ _ HF Hx) as (n & Hn & u & Hu & H0 & -> & _).
    exists u. split; [done|]. split; [done|]. exact (HM _ Hn).
  - intros t Ht. apply HO. by rewrite Hfst.
  - by rewrite Ew.
  - apply leave_law.
Qed.

(** A redemption. *)
Record redeemed (a sender : Address) (q : Z) (s s' : state) (c c' : SetToken.contract) : Prop := {
  redeemed_sets b : ModuleBase.setTokens (world s') !! b = if decide (b = a) then Some c' else ModuleBase.setTokens (world s) !! b;
  redeemed_inv : SetToken.Inv (SetToken.vars c');
  redeemed_claims : same_claims (SetToken.vars c) (SetToken.vars c');
  redeemed_supply : totalSupply (SetToken.tokens c') = totalSupply (SetToken.tokens c) - q;
  redeemed_balance b : balanceOf (SetToken.tokens c') b =
    balanceOf (SetToken.tokens c) b - if decide (b = sender) then q else 0;
  redeemed_enough : q <= balanceOf (SetToken.tokens c) sender;
  redeemed_money x : x ∈ SetToken.components (SetToken.vars c) -> exists u,
    SetToken.getDefaultPositionRealUnit (SetToken.vars c) x = Ok u /\ 0 <= u /\
    coin_balance (money s') x a = coin_balance (money s) x a - u * q / PRECISE_UNIT;
  redeemed_others t : t ∉ SetToken.components (SetToken.vars c) -> coin_balance (money s') t a = coin_balance (money s) t a;
  redeemed_free : entered (status s') = false;
}.

(** The token at [a] during the transfers of a redemption. *)
Definition paying (a : Address) (c : SetToken.contract) (w0 w : ModuleBase.chain) : Prop :=
  (exists c', ModuleBase.setTokens w !! a = Some c' /\ SetToken.Inv (SetToken.vars c') /\
     same_claims (SetToken.vars c) (SetToken.vars c') /\ SetToken.tokens c' = SetToken.tokens c) /\
  forall b, b <> a -> ModuleBase.setTokens w !! b = ModuleBase.setTokens w0 !! b.

Lemma paying_invoked a c w0 w w' : paying a c w0 w -> ModuleBase.invoked a w w' -> paying a c w0 w'.
Proof.
  intros [(c1 & Hc1 & HI & HS & HT) HO] [->|(c2 & e & Hc2 & ->)]; [by split; [exists c1|]|].
  rewrite Hc1 in Hc2. injection Hc2 as <-. split.
  - eexists. cbn. rewrite lookup_insert_eq. split; [done|]. cbn. split; [by apply SetToken.Inv_emit|]. by split.
  - intros b Hb. cbn. rewrite lookup_insert_ne by done. by apply HO.
Qed.

Lemma redeem_Ok sender a q to s s' c : is_uint256 q ->
  ModuleBase.setTokens (world s) !! a = Some c -> SetToken.Inv (SetToken.vars c) ->
  is_uint256 (Controller.getModuleFee (ModuleBase.controller (world s)) this BASIC_ISSUANCE_MODULE_REDEEM_FEE_INDEX) ->
  redeem this sender a q to s = Ok s' -> 0 < q /\ exists c', redeemed a sender q s s' c c'.
Proof.
  intros Hq Hc HI Hfee Q. unfold redeem in Q. apply bind_Ok_inv in Q as (g & _ & Q).
  apply bind_Ok_inv in Q as (u1 & _ & Q). apply bind_Ok_inv in Q as (u3 & Q3 & Q).
  apply require_Ok_inv, Z.ltb_lt in Q3. split; [done|].
  apply bind_Ok_inv in Q as (w & Qw & Q). apply bind_Ok_inv in Q as ([l us] & Qu & Q).
  apply bind_Ok_inv in Q as ([w2 m2] & Qm & Q). apply Ok_inj in Q as <-. cbn [fst snd] in *.
  apply ModuleBase.on_set_Ok in Qw as (c0 & c1 & Hc0 & Qt & Ew).
  change (ModuleBase.setTokens (world s) !! a = Some c0) in Hc0. rewrite Hc in Hc0. injection Hc0 as <-.
  unfold SetToken.burn in Qt. apply bind_Ok_inv in Qt as (u4 & _ & Qt). apply bind_Ok_inv in Qt as (lg & Ql & Qt).
  apply Ok_inj in Qt as <-. apply burn_Ok in Ql as (_ & HE & HS & HB). cbn [world set_status] in Ew.
  set (c1 := SetToken.mkContract (SetToken.vars c) lg) in *.
  assert (Hc1 : ModuleBase.setTokens w !! a = Some c1) by (rewrite Ew; apply lookup_insert_eq).
  assert (Hfee' : is_uint256 (Controller.getModuleFee (ModuleBase.controller w) this
    BASIC_ISSUANCE_MODULE_REDEEM_FEE_INDEX)) by (by rewrite Ew).
  destruct (redeem_units _ _ _ _ _ _ Hc1 HI Hq Hfee' Qu) as [-> HF].
  pose proof (combine_fst _ _ (Forall2_length _ _ _ HF)) as Hfst.
  apply (foldM_moves (fun wm t => coin_balance wm.2 t a) (fun wm => paying a c1 w wm.1)
    (fun p => - (p.2.1 + p.2.2))) in Qm as (HK & HM & HO);
    [| |by rewrite Hfst; apply (SetToken.inv_components _ HI)|].
  2:{ intros [w0 m0] p [w1 m1] Hp HK Qp. apply (combine_Forall2 _ _ _ _ HF) in Hp as (u & _ & _ & _ & Hu1 & Hu2).
      apply bind_Ok_inv in Qp as ([wx mx] & Qf & Qp).
      apply ModuleBase.payProtocolFee_Ok in Qf as (I1 & B1 & O1); [|done].
      apply ModuleBase.strictInvokeTransfer_Ok in Qp as (I2 & B2 & O2); [|done]. cbn [fst snd] in *.
      split; [eapply paying_invoked; [by eapply paying_invoked|done]|].
      split; [lia|]. intros t Ht. by rewrite O2, O1. }
  2:{ split; [|done]. exists c1. cbn [fst]. split; [done|]. split; [done|]. by split; [split|]. }
  destruct HK as [(c' & Hc' & HI' & HC & HT) HX]. cbn [fst snd] in *.
  exists c'. constructor; cbn.
  - intros b. case_decide as D; [by subst|]. rewrite HX by done. rewrite Ew. cbn. by rewrite lookup_insert_ne.
  - done.
  - exact HC.
  - by rewrite HT.
  - by rewrite HT.
  - done.
  - intros x Hx. destruct (Forall2_combine _ _ _ _ HF Hx) as (n & Hn & u & Hu & H0 & E & _).
    exists u. split; [done|]. split; [done|]. pose proof (HM _ Hn) as HB'. cbn [fst snd money set_status] in HB'. lia.
  - intros t Ht. apply HO. by rewrite Hfst.
  - apply leave_law.
Qed.

End Facts.

(** ** Theorems *)

Section Theorems.
Context `{OZ : OpenZeppelin} `{ET : ERC20} `{RG : ReentrancyGuard} `{CN : Coins} `{BN : BigNumber} (this : Address).
Context (hook : Address -> Address -> Z -> Address -> Address -> state -> result state).

(** The real unit of a component's default position. *)
Definition realUnit (k : SetToken.state) (x : Address) : Z :=
  SetToken.virtualUnit (SetToken.position k x) * SetToken.positionMultiplier k / PRECISE_UNIT.

Lemma realUnit_Ok k x u : SetToken.Inv k -> SetToken.getDefaultPositionRealUnit k x = Ok u -> u = realUnit k x.
Proof.
  intros HI Q. by apply conservativePreciseMul_Ok in Q as (-> & _); [|apply SetToken.inv_units|apply SetToken.inv_multiplier_int].
Qed.

Lemma same_claims_realUnit k k' x : same_claims k k' -> realUnit k' x = realUnit k x.
Proof. intros (_ & HP & HM). unfold realUnit, SetToken.position. by rewrite HP, HM. Qed.

(** The token at [a] holds what its supply is entitled to, of every component, but for
    [short] precise units. *)
Definition backed_within (a : Address) (short : Z) (s : state) : Prop :=
  0 <= short /\
  exists c, ModuleBase.setTokens (world s) !! a = Some c /\ SetToken.Inv (SetToken.vars c) /\
    forall x, x ∈ SetToken.components (SetToken.vars c) ->
      realUnit (SetToken.vars c) x * totalSupply (SetToken.tokens c) <= coin_balance (money s) x a * PRECISE_UNIT + short.

(** A change from outside that leaves positions, multiplier and supply of [a] as they
    are and takes none of its components: transfers of the token or of components to
    it, what other SetTokens do, changes of modules and settings, pausing. *)
Definition harmless (a : Address) (s s' : state) : Prop :=
  forall c, ModuleBase.setTokens (world s) !! a = Some c -> SetToken.Inv (SetToken.vars c) ->
    exists c', ModuleBase.setTokens (world s') !! a = Some c' /\ SetToken.Inv (SetToken.vars c') /\
      same_claims (SetToken.vars c) (SetToken.vars c') /\
      totalSupply (SetToken.tokens c') = totalSupply (SetToken.tokens c) /\
      forall x, x ∈ SetToken.components (SetToken.vars c) -> coin_balance (money s) x a <= coin_balance (money s') x a.

(** What happens to the token at [a], and by how much it can fall short for that: an
    issue or a redemption; an accrual of its streaming fee by the module at [fees],
    which works on the same chain; or something harmless. *)
Inductive flow (a : Address) : Z -> state -> state -> Prop :=
  | flow_issue sender q to s s' : is_uint256 q -> issue this hook sender a q to s = Ok s' -> flow a 0 s s'
  | flow_redeem sender q to s s' : is_uint256 q ->
      is_uint256 (Controller.getModuleFee (ModuleBase.controller (world s)) this BASIC_ISSUANCE_MODULE_REDEEM_FEE_INDEX) ->
      redeem this sender a q to s = Ok s' -> flow a 0 s s'
  | flow_accrual fees now f f' s c : StreamingFeeModule.typed fees f -> is_uint256 now ->
      StreamingFeeModule.world f = world s -> ModuleBase.setTokens (world s) !! a = Some c ->
      StreamingFeeModule.accrueFee fees now a f = Ok f' ->
      flow a (totalSupply (SetToken.tokens c)) s (set_world s (StreamingFeeModule.world f') (money s) [])
  | flow_outside s s' : harmless a s s' -> flow a 0 s s'.

Inductive flows (a : Address) : Z -> state -> state -> Prop :=
  | flows_nil s : flows a 0 s s
  | flows_cons d d' s s1 s2 : flow a d s s1 -> flows a d' s1 s2 -> flows a (d + d') s s2.

Lemma backed_harmless a n s s' : harmless a s s' -> backed_within a n s -> backed_within a n s'.
Proof.
  intros HX (H0 & c & Hc & Hi & HC). split; [done|]. destruct (HX c Hc Hi) as (c' & Hc' & Hi' & EC & ET' & EM).
  exists c'. split; [done|]. split; [done|]. intros x Hx.
  rewrite (same_claims_realUnit _ _ _ EC). pose proof EC as (E & _). rewrite E in Hx. rewrite ET'.
  pose proof (HC x Hx). pose proof (EM x Hx). pose proof PRECISE_UNIT_pos. nia.
Qed.

Lemma callPreIssueHooks_harmless a q sender to s s1 h :
  (forall h q sender to s s', hook h a q sender to s = Ok s' -> harmless a s s') ->
  _callPreIssueHooks hook a q sender to s = Ok (s1, h) -> harmless a s s1.
Proof.
  intros HH Q. unfold _callPreIssueHooks in Q. case_match.
  - apply bind_Ok_inv in Q as (s2 & Q & E). apply Ok_inj in E as [= <- _]. by eapply HH.
  - apply Ok_inj in Q as [= <- _]. intros c Hc Hi. by exists c.
Qed.

(** A rounded unit of the reduced multiplier, for the raised supply, claims at most one
    unit more per token than the rounded unit before. *)
Lemma accrued_claim v m m' n n' : 0 <= v -> n' * m' <= n * m -> 0 <= n ->
  0 <= n' -> v * m' / PRECISE_UNIT * n' <= v * m / PRECISE_UNIT * n + n.
Proof.
  intros Hv Hm Hn Hn'. pose proof PRECISE_UNIT_pos as HP. revert HP. generalize PRECISE_UNIT as P. intros P HP.
  pose proof (floor_bounds (v * m) P HP) as H1. pose proof (floor_bounds (v * m') P HP) as H2.
  set (u := v * m / P) in *. set (u' := v * m' / P) in *. clearbody u u'.
  apply (Z.mul_le_mono_pos_r _ _ P HP).
  assert (H3 : n' * (u' * P) <= n' * (v * m')) by (apply Z.mul_le_mono_nonneg_l; lia).
  assert (H4 : v * (n' * m') <= v * (n * m)) by (apply Z.mul_le_mono_nonneg_l; lia).
  assert (H5 : n * (v * m) <= n * (u * P + P)) by (apply Z.mul_le_mono_nonneg_l; lia). lia.
Qed.

Lemma backed_accrual a fees now f f' s c n : StreamingFeeModule.typed fees f -> is_uint256 now ->
  StreamingFeeModule.world f = world s -> ModuleBase.setTokens (world s) !! a = Some c ->
  StreamingFeeModule.accrueFee fees now a f = Ok f' -> backed_within a n s ->
  backed_within a (n + totalSupply (SetToken.tokens c)) (set_world s (StreamingFeeModule.world f') (money s) []).
Proof.
  intros HT Hn Ew Hc Q (Hn0 & c0 & Hc0 & Hi & HC). rewrite Hc in Hc0. injection Hc0 as <-.
  assert (Hf : StreamingFeeModule.setTokens f !! a = Some c) by (rewrite <- Hc, <- Ew; done).
  destruct (StreamingFeeModule.typed_set _ _ HT a c Hf) as [_ HS%is_uint256_spec].
  split; [lia|]. unfold backed_within. cbn [world set_world StreamingFeeModule.world ModuleBase.setTokens money].
  destruct (StreamingFeeModule.accrueFee_Ok _ _ _ _ _ _ HT Hn Hf Q) as (_ & H0 & H1).
  destruct (Z.le_gt_cases (StreamingFeeModule.streamingFeePercentage (StreamingFeeModule.feeState f a)) 0) as [Hp|Hp].
  { exists c. rewrite (H0 Hp). split; [done|]. split; [done|]. intros x Hx. pose proof (HC x Hx). lia. }
  destruct (H1 Hp) as (c' & fee & q & mq & pq & [_ _ Hfee Eq ES (Esum & Hmq & Hpq) _ EM HM EV _ Et]).
  pose proof (SetToken.inv_multiplier _ Hi) as HM0. pose proof PRECISE_UNIT_pos as HP.
  pose proof (StreamingFeeModule.inflation_covered _ _ fee (proj1 HS) HM0 Hfee) as HI. rewrite <- EM, <- Eq, <- ES in HI.
  exists c'. rewrite Et, lookup_insert_eq. split; [done|]. split.
  { rewrite EV. apply SetToken.Inv_set_multiplier; [done|done|].
    pose proof (SetToken.inv_multiplier_int _ Hi) as Im%is_int256_spec. apply is_int256_spec.
    assert (SetToken.positionMultiplier (SetToken.vars c') <= SetToken.positionMultiplier (SetToken.vars c))
      by (rewrite EM; apply Z.div_le_upper_bound; nia). lia. }
  intros x Hx. assert (Hx' : x ∈ SetToken.components (SetToken.vars c)) by (by rewrite EV in Hx).
  pose proof (HC x Hx') as HB. unfold realUnit in *. replace (SetToken.position (SetToken.vars c') x)
    with (SetToken.position (SetToken.vars c) x) by (by rewrite EV).
  set (v := SetToken.virtualUnit _) in *. destruct (Z.le_gt_cases 0 v) as [Hv|Hv].
  - pose proof (accrued_claim v _ _ _ _ Hv HI (proj1 HS) ltac:(lia)). lia.
  - assert (v * SetToken.positionMultiplier (SetToken.vars c') / PRECISE_UNIT <= 0) by (apply Z.div_le_upper_bound; nia).
    pose proof (coin_balance_law (money s) x a) as Hb%is_uint256_spec. nia.
Qed.

Lemma flow_backed a d n s s' :
  (forall h q sender to s s', hook h a q sender to s = Ok s' -> harmless a s s') ->
  flow a d s s' -> backed_within a n s -> backed_within a (n + d) s'.
Proof.
  intros HH H HB. pose proof PRECISE_UNIT_pos as HP.
  destruct H as [sender q to s s' Hq Q|sender q to s s' Hq Hf Q|fees now f f' s c HT Hn Ew Hc Q|s s' HX];
    [rewrite Z.add_0_r..|by eapply backed_accrual|rewrite Z.add_0_r; by eapply backed_harmless].
  - destruct (issue_Ok _ _ _ _ _ _ _ _ Hq Q) as (_ & g & s1 & h & Qh & HI).
    apply callPreIssueHooks_harmless in Qh; [|exact HH].
    apply (backed_harmless a n) in Qh as (H0 & c & Hc & Hi & HC); [|exact HB].
    destruct (HI c Hc Hi) as (c' & [ES EV ET' _ EM _ _ _]). split; [done|].
    exists c'. rewrite ES, lookup_insert_eq, EV. split; [done|]. split; [done|]. intros x Hx.
    destruct (EM x Hx) as (u & Hu%realUnit_Ok & _ & ->); [|done]. rewrite <- Hu, ET'.
    pose proof (HC x Hx). rewrite <- Hu in *. pose proof (cdiv_bounds (u * q) PRECISE_UNIT HP). lia.
  - destruct HB as (H0 & c & Hc & Hi & HC).
    destruct (redeem_Ok _ _ _ _ _ _ _ _ Hq Hc Hi Hf Q) as (_ & c' & [ES EI EC ET' _ _ EM _ _]). split; [done|].
    exists c'. rewrite ES, decide_True by done. split; [done|]. split; [done|]. intros x Hx.
    rewrite (same_claims_realUnit _ _ _ EC). pose proof EC as (E & _). rewrite E in Hx.
    destruct (EM x Hx) as (u & Hu%realUnit_Ok & _ & ->); [|done]. rewrite <- Hu, ET'.
    pose proof (HC x Hx). rewrite <- Hu in *. pose proof (Z.mul_div_le (u * q) PRECISE_UNIT HP). lia.
Qed.

(** C6: A SetToken is backed by its components from its first issue on, as long as only
    issues, redemptions and streaming fees touch it. Starting with no supply, take any
    issues and redemptions by anyone, any accruals of its fee, and anything else that
    leaves its positions, multiplier and supply as they are and takes none of its
    components, the manager's hook included. Without an accrual, the balance of every
    component covers the unit of its position for every token of the supply; each
    accrual, which rounds the units anew, can leave it short by at most one base unit
    per whole token of the supply it finds. *)
Theorem always_backed a d s s' c : ModuleBase.setTokens (world s) !! a = Some c -> SetToken.Inv (SetToken.vars c) ->
  totalSupply (SetToken.tokens c) = 0 ->
  (forall h q sender to s s', hook h a q sender to s = Ok s' -> harmless a s s') -> flows a d s s' ->
  exists c', ModuleBase.setTokens (world s') !! a = Some c' /\
    forall x u, x ∈ SetToken.components (SetToken.vars c') ->
      SetToken.getDefaultPositionRealUnit (SetToken.vars c') x = Ok u ->
      u * totalSupply (SetToken.tokens c') <= coin_balance (money s') x a * PRECISE_UNIT + d.
Proof.
  intros Hc HI H0 HH H. assert (HB : backed_within a 0 s).
  { split; [done|]. exists c. split; [done|]. split; [done|]. intros x _. rewrite H0, Z.mul_0_r.
    pose proof (coin_balance_law (money s) x a) as Hb%is_uint256_spec. pose proof PRECISE_UNIT_pos. nia. }
  assert (HB' : backed_within a (0 + d) s').
  { revert HB. generalize 0. clear Hc H0. induction H as [s|d d' s s1 s2 Hs _ IH]; intros n HB; [by rewrite Z.add_0_r|].
    rewrite Z.add_assoc. eapply IH, flow_backed; [exact HH|exact Hs|exact HB]. }
  destruct HB' as (_ & c' & Hc' & Hi' & HC). exists c'. split; [done|]. intros x u Hx Hu%realUnit_Ok; [|done].
  rewrite Hu. by apply HC.
Qed.

(** C16: Issuing and redeeming cost exactly what the positions say. Without a hook,
    issuing [q] tokens moves the unit times [q], rounded up, of every component to
    the token and mints [q] to the recipient; redeeming them again, by anyone who
    holds them, sends out the unit times [q], rounded down, and burns [q]; no other
    token moves. Supply and terms are then as before, and the token has gained at
    most one base unit of each component. *)
Theorem issue_redeem_exact a q sender to s s1 redeemer receiver s2 c :
  is_uint256 q -> ModuleBase.setTokens (world s) !! a = Some c -> SetToken.Inv (SetToken.vars c) ->
  default ADDRESS_ZERO (managerIssuanceHook s !! a) = ADDRESS_ZERO ->
  is_uint256 (Controller.getModuleFee (ModuleBase.controller (world s)) this BASIC_ISSUANCE_MODULE_REDEEM_FEE_INDEX) ->
  issue this hook sender a q to s = Ok s1 -> redeem this redeemer a q receiver s1 = Ok s2 ->
  exists c1 c2, ModuleBase.setTokens (world s1) !! a = Some c1 /\ ModuleBase.setTokens (world s2) !! a = Some c2 /\
    totalSupply (SetToken.tokens c1) = totalSupply (SetToken.tokens c) + q /\
    totalSupply (SetToken.tokens c2) = totalSupply (SetToken.tokens c) /\
    same_claims (SetToken.vars c) (SetToken.vars c2) /\
    (forall x, x ∈ SetToken.components (SetToken.vars c) -> exists u,
       SetToken.getDefaultPositionRealUnit (SetToken.vars c) x = Ok u /\
       coin_balance (money s1) x a = coin_balance (money s) x a + cdiv (u * q) PRECISE_UNIT /\
       coin_balance (money s2) x a = coin_balance (money s1) x a - u * q / PRECISE_UNIT /\
       coin_balance (money s) x a <= coin_balance (money s2) x a <= coin_balance (money s) x a + 1) /\
    forall t, t ∉ SetToken.components (SetToken.vars c) -> coin_balance (money s2) t a = coin_balance (money s) t a.
Proof.
  intros Hq Hc HI Hh Hf Q1 Q2. pose proof PRECISE_UNIT_pos as HP.
  destruct (issue_Ok _ _ _ _ _ _ _ _ Hq Q1) as (Hq0 & g & s0 & h & Qh & HIs).
  unfold _callPreIssueHooks in Qh. cbn [managerIssuanceHook set_status] in Qh. rewrite Hh in Qh.
  rewrite bool_decide_eq_true_2 in Qh by done. cbn [negb] in Qh. apply Ok_inj in Qh as [= <- _].
  destruct (HIs c Hc HI) as (c1 & [ES EV ET1 _ EM EO EC _]).
  assert (Hc1 : ModuleBase.setTokens (world s1) !! a = Some c1) by (rewrite ES; apply lookup_insert_eq).
  assert (HI1 : SetToken.Inv (SetToken.vars c1)) by (by rewrite EV).
  assert (Hf1 : is_uint256 (Controller.getModuleFee (ModuleBase.controller (world s1)) this
    BASIC_ISSUANCE_MODULE_REDEEM_FEE_INDEX)) by (by rewrite EC).
  destruct (redeem_Ok _ _ _ _ _ _ _ _ Hq Hc1 HI1 Hf1 Q2) as (_ & c2 & [ES2 _ EC2 ET2 _ _ EM2 EO2 _]).
  exists c1, c2. rewrite EV in EC2, EM2, EO2. split; [done|]. split; [by rewrite ES2, decide_True|].
  split; [done|]. split; [lia|]. split; [done|]. split.
  - intros x Hx. destruct (EM x Hx) as (u & Hu & H0 & E1). destruct (EM2 x Hx) as (u' & Hu' & _ & E2).
    rewrite Hu in Hu'. injection Hu' as <-. exists u. split; [done|]. split; [exact E1|]. split; [exact E2|].
    cbn [money set_status] in E1. pose proof (cdiv_ge_div (u * q) PRECISE_UNIT ltac:(nia) HP). lia.
  - intros t Ht. rewrite EO2, EO by done. done.
Qed.

End Theorems.

(** ** Instances *)

(** A token of two components without supply, and an owner of components. *)
Definition sample_new : SetToken.state := SetToken.constructor ["A"; "B"]%string [10 ^ 18; 5 * 10 ^ 17 + 1]
  ["issuance"; "fees"]%string "controller" "manager" "Set" "SET".

Definition sample_vars : SetToken.state :=
  match (s ← SetToken.initializeModule "issuance" sample_new; SetToken.initializeModule "fees" s) with
  | Ok s => s | Throw _ => sample_new end.

Definition sample_controller : result Controller.state :=
  let s := Controller.constructor "owner" "protocol" in
  s ← Controller.exec "owner" (Controller.Initialize ["factory"]%string ["issuance"; "fees"]%string [] []) s;
  s ← Controller.exec "factory" (Controller.AddSet "set") s;
  Controller.exec "owner" (Controller.AddFee "issuance" 0 (5 * 10 ^ 15)) s.

Definition sample_token : SetToken.contract := SetToken.mkContract sample_vars empty_ledger.

Definition sample_state : state :=
  constructor "owner"
    (ModuleBase.mkChain (match sample_controller with Ok s => s | Throw _ => Controller.constructor "owner" "protocol" end)
       {[ "set"%string := sample_token ]})
    (<[ ("A", "alice")%string := 10 ^ 21 ]> {[ ("B", "alice")%string := 10 ^ 21 ]} : coins).

Definition no_hook (h a : Address) (q : Z) (sender to : Address) (s : state) : result state := Ok s.

Lemma Inv_sample_vars : SetToken.Inv sample_vars.
Proof.
  assert (H : is_Ok (s ← SetToken.initializeModule "issuance" sample_new; SetToken.initializeModule "fees" s) = true)
    by (by vm_compute).
  unfold sample_vars. apply is_Ok_true in H as [s H]. rewrite H. apply bind_Ok_inv in H as (s1 & H1 & H2).
  eapply SetToken.Inv_initializeModule, H2. eapply SetToken.Inv_initializeModule, H1. apply SetToken.storage_constructor.
  - apply (bool_decide_eq_true_1 _). by vm_compute.
  - apply (bool_decide_eq_true_1 _). by vm_compute.
Qed.

Lemma sample_lookup : ModuleBase.setTokens (world sample_state) !! "set"%string = Some sample_token.
Proof. apply lookup_singleton_eq. Qed.

(** Alice issues and Bob, who received the tokens, redeems. *)
Definition sample_runs : result (state * state) :=
  s1 ← issue "issuance" no_hook "alice" "set" (10 ^ 19 + 3) "bob" sample_state;
  s2 ← redeem "issuance" "bob" "set" (10 ^ 19 + 3) "bob" s1; Ok (s1, s2).

Lemma sample_runs_Ok : exists s1 s2, issue "issuance" no_hook "alice" "set" (10 ^ 19 + 3) "bob" sample_state = Ok s1 /\
  redeem "issuance" "bob" "set" (10 ^ 19 + 3) "bob" s1 = Ok s2.
Proof.
  assert (H : is_Ok sample_runs = true) by (by vm_compute). apply is_Ok_true in H as [[s1 s2] H].
  unfold sample_runs in H. apply bind_Ok_inv in H as (s & H1 & H). apply bind_Ok_inv in H as (s' & H2 & H).
  exists s, s'. exact (conj H1 H2).
Qed.

Lemma sample_quantity : is_uint256 (10 ^ 19 + 3).
Proof. by vm_compute. Qed.

Lemma sample_fee : is_uint256 (Controller.getModuleFee (ModuleBase.controller (world sample_state)) "issuance"
  BASIC_ISSUANCE_MODULE_REDEEM_FEE_INDEX).
Proof. by vm_compute. Qed.

Lemma issue_redeem_witness : exists s1 s2 c2,
  issue "issuance" no_hook "alice" "set" (10 ^ 19 + 3) "bob" sample_state = Ok s1 /\
  redeem "issuance" "bob" "set" (10 ^ 19 + 3) "bob" s1 = Ok s2 /\
  ModuleBase.setTokens (world s2) !! "set"%string = Some c2 /\ totalSupply (SetToken.tokens c2) = 0.
Proof.
  destruct sample_runs_Ok as (s1 & s2 & H1 & H2).
  destruct (issue_redeem_exact (ET := erc20_ref) "issuance" no_hook "set" (10 ^ 19 + 3) "alice" "bob" sample_state s1 "bob"
    "bob" s2 sample_token sample_quantity sample_lookup Inv_sample_vars eq_refl sample_fee H1 H2)
    as (c1 & c2 & _ & Hc2 & _ & HS & _).
  exists s1, s2, c2. split; [exact H1|]. split; [exact H2|]. split; [exact Hc2|]. exact HS.
Defined.

(** A year after the issue the fee of 2% is accrued. *)
Definition sample_fees (w : ModuleBase.chain) : StreamingFeeModule.state :=
  StreamingFeeModule.mk guard_new {[ "set"%string := StreamingFeeModule.sample_terms ]} []
    (ModuleBase.controller w) (ModuleBase.setTokens w).

Lemma sample_accrues : exists s1 f', issue "issuance" no_hook "alice" "set" (10 ^ 19 + 3) "bob" sample_state = Ok s1 /\
  StreamingFeeModule.accrueFee "fees" StreamingFeeModule.later "set" (sample_fees (world s1)) = Ok f'.
Proof.
  assert (H : is_Ok (s1 ← issue "issuance" no_hook "alice" "set" (10 ^ 19 + 3) "bob" sample_state;
    StreamingFeeModule.accrueFee "fees" StreamingFeeModule.later "set" (sample_fees (world s1))) = true) by (by vm_compute).
  apply is_Ok_true in H as [f' H]. apply bind_Ok_inv in H as (s1 & H1 & H2). exists s1, f'. exact (conj H1 H2).
Qed.

Lemma sample_issued s1 : issue "issuance" no_hook "alice" "set" (10 ^ 19 + 3) "bob" sample_state = Ok s1 ->
  exists c1, ModuleBase.setTokens (world s1) = {[ "set"%string := c1 ]} /\ SetToken.Inv (SetToken.vars c1) /\
    totalSupply (SetToken.tokens c1) = 10 ^ 19 + 3 /\
    ModuleBase.controller (world s1) = ModuleBase.controller (world sample_state).
Proof.
  intros H. apply issue_Ok in H as (_ & g & s0 & h & Qh & HI); [|exact sample_quantity].
  assert (E : world s0 = world sample_state) by (apply Ok_inj in Qh as [= <- _]; done).
  destruct (HI sample_token) as (c1 & [ES EV ET _ _ _ EC _]); [by rewrite E; apply sample_lookup|exact Inv_sample_vars|].
  exists c1. rewrite ES, E, EV, ET, EC, E. split; [apply insert_singleton_eq|]. split; [exact Inv_sample_vars|done].
Qed.

Lemma sample_module_typed s1 : issue "issuance" no_hook "alice" "set" (10 ^ 19 + 3) "bob" sample_state = Ok s1 ->
  StreamingFeeModule.typed "fees" (sample_fees (world s1)).
Proof.
  intros (c1 & ES & HI & HT & EC)%sample_issued. constructor.
  - apply (StreamingFeeModule.typed_fee _ _ StreamingFeeModule.sample_typed).
  - intros a c. cbn [sample_fees StreamingFeeModule.setTokens]. rewrite ES. intros [_ <-]%lookup_singleton_Some.
    split; [done|]. rewrite HT. exact sample_quantity.
  - cbn [sample_fees StreamingFeeModule.controller]. rewrite EC. by vm_compute.
Qed.

Lemma no_hook_harmless a h q sender to s s' : no_hook h a q sender to s = Ok s' -> harmless a s s'.
Proof. intros E c Hc Hi. apply Ok_inj in E as <-. by exists c. Qed.

Lemma always_backed_witness : exists s1 f' c',
  issue "issuance" no_hook "alice" "set" (10 ^ 19 + 3) "bob" sample_state = Ok s1 /\
  StreamingFeeModule.accrueFee "fees" StreamingFeeModule.later "set" (sample_fees (world s1)) = Ok f' /\
  StreamingFeeModule.setTokens f' !! "set"%string = Some c' /\
  forall x u, x ∈ SetToken.components (SetToken.vars c') ->
    SetToken.getDefaultPositionRealUnit (SetToken.vars c') x = Ok u ->
    u * totalSupply (SetToken.tokens c') <= coin_balance (money s1) x "set" * PRECISE_UNIT + (10 ^ 19 + 3).
Proof.
  destruct sample_accrues as (s1 & f' & H1 & H2). exists s1, f'.
  destruct (sample_issued s1 H1) as (c1 & ES & _ & HT & _).
  pose proof (always_backed (ET := erc20_ref) "issuance" no_hook "set" (0 + (totalSupply (SetToken.tokens c1) + 0)) sample_state
    (set_world s1 (StreamingFeeModule.world f') (money s1) []) sample_token sample_lookup Inv_sample_vars eq_refl
    (no_hook_harmless "set")) as K.
  destruct K as (c' & Hc' & HB).
  - eapply flows_cons; [exact (flow_issue "issuance" no_hook "set" "alice" _ "bob" sample_state s1 sample_quantity H1)|].
    eapply flows_cons; [|apply flows_nil].
    apply (flow_accrual "issuance" no_hook "set" "fees" StreamingFeeModule.later (sample_fees (world s1)) f' s1 c1);
      [by apply sample_module_typed|exact StreamingFeeModule.later_uint256|by destruct (world s1)|rewrite ES; apply lookup_singleton_eq|exact H2].
  - exists c'. split; [exact H1|]. split; [exact H2|]. split; [exact Hc'|]. rewrite HT, Z.add_0_l, Z.add_0_r in HB. exact HB.
Defined.

End BasicIssuanceModule.
