(* ===== verification/DebtIssuanceModule.v ===== *)
(** * The debt issuance module

    [contracts/protocol/modules/v1/DebtIssuanceModule.sol]: issuing and redeeming
    SetTokens that hold external positions, debts included. Modules that keep such
    positions are called while the components move ([componentIssueHook],
    [componentRedeemHook]), registered modules and the manager's hook before that;
    what those calls do is a parameter, a function on the whole state. The theorems
    say what such a call must do for a token to stay covered, up to base units that
    rounding costs, and that it then does; [leverageHook] puts the hooks of the
    leverage modules in, which do that. *)

From S2P Require Import Prelude JsString Ethers Constants MathUtils SafeMath PreciseUnitMath Erc20 Ownable Controller SetToken Position ModuleBase LeverageModules BasicIssuanceModule.
From Stdlib Require Import String.

Local Open Scope Z_scope.

Module DebtIssuanceModule.

(** [isModuleHook] is a mapping inside of the struct, which neither an assignment
    nor a [delete] of the struct touches: it is part of [state]. *)
Record IssuanceSettings := mkSettings {
  maxManagerFee : Z;
  managerIssueFee : Z;
  managerRedeemFee : Z;
  feeRecipient : Address;
  managerIssuanceHook : Address;
  moduleIssuanceHooks : list Address;
}.

Inductive Event :=
  | SetTokenIssued (_setToken _issuer _to _hookContract : Address) (_quantity _managerFee _protocolFee : Z)
  | SetTokenRedeemed (_setToken _redeemer _to : Address) (_quantity _managerFee _protocolFee : Z)
  | FeeRecipientUpdated (_setToken _newFeeRecipient : Address)
  | IssueFeeUpdated (_setToken : Address) (_newIssueFee : Z)
  | RedeemFeeUpdated (_setToken : Address) (_newRedeemFee : Z).

Definition ISSUANCE_MODULE_PROTOCOL_FEE_SPLIT_INDEX : Z := 0.

Definition no_settings : IssuanceSettings := mkSettings 0 0 0 ADDRESS_ZERO ADDRESS_ZERO [].

Definition set_recipient (x : IssuanceSettings) r :=
  mkSettings (maxManagerFee x) (managerIssueFee x) (managerRedeemFee x) r (managerIssuanceHook x) (moduleIssuanceHooks x).
Definition set_issueFee (x : IssuanceSettings) f :=
  mkSettings (maxManagerFee x) f (managerRedeemFee x) (feeRecipient x) (managerIssuanceHook x) (moduleIssuanceHooks x).
Definition set_redeemFee (x : IssuanceSettings) f :=
  mkSettings (maxManagerFee x) (managerIssueFee x) f (feeRecipient x) (managerIssuanceHook x) (moduleIssuanceHooks x).
Definition set_moduleHooks (x : IssuanceSettings) l :=
  mkSettings (maxManagerFee x) (managerIssueFee x) (managerRedeemFee x) (feeRecipient x) (managerIssuanceHook x) l.

Section Module_.
Context `{OZ : OpenZeppelin} `{ET : ERC20} `{RG : ReentrancyGuard} `{CN : Coins} (this : Address).

Record state := mk {
  status : guard;
  issuanceSettings : gmap Address IssuanceSettings;
  isModuleHook : gset (Address * Address);
  emitted : list Event;
  world : ModuleBase.chain;
  money : coins;
}.

Definition settings (s : state) (_setToken : Address) : IssuanceSettings :=
  default no_settings (issuanceSettings s !! _setToken).

Definition set_status (s : state) g := mk g (issuanceSettings s) (isModuleHook s) (emitted s) (world s) (money s).
Definition set_settings (s : state) _setToken x h e :=
  mk (status s) (<[ _setToken := x ]> (issuanceSettings s)) h (emitted s ++ e) (world s) (money s).
Definition set_world (s : state) w e := mk (status s) (issuanceSettings s) (isModuleHook s) (emitted s ++ e) w (money s).
Definition set_moved (s : state) (wm : ModuleBase.chain * coins) :=
  mk (status s) (issuanceSettings s) (isModuleHook s) (emitted s) wm.1 wm.2.

Definition constructor (w : ModuleBase.chain) (m : coins) : state := mk guard_new ∅ ∅ [] w m.

(** ** Fees and quantities *)

(** Total quantity, manager fee and protocol fee. *)
Definition calculateTotalFees (s : state) (_setToken : Address) (_quantity : Z) (_isIssue : bool) : result (Z * Z * Z) :=
  let setIssuanceSettings := settings s _setToken in
  let protocolFeeSplit :=
    Controller.getModuleFee (ModuleBase.controller (world s)) this ISSUANCE_MODULE_PROTOCOL_FEE_SPLIT_INDEX in
  let totalFeeRate := if _isIssue then managerIssueFee setIssuanceSettings else managerRedeemFee setIssuanceSettings in
  totalFee ← PreciseUnitMath.preciseMul totalFeeRate _quantity;
  protocolFee ← PreciseUnitMath.preciseMul totalFee protocolFeeSplit;
  managerFee ← sm_sub totalFee protocolFee;
  totalQuantity ← (if _isIssue then sm_add _quantity totalFee else sm_sub _quantity totalFee);
  Ok (totalQuantity, managerFee, protocolFee).

(** Cumulative equity and debt, from those of the modules before. *)
Definition addExternal (k : SetToken.state) (component : Address) (acc : Z * Z) (m : Address) : result (Z * Z) :=
  externalPositionUnit ← SetToken.getExternalPositionRealUnit k component m;
  if 0 <? externalPositionUnit then e ← ssm_add acc.1 externalPositionUnit; Ok (e, acc.2)
  else d ← ssm_add acc.2 externalPositionUnit; Ok (acc.1, d).

Definition issuanceUnits (k : SetToken.state) (component : Address) : result (Z * Z) :=
  r ← SetToken.getDefaultPositionRealUnit k component;
  acc ← foldM (addExternal k component) (r, 0) (SetToken.externalPositionModules (SetToken.position k component));
  equity ← toUint256 acc.1;
  n ← ssm_mul acc.2 (-1);
  debt ← toUint256 n;
  Ok (equity, debt).

(** Components, with equity and debt of each. *)
Definition _getTotalIssuanceUnits (_setToken : Address) (w : ModuleBase.chain) : result (list Address * list (Z * Z)) :=
  k ← ModuleBase.setToken w _setToken;
  let components := SetToken.components (SetToken.vars k) in
  units ← mapM (issuanceUnits (SetToken.vars k)) components;
  Ok (components, units).

Definition _calculateRequiredComponentIssuanceUnits (_setToken : Address) (_quantity : Z) (_isIssue : bool)
    (w : ModuleBase.chain) : result (list Address * list (Z * Z)) :=
  cu ← _getTotalIssuanceUnits _setToken w;
  totals ← mapM (fun u : Z * Z =>
    equity ← (if _isIssue then PreciseUnitMath.preciseMulCeil u.1 _quantity else PreciseUnitMath.preciseMul u.1 _quantity);
    debt ← (if _isIssue then PreciseUnitMath.preciseMul u.2 _quantity else PreciseUnitMath.preciseMulCeil u.2 _quantity);
    Ok (equity, debt)) cu.2;
  Ok (cu.1, totals).

Definition getRequiredComponentIssuanceUnits (s : state) (_setToken : Address) (_quantity : Z)
    : result (list Address * list (Z * Z)) :=
  f ← calculateTotalFees s _setToken _quantity true;
  _calculateRequiredComponentIssuanceUnits _setToken f.1.1 true (world s).

Definition getRequiredComponentRedemptionUnits (s : state) (_setToken : Address) (_quantity : Z)
    : result (list Address * list (Z * Z)) :=
  f ← calculateTotalFees s _setToken _quantity false;
  _calculateRequiredComponentIssuanceUnits _setToken f.1.1 false (world s).

Definition getModuleIssuanceHooks (s : state) (_setToken : Address) : list Address := moduleIssuanceHooks (settings s _setToken).

Definition isModuleIssuanceHook (s : state) (_setToken _hook : Address) : bool :=
  bool_decide ((_setToken, _hook) ∈ isModuleHook s).

(** ** Hooks *)

Section Hooks.
Context (invokePreIssueHook : Address -> Address -> Z -> Address -> Address -> state -> result state).
Context (moduleIssueHook moduleRedeemHook : Address -> Address -> Z -> state -> result state).
Context (componentIssueHook componentRedeemHook : Address -> Address -> Z -> Address -> bool -> state -> result state).

Definition _callManagerPreIssueHooks (_setToken : Address) (_quantity : Z) (_caller _to : Address) (s : state)
    : result (state * Address) :=
  let preIssueHook := managerIssuanceHook (settings s _setToken) in
  if negb (bool_decide (preIssueHook = ADDRESS_ZERO)) then
    s ← invokePreIssueHook preIssueHook _setToken _quantity _caller _to s; Ok (s, preIssueHook)
  else Ok (s, ADDRESS_ZERO).

Definition _callModulePreIssueHooks (_setToken : Address) (_quantity : Z) (s : state) : result state :=
  foldM (fun s hook => moduleIssueHook hook _setToken _quantity s) s (moduleIssuanceHooks (settings s _setToken)).

Definition _callModulePreRedeemHooks (_setToken : Address) (_quantity : Z) (s : state) : result state :=
  foldM (fun s hook => moduleRedeemHook hook _setToken _quantity s) s (moduleIssuanceHooks (settings s _setToken)).

Definition _executeExternalPositionHooks (_setToken : Address) (_setTokenQuantity : Z) (_component : Address)
    (_isIssue _isEquity : bool) (s : state) : result state :=
  k ← ModuleBase.setToken (world s) _setToken;
  let externalPositionModules := SetToken.externalPositionModules (SetToken.position (SetToken.vars k) _component) in
  if _isIssue
  then foldM (fun s m => componentIssueHook m _setToken _setTokenQuantity _component _isEquity s) s externalPositionModules
  else foldM (fun s m => componentRedeemHook m _setToken _setTokenQuantity _component _isEquity s) s externalPositionModules.

(** ** Moving components *)

Definition resolveEquity (msg_sender _setToken : Address) (_quantity : Z) (_to : Address) (_isIssue : bool)
    (s : state) (p : Address * Z) : result state :=
  let (component, componentQuantity) := p in
  if 0 <? componentQuantity then
    if _isIssue then
      m ← ModuleBase.transferFrom this component msg_sender _setToken componentQuantity (money s);
      _executeExternalPositionHooks _setToken _quantity component true true (set_moved s (world s, m))
    else
      s ← _executeExternalPositionHooks _setToken _quantity component false true s;
      wm ← ModuleBase.strictInvokeTransfer this _setToken component _to componentQuantity (world s, money s);
      Ok (set_moved s wm)
  else Ok s.

Definition _resolveEquityPositions (msg_sender _setToken : Address) (_quantity : Z) (_to : Address) (_isIssue : bool)
    (_components : list Address) (_componentEquityQuantities : list Z) (s : state) : result state :=
  foldM (resolveEquity msg_sender _setToken _quantity _to _isIssue) s (combine _components _componentEquityQuantities).

Definition resolveDebt (msg_sender _setToken : Address) (_quantity : Z) (_isIssue : bool) (s : state) (p : Address * Z)
    : result state :=
  let (component, componentQuantity) := p in
  if 0 <? componentQuantity then
    if _isIssue then
      s ← _executeExternalPositionHooks _setToken _quantity component true false s;
      wm ← ModuleBase.strictInvokeTransfer this _setToken component msg_sender componentQuantity (world s, money s);
      Ok (set_moved s wm)
    else
      m ← ModuleBase.transferFrom this component msg_sender _setToken componentQuantity (money s);
      _executeExternalPositionHooks _setToken _quantity component false false (set_moved s (world s, m))
  else Ok s.

Definition _resolveDebtPositions (msg_sender _setToken : Address) (_quantity : Z) (_isIssue : bool)
    (_components : list Address) (_componentDebtQuantities : list Z) (s : state) : result state :=
  foldM (resolveDebt msg_sender _setToken _quantity _isIssue) s (combine _components _componentDebtQuantities).

(** [_setToken.mint(_to, _quantity)] *)
Definition mint (_setToken _to : Address) (_quantity : Z) (s : state) : result state :=
  w ← ModuleBase.on_set _setToken (SetToken.mint (ModuleBase.isModule (world s)) this _to _quantity) (world s);
  Ok (set_world s w []).

Definition _resolveFees (_setToken : Address) (managerFee protocolFee : Z) (s : state) : result state :=
  if 0 <? managerFee then
    s ← mint _setToken (feeRecipient (settings s _setToken)) managerFee s;
    if 0 <? protocolFee then mint _setToken (Controller.feeRecipient (ModuleBase.controller (world s))) protocolFee s
    else Ok s
  else Ok s.

(** ** Issuance and redemption *)

(** [nonReentrant onlyValidAndInitializedSet(_setToken)] around a body. *)
Definition entering (_setToken : Address) (body : state -> result state) (s : state) : result state :=
  g ← enter (status s);
  let s := set_status s g in
  _ ← ModuleBase._validateOnlyValidAndInitializedSet this _setToken (world s);
  s ← body s;
  Ok (set_status s (leave (status s))).

Definition issue (msg_sender _setToken : Address) (_quantity : Z) (_to : Address) : state -> result state :=
  entering _setToken (fun s =>
    _ ← require (0 <? _quantity) "Issue quantity must be > 0";
    h ← _callManagerPreIssueHooks _setToken _quantity msg_sender _to s;
    s ← _callModulePreIssueHooks _setToken _quantity h.1;
    f ← calculateTotalFees s _setToken _quantity true;
    cu ← _calculateRequiredComponentIssuanceUnits _setToken f.1.1 true (world s);
    s ← _resolveEquityPositions msg_sender _setToken f.1.1 _to true cu.1 (map fst cu.2) s;
    s ← _resolveDebtPositions msg_sender _setToken f.1.1 true cu.1 (map snd cu.2) s;
    s ← _resolveFees _setToken f.1.2 f.2 s;
    s ← mint _setToken _to _quantity s;
    Ok (set_world s (world s) [SetTokenIssued _setToken msg_sender _to h.2 _quantity f.1.2 f.2])).

Definition redeem (msg_sender _setToken : Address) (_quantity : Z) (_to : Address) : state -> result state :=
  entering _setToken (fun s =>
    _ ← require (0 <? _quantity) "Redeem quantity must be > 0";
    s ← _callModulePreRedeemHooks _setToken _quantity s;
    w ← ModuleBase.on_set _setToken (SetToken.burn (ModuleBase.isModule (world s)) this msg_sender _quantity) (world s);
    let s := set_world s w [] in
    f ← calculateTotalFees s _setToken _quantity false;
    cu ← _calculateRequiredComponentIssuanceUnits _setToken f.1.1 false (world s);
    s ← _resolveDebtPositions msg_sender _setToken f.1.1 false cu.1 (map snd cu.2) s;
    s ← _resolveEquityPositions msg_sender _setToken f.1.1 _to false cu.1 (map fst cu.2) s;
    s ← _resolveFees _setToken f.1.2 f.2 s;
    Ok (set_world s (world s) [SetTokenRedeemed _setToken msg_sender _to _quantity f.1.2 f.2])).

(** ** Management *)

Definition updateFeeRecipient (msg_sender _setToken _newFeeRecipient : Address) (s : state) : result state :=
  _ ← ModuleBase._validateOnlyManagerAndValidSet this _setToken msg_sender (world s);
  let x := settings s _setToken in
  _ ← require (negb (bool_decide (_newFeeRecipient = ADDRESS_ZERO))) "Fee Recipient must be non-zero address.";
  _ ← require (negb (bool_decide (_newFeeRecipient = feeRecipient x))) "Same fee recipient passed";
  Ok (set_settings s _setToken (set_recipient x _newFeeRecipient) (isModuleHook s)
        [FeeRecipientUpdated _setToken _newFeeRecipient]).

Definition updateIssueFee (msg_sender _setToken : Address) (_newIssueFee : Z) (s : state) : result state :=
  _ ← ModuleBase._validateOnlyManagerAndValidSet this _setToken msg_sender (world s);
  let x := settings s _setToken in
  _ ← require (_newIssueFee <=? maxManagerFee x) "Issue fee can't exceed maximum";
  _ ← require (negb (_newIssueFee =? managerIssueFee x)) "Same issue fee passed";
  Ok (set_settings s _setToken (set_issueFee x _newIssueFee) (isModuleHook s) [IssueFeeUpdated _setToken _newIssueFee]).

Definition updateRedeemFee (msg_sender _setToken : Address) (_newRedeemFee : Z) (s : state) : result state :=
  _ ← ModuleBase._validateOnlyManagerAndValidSet this _setToken msg_sender (world s);
  let x := settings s _setToken in
  _ ← require (_newRedeemFee <=? maxManagerFee x) "Redeem fee can't exceed maximum";
  _ ← require (negb (_newRedeemFee =? managerRedeemFee x)) "Same redeem fee passed";
  Ok (set_settings s _setToken (set_redeemFee x _newRedeemFee) (isModuleHook s) [RedeemFeeUpdated _setToken _newRedeemFee]).

Definition registerToIssuanceModule (msg_sender _setToken : Address) (s : state) : result state :=
  _ ← ModuleBase._validateOnlyModule _setToken msg_sender (world s);
  _ ← ModuleBase._validateOnlyValidAndInitializedSet this _setToken (world s);
  let x := settings s _setToken in
  _ ← require (negb (isModuleIssuanceHook s _setToken msg_sender)) "Module already registered.";
  Ok (set_settings s _setToken (set_moduleHooks x (moduleIssuanceHooks x ++ [msg_sender]))
        (isModuleHook s ∪ {[ (_setToken, msg_sender) ]}) []).

Definition unregisterFromIssuanceModule (msg_sender _setToken : Address) (s : state) : result state :=
  _ ← ModuleBase._validateOnlyModule _setToken msg_sender (world s);
  _ ← ModuleBase._validateOnlyValidAndInitializedSet this _setToken (world s);
  let x := settings s _setToken in
  _ ← require (isModuleIssuanceHook s _setToken msg_sender) "Module not registered.";
  l ← AddressArrayUtils.removeStorage (moduleIssuanceHooks x) msg_sender;
  Ok (set_settings s _setToken (set_moduleHooks x l) (isModuleHook s ∖ {[ (_setToken, msg_sender) ]}) []).

Definition initialize (msg_sender _setToken : Address) (_maxManagerFee _managerIssueFee _managerRedeemFee : Z)
    (_feeRecipient _managerIssuanceHook : Address) (s : state) : result state :=
  _ ← ModuleBase._validateOnlySetManager _setToken msg_sender (world s);
  _ ← ModuleBase._validateOnlyValidAndPendingSet this _setToken (world s);
  _ ← require (_managerIssueFee <=? _maxManagerFee) "Issue fee can't exceed maximum fee";
  _ ← require (_managerRedeemFee <=? _maxManagerFee) "Redeem fee can't exceed maximum fee";
  let s := set_settings s _setToken
             (mkSettings _maxManagerFee _managerIssueFee _managerRedeemFee _feeRecipient _managerIssuanceHook [])
             (isModuleHook s) [] in
  w ← ModuleBase.on_set _setToken (SetToken.on_vars (SetToken.initializeModule this)) (world s);
  Ok (set_world s w []).

Definition removeModule (msg_sender : Address) (s : state) : result state :=
  _ ← require (Nat.eqb (List.length (moduleIssuanceHooks (settings s msg_sender))) 0) "Registered modules must be removed.";
  Ok (mk (status s) (delete msg_sender (issuanceSettings s)) (isModuleHook s) (emitted s) (world s) (money s)).

(** ** Calls *)

Inductive Call :=
  | Issue (_setToken : Address) (_quantity : Z) (_to : Address)
  | Redeem (_setToken : Address) (_quantity : Z) (_to : Address)
  | UpdateFeeRecipient (_setToken _newFeeRecipient : Address)
  | UpdateIssueFee (_setToken : Address) (_newIssueFee : Z)
  | UpdateRedeemFee (_setToken : Address) (_newRedeemFee : Z)
  | RegisterToIssuanceModule (_setToken : Address)
  | UnregisterFromIssuanceModule (_setToken : Address)
  | Initialize (_setToken : Address) (_maxManagerFee _managerIssueFee _managerRedeemFee : Z)
      (_feeRecipient _managerIssuanceHook : Address)
  | RemoveModule.

Definition exec (msg_sender : Address) (c : Call) (s : state) : result state :=
  match c with
  | Issue a q to => issue msg_sender a q to s
  | Redeem a q to => redeem msg_sender a q to s
  | UpdateFeeRecipient a r => updateFeeRecipient msg_sender a r s
  | UpdateIssueFee a f => updateIssueFee msg_sender a f s
  | UpdateRedeemFee a f => updateRedeemFee msg_sender a f s
  | RegisterToIssuanceModule a => registerToIssuanceModule msg_sender a s
  | UnregisterFromIssuanceModule a => unregisterFromIssuanceModule msg_sender a s
  | Initialize a m i r f h => initialize msg_sender a m i r f h s
  | RemoveModule => removeModule msg_sender s
  end.

End Hooks.

End Module_.

(** ** Facts *)

Section Facts.
Context `{OZ : OpenZeppelin} `{ET : ERC20} `{RG : ReentrancyGuard} `{CN : Coins} `{BN : BigNumber} (this : Address).

(** A loop whose rounds each raise the measure of one key by [d] at least, lower no
    other of those that count and keep [K]. *)
Lemma foldM_gains {S B} (bal : S -> Address -> Z) (C : Address -> Prop) (K : S -> Prop) (d : Address * B -> Z)
    (f : S -> Address * B -> result S) l s s' :
  (forall s p s', p ∈ l -> K s -> f s p = Ok s' ->
     K s' /\ bal s p.1 + d p <= bal s' p.1 /\ forall t, C t -> t <> p.1 -> bal s t <= bal s' t) ->
  (forall p, p ∈ l -> C p.1) -> NoDup l.*1 -> K s -> foldM f s l = Ok s' ->
  K s' /\ (forall p, p ∈ l -> bal s p.1 + d p <= bal s' p.1) /\ forall t, C t -> t ∉ l.*1 -> bal s t <= bal s' t.
Proof.
  revert s. induction l as [|p l IH]; intros s HF HC HN HK Q; cbn [foldM] in Q.
  - apply Ok_inj in Q as <-. split; [done|]. split; [|done]. intros p Hp. by apply elem_of_nil in Hp.
  - apply bind_Ok_inv in Q as (s1 & Q1 & Q). cbn in HN. apply NoDup_cons in HN as [Hn HN].
    destruct (HF s p s1) as (HK1 & Hb & Ho); [by left|done|done|].
    destruct (IH s1) as (HK' & HB & HO); [|intros; apply HC; by right|done|done|done|].
    { intros. apply HF; [by right|done|done]. }
    split; [done|]. split.
    + intros x [->|Hx]%elem_of_cons; [pose proof (HO _ (HC p ltac:(by left)) Hn); lia|]. pose proof (HB _ Hx).
      assert (x.1 <> p.1) as Hd by (intros E; apply Hn; rewrite <- E; by apply list_elem_of_fmap_2).
      pose proof (Ho _ (HC x ltac:(by right)) Hd). lia.
    + intros t Ct Ht. cbn in Ht. pose proof (HO t Ct ltac:(set_solver)). pose proof (Ho t Ct ltac:(set_solver)). lia.
Qed.

(** A property that every round of a loop keeps. *)
Lemma foldM_keeps_in {A B} (P : B -> Prop) (f : B -> A -> result B) l s s' :
  (forall s x s', x ∈ l -> P s -> f s x = Ok s' -> P s') -> P s -> foldM f s l = Ok s' -> P s'.
Proof.
  revert s. induction l as [|x l IH]; intros s HF HP Q; cbn [foldM] in Q; [by apply Ok_inj in Q as <-|].
  apply bind_Ok_inv in Q as (s1 & Q1 & Q). eapply IH, Q; [intros; eapply HF; [by right|done|done]|].
  eapply HF, Q1; [by left|done].
Qed.

Lemma foldM_keeps {A B} (P : B -> Prop) (f : B -> A -> result B) l s s' :
  (forall s x s', P s -> f s x = Ok s' -> P s') -> P s -> foldM f s l = Ok s' -> P s'.
Proof. intros HF. apply foldM_keeps_in. intros t x t' _. apply HF. Qed.

(** *** Fees *)

(** Rates and shares fit the type. *)
Record typed (a : Address) (s : state) : Prop := {
  typed_issueFee : is_uint256 (managerIssueFee (settings s a));
  typed_redeemFee : is_uint256 (managerRedeemFee (settings s a));
  typed_split : is_uint256 (Controller.getModuleFee (ModuleBase.controller (world s)) this
    ISSUANCE_MODULE_PROTOCOL_FEE_SPLIT_INDEX);
}.

Definition feeRate (s : state) (a : Address) (isIssue : bool) : Z :=
  if isIssue then managerIssueFee (settings s a) else managerRedeemFee (settings s a).

Definition split (s : state) : Z :=
  Controller.getModuleFee (ModuleBase.controller (world s)) this ISSUANCE_MODULE_PROTOCOL_FEE_SPLIT_INDEX.

(** What the fees of a quantity are. *)
Lemma calculateTotalFees_Ok s a q b f : typed a s -> is_uint256 q -> calculateTotalFees this s a q b = Ok f ->
  let fee := feeRate s a b * q / PRECISE_UNIT in
  f.1.1 = (if b then q + fee else q - fee) /\ f.2 = fee * split s / PRECISE_UNIT /\ f.1.2 = fee - f.2 /\
  is_uint256 f.1.1 /\ is_uint256 f.1.2 /\ is_uint256 f.2.
Proof.
  intros [T1 T2 T3] Hq Q fee. unfold calculateTotalFees in Q. apply bind_Ok_inv in Q as (t & Qt & Q).
  apply bind_Ok_inv in Q as (p & Qp & Q). apply bind_Ok_inv in Q as (m & Qm & Q). apply bind_Ok_inv in Q as (x & Qx & Q).
  apply Ok_inj in Q as <-. cbn [fst snd].
  apply preciseMul_Ok in Qt as [Et Ut]; [|by destruct b|done]. apply preciseMul_Ok in Qp as [Ep Up]; [|done..].
  apply sm_sub_inv in Qm as [Em Um]; [|done..].
  assert (Ef : t = fee) by (rewrite Et; unfold fee, feeRate; by destruct b). subst t.
  destruct b; [apply sm_add_inv in Qx as [Ex Ux]|apply sm_sub_inv in Qx as [Ex Ux]]; try done;
    rewrite Ex, Ep, Em, Ep; (split; [done|]); (split; [done|]); (split; [done|]);
    (split; [by rewrite <- Ex|]); (split; [by rewrite <- Ep, <- Em|by rewrite <- Ep]).
Qed.

(** *** Units *)

(** The real units of the external positions of a component, by module. *)
Definition externals (k : SetToken.state) (x : Address) (vs : list Z) : Prop :=
  Forall2 (fun m v => SetToken.getExternalPositionRealUnit k x m = Ok v)
    (SetToken.externalPositionModules (SetToken.position k x)) vs.

Definition external_units (k : SetToken.state) (x : Address) : list Z :=
  map (fun m => match SetToken.getExternalPositionRealUnit k x m with Ok v => v | Throw _ => 0 end)
    (SetToken.externalPositionModules (SetToken.position k x)).

Lemma externals_units k x vs : externals k x vs -> external_units k x = vs.
Proof.
  unfold externals, external_units. induction 1 as [|m v ms vs Hv _ IH]; [done|]. cbn [map]. by rewrite Hv, IH.
Qed.

(** *** Rounding *)

(** The total of one side of external units, and how many of them are on it. *)
Definition total (e : bool) (vs : list Z) : Z := zsum (map (side e) vs).
Definition count (e : bool) (vs : list Z) : Z := zsum (map (fun v => if 0 <? side e v then 1 else 0) vs).

(** What rounding may cost the token in a call: a base unit for each long position, the
    share of which is rounded against it; and in the rounds of debt, where the caller
    gets or pays the rounded total of shares that are rounded one by one, a base unit
    for each debt but one. *)
Definition long_slips (k : SetToken.state) (x : Address) : Z := count true (external_units k x).
Definition short_slips (k : SetToken.state) (x : Address) : Z := Z.max 0 (count false (external_units k x) - 1).
Definition slips (k : SetToken.state) (x : Address) : Z := long_slips k x + short_slips k x.

Lemma side_nonneg e v : 0 <= side e v.
Proof. unfold side, long, short. destruct e; lia. Qed.

Lemma total_nonneg e vs : 0 <= total e vs.
Proof. induction vs as [|v vs IH]; cbn; [done|]. pose proof (side_nonneg e v). unfold total in IH. lia. Qed.

Lemma count_nonneg e vs : 0 <= count e vs.
Proof. induction vs as [|v vs IH]; cbn; [done|]. unfold count in IH. destruct (0 <? side e v); lia. Qed.

(** What modules move together: as much as the rounded shares, less than one base unit
    each from the exact total. *)
Lemma moved_total b e vs q : 0 <= q ->
  (if Bool.eqb b e then - (total e vs * q) else total e vs * q) - count e vs * (PRECISE_UNIT - 1) <=
  zsum (map (fun v => moved b e v q) vs) * PRECISE_UNIT.
Proof.
  intros Hq. pose proof PRECISE_UNIT_pos as HP. unfold total, count. induction vs as [|v vs IH].
  { cbn [map zsum]. by destruct (Bool.eqb b e). }
  cbn [map zsum]. pose proof (side_nonneg e v) as H0.
  assert (H : (if Bool.eqb b e then - (side e v * q) else side e v * q) - (if 0 <? side e v then 1 else 0) * (PRECISE_UNIT - 1)
    <= moved b e v q * PRECISE_UNIT).
  { unfold moved. destruct (Z.ltb_spec 0 (side e v)) as [Hs|Hs].
    - destruct (Bool.eqb b e).
      + pose proof (cdiv_bounds (side e v * q) PRECISE_UNIT HP). lia.
      + pose proof (floor_bounds (side e v * q) PRECISE_UNIT HP). lia.
    - replace (side e v) with 0 by lia. rewrite Z.mul_0_l. destruct (Bool.eqb b e); vm_compute; discriminate. }
  destruct (Bool.eqb b e); lia.
Qed.

(** Of rounded parts of a total, against the rounded total: one base unit for each but one. *)
Lemma rounded_parts n t c f P : 0 < P -> 0 <= c -> t * P <= n -> n - c * (P - 1) <= f * P -> t - Z.max 0 (c - 1) <= f.
Proof.
  intros HP Hc H1 H2. apply Z.lt_succ_r, (Z.mul_lt_mono_pos_r P); [done|].
  destruct (Z.max_spec 0 (c - 1)) as [[H3 ->]|[H3 ->]]; [lia|].
  assert (c * (P - 1) <= 1 * (P - 1)) by (apply Z.mul_le_mono_nonneg_r; lia). lia.
Qed.

Lemma debts_brought vs q : 0 <= q ->
  total false vs * q / PRECISE_UNIT - Z.max 0 (count false vs - 1) <= zsum (map (fun v => moved true false v q) vs).
Proof.
  intros Hq. eapply rounded_parts, (moved_total true false vs q Hq); [exact PRECISE_UNIT_pos|apply count_nonneg|].
  apply (floor_bounds _ _ PRECISE_UNIT_pos).
Qed.

Lemma debts_taken vs q : 0 <= q ->
  - cdiv (total false vs * q) PRECISE_UNIT - Z.max 0 (count false vs - 1) <= zsum (map (fun v => moved false false v q) vs).
Proof.
  intros Hq. eapply rounded_parts, (moved_total false false vs q Hq); [exact PRECISE_UNIT_pos|apply count_nonneg|].
  cbn [Bool.eqb]. pose proof (cdiv_bounds (total false vs * q) PRECISE_UNIT PRECISE_UNIT_pos). lia.
Qed.

Lemma external_unit_int256 k x m v : SetToken.Inv k -> SetToken.getExternalPositionRealUnit k x m = Ok v -> is_int256 v.
Proof.
  intros HI Q. by apply conservativePreciseMul_Ok in Q as (_ & Hr & _);
    [|apply (SetToken.inv_external_units _ HI)|apply (SetToken.inv_multiplier_int _ HI)].
Qed.

Lemma default_unit_int256 k x r : SetToken.Inv k -> SetToken.getDefaultPositionRealUnit k x = Ok r -> is_int256 r.
Proof.
  intros HI Q. by apply conservativePreciseMul_Ok in Q as (_ & Hr & _);
    [|apply (SetToken.inv_units _ HI)|apply (SetToken.inv_multiplier_int _ HI)].
Qed.

Lemma addExternal_sums k x ms acc acc' : SetToken.Inv k -> is_int256 acc.1 -> is_int256 acc.2 ->
  foldM (addExternal k x) acc ms = Ok acc' ->
  exists vs, Forall2 (fun m v => SetToken.getExternalPositionRealUnit k x m = Ok v) ms vs /\
    acc'.1 = acc.1 + total true vs /\ acc'.2 = acc.2 - total false vs /\ is_int256 acc'.1 /\ is_int256 acc'.2.
Proof.
  intros HI. revert acc. induction ms as [|m ms IH]; intros acc U1 U2 Q; cbn [foldM] in Q.
  - apply Ok_inj in Q as <-. exists []. split; [constructor|]. cbn. by rewrite Z.add_0_r, Z.sub_0_r.
  - apply bind_Ok_inv in Q as (acc1 & Q1 & Q). unfold addExternal in Q1. apply bind_Ok_inv in Q1 as (v & Qv & Q1).
    pose proof (external_unit_int256 _ _ _ _ HI Qv) as Uv.
    assert (H1 : acc1.1 = acc.1 + long v /\ acc1.2 = acc.2 - short v /\ is_int256 acc1.1 /\ is_int256 acc1.2).
    { unfold long, short. destruct (Z.ltb_spec 0 v) as [Hv|Hv]; apply bind_Ok_inv in Q1 as (y & Qy & Q1);
        apply Ok_inj in Q1 as <-; cbn [fst snd]; apply ssm_add_inv in Qy as [-> Uy]; try done;
        (split; [lia|]); (split; [lia|]); done. }
    destruct H1 as (E1 & E2 & V1 & V2). destruct (IH _ V1 V2 Q) as (vs & HF & F1 & F2 & HU).
    exists (v :: vs). split; [by constructor|]. unfold total in *. cbn [map zsum side]. split; [lia|]. split; [lia|exact HU].
Qed.

(** What a component amounts to: its default unit and external units, as equity
    and as debt. *)
Definition composed (k : SetToken.state) (x : Address) (u : Z * Z) : Prop :=
  exists r vs, SetToken.getDefaultPositionRealUnit k x = Ok r /\ externals k x vs /\
    u.1 = r + total true vs /\ u.2 = total false vs /\ is_uint256 u.1 /\ is_uint256 u.2.

Lemma int_uint256 v : is_int256 v -> 0 <= v -> is_uint256 v.
Proof. intros Hv H0. apply is_int256_spec in Hv. apply is_uint256_spec. change (2 ^ 256) with (2 * 2 ^ 255). lia. Qed.

Lemma issuanceUnits_Ok k x u : SetToken.Inv k -> issuanceUnits k x = Ok u -> composed k x u.
Proof.
  intros HI Q. unfold issuanceUnits in Q. apply bind_Ok_inv in Q as (r & Qr & Q). apply bind_Ok_inv in Q as (acc & Qa & Q).
  apply bind_Ok_inv in Q as (e & Qe & Q). apply bind_Ok_inv in Q as (n & Qn & Q). apply bind_Ok_inv in Q as (d & Qd & Q).
  apply Ok_inj in Q as <-. apply addExternal_sums in Qa as (vs & HF & E1 & E2 & U1 & U2);
    [|done|by eapply default_unit_int256|done]. cbn [fst snd] in *.
  apply toUint256_Ok in Qe as [-> He]; [|done]. apply ssm_mul_inv in Qn as [-> Un]; [|done|by vm_compute].
  apply toUint256_Ok in Qd as [-> Hd]; [|done]. exists r, vs. split; [done|]. split; [done|]. cbn [fst snd].
  split; [done|]. split; [lia|]. split; by apply int_uint256.
Qed.

(** The quantities of a component that a call with the quantity [q] moves. *)
Definition required (k : SetToken.state) (q : Z) (isIssue : bool) (x : Address) (n : Z * Z) : Prop :=
  exists u, composed k x u /\ is_uint256 n.1 /\ is_uint256 n.2 /\
    n.1 = (if isIssue then cdiv (u.1 * q) PRECISE_UNIT else u.1 * q / PRECISE_UNIT) /\
    n.2 = (if isIssue then u.2 * q / PRECISE_UNIT else cdiv (u.2 * q) PRECISE_UNIT).

Lemma required_units a q b w c l ns : ModuleBase.setTokens w !! a = Some c -> SetToken.Inv (SetToken.vars c) ->
  is_uint256 q -> _calculateRequiredComponentIssuanceUnits a q b w = Ok (l, ns) ->
  l = SetToken.components (SetToken.vars c) /\ Forall2 (required (SetToken.vars c) q b) l ns.
Proof.
  intros Hc HI Hq Q. unfold _calculateRequiredComponentIssuanceUnits, _getTotalIssuanceUnits in Q.
  apply bind_Ok_inv in Q as ([l' us] & Q1 & Q). apply bind_Ok_inv in Q1 as (k & Qk%ModuleBase.setToken_Ok & Q1).
  rewrite Hc in Qk. injection Qk as <-. apply bind_Ok_inv in Q1 as (us' & Qu & Q1). apply Ok_inj in Q1 as [= <- <-].
  apply bind_Ok_inv in Q as (ns' & Qn & Q). apply Ok_inj in Q as [= <- <-]. split; [done|].
  apply mapM_Ok_Forall2 in Qu, Qn. cbn [fst snd] in *. revert ns' Qn.
  induction Qu as [|x u l us Hx _ IH]; intros ns' Qn; [apply Forall2_nil_inv_l in Qn as ->; constructor|].
  apply Forall2_cons_inv_l in Qn as (n & ns & Hn & Qn & ->). constructor; [|by apply IH].
  apply issuanceUnits_Ok in Hx; [|done]. pose proof Hx as (r & vs & _ & _ & _ & _ & U1 & U2).
  apply bind_Ok_inv in Hn as (e & Qe & Hn). apply bind_Ok_inv in Hn as (d & Qd & Hn). apply Ok_inj in Hn as <-.
  exists u. split; [done|]. cbn [fst snd].
  destruct b; [apply mulCeil_Ok in Qe as [Ee Ue]; [|done..]; apply preciseMul_Ok in Qd as [Ed Ud]; [|done..]
    |apply preciseMul_Ok in Qe as [Ee Ue]; [|done..]; apply mulCeil_Ok in Qd as [Ed Ud]; [|done..]]; done.
Qed.

(** *** What holds while components move *)

(** A balance of the token at [a], in precise units. *)
Definition bal (a : Address) (s : state) (x : Address) : Z := coin_balance (money s) x a * PRECISE_UNIT.

(** The token at [a] has the claims of [k] and the supply [n]. *)
Definition holding (a : Address) (k : SetToken.state) (n : Z) (s : state) : Prop :=
  exists c, ModuleBase.setTokens (world s) !! a = Some c /\ SetToken.Inv (SetToken.vars c) /\
    BasicIssuanceModule.same_claims k (SetToken.vars c) /\ totalSupply (SetToken.tokens c) = n.

(** From [s] to [s'] the token keeps its claims and its supply, gains at least [d]
    precise units of the component [x] and loses nothing of its other components. *)
Definition gains (a : Address) (k : SetToken.state) (n : Z) (x : Address) (d : Z) (s s' : state) : Prop :=
  holding a k n s' /\ bal a s x + d <= bal a s' x /\
  forall t, t ∈ SetToken.components k -> t <> x -> bal a s t <= bal a s' t.

Lemma gains_refl a k n x s : holding a k n s -> gains a k n x 0 s s.
Proof. intros H. split; [done|]. split; [lia|done]. Qed.

Lemma gains_trans a k n x d d' s1 s2 s3 : gains a k n x d s1 s2 -> gains a k n x d' s2 s3 -> gains a k n x (d + d') s1 s3.
Proof.
  intros (_ & H2 & H3) (H4 & H5 & H6). split; [done|]. split; [lia|]. intros t Ct Ht.
  pose proof (H3 t Ct Ht). pose proof (H6 t Ct Ht). lia.
Qed.

Lemma gains_le a k n x d d' s s' : d' <= d -> gains a k n x d s s' -> gains a k n x d' s s'.
Proof. intros Hd (H1 & H2 & H3). split; [done|]. split; [lia|done]. Qed.

Lemma same_claims_external k k' x : BasicIssuanceModule.same_claims k k' ->
  SetToken.externalPositionModules (SetToken.position k' x) = SetToken.externalPositionModules (SetToken.position k x) /\
  forall m, SetToken.getExternalPositionRealUnit k' x m = SetToken.getExternalPositionRealUnit k x m.
Proof.
  intros (_ & HP & HM). unfold SetToken.getExternalPositionRealUnit, SetToken._convertVirtualToRealUnit,
    SetToken.externalPosition, SetToken.position. by rewrite HP, HM.
Qed.

(** Calls of the modules of a component, one after the other. *)
Lemma hooks_gain (f : state -> Address -> result state) a x k n b e q ms vs s s' :
  (forall s m v s', holding a k n s -> m ∈ ms -> SetToken.getExternalPositionRealUnit k x m = Ok v ->
     f s m = Ok s' -> gains a k n x (moved b e v q * PRECISE_UNIT) s s') ->
  Forall2 (fun m v => SetToken.getExternalPositionRealUnit k x m = Ok v) ms vs ->
  holding a k n s -> foldM f s ms = Ok s' ->
  gains a k n x (zsum (map (fun v => moved b e v q) vs) * PRECISE_UNIT) s s'.
Proof.
  intros HF HV. revert s. induction HV as [|m v ms vs Hv HV IH]; intros s HK Q; cbn [foldM] in Q.
  - apply Ok_inj in Q as <-. by apply gains_refl.
  - apply bind_Ok_inv in Q as (s1 & Q1 & Q). apply (HF s m v) in Q1; [|done|by left|done].
    apply IH in Q; [|intros; eapply HF; [done|by right|done|done]|by apply Q1].
    cbn [map zsum]. rewrite Z.mul_add_distr_r. by eapply gains_trans.
Qed.

Context (componentIssueHook componentRedeemHook : Address -> Address -> Z -> Address -> bool -> state -> result state).

(** What the modules of the token rely on about its terms, such as the sign of the
    positions they keep. *)
Context (agreed : SetToken.state -> Prop).

(** The modules of the external positions of [a] play their part, in calls of one
    kind: they take no more than the share of the position rounded up, or bring no
    less than the share rounded down. *)
Definition plays (a : Address) (b e : bool) : Prop :=
  forall m q x k n s s' v, 0 < q -> is_uint256 q -> holding a k n s -> agreed k -> x ∈ SetToken.components k ->
    m ∈ SetToken.externalPositionModules (SetToken.position k x) ->
    SetToken.getExternalPositionRealUnit k x m = Ok v ->
    (if b then componentIssueHook else componentRedeemHook) m a q x e s = Ok s' ->
    gains a k n x (moved b e v q * PRECISE_UNIT) s s'.

(** ... in all of them. *)
Definition replicating (a : Address) : Prop := forall b e, plays a b e.

Lemma executeHooks_gain a q x b e k n s s' vs : plays a b e -> 0 < q -> is_uint256 q -> holding a k n s -> agreed k ->
  x ∈ SetToken.components k -> externals k x vs ->
  _executeExternalPositionHooks componentIssueHook componentRedeemHook a q x b e s = Ok s' ->
  gains a k n x (zsum (map (fun v => moved b e v q) vs) * PRECISE_UNIT) s s'.
Proof.
  intros HR Hq Uq HK HA Hx HV Q. unfold _executeExternalPositionHooks in Q. apply bind_Ok_inv in Q as (c & Qc%ModuleBase.setToken_Ok & Q).
  pose proof HK as (c0 & Hc & _ & HS & _). rewrite Hc in Qc. injection Qc as ->.
  destruct (same_claims_external _ _ x HS) as [EM _]. rewrite EM in Q.
  assert (Q' : foldM (fun s m => (if b then componentIssueHook else componentRedeemHook) m a q x e s) s
    (SetToken.externalPositionModules (SetToken.position k x)) = Ok s') by (by destruct b).
  eapply hooks_gain; [|exact HV|exact HK|exact Q']. intros s1 m v s2 HK1 Hm Hv Q1. by eapply (HR m q x k n s1 s2 v).
Qed.

(** *** Transfers *)

Lemma holding_invoked a k n s w m : ModuleBase.invoked a (world s) w -> holding a k n s -> holding a k n (set_moved s (w, m)).
Proof.
  intros [->|(c & e & Hc & ->)] (c0 & Hc0 & HI & HS & HT); [by exists c0|].
  rewrite Hc in Hc0. injection Hc0 as <-. eexists. cbn. rewrite lookup_insert_eq. split; [done|].
  split; [by apply SetToken.Inv_emit|]. by split.
Qed.

Lemma transferFrom_gains a k m x from n s w : is_uint256 n -> holding a k m s ->
  ModuleBase.transferFrom this x from a n (money s) = Ok w ->
  gains a k m x (n * PRECISE_UNIT) s (set_moved s (world s, w)).
Proof.
  intros Hn HK Q. apply ModuleBase.transferFrom_Ok in Q as [H1 H2]; [|done]. split; [done|]. unfold bal. cbn [money set_moved snd].
  split; [rewrite H1; lia|]. intros t _ Ht. by rewrite H2.
Qed.

Lemma strictInvokeTransfer_gains a k m x to n s wm : is_uint256 n -> holding a k m s ->
  ModuleBase.strictInvokeTransfer this a x to n (world s, money s) = Ok wm ->
  gains a k m x (- (n * PRECISE_UNIT)) s (set_moved s wm).
Proof.
  destruct wm as [w c]. intros Hn HK Q. apply ModuleBase.strictInvokeTransfer_Ok in Q as (HI & H1 & H2); [|done].
  split; [by apply holding_invoked|]. unfold bal. cbn [money set_moved snd].
  split; [rewrite H1; lia|]. intros t _ Ht. by rewrite H2.
Qed.

(** Nothing moves for no tokens. *)
Lemma required_pos k q b x nx : 0 <= q -> required k q b x nx -> 0 < nx.1 \/ 0 < nx.2 -> 0 < q.
Proof.
  intros Hq (u & _ & _ & _ & E1 & E2) Hn. destruct (decide (q = 0)) as [->|D]; [|lia]. rewrite !Z.mul_0_r in E1, E2.
  rewrite E1, E2 in Hn. by destruct b, Hn.
Qed.

(** What the default position of a component gains or gives for [q] tokens. *)
Definition due (r q : Z) (isIssue : bool) : Z := if isIssue then r * q else - (Z.max r 0 * q).

Lemma resolveEquity_gains sender a q to b k n s s' x nx r : replicating a -> is_uint256 q -> holding a k n s -> agreed k ->
  x ∈ SetToken.components k -> required k q b x nx -> SetToken.getDefaultPositionRealUnit k x = Ok r ->
  resolveEquity this componentIssueHook componentRedeemHook sender a q to b s (x, nx.1) = Ok s' ->
  gains a k n x (due r q b - long_slips k x * PRECISE_UNIT) s s'.
Proof.
  intros HR Uq HK HA Cx HN. pose proof Uq as [Hq _]%is_uint256_spec. pose proof (required_pos _ _ _ _ _ Hq HN) as Hpos.
  destruct HN as (u & (r' & vs & Hr & HV & E1 & _ & U1 & _) & Un & _ & En & _). intros Qr Q. rewrite Hr in Qr. injection Qr as ->.
  unfold long_slips. rewrite (externals_units _ _ _ HV).
  pose proof PRECISE_UNIT_pos as HP. apply is_uint256_spec in U1. pose proof (total_nonneg true vs) as HL.
  pose proof (count_nonneg true vs) as HC. pose proof (moved_total b true vs q Hq) as HM.
  unfold resolveEquity in Q. destruct (Z.ltb_spec 0 nx.1) as [Hn|Hn].
  - specialize (Hpos (or_introl Hn)). destruct b; cbn [Bool.eqb] in HM.
    + apply bind_Ok_inv in Q as (m & Qm & Q). apply (transferFrom_gains _ k n) in Qm; [|done..].
      apply (executeHooks_gain _ _ _ _ _ k n _ _ vs) in Q; [|done|done|done|by apply Qm|done..].
      eapply gains_le; [|exact (gains_trans _ _ _ _ _ _ _ _ _ Qm Q)]. unfold due. rewrite En.
      pose proof (cdiv_bounds (u.1 * q) PRECISE_UNIT HP). nia.
    + apply bind_Ok_inv in Q as (s1 & Q1 & Q). apply bind_Ok_inv in Q as (wm & Qm & Q). apply Ok_inj in Q as <-.
      apply (executeHooks_gain _ _ _ _ _ k n _ _ vs) in Q1; [|done..].
      apply (strictInvokeTransfer_gains _ k n) in Qm; [|done|by apply Q1].
      eapply gains_le; [|exact (gains_trans _ _ _ _ _ _ _ _ _ Q1 Qm)]. unfold due. rewrite En.
      pose proof (Z.mul_div_le (u.1 * q) PRECISE_UNIT HP). nia.
  - apply Ok_inj in Q as <-. eapply gains_le; [|by apply gains_refl]. unfold due. destruct b; [|nia].
    pose proof (cdiv_bounds (u.1 * q) PRECISE_UNIT HP). nia.
Qed.

Lemma resolveDebt_gains sender a q b k n s s' x nx : replicating a -> is_uint256 q -> holding a k n s -> agreed k ->
  x ∈ SetToken.components k -> required k q b x nx ->
  resolveDebt this componentIssueHook componentRedeemHook sender a q b s (x, nx.2) = Ok s' ->
  gains a k n x (- (short_slips k x * PRECISE_UNIT)) s s'.
Proof.
  intros HR Uq HK HA Cx HN. pose proof Uq as [Hq _]%is_uint256_spec. pose proof (required_pos _ _ _ _ _ Hq HN) as Hpos.
  destruct HN as (u & (r' & vs & Hr & HV & _ & E2 & _ & U2) & _ & Un & _ & En). intros Q.
  unfold short_slips. rewrite (externals_units _ _ _ HV).
  pose proof PRECISE_UNIT_pos as HP. unfold resolveDebt in Q. destruct (Z.ltb_spec 0 nx.2) as [Hn|Hn].
  - specialize (Hpos (or_intror Hn)). destruct b.
    + apply bind_Ok_inv in Q as (s1 & Q1 & Q). apply bind_Ok_inv in Q as (wm & Qm & Q). apply Ok_inj in Q as <-.
      apply (executeHooks_gain _ _ _ _ _ k n _ _ vs) in Q1; [|done..].
      apply (strictInvokeTransfer_gains _ k n) in Qm; [|done|by apply Q1].
      eapply gains_le; [|exact (gains_trans _ _ _ _ _ _ _ _ _ Q1 Qm)]. pose proof (debts_brought vs q Hq) as HB.
      rewrite E2 in En. rewrite <- En in HB. nia.
    + apply bind_Ok_inv in Q as (m & Qm & Q). apply (transferFrom_gains _ k n) in Qm; [|done..].
      apply (executeHooks_gain _ _ _ _ _ k n _ _ vs) in Q; [|done|done|done|by apply Qm|done..].
      eapply gains_le; [|exact (gains_trans _ _ _ _ _ _ _ _ _ Qm Q)]. pose proof (debts_taken vs q Hq) as HB.
      rewrite E2 in En. rewrite <- En in HB. nia.
  - apply Ok_inj in Q as <-. eapply gains_le; [|by apply gains_refl]. nia.
Qed.

(** All components. *)
Lemma rounds_gain (f : state -> Address * Z -> result state) (pick : Z * Z -> Z) (d : Address -> Z) a k n q b ns s s' :
  SetToken.Inv k -> Forall2 (required k q b) (SetToken.components k) ns -> holding a k n s ->
  (forall s x nx s', x ∈ SetToken.components k -> holding a k n s -> required k q b x nx ->
     f s (x, pick nx) = Ok s' -> gains a k n x (d x) s s') ->
  foldM f s (combine (SetToken.components k) (map pick ns)) = Ok s' ->
  holding a k n s' /\ forall x, x ∈ SetToken.components k -> bal a s x + d x <= bal a s' x.
Proof.
  intros HI HF HK Hf Q.
  assert (HL : List.length (SetToken.components k) = List.length (map pick ns))
    by (rewrite length_map; exact (Forall2_length _ _ _ HF)).
  assert (HF' : Forall2 (fun x n1 => x ∈ SetToken.components k /\ exists nx, n1 = pick nx /\ required k q b x nx)
    (SetToken.components k) (map pick ns)).
  { apply Forall2_fmap_r. apply Forall2_same_length_lookup_2; [by rewrite (Forall2_length _ _ _ HF)|].
    intros i x nx Hx Hnx. split; [by eapply list_elem_of_lookup_2|]. exists nx. split; [done|].
    exact (Forall2_lookup_lr _ _ _ _ _ _ HF Hx Hnx). }
  apply (foldM_gains (bal a) (fun x => x ∈ SetToken.components k) (holding a k n) (fun p => d p.1)) in Q as (H1 & H2 & _);
    [| | |by rewrite BasicIssuanceModule.combine_fst by done; apply (SetToken.inv_components _ HI)|exact HK].
  - split; [exact H1|]. intros x Hx. destruct (BasicIssuanceModule.Forall2_combine _ _ _ _ HF' Hx) as (n1 & Hp & _).
    exact (H2 _ Hp).
  - intros s1 [x n1] s2 Hp HK1 Q1. apply (BasicIssuanceModule.combine_Forall2 _ _ _ _ HF') in Hp as (Hx & nx & E & HN).
    cbn [fst snd] in *. subst n1. exact (Hf s1 x nx s2 Hx HK1 HN Q1).
  - intros [x n1] Hp. by apply (BasicIssuanceModule.combine_Forall2 _ _ _ _ HF') in Hp as (Hx & _).
Qed.

(** The default unit of a component. *)
Definition default_unit (k : SetToken.state) (x : Address) : Z :=
  match SetToken.getDefaultPositionRealUnit k x with Ok r => r | Throw _ => 0 end.

Lemma resolveEquityPositions_gains sender a q to b k n s s' ns : replicating a -> is_uint256 q -> holding a k n s -> agreed k ->
  SetToken.Inv k -> Forall2 (required k q b) (SetToken.components k) ns ->
  _resolveEquityPositions this componentIssueHook componentRedeemHook sender a q to b (SetToken.components k) (map fst ns) s = Ok s' ->
  holding a k n s' /\ forall x r, x ∈ SetToken.components k -> SetToken.getDefaultPositionRealUnit k x = Ok r ->
     bal a s x + (due r q b - long_slips k x * PRECISE_UNIT) <= bal a s' x.
Proof.
  intros HR Hq HK HA HI HF Q.
  apply (rounds_gain _ fst (fun x => due (default_unit k x) q b - long_slips k x * PRECISE_UNIT) a k n q b ns) in Q as [H1 H2]; [|done..|].
  - split; [done|]. intros x r Hx Hr. pose proof (H2 x Hx) as H. unfold default_unit in H. by rewrite Hr in H.
  - intros s1 x nx s2 Hx HK1 HN Q1. pose proof HN as (u & (r & vs & Hr & _) & _). unfold default_unit. rewrite Hr.
    by eapply resolveEquity_gains.
Qed.

Lemma resolveDebtPositions_gains sender a q b k n s s' ns : replicating a -> is_uint256 q -> holding a k n s -> agreed k ->
  SetToken.Inv k -> Forall2 (required k q b) (SetToken.components k) ns ->
  _resolveDebtPositions this componentIssueHook componentRedeemHook sender a q b (SetToken.components k) (map snd ns) s = Ok s' ->
  holding a k n s' /\ forall x, x ∈ SetToken.components k -> bal a s x - short_slips k x * PRECISE_UNIT <= bal a s' x.
Proof.
  intros HR Hq HK HA HI HF Q.
  apply (rounds_gain _ snd (fun x => - (short_slips k x * PRECISE_UNIT)) a k n q b ns) in Q; [done..|].
  intros s1 x nx s2 Hx HK1 HN Q1. by eapply resolveDebt_gains.
Qed.

(** *** Fees and supply *)

Lemma mint_holding a to q k n s s' : holding a k n s -> mint this a to q s = Ok s' ->
  holding a k (n + q) s' /\ money s' = money s.
Proof.
  intros (c & Hc & HI & HS & HT) Q. unfold mint in Q. apply bind_Ok_inv in Q as (w & Qw & Q). apply Ok_inj in Q as <-.
  apply ModuleBase.on_set_Ok in Qw as (c0 & c' & Hc0 & Qt & ->). rewrite Hc in Hc0. injection Hc0 as <-.
  unfold SetToken.mint in Qt. apply bind_Ok_inv in Qt as (u & _ & Qt). apply bind_Ok_inv in Qt as (l & Ql & Qt).
  apply Ok_inj in Qt as <-. apply mint_Ok in Ql as (_ & ES & _). split; [|done].
  eexists. cbn. rewrite lookup_insert_eq. split; [done|]. split; [done|]. split; [done|]. cbn. lia.
Qed.

(** Both fees are minted, or the manager's is zero and none is. *)
Lemma resolveFees_holding a fm fp k n s s' : 0 <= fm -> 0 <= fp -> holding a k n s -> _resolveFees this a fm fp s = Ok s' ->
  holding a k (n + (if 0 <? fm then fm + fp else 0)) s' /\ money s' = money s.
Proof.
  intros H1 H2 HK Q. unfold _resolveFees in Q. destruct (Z.ltb_spec 0 fm) as [Hm|Hm].
  - apply bind_Ok_inv in Q as (s1 & Q1 & Q). apply (mint_holding _ _ _ k n) in Q1 as [HK1 E1]; [|done].
    destruct (Z.ltb_spec 0 fp) as [Hp|Hp].
    + apply (mint_holding _ _ _ k (n + fm)) in Q as [HK2 E2]; [|done]. rewrite E2. split; [|done]. by rewrite Z.add_assoc.
    + apply Ok_inj in Q as <-. replace (n + (fm + fp)) with (n + fm) by lia. by split.
  - apply Ok_inj in Q as <-. by rewrite Z.add_0_r.
Qed.

(** ** Issuing and redeeming *)

(** The token at [a] holds the default units of its components for its supply. *)
Definition covered (a : Address) (s : state) : Prop :=
  exists c, ModuleBase.setTokens (world s) !! a = Some c /\ SetToken.Inv (SetToken.vars c) /\
    forall x u, x ∈ SetToken.components (SetToken.vars c) ->
      SetToken.getDefaultPositionRealUnit (SetToken.vars c) x = Ok u -> 0 <= u ->
      u * totalSupply (SetToken.tokens c) <= coin_balance (money s) x a * PRECISE_UNIT.

(** It does but for [e x] base units of [x]. *)
Definition within (a : Address) (e : Address -> Z) (s : state) : Prop :=
  exists c, ModuleBase.setTokens (world s) !! a = Some c /\ SetToken.Inv (SetToken.vars c) /\
    forall x u, x ∈ SetToken.components (SetToken.vars c) ->
      SetToken.getDefaultPositionRealUnit (SetToken.vars c) x = Ok u -> 0 <= u ->
      u * totalSupply (SetToken.tokens c) <= (coin_balance (money s) x a + e x) * PRECISE_UNIT.

Lemma covered_within a s : covered a s <-> within a (fun _ => 0) s.
Proof. unfold covered, within. by setoid_rewrite Z.add_0_r. Qed.

Lemma within_le a e e' s : (forall x, e x <= e' x) -> within a e s -> within a e' s.
Proof.
  intros He (c & Hc & HI & HC). exists c. split; [done|]. split; [done|]. intros x u Hx Hu H0.
  pose proof (HC x u Hx Hu H0). pose proof (He x). pose proof PRECISE_UNIT_pos. nia.
Qed.

(** After the balances rose by what [m] more tokens claim, but for [d] base units. *)
Lemma within_held a k n m e e' s s' : holding a k (n + m) s' ->
  (forall x u, x ∈ SetToken.components k -> SetToken.getDefaultPositionRealUnit k x = Ok u -> 0 <= u ->
     u * n <= bal a s x + e x * PRECISE_UNIT /\
     bal a s x + u * m + e x * PRECISE_UNIT <= bal a s' x + e' x * PRECISE_UNIT) -> within a e' s'.
Proof.
  intros (c & Hc & HI & HS & HT) HB. exists c. split; [done|]. split; [done|]. intros x u Hx Hu H0.
  rewrite (BasicIssuanceModule.same_claims_unit _ _ x HS) in Hu. pose proof HS as (EC & _). rewrite EC in Hx.
  destruct (HB x u Hx Hu H0) as [H1 H2]. rewrite HT. unfold bal in *. lia.
Qed.

Lemma holding_start a c s : ModuleBase.setTokens (world s) !! a = Some c -> SetToken.Inv (SetToken.vars c) ->
  holding a (SetToken.vars c) (totalSupply (SetToken.tokens c)) s.
Proof. intros Hc HI. exists c. split; [done|]. split; [done|]. by split. Qed.

Lemma debt_entering_Ok a body s s' : entering this a body s = Ok s' -> exists g s2,
  enter (status s) = Ok g /\ body (set_status s g) = Ok s2 /\ s' = set_status s2 (leave (status s2)).
Proof.
  intros Q. unfold entering in Q. apply bind_Ok_inv in Q as (g & Qg & Q). apply bind_Ok_inv in Q as (u & _ & Q).
  apply bind_Ok_inv in Q as (s2 & Q2 & Q). apply Ok_inj in Q as <-. by exists g, s2.
Qed.

Context (invokePreIssueHook : Address -> Address -> Z -> Address -> Address -> state -> result state).
Context (moduleIssueHook moduleRedeemHook : Address -> Address -> Z -> state -> result state).

(** An issue: the hooks lead to [s1], from which the token gains what the new
    supply claims. *)
Lemma debt_issue_Ok sender a q to s s' : is_uint256 q ->
  issue this invokePreIssueHook moduleIssueHook componentIssueHook componentRedeemHook sender a q to s = Ok s' ->
  0 < q /\ exists g h s1,
    _callManagerPreIssueHooks invokePreIssueHook a q sender to (set_status s g) = Ok h /\
    _callModulePreIssueHooks moduleIssueHook a q h.1 = Ok s1 /\
    forall c, replicating a -> typed a s1 -> ModuleBase.setTokens (world s1) !! a = Some c -> SetToken.Inv (SetToken.vars c) ->
      agreed (SetToken.vars c) ->
      let fee := feeRate s1 a true * q / PRECISE_UNIT in
      exists minted, q <= minted <= q + fee /\
        holding a (SetToken.vars c) (totalSupply (SetToken.tokens c) + minted) s' /\
        forall x u, x ∈ SetToken.components (SetToken.vars c) ->
          SetToken.getDefaultPositionRealUnit (SetToken.vars c) x = Ok u ->
          bal a s1 x + u * (q + fee) - slips (SetToken.vars c) x * PRECISE_UNIT <= bal a s' x.
Proof.
  intros Hq Q. apply debt_entering_Ok in Q as (g & s7 & _ & Q & ->). apply bind_Ok_inv in Q as (u & Qu%require_Ok_inv & Q).
  apply Z.ltb_lt in Qu. split; [done|]. apply bind_Ok_inv in Q as (h & Qh & Q). apply bind_Ok_inv in Q as (s1 & Qm & Q).
  exists g, h, s1. split; [done|]. split; [done|]. intros c HR HT Hc HI HA fee.
  apply bind_Ok_inv in Q as (f & Qf & Q). destruct (calculateTotalFees_Ok _ _ _ _ _ HT Hq Qf) as (E1 & E2 & E3 & U1 & U2 & U3).
  fold fee in E1, E2, E3. apply bind_Ok_inv in Q as ([l ns] & Qr & Q).
  destruct (required_units _ _ _ _ _ _ _ Hc HI U1 Qr) as [-> HF]. cbn [fst snd] in Q.
  apply is_uint256_spec in U2, U3.
  apply bind_Ok_inv in Q as (s2 & Qe & Q). apply bind_Ok_inv in Q as (s3 & Qd & Q).
  apply bind_Ok_inv in Q as (s4 & Qfe & Q). apply bind_Ok_inv in Q as (s5 & Qt & Q). apply Ok_inj in Q as <-.
  pose proof (holding_start _ _ _ Hc HI) as HK.
  apply (resolveEquityPositions_gains _ _ _ _ _ (SetToken.vars c) (totalSupply (SetToken.tokens c))) in Qe as (HK2 & G2); [|done..].
  apply (resolveDebtPositions_gains _ _ _ _ (SetToken.vars c) (totalSupply (SetToken.tokens c))) in Qd as (HK3 & G3); [|done..].
  apply (resolveFees_holding _ _ _ (SetToken.vars c) (totalSupply (SetToken.tokens c))) in Qfe as (HK4 & M4); [|lia|lia|done].
  apply (mint_holding _ _ _ _ _ _ _ HK4) in Qt as (HK5 & M5).
  exists ((if 0 <? f.1.2 then f.1.2 + f.2 else 0) + q). split; [destruct (0 <? f.1.2); lia|]. split.
  - by rewrite Z.add_assoc.
  - intros x r Hx Hr. pose proof (G2 x r Hx Hr) as H2. pose proof (G3 x Hx) as H3. unfold due, slips in *. rewrite E1 in H2.
    unfold bal in *. cbn [money set_status set_world]. rewrite M5, M4. lia.
Qed.

Lemma debt_redeem_Ok sender a q to s s' : is_uint256 q ->
  redeem this moduleRedeemHook componentIssueHook componentRedeemHook sender a q to s = Ok s' ->
  0 < q /\ exists g s1, _callModulePreRedeemHooks moduleRedeemHook a q (set_status s g) = Ok s1 /\
    forall c, replicating a -> typed a s1 -> ModuleBase.setTokens (world s1) !! a = Some c -> SetToken.Inv (SetToken.vars c) ->
      agreed (SetToken.vars c) ->
      let fee := feeRate s1 a false * q / PRECISE_UNIT in
      exists burnt, q - fee <= burnt <= q /\ q <= balanceOf (SetToken.tokens c) sender /\
        holding a (SetToken.vars c) (totalSupply (SetToken.tokens c) - burnt) s' /\
        forall x u, x ∈ SetToken.components (SetToken.vars c) ->
          SetToken.getDefaultPositionRealUnit (SetToken.vars c) x = Ok u -> 0 <= u ->
          bal a s1 x - u * (q - fee) - slips (SetToken.vars c) x * PRECISE_UNIT <= bal a s' x.
Proof.
  intros Hq Q. apply debt_entering_Ok in Q as (g & s7 & _ & Q & ->). apply bind_Ok_inv in Q as (u & Qu%require_Ok_inv & Q).
  apply Z.ltb_lt in Qu. split; [done|]. apply bind_Ok_inv in Q as (s1 & Qm & Q). exists g, s1. split; [done|].
  intros c HR HT Hc HI HA fee. apply bind_Ok_inv in Q as (w & Qb & Q).
  apply ModuleBase.on_set_Ok in Qb as (c0 & c1 & Hc0 & Qb & ->). rewrite Hc in Hc0. injection Hc0 as <-.
  unfold SetToken.burn in Qb. apply bind_Ok_inv in Qb as (u' & _ & Qb). apply bind_Ok_inv in Qb as (lg & Ql & Qb).
  apply Ok_inj in Qb as <-. apply burn_Ok in Ql as (_ & HE & HS & _).
  set (c2 := SetToken.mkContract (SetToken.vars c) lg) in *. cbn zeta in Q.
  set (s2 := set_world s1 _ []) in Q.
  assert (Hc2 : ModuleBase.setTokens (world s2) !! a = Some c2) by apply lookup_insert_eq.
  assert (HT2 : typed a s2) by (by destruct HT).
  apply bind_Ok_inv in Q as (f & Qf & Q). destruct (calculateTotalFees_Ok _ _ _ _ _ HT2 Hq Qf) as (E1 & E2 & E3 & U1 & U2 & U3).
  change (feeRate s2 a false * q / PRECISE_UNIT) with fee in E1, E2, E3. apply bind_Ok_inv in Q as ([l ns] & Qr & Q).
  destruct (required_units _ _ _ _ _ _ _ Hc2 HI U1 Qr) as [-> HF]. cbn [fst snd] in Q.
  pose proof U1 as U1'%is_uint256_spec. apply is_uint256_spec in U2, U3.
  apply bind_Ok_inv in Q as (s3 & Qd & Q). apply bind_Ok_inv in Q as (s4 & Qe & Q).
  apply bind_Ok_inv in Q as (s5 & Qfe & Q). apply Ok_inj in Q as <-.
  pose proof (holding_start _ _ _ Hc2 HI) as HK. set (n := totalSupply (SetToken.tokens c2)) in HK.
  apply (resolveDebtPositions_gains _ _ _ _ (SetToken.vars c) n) in Qd as (HK3 & G3); [|done..].
  apply (resolveEquityPositions_gains _ _ _ _ _ (SetToken.vars c) n) in Qe as (HK4 & G4); [|done..].
  apply (resolveFees_holding _ _ _ (SetToken.vars c) n) in Qfe as (HK5 & M5); [|lia|lia|done].
  exists (q - (if 0 <? f.1.2 then f.1.2 + f.2 else 0)). split; [destruct (0 <? f.1.2) eqn:E0; lia|]. split; [done|]. split.
  - replace (totalSupply (SetToken.tokens c) - (q - (if 0 <? f.1.2 then f.1.2 + f.2 else 0)))
      with (n + (if 0 <? f.1.2 then f.1.2 + f.2 else 0)); [done|]. unfold n, c2. cbn [SetToken.tokens]. lia.
  - intros x r Hx Hr H0. pose proof (G4 x r Hx Hr) as H4. pose proof (G3 x Hx) as H3. unfold due, slips in *. rewrite E1 in H4.
    rewrite (Z.max_l r 0) in H4 by lia. change (bal a s2 x) with (bal a s1 x) in H3. unfold bal in *.
    cbn [money set_status set_world]. rewrite M5. lia.
Qed.

End Facts.

(** ** Theorems *)

Section Theorems.
Context `{OZ : OpenZeppelin} `{ET : ERC20} `{RG : ReentrancyGuard} `{CN : Coins} `{BN : BigNumber} (this : Address).
Context (invokePreIssueHook : Address -> Address -> Z -> Address -> Address -> state -> result state).
Context (moduleIssueHook moduleRedeemHook : Address -> Address -> Z -> state -> result state).
Context (componentIssueHook componentRedeemHook : Address -> Address -> Z -> Address -> bool -> state -> result state).

(** Calls that issue or redeem the token at [a], or that change settings. *)
Definition call_about (a : Address) (c : Call) : Prop :=
  match c with Issue b q _ | Redeem b q _ => b = a /\ is_uint256 q | _ => True end.

Definition is_flow (c : Call) : bool := match c with Issue _ _ _ | Redeem _ _ _ => true | _ => false end.

Section Covered.

(** What the modules rely on, and how many base units of each component rounding costs
    at most in a call. *)
Context (agreed : SetToken.state -> Prop) (N : Address -> nat).

Definition regular (k : SetToken.state) : Prop :=
  agreed k /\ forall x, x ∈ SetToken.components k -> slips k x <= Z.of_nat (N x).

(** The token exists, its terms are regular, and rates fit their type. *)
Definition good (a : Address) (s : state) : Prop :=
  typed this a s /\
  exists c, ModuleBase.setTokens (world s) !! a = Some c /\ SetToken.Inv (SetToken.vars c) /\ regular (SetToken.vars c).

(** What takes nothing from the token: afterwards each of its default units either is
    one that what it holds covers for the supply, as a module writes it that measures
    the balance; or claims for the supply no more than before, of a component of which
    the token holds no less. *)
Definition settled (a : Address) (s s' : state) : Prop :=
  forall c, ModuleBase.setTokens (world s) !! a = Some c -> SetToken.Inv (SetToken.vars c) ->
    exists c', ModuleBase.setTokens (world s') !! a = Some c' /\ SetToken.Inv (SetToken.vars c') /\
      forall x u', x ∈ SetToken.components (SetToken.vars c') ->
        SetToken.getDefaultPositionRealUnit (SetToken.vars c') x = Ok u' -> 0 < u' ->
        u' * totalSupply (SetToken.tokens c') <= coin_balance (money s') x a * PRECISE_UNIT \/
        x ∈ SetToken.components (SetToken.vars c) /\
        (exists u, SetToken.getDefaultPositionRealUnit (SetToken.vars c) x = Ok u /\ 0 <= u /\
           u' * totalSupply (SetToken.tokens c') <= u * totalSupply (SetToken.tokens c)) /\
        coin_balance (money s) x a <= coin_balance (money s') x a.

(** What happens, and whether it is an issue or a redemption. *)
Inductive debt_flow (a : Address) : Z -> state -> state -> Prop :=
  | flow_call sender c s s' : good a s -> call_about a c ->
      exec this invokePreIssueHook moduleIssueHook moduleRedeemHook componentIssueHook componentRedeemHook sender c s = Ok s' ->
      debt_flow a (if is_flow c then 1 else 0) s s'
  | flow_outside s s' : settled a s s' -> debt_flow a 0 s s'.

Inductive debt_flows (a : Address) : Z -> state -> state -> Prop :=
  | debt_nil s : debt_flows a 0 s s
  | debt_cons d d' s s1 s2 : debt_flow a d s s1 -> debt_flows a d' s1 s2 -> debt_flows a (d + d') s s2.

(** The hooks that run before anything moves take nothing from the token; they may
    sync its positions as long as its terms stay regular. *)
Definition good_hooks (a : Address) : Prop :=
  (forall h q sender to s s', good a s -> invokePreIssueHook h a q sender to s = Ok s' -> good a s' /\ settled a s s') /\
  (forall m q s s', good a s -> moduleIssueHook m a q s = Ok s' -> good a s' /\ settled a s s') /\
  (forall m q s s', good a s -> moduleRedeemHook m a q s = Ok s' -> good a s' /\ settled a s s').

(** A token that keeps its claims and supply, and loses nothing. *)
Definition harmless (a : Address) (s s' : state) : Prop :=
  (forall k n, holding a k n s -> holding a k n s') /\ forall x, bal a s x <= bal a s' x.

Lemma harmless_settled a s s' : harmless a s s' -> settled a s s'.
Proof.
  intros [H1 H2] c Hc HI. destruct (H1 _ _ (holding_start _ _ _ Hc HI)) as (c' & Hc' & HI' & HS & HT).
  exists c'. split; [done|]. split; [done|]. intros x u Hx Hu H0. right. pose proof HS as (EC & _).
  rewrite (BasicIssuanceModule.same_claims_unit _ _ x HS) in Hu. split; [by rewrite <- EC|]. rewrite HT.
  split; [exists u; split; [done|lia]|]. pose proof (H2 x) as H. unfold bal in H. pose proof PRECISE_UNIT_pos. nia.
Qed.

Lemma within_settled a e s s' : (forall x, 0 <= e x) -> settled a s s' -> within a e s -> within a e s'.
Proof.
  intros He H (c & Hc & HI & HC). destruct (H c Hc HI) as (c' & Hc' & HI' & HX). exists c'. split; [done|]. split; [done|].
  intros x u' Hx Hu H0. pose proof PRECISE_UNIT_pos as HP. pose proof (He x) as Hex.
  pose proof (coin_balance_law (money s') x a) as Hb%is_uint256_spec.
  destruct (decide (u' = 0)) as [->|D]; [nia|]. destruct (HX x u' Hx Hu ltac:(lia)) as [HB|(Cx & (u & Hu1 & H1 & HL) & HB)]; [nia|].
  pose proof (HC x u Cx Hu1 H1). nia.
Qed.

Lemma debt_harmless_same a s s' : world s' = world s -> money s' = money s -> harmless a s s'.
Proof. intros EW EM. unfold harmless, holding, bal. by rewrite EW, EM. Qed.

Lemma debt_settings_harmless sender c s s' a : is_flow c = false ->
  exec this invokePreIssueHook moduleIssueHook moduleRedeemHook componentIssueHook componentRedeemHook sender c s = Ok s' ->
  harmless a s s'.
Proof.
  intros Hf Q. destruct c; try discriminate Hf; cbn [exec] in Q.
  - unfold updateFeeRecipient in Q. inv_result. by apply debt_harmless_same.
  - unfold updateIssueFee in Q. inv_result. by apply debt_harmless_same.
  - unfold updateRedeemFee in Q. inv_result. by apply debt_harmless_same.
  - unfold registerToIssuanceModule in Q. inv_result. by apply debt_harmless_same.
  - unfold unregisterFromIssuanceModule in Q. inv_result. by apply debt_harmless_same.
  - unfold initialize in Q. do 4 apply bind_Ok_inv in Q as (? & _ & Q). apply bind_Ok_inv in Q as (w & Qw & Q).
    apply Ok_inj in Q as <-. cbn [world set_settings] in Qw.
    apply ModuleBase.on_set_Ok in Qw as (c0 & c' & Hc0 & Qt & ->). split; [|done].
    intros k n (c & Hc & HI & HS & HT). unfold holding. cbn [world set_world ModuleBase.setTokens].
    destruct (decide (_setToken = a)) as [->|D]; [|exists c; by rewrite lookup_insert_ne].
    rewrite Hc in Hc0. injection Hc0 as <-. apply bind_Ok_inv in Qt as (k' & Qk & E). apply Ok_inj in E as <-.
    exists (SetToken.mkContract k' (SetToken.tokens c)). rewrite lookup_insert_eq. split; [done|].
    split; [by eapply SetToken.Inv_initializeModule|]. split; [|done].
    unfold SetToken.initializeModule in Qk. by inv_result.
  - unfold removeModule in Q. inv_result. by apply debt_harmless_same.
Qed.

(** Hooks, one after the other. *)
Lemma hooks_within {A} a e (f : state -> A -> result state) l s s' : (forall x, 0 <= e x) ->
  (forall s x s', good a s -> f s x = Ok s' -> good a s' /\ settled a s s') ->
  good a s /\ within a e s -> foldM f s l = Ok s' -> good a s' /\ within a e s'.
Proof.
  intros He HF HG Q. refine (foldM_keeps (fun s => good a s /\ within a e s) _ _ _ _ _ HG Q).
  intros t x t' [Ht HW] Qt. destruct (HF _ _ _ Ht Qt) as [H1 H2]. split; [done|]. by eapply within_settled.
Qed.

Lemma debt_issue_within sender a q to e s s' : good_hooks a -> replicating componentIssueHook componentRedeemHook agreed a ->
  (forall x, 0 <= e x) -> good a s -> is_uint256 q -> within a e s ->
  issue this invokePreIssueHook moduleIssueHook componentIssueHook componentRedeemHook sender a q to s = Ok s' ->
  within a (fun x => e x + Z.of_nat (N x)) s'.
Proof.
  intros (HM & HIs & _) HX He HG Hq HW Q.
  apply (debt_issue_Ok _ _ _ agreed) in Q as (Hq0 & g & h & s1 & Qh & Qm & HN); [|done].
  assert (H0 : good a (set_status s g) /\ within a e (set_status s g)) by (split; [by destruct HG as [[]]|exact HW]).
  assert (H1 : good a h.1 /\ within a e h.1).
  { unfold _callManagerPreIssueHooks in Qh. destruct (negb _); [|apply Ok_inj in Qh as <-; exact H0].
    apply bind_Ok_inv in Qh as (s2 & Q2 & Qh). apply Ok_inj in Qh as <-. destruct H0 as [H0 HW0].
    destruct (HM _ _ _ _ _ _ H0 Q2) as [H1 H2]. split; [done|]. by eapply within_settled. }
  apply (hooks_within a e _ _ _ _ He) in Qm as [(HT1 & c & Hc & Hi & HA & HS) HW1]; [|intros t m t'; apply HIs|exact H1].
  destruct (HN c HX HT1 Hc Hi HA) as (m & Hm & HK & HB). destruct HW1 as (c1 & Hc1 & _ & HC1). rewrite Hc in Hc1. injection Hc1 as <-.
  eapply (within_held a _ _ m e _ s1); [exact HK|]. intros x u Hx Hu Hu0. pose proof PRECISE_UNIT_pos as HP.
  split; [pose proof (HC1 x u Hx Hu Hu0); unfold bal; lia|]. pose proof (HB x u Hx Hu) as HBx. pose proof (HS x Hx) as HSx. nia.
Qed.

Lemma debt_redeem_within sender a q to e s s' : good_hooks a -> replicating componentIssueHook componentRedeemHook agreed a ->
  (forall x, 0 <= e x) -> good a s -> is_uint256 q -> within a e s ->
  redeem this moduleRedeemHook componentIssueHook componentRedeemHook sender a q to s = Ok s' ->
  within a (fun x => e x + Z.of_nat (N x)) s'.
Proof.
  intros (_ & _ & HR) HX He HG Hq HW Q.
  apply (debt_redeem_Ok _ _ _ agreed) in Q as (Hq0 & g & s1 & Qm & HN); [|done].
  assert (H0 : good a (set_status s g) /\ within a e (set_status s g)) by (split; [by destruct HG as [[]]|exact HW]).
  apply (hooks_within a e _ _ _ _ He) in Qm as [(HT1 & c & Hc & Hi & HA & HS) HW1]; [|intros t m t'; apply HR|exact H0].
  destruct (HN c HX HT1 Hc Hi HA) as (m & Hm & _ & HK & HB). destruct HW1 as (c1 & Hc1 & _ & HC1). rewrite Hc in Hc1. injection Hc1 as <-.
  eapply (within_held a _ _ (- m) e _ s1); [exact HK|]. intros x u Hx Hu Hu0. pose proof PRECISE_UNIT_pos as HP.
  split; [pose proof (HC1 x u Hx Hu Hu0); unfold bal; lia|]. pose proof (HB x u Hx Hu Hu0) as HBx. pose proof (HS x Hx) as HSx. nia.
Qed.

Lemma debt_flow_within a d e s s' : good_hooks a -> replicating componentIssueHook componentRedeemHook agreed a ->
  (forall x, 0 <= e x) -> debt_flow a d s s' -> within a e s ->
  0 <= d /\ within a (fun x => e x + d * Z.of_nat (N x)) s'.
Proof.
  intros HH HX He H HW. destruct H as [sender c s s' HG HA Q|s s' H].
  - destruct (is_flow c) eqn:Ef.
    + split; [done|]. apply (within_le _ (fun x => e x + Z.of_nat (N x))); [lia|].
      destruct c as [b q to|b q to| | | | | | |]; try discriminate Ef; cbn [call_about exec] in HA, Q; destruct HA as (-> & Hq);
        [by eapply debt_issue_within|by eapply debt_redeem_within].
    + split; [done|]. apply (within_le _ e); [lia|]. eapply within_settled; [done| |exact HW].
      eapply harmless_settled, debt_settings_harmless; done.
  - split; [done|]. apply (within_le _ e); [lia|]. by eapply within_settled.
Qed.

(** C9: Debt does not eat into a token, but for roundings. Take a SetToken with external
    positions, long ones and debts, in any number of modules, that holds the default
    unit of every component for every token of its supply. Then let there be any issues
    and redemptions, fees included, mixed with changes of fees, hooks and modules and
    with anything outside that takes nothing from it. Let the modules of the external
    positions round as those of the repository do, what they take up and what they bring
    down; let the hooks before that take nothing. Then the token still holds the default
    units for its supply, but for [N x] base units of [x] for each issue and redemption,
    where [N x] bounds the number of long positions in [x] plus that of the debts in [x]
    less one: exactly, if a component has one debt at most and no long position. *)
Theorem debt_keeps_covered a n s s' : good_hooks a -> replicating componentIssueHook componentRedeemHook agreed a ->
  covered a s -> debt_flows a n s s' ->
  exists c, ModuleBase.setTokens (world s') !! a = Some c /\ SetToken.Inv (SetToken.vars c) /\
    forall x u, x ∈ SetToken.components (SetToken.vars c) ->
      SetToken.getDefaultPositionRealUnit (SetToken.vars c) x = Ok u -> 0 <= u ->
      u * totalSupply (SetToken.tokens c) <= (coin_balance (money s') x a + n * Z.of_nat (N x)) * PRECISE_UNIT.
Proof.
  intros HG HR HC H. assert (HW : within a (fun x => n * Z.of_nat (N x)) s'); [|exact HW].
  apply covered_within in HC. revert HC. cut (forall e, (forall x, 0 <= e x) -> within a e s ->
    within a (fun x => e x + n * Z.of_nat (N x)) s'); [intros HI HC; exact (HI (fun _ => 0) (fun _ => Z.le_refl 0) HC)|].
  induction H as [s|d d' s s1 s2 Hs _ IH]; intros e He HW.
  - by apply (within_le _ e); [lia|].
  - destruct (debt_flow_within a d e s s1 HG HR He Hs HW) as [Hd H1].
    eapply within_le, (IH (fun x => e x + d * Z.of_nat (N x))); [|intros x; pose proof (He x); nia|exact H1].
    intros x. cbn beta. lia.
Qed.

End Covered.

(** *** Terms *)

(** Same settings. *)
Definition keeps (s s' : state) : Prop := issuanceSettings s' = issuanceSettings s /\ isModuleHook s' = isModuleHook s.

(** What a call of a hook leaves. *)
Definition hooked (s s' : state) : Prop :=
  (exists h a q sender to, invokePreIssueHook h a q sender to s = Ok s') \/
  (exists m a q, moduleIssueHook m a q s = Ok s') \/ (exists m a q, moduleRedeemHook m a q s = Ok s') \/
  (exists m a q x e, componentIssueHook m a q x e s = Ok s') \/ (exists m a q x e, componentRedeemHook m a q x e s = Ok s').

Abbreviation steps := (rtc (fun s s' => keeps s s' \/ hooked s s')).

Lemma steps_keeps s s' : keeps s s' -> steps s s'.
Proof. intros H. apply rtc_once. by left. Qed.

Lemma steps_hooked s s' : hooked s s' -> steps s s'.
Proof. intros H. apply rtc_once. by right. Qed.

Lemma steps_foldM {A} (f : state -> A -> result state) l s s' :
  (forall s x s', f s x = Ok s' -> steps s s') -> foldM f s l = Ok s' -> steps s s'.
Proof.
  intros HF Q. refine (foldM_keeps (fun t => steps s t) f l s s' _ (rtc_refl _ _) Q). intros t x t' H Qt.
  etransitivity; [exact H|by eapply HF].
Qed.

Lemma executeHooks_steps a q x b e s s' :
  _executeExternalPositionHooks componentIssueHook componentRedeemHook a q x b e s = Ok s' -> steps s s'.
Proof.
  intros Q. unfold _executeExternalPositionHooks in Q. apply bind_Ok_inv in Q as (k & _ & Q).
  destruct b; (eapply steps_foldM; [|exact Q]); intros t m t' Qt; apply steps_hooked; unfold hooked; naive_solver.
Qed.

Lemma resolveEquity_steps sender a q to b p s s' :
  resolveEquity this componentIssueHook componentRedeemHook sender a q to b s p = Ok s' -> steps s s'.
Proof.
  intros Q. unfold resolveEquity in Q. destruct p as [x n]. destruct (0 <? n); [|apply Ok_inj in Q as <-; reflexivity].
  destruct b.
  - apply bind_Ok_inv in Q as (m & _ & Q). apply executeHooks_steps in Q. etransitivity; [|exact Q]. by apply steps_keeps.
  - apply bind_Ok_inv in Q as (s1 & Q1%executeHooks_steps & Q). apply bind_Ok_inv in Q as (wm & _ & Q). apply Ok_inj in Q as <-.
    etransitivity; [exact Q1|]. by apply steps_keeps.
Qed.

Lemma resolveDebt_steps sender a q b p s s' :
  resolveDebt this componentIssueHook componentRedeemHook sender a q b s p = Ok s' -> steps s s'.
Proof.
  intros Q. unfold resolveDebt in Q. destruct p as [x n]. destruct (0 <? n); [|apply Ok_inj in Q as <-; reflexivity].
  destruct b.
  - apply bind_Ok_inv in Q as (s1 & Q1%executeHooks_steps & Q). apply bind_Ok_inv in Q as (wm & _ & Q). apply Ok_inj in Q as <-.
    etransitivity; [exact Q1|]. by apply steps_keeps.
  - apply bind_Ok_inv in Q as (m & _ & Q). apply executeHooks_steps in Q. etransitivity; [|exact Q]. by apply steps_keeps.
Qed.

Lemma mint_keeps a to q s s' : mint this a to q s = Ok s' -> keeps s s'.
Proof. intros Q. unfold mint in Q. apply bind_Ok_inv in Q as (w & _ & Q). by apply Ok_inj in Q as <-. Qed.

Lemma resolveFees_steps a m p s s' : _resolveFees this a m p s = Ok s' -> steps s s'.
Proof.
  intros Q. unfold _resolveFees in Q. destruct (0 <? m); [|apply Ok_inj in Q as <-; reflexivity].
  apply bind_Ok_inv in Q as (s1 & Q1%mint_keeps & Q). etransitivity; [by apply steps_keeps|].
  destruct (0 <? p); [apply mint_keeps in Q; by apply steps_keeps|apply Ok_inj in Q as <-; reflexivity].
Qed.

Lemma flow_steps sender c s s' : is_flow c = true ->
  exec this invokePreIssueHook moduleIssueHook moduleRedeemHook componentIssueHook componentRedeemHook sender c s = Ok s' ->
  steps s s'.
Proof.
  intros Hf Q. assert (HM : forall (f : Address -> Address -> Z -> state -> result state) a q l s s', (forall m s s', f m a q s = Ok s' -> hooked s s') ->
    foldM (fun s hook => f hook a q s) s l = Ok s' -> steps s s').
  { intros f a q l t t' HF Qt. eapply steps_foldM; [|exact Qt]. intros t1 x t2 Q1. apply steps_hooked. exact (HF _ _ _ Q1). }
  destruct c as [a q to|a q to| | | | | | |]; try discriminate Hf; cbn [exec] in Q;
    apply debt_entering_Ok in Q as (g & s9 & _ & Q & ->); apply bind_Ok_inv in Q as (u & _ & Q);
    (transitivity (set_status s g); [by apply steps_keeps|]); (transitivity s9; [|by apply steps_keeps]).
  - apply bind_Ok_inv in Q as (h & Qh & Q). apply bind_Ok_inv in Q as (s1 & Qm & Q).
    do 2 apply bind_Ok_inv in Q as (? & _ & Q). apply bind_Ok_inv in Q as (s2 & Q2 & Q).
    apply bind_Ok_inv in Q as (s3 & Q3 & Q). apply bind_Ok_inv in Q as (s4 & Q4%resolveFees_steps & Q).
    apply bind_Ok_inv in Q as (s5 & Q5%mint_keeps & Q). apply Ok_inj in Q as <-.
    transitivity h.1; [|transitivity s1; [|transitivity s2; [|transitivity s3; [|transitivity s4; [done|
      transitivity s5; by apply steps_keeps]]]]].
    + unfold _callManagerPreIssueHooks in Qh. destruct (negb _); [|apply Ok_inj in Qh as <-; reflexivity].
      apply bind_Ok_inv in Qh as (t & Qt & Qh). apply Ok_inj in Qh as <-. apply steps_hooked. left. by eexists _, _, _, _, _.
    + eapply (HM moduleIssueHook); [|exact Qm]. intros m t t' Qt. right. left. by eexists _, _, _.
    + eapply steps_foldM; [|exact Q2]. intros t p t' Qt. by eapply resolveEquity_steps.
    + eapply steps_foldM; [|exact Q3]. intros t p t' Qt. by eapply resolveDebt_steps.
  - apply bind_Ok_inv in Q as (s1 & Qm & Q). apply bind_Ok_inv in Q as (w & _ & Q). cbn zeta in Q.
    do 2 apply bind_Ok_inv in Q as (? & _ & Q). apply bind_Ok_inv in Q as (s2 & Q2 & Q).
    apply bind_Ok_inv in Q as (s3 & Q3 & Q). apply bind_Ok_inv in Q as (s4 & Q4%resolveFees_steps & Q). apply Ok_inj in Q as <-.
    transitivity s1; [|transitivity (set_world s1 w []); [by apply steps_keeps|transitivity s2; [|transitivity s3; [|
      transitivity s4; [done|by apply steps_keeps]]]]].
    + eapply (HM moduleRedeemHook); [|exact Qm]. intros m t t' Qt. right. right. left. by eexists _, _, _.
    + eapply steps_foldM; [|exact Q2]. intros t p t' Qt. by eapply resolveDebt_steps.
    + eapply steps_foldM; [|exact Q3]. intros t p t' Qt. by eapply resolveEquity_steps.
Qed.

(** The terms of the token at [a]: fees up to a maximum, the manager's hook, and
    each module flagged exactly if it is listed, once. *)
Definition terms (a : Address) (maximum : Z) (hook : Address) (s : state) : Prop :=
  exists x, issuanceSettings s !! a = Some x /\ maxManagerFee x = maximum /\ managerIssuanceHook x = hook /\
    managerIssueFee x <= maximum /\ managerRedeemFee x <= maximum /\ NoDup (moduleIssuanceHooks x) /\
    forall m, (a, m) ∈ isModuleHook s <-> m ∈ moduleIssuanceHooks x.

Lemma debt_terms_keeps a n h s s' : keeps s s' -> terms a n h s -> terms a n h s'.
Proof. intros [E1 E2] HT. unfold terms. by rewrite E1, E2. Qed.

(** Calls between the initialization of the module by the token and its removal. *)
Definition under_terms (a sender : Address) (c : Call) : Prop :=
  match c with Initialize b _ _ _ _ _ => b <> a | RemoveModule => sender <> a | _ => True end.

Inductive settings_flow (a : Address) : state -> state -> Prop :=
  | settings_call sender c s s' : under_terms a sender c ->
      exec this invokePreIssueHook moduleIssueHook moduleRedeemHook componentIssueHook componentRedeemHook sender c s = Ok s' ->
      settings_flow a s s'
  | settings_outside s s' : keeps s s' -> settings_flow a s s'.

(** Changes of the settings of another token, and of this one. *)
Lemma debt_terms_other a b n h x r e s : b <> a -> (forall m, (a, m) ∈ r <-> (a, m) ∈ isModuleHook s) ->
  terms a n h s -> terms a n h (set_settings s b x r e).
Proof.
  intros Hb Hr (y & Hy & HX). exists y. cbn. rewrite lookup_insert_ne by done. split; [done|].
  destruct HX as (? & ? & ? & ? & ? & HF). do 5 (split; [done|]). intros m. by rewrite Hr.
Qed.

Lemma debt_terms_edit a n h x r e s : maxManagerFee x = n -> managerIssuanceHook x = h ->
  managerIssueFee x <= n -> managerRedeemFee x <= n -> NoDup (moduleIssuanceHooks x) ->
  (forall m, (a, m) ∈ r <-> m ∈ moduleIssuanceHooks x) -> terms a n h (set_settings s a x r e).
Proof. intros. exists x. cbn. by rewrite lookup_insert_eq. Qed.

Lemma settings_terms a x s : issuanceSettings s !! a = Some x -> settings s a = x.
Proof. intros E. unfold settings. by rewrite E. Qed.

Lemma debt_terms_call sender c s s' a n h : is_flow c = false -> under_terms a sender c ->
  exec this invokePreIssueHook moduleIssueHook moduleRedeemHook componentIssueHook componentRedeemHook sender c s = Ok s' ->
  terms a n h s -> terms a n h s'.
Proof.
  intros Hf HU Q HT. pose proof HT as (x & Hx & Em & Eh & F1 & F2 & HN & HL). pose proof (settings_terms _ _ _ Hx) as ES.
  subst x.
  destruct c as [| |b r|b f|b f|b|b|b m i r f hk|]; try discriminate Hf; cbn [exec] in Q; cbn [under_terms] in HU.
  - unfold updateFeeRecipient in Q. guards. destruct (decide (b = a)) as [->|D]; [|by apply debt_terms_other].
    by apply debt_terms_edit.
  - unfold updateIssueFee in Q. guards. destruct (decide (b = a)) as [->|D]; [|by apply debt_terms_other].
    apply debt_terms_edit; try done; cbn; lia.
  - unfold updateRedeemFee in Q. guards. destruct (decide (b = a)) as [->|D]; [|by apply debt_terms_other].
    apply debt_terms_edit; try done; cbn; lia.
  - unfold registerToIssuanceModule, isModuleIssuanceHook in Q. guards.
    destruct (decide (b = a)) as [->|D]; [|apply debt_terms_other; [done|set_solver|done]].
    apply debt_terms_edit; try done; cbn.
    + apply SetToken.NoDup_snoc; [done|]. by rewrite <- HL.
    + intros m. rewrite elem_of_app, list_elem_of_singleton, <- HL. set_solver.
  - unfold unregisterFromIssuanceModule, isModuleIssuanceHook in Q. guards.
    destruct (decide (b = a)) as [->|D]; [|apply debt_terms_other; [done|set_solver|done]].
    match goal with H : AddressArrayUtils.removeStorage _ _ = Ok _ |- _ => rename H into QR end.
    apply SetToken.removeStorage_NoDup in QR as [HN' HL']; [|done].
    apply debt_terms_edit; try done; cbn. intros y. rewrite HL', <- HL. set_solver.
  - unfold initialize in Q. do 4 apply bind_Ok_inv in Q as (? & _ & Q). apply bind_Ok_inv in Q as (w & _ & Q).
    apply Ok_inj in Q as <-. eapply debt_terms_keeps; [|by apply (debt_terms_other a b)]. done.
  - unfold removeModule in Q. apply bind_Ok_inv in Q as (u & _ & Q). apply Ok_inj in Q as <-.
    exists (settings s a). cbn. by rewrite lookup_delete_ne.
Qed.

(** The terms of a token's issuance, from the initialization of the module until
    the token lets go of it. After any calls by anyone, with whatever hooks do that
    keeps the terms: the maximal fee and the manager's hook are the initial ones,
    both fees are within the maximum, and a module is flagged as registered exactly if
    it is listed, once, so that each is called once per issue. The token can let go
    exactly when no module is registered, and then neither settings nor flags are
    left. *)
Theorem debt_terms sender a n i r f h s s0 s' : (forall m, (a, m) ∉ isModuleHook s) ->
  initialize this sender a n i r f h s = Ok s0 ->
  (forall s s', hooked s s' -> terms a n h s -> terms a n h s') -> rtc (settings_flow a) s0 s' ->
  terms a n h s' /\
  (is_Ok (removeModule a s') = true <-> getModuleIssuanceHooks s' a = []) /\
  forall s1, removeModule a s' = Ok s1 -> issuanceSettings s1 !! a = None /\ forall m, (a, m) ∉ isModuleHook s1.
Proof.
  intros HF Q HH H. unfold initialize in Q. do 2 apply bind_Ok_inv in Q as (? & _ & Q).
  apply bind_Ok_inv in Q as (? & G1%require_Ok_inv & Q). apply bind_Ok_inv in Q as (? & G2%require_Ok_inv & Q).
  apply bind_Ok_inv in Q as (w & _ & Q). apply Ok_inj in Q as <-. guards.
  assert (HT : terms a n h s').
  { set (s0 := set_world _ _ _) in H. assert (HT : terms a n h s0).
    { eapply debt_terms_keeps; [|apply (debt_terms_edit a n h (mkSettings n i r f h []) (isModuleHook s) [] s)]; try done; cbn.
      - constructor.
      - intros m. set_solver. }
    revert HT. clearbody s0. induction H as [s1|s1 s2 s3 Hs _ IH]; [done|]. intros HT. apply IH.
    destruct Hs as [sender' c s1 s2 HU Q|s1 s2 HK]; [|by eapply debt_terms_keeps].
    destruct (is_flow c) eqn:Ef; [|by eapply debt_terms_call]. apply flow_steps in Q; [|done].
    clear IH HU. induction Q as [t|t t1 t2 [HK|HK] _ IH]; [done|apply IH; by eapply debt_terms_keeps|apply IH; by eapply HH]. }
  split; [done|]. destruct HT as (x & Hx & _ & _ & _ & _ & _ & HL). pose proof (settings_terms _ _ _ Hx) as ES.
  unfold removeModule, getModuleIssuanceHooks. rewrite ES. split.
  - destruct (moduleIssuanceHooks x); cbn; [done|]. by split; [|intros ?].
  - intros s1 Q. apply bind_Ok_inv in Q as (u & Qu%require_Ok_inv & Q). apply Ok_inj in Q as <-.
    apply Nat.eqb_eq, nil_length_inv in Qu. cbn. split; [apply lookup_delete_eq|]. intros m. rewrite HL, Qu. apply not_elem_of_nil.
Qed.

End Theorems.

(** ** The leverage modules *)

Section Leverage.
Context `{OZ : OpenZeppelin} `{ET : ERC20} `{RG : ReentrancyGuard} `{CN : Coins} `{VN : !Venues} (this : Address).
Context (aave perp collateralToken : Address).

(** Calls of the hooks of the two leverage modules, by the issuance module. *)
Definition leverageHook (isIssue : bool) (m _setToken : Address) (_setTokenQuantity : Z) (_component : Address)
    (_isEquity : bool) (s : state) : result state :=
  wm ← (if decide (m = aave) then
          (if isIssue then AaveLeverageModule.componentIssueHook m this _setToken _setTokenQuantity _component _isEquity (world s, money s)
           else AaveLeverageModule.componentRedeemHook m this _setToken _setTokenQuantity _component _isEquity (world s, money s))
        else if decide (m = perp) then
          (if isIssue then PerpV2LeverageModuleV2.componentIssueHook m collateralToken this _setToken _setTokenQuantity _component _isEquity (world s, money s)
           else PerpV2LeverageModuleV2.componentRedeemHook m collateralToken this _setToken _setTokenQuantity _component _isEquity (world s, money s))
        else Throw "function call to a non-contract account");
  Ok (set_moved s wm).

(** The terms they rely on: Aave's positions are debts, those of PerpV2 are equity in its
    collateral, and what represents a debt at Aave is no component. *)
Definition leverage_terms (k : SetToken.state) : Prop :=
  forall x, x ∈ SetToken.components k -> isDebtToken x = false /\
    forall m v, m ∈ SetToken.externalPositionModules (SetToken.position k x) ->
      SetToken.getExternalPositionRealUnit k x m = Ok v ->
      (m = aave -> v <= 0) /\ (m = perp -> x = collateralToken /\ 0 <= v).

Lemma holding_called a k n s w c : rtc (ModuleBase.invoked a) (world s) w -> holding a k n s -> holding a k n (set_moved s (w, c)).
Proof.
  intros H HK. assert (HG : forall m, holding a k n (set_moved s (world s, m))) by (intros m; exact HK). clear HK.
  revert HG. generalize (world s) as w0, H. clear H. intros w0 H. induction H as [w0|w0 w1 w2 H1 _ IH]; intros HG; [apply HG|].
  apply IH. intros m. exact (holding_invoked a k n (set_moved s (w0, m)) w1 m H1 (HG m)).
Qed.

Lemma calls_gain a k n x d s wm : holding a k n s -> (forall t, t ∈ SetToken.components k -> isDebtToken t = false) ->
  calls a x d (world s, money s) wm -> gains a k n x (d * PRECISE_UNIT) s (set_moved s wm).
Proof.
  destruct wm as [w c]. intros HK HD (H1 & H2 & H3). cbn [fst snd] in *. split; [by apply holding_called|]. unfold bal.
  cbn [money set_moved snd]. pose proof PRECISE_UNIT_pos as HP. split; [nia|]. intros t Ct Ht. pose proof (H3 t Ht (HD t Ct)). nia.
Qed.

Lemma leverage_replicates a : replicating (leverageHook true) (leverageHook false) leverage_terms a.
Proof.
  intros b e m q x k n s s' v _ Uq HK HA Cx Hm Hv Q. pose proof HK as (c & Hc & HI & HS & _).
  destruct (same_claims_external _ _ x HS) as [_ EU]. destruct (HA x Cx) as [_ HX]. destruct (HX m v Hm Hv) as [HA1 HP1].
  assert (Iv : is_int256 v) by (rewrite <- EU in Hv; by eapply external_unit_int256). rewrite <- EU in Hv.
  assert (Q' : leverageHook b m a q x e s = Ok s') by (by destruct b). unfold leverageHook in Q'.
  apply bind_Ok_inv in Q' as (wm & Qw & Q'). apply Ok_inj in Q' as <-.
  apply calls_gain; [exact HK|intros t Ct; by destruct (HA t Ct)|].
  destruct (decide (m = aave)) as [Ea|_]; [by eapply aave_moves; [..|exact Qw]; first [done|by apply HA1]|].
  destruct (decide (m = perp)) as [Ep|_]; [|discriminate Qw]. destruct (HP1 Ep) as [<- H0].
  by eapply perp_moves; [..|exact Qw].
Qed.

End Leverage.

(** ** Instances *)

(** A tenth of an ether and a dollar per token, a debt of fifty dollars at Aave, and
    twenty dollars in the vault of PerpV2. *)
Definition leveraged_new : SetToken.contract := SetToken.mkContract
  (SetToken.constructor ["ETH"; "USDC"]%string [10 ^ 17; 10 ^ 6] ["issuance"; "aave"; "perp"]%string "controller" "manager" "Set" "SET")
  (match ref_mint "alice" (50 * 10 ^ 18) empty_ledger with Ok l => l | Throw _ => empty_ledger end).

Definition leveraged_calls : list (Address * SetToken.Call) :=
  [("issuance", SetToken.InitializeModule); ("aave", SetToken.InitializeModule); ("perp", SetToken.InitializeModule);
   ("aave", SetToken.AddExternalPositionModule "USDC" "aave");
   ("aave", SetToken.EditExternalPositionUnit "USDC" "aave" (- (50 * 10 ^ 6)));
   ("perp", SetToken.AddExternalPositionModule "USDC" "perp");
   ("perp", SetToken.EditExternalPositionUnit "USDC" "perp" (20 * 10 ^ 6))]%string.

Definition leveraged : SetToken.contract :=
  match foldM (fun c (p : Address * SetToken.Call) => SetToken.exec (fun _ => true) p.1 p.2 c) leveraged_new leveraged_calls with
  | Ok c => c | Throw _ => leveraged_new end.

Definition debt_controller : Controller.state :=
  let s := Controller.constructor "owner" "protocol" in
  match (s ← Controller.exec "owner" (Controller.Initialize ["factory"]%string ["issuance"; "aave"; "perp"]%string [] []) s;
         s ← Controller.exec "factory" (Controller.AddSet "set") s;
         Controller.exec "owner" (Controller.AddFee "issuance" 0 (10 ^ 17)) s) with
  | Ok s => s | Throw _ => s end.

(** One percent to issue, half a percent to redeem. *)
Definition debt_settings : IssuanceSettings := mkSettings (2 * 10 ^ 16) (10 ^ 16) (5 * 10 ^ 15) "manager" ADDRESS_ZERO [].

Definition debt_state : state :=
  mk guard_new {[ "set"%string := debt_settings ]} ∅ [] (ModuleBase.mkChain debt_controller {[ "set"%string := leveraged ]})
    (<[ ("ETH", "set")%string := 5 * 10 ^ 18 ]> (<[ ("USDC", "set")%string := 50 * 10 ^ 6 ]> (<[ ("USDC", "alice")%string := 10 ^ 12 ]>
       {[ ("ETH", "alice")%string := 10 ^ 21 ]})) : coins).

(** The hooks of the two modules, called by "issuance". *)
Definition hook (b : bool) := leverageHook "issuance" "aave" "perp" "USDC" b.
Definition hook_terms := leverage_terms "aave" "perp" "USDC".

(** What rounding costs: a base unit for the long position in dollars. *)
Definition hook_slips (x : Address) : nat := if String.eqb x "USDC" then 1 else 0.

Definition no_managerHook (h a : Address) (q : Z) (sender to : Address) (s : state) : result state := Ok s.
Definition no_moduleHook (m a : Address) (q : Z) (s : state) : result state := Ok s.

Lemma leveraged_Inv : SetToken.Inv (SetToken.vars leveraged).
Proof.
  assert (HN : SetToken.Inv (SetToken.vars leveraged_new)).
  { apply SetToken.storage_constructor; apply (bool_decide_eq_true_1 _); vm_compute; reflexivity. }
  unfold leveraged. destruct (foldM _ _ _) as [c|] eqn:Q; [|exact HN].
  assert (HT : Forall (fun p : Address * SetToken.Call => SetToken.typed p.2) leveraged_calls) by (repeat constructor; by vm_compute).
  revert HT HN Q. generalize leveraged_new, leveraged_calls. intros c0 l HT. revert c0.
  induction HT as [|p l Hp _ IH]; intros c0 HI Q; cbn [foldM] in Q; [by apply Ok_inj in Q as <-|].
  apply bind_Ok_inv in Q as (c1 & Q1 & Q). eapply IH; [|exact Q]. by eapply SetToken.storage_exec.
Qed.

Lemma debt_lookup : ModuleBase.setTokens (world debt_state) !! "set"%string = Some leveraged.
Proof. apply lookup_singleton_eq. Qed.

Lemma debt_typed : typed "issuance" "set" debt_state.
Proof.
  constructor; [by vm_compute|by vm_compute|].
  unfold Controller.getModuleFee. apply (bool_decide_eq_true_1 _). vm_compute. reflexivity.
Qed.

Lemma debt_covered : covered "set" debt_state.
Proof.
  exists leveraged. split; [exact debt_lookup|]. split; [exact leveraged_Inv|].
  assert (EC : SetToken.components (SetToken.vars leveraged) = ["ETH"; "USDC"]%string) by (vm_compute; reflexivity).
  intros x u Hx Hu _. rewrite EC in Hx. apply elem_of_cons in Hx as [->|Hx%list_elem_of_singleton].
  - assert (Ok u = Ok (10 ^ 17)) as [= ->] by (rewrite <- Hu; vm_compute; reflexivity). apply Z.leb_le. by vm_compute.
  - subst x. assert (Ok u = Ok (10 ^ 6)) as [= ->] by (rewrite <- Hu; vm_compute; reflexivity). apply Z.leb_le. by vm_compute.
Qed.

Lemma leveraged_regular : regular hook_terms hook_slips (SetToken.vars leveraged).
Proof.
  assert (EC : SetToken.components (SetToken.vars leveraged) = ["ETH"; "USDC"]%string) by (vm_compute; reflexivity).
  assert (EE : SetToken.externalPositionModules (SetToken.position (SetToken.vars leveraged) "ETH") = []) by (vm_compute; reflexivity).
  assert (EU : SetToken.externalPositionModules (SetToken.position (SetToken.vars leveraged) "USDC") = ["aave"; "perp"]%string)
    by (vm_compute; reflexivity).
  split; intros x Hx; rewrite EC in Hx; apply elem_of_cons in Hx as [->|Hx%list_elem_of_singleton].
  - split; [reflexivity|]. rewrite EE. intros m v Hm. destruct (not_elem_of_nil m Hm).
  - subst x. split; [reflexivity|]. rewrite EU. intros m v [->|Hm%list_elem_of_singleton]%elem_of_cons Hv.
    + assert (Ok v = Ok (- (50 * 10 ^ 6))) as [= ->] by (rewrite <- Hv; vm_compute; reflexivity). split; [discriminate|intros E; discriminate E].
    + subst m. assert (Ok v = Ok (20 * 10 ^ 6)) as [= ->] by (rewrite <- Hv; vm_compute; reflexivity). split; [intros E; discriminate E|split; [reflexivity|discriminate]].
  - apply Z.leb_le. vm_compute. reflexivity.
  - subst x. apply Z.leb_le. vm_compute. reflexivity.
Qed.

Lemma debt_good : good "issuance" hook_terms hook_slips "set" debt_state.
Proof.
  split; [exact debt_typed|]. exists leveraged. split; [exact debt_lookup|]. split; [exact leveraged_Inv|exact leveraged_regular].
Qed.

Lemma debt_nothing_settled a s : settled a s s.
Proof. apply harmless_settled. split; [done|intros x; apply Z.le_refl]. Qed.

Lemma no_debt_hooks_good : good_hooks "issuance" no_managerHook no_moduleHook no_moduleHook hook_terms hook_slips "set".
Proof.
  split; [|split]; intros *; intros HG Q; apply Ok_inj in Q; rewrite <- Q; (split; [exact HG|apply debt_nothing_settled]).
Qed.

Definition debt_amount : Z := 10 ^ 18 + 3.

Definition debt_issued : result state :=
  issue "issuance" no_managerHook no_moduleHook (hook true) (hook false) "alice" "set" debt_amount "bob" debt_state.

Lemma debt_issued_Ok : exists s, debt_issued = Ok s.
Proof. apply is_Ok_true. by vm_compute. Qed.

Lemma debt_amount_uint256 : is_uint256 debt_amount.
Proof. by vm_compute. Qed.

Lemma debt_keeps_covered_witness : exists s c, debt_issued = Ok s /\ ModuleBase.setTokens (world s) !! "set"%string = Some c /\
  forall x u, x ∈ SetToken.components (SetToken.vars c) ->
    SetToken.getDefaultPositionRealUnit (SetToken.vars c) x = Ok u -> 0 <= u ->
    u * totalSupply (SetToken.tokens c) <= (coin_balance (money s) x "set" + (1 + 0) * Z.of_nat (hook_slips x)) * PRECISE_UNIT.
Proof.
  destruct debt_issued_Ok as [s H].
  pose proof (debt_keeps_covered (ET := erc20_ref) "issuance" no_managerHook no_moduleHook no_moduleHook (hook true)
    (hook false) hook_terms hook_slips "set" (1 + 0) debt_state s no_debt_hooks_good
    (leverage_replicates "issuance" "aave" "perp" "USDC" "set") debt_covered) as K.
  destruct K as (c & Hc & _ & HC).
  - eapply debt_cons; [|apply debt_nil]. eapply (flow_call "issuance" no_managerHook no_moduleHook no_moduleHook (hook true)
      (hook false) hook_terms hook_slips "set" "alice" (Issue "set" debt_amount "bob")); [exact debt_good| |exact H].
    split; [reflexivity|exact debt_amount_uint256].
  - exists s, c. split; [exact H|]. split; [exact Hc|exact HC].
Defined.

(** The base unit really goes: the vault takes its share rounded up, and the issuer
    brought only the total of shares rounded up. *)
Lemma perp_costs_a_unit : exists s c u, debt_issued = Ok s /\ ModuleBase.setTokens (world s) !! "set"%string = Some c /\
  SetToken.getDefaultPositionRealUnit (SetToken.vars c) "USDC" = Ok u /\
  coin_balance (money s) "USDC" "set" * PRECISE_UNIT < u * totalSupply (SetToken.tokens c).
Proof.
  assert (H : match debt_issued with
    | Ok s => match ModuleBase.setTokens (world s) !! "set"%string with
        | Some c => match SetToken.getDefaultPositionRealUnit (SetToken.vars c) "USDC" with
            | Ok u => coin_balance (money s) "USDC" "set" * PRECISE_UNIT <? u * totalSupply (SetToken.tokens c)
            | Throw _ => false end
        | None => false end
    | Throw _ => false end = true) by (vm_compute; reflexivity).
  destruct debt_issued as [s|]; [|discriminate H]. destruct (ModuleBase.setTokens (world s) !! _) as [c|] eqn:E; [|discriminate H].
  destruct (SetToken.getDefaultPositionRealUnit _ _) as [u|] eqn:Eu; [|discriminate H]. apply Z.ltb_lt in H.
  exists s, c, u. split; [reflexivity|]. split; [exact E|]. split; [exact Eu|exact H].
Qed.

(** The token before its issuance module is initialized, which "aave" then
    registers with. *)
Definition debt_pending : state :=
  mk guard_new ∅ ∅ [] (ModuleBase.mkChain debt_controller {[ "set"%string :=
    match foldM (fun c (p : Address * SetToken.Call) => SetToken.exec (fun _ => true) p.1 p.2 c) leveraged_new
            [("aave"%string, SetToken.InitializeModule)] with Ok c => c | Throw _ => leveraged_new end ]}) (∅ : coins).

Definition debt_initialized : result state :=
  initialize "issuance" "manager" "set" (2 * 10 ^ 16) (10 ^ 16) (5 * 10 ^ 15) "manager" ADDRESS_ZERO debt_pending.

Lemma debt_initialized_Ok : exists s s', debt_initialized = Ok s /\ registerToIssuanceModule "issuance" "aave" "set" s = Ok s'.
Proof.
  assert (H : is_Ok (s ← debt_initialized; registerToIssuanceModule "issuance" "aave" "set" s) = true) by (by vm_compute).
  apply is_Ok_true in H as [s' H]. apply bind_Ok_inv in H as (s & H1 & H2). exists s, s'. exact (conj H1 H2).
Qed.

Lemma no_debt_flags m : ("set"%string, m) ∉ isModuleHook debt_pending.
Proof. exact (not_elem_of_empty _). Qed.

Lemma debt_terms_witness : exists s s', debt_initialized = Ok s /\
  registerToIssuanceModule "issuance" "aave" "set" s = Ok s' /\
  terms "set" (2 * 10 ^ 16) ADDRESS_ZERO s' /\ (is_Ok (removeModule "set" s') = true <-> getModuleIssuanceHooks s' "set" = []).
Proof.
  destruct debt_initialized_Ok as (s & s' & H1 & H2). exists s, s'. split; [exact H1|]. split; [exact H2|].
  pose proof (debt_terms (ET := erc20_ref) "issuance" no_managerHook no_moduleHook no_moduleHook
    (fun _ _ _ _ _ s => Ok s) (fun _ _ _ _ _ s => Ok s) "manager" "set" _ _ _ _ _ debt_pending s s' no_debt_flags H1) as K.
  destruct K as (K1 & K2 & _).
  - intros s1 s2 [(h & b & q & c & t & E)|[(m & b & q & E)|[(m & b & q & E)|[(m & b & q & x & e & E)|(m & b & q & x & e & E)]]]];
      apply Ok_inj in E; rewrite <- E; exact (fun H => H).
  - apply rtc_once. eapply (settings_call "issuance" no_managerHook no_moduleHook no_moduleHook
      (fun _ _ _ _ _ s => Ok s) (fun _ _ _ _ _ s => Ok s) "set" "aave" (RegisterToIssuanceModule "set")); [exact I|exact H2].
  - split; [exact K1|exact K2].
Defined.

(** ** What the module leaves open *)

(** Fees that nobody receives: when the protocol takes the whole of the manager's
    fee, the issuer pays for the tokens of the fee, but none is minted. *)
Definition split_controller : Controller.state :=
  match Controller.exec "owner" (Controller.EditFee "issuance" 0 PRECISE_UNIT) debt_controller with
  | Ok s => s | Throw _ => debt_controller end.

Definition split_state : state := set_world debt_state (ModuleBase.mkChain split_controller {[ "set"%string := leveraged ]}) [].

Theorem protocol_share_lost :
  calculateTotalFees "issuance" split_state "set" (10 ^ 18) true = Ok (101 * 10 ^ 16, 0, 10 ^ 16) /\
  exists s c, issue "issuance" no_managerHook no_moduleHook (hook true) (hook false) "alice" "set" (10 ^ 18) "bob" split_state = Ok s /\
    ModuleBase.setTokens (world s) !! "set"%string = Some c /\
    totalSupply (SetToken.tokens c) = totalSupply (SetToken.tokens leveraged) + 10 ^ 18 /\
    coin_balance (money s) "ETH" "set" = coin_balance (money split_state) "ETH" "set" + 101 * 10 ^ 15.
Proof.
  split; [vm_compute; reflexivity|].
  set (r := issue _ _ _ _ _ _ _ _ _ _).
  assert (H : match r with
    | Ok s => match ModuleBase.setTokens (world s) !! "set"%string with
        | Some c => (totalSupply (SetToken.tokens c) =? totalSupply (SetToken.tokens leveraged) + 10 ^ 18) &&
            (coin_balance (money s) "ETH" "set" =? coin_balance (money split_state) "ETH" "set" + 101 * 10 ^ 15)
        | None => false end
    | Throw _ => false end = true) by (vm_compute; reflexivity).
  destruct r as [s|]; [|discriminate H]. destruct (ModuleBase.setTokens (world s) !! _) as [c|] eqn:E; [|discriminate H].
  apply andb_true_iff in H as [H1%Z.eqb_eq H2%Z.eqb_eq]. exists s, c. split; [reflexivity|]. split; [exact E|]. split; [exact H1|exact H2].
Qed.

End DebtIssuanceModule.
