(* ===== verification/DebtIssuanceModuleV2.v ===== *)
(** * The second debt issuance module

    [contracts/protocol/modules/v1/DebtIssuanceModuleV2.sol] with
    [contracts/protocol/lib/IssuanceValidationUtils.sol]; [IssuanceModule.sol] is the
    same contract under another name. State, fees, hooks, terms and most quantities
    are those of DebtIssuanceModule; transfers are not compared with what was asked
    for, but must leave the token collateralized. The theorem says what that is worth. *)

From S2P Require Import Prelude JsString Ethers Constants MathUtils SafeMath PreciseUnitMath Erc20 Ownable Controller SetToken Position ModuleBase LeverageModules BasicIssuanceModule DebtIssuanceModule.
From Stdlib Require Import String.

Import DebtIssuanceModule.

Local Open Scope Z_scope.

Module IssuanceValidationUtils.
Section IssuanceValidationUtils_.
Context `{OZ : OpenZeppelin} `{ET : ERC20} `{CN : Coins}.

Definition validateCollateralizationPostTransferInPreHook (_setToken _component : Address)
    (_initialSetSupply _componentQuantity : Z) (wm : ModuleBase.chain * coins) : result unit :=
  let newComponentBalance := coin_balance wm.2 _component _setToken in
  k ← ModuleBase.setToken wm.1 _setToken;
  r ← SetToken.getDefaultPositionRealUnit (SetToken.vars k) _component;
  defaultPositionUnit ← toUint256 r;
  c ← PreciseUnitMath.preciseMulCeil _initialSetSupply defaultPositionUnit;
  bound ← sm_add c _componentQuantity;
  require (bound <=? newComponentBalance) "Invalid transfer in. Results in undercollateralization".

Definition validateCollateralizationPostTransferOut (_setToken _component : Address) (_finalSetSupply : Z)
    (wm : ModuleBase.chain * coins) : result unit :=
  let newComponentBalance := coin_balance wm.2 _component _setToken in
  k ← ModuleBase.setToken wm.1 _setToken;
  r ← SetToken.getDefaultPositionRealUnit (SetToken.vars k) _component;
  defaultPositionUnit ← toUint256 r;
  c ← PreciseUnitMath.preciseMulCeil _finalSetSupply defaultPositionUnit;
  require (c <=? newComponentBalance) "Invalid transfer out. Results in undercollateralization".

End IssuanceValidationUtils_.
End IssuanceValidationUtils.

Module DebtIssuanceModuleV2.
Import IssuanceValidationUtils.

Section Module_.
Context `{OZ : OpenZeppelin} `{ET : ERC20} `{RG : ReentrancyGuard} `{CN : Coins} (this : Address).

(** ** Quantities *)

(** Equity and debt of a component, with what the token holds instead of the unit of
    the default position. *)
Definition issuanceUnitsFromBalance (_setToken : Address) (k : SetToken.contract) (m : coins) (component : Address)
    : result (Z * Z) :=
  unit ← PositionLib.getDefaultPositionUnit (totalSupply (SetToken.tokens k)) (coin_balance m component _setToken);
  e ← toInt256 unit;
  acc ← foldM (addExternal (SetToken.vars k) component) (e, 0)
          (SetToken.externalPositionModules (SetToken.position (SetToken.vars k) component));
  equity ← toUint256 acc.1;
  n ← ssm_mul acc.2 (-1);
  debt ← toUint256 n;
  Ok (equity, debt).

Definition _getTotalIssuanceUnitsFromBalances (_setToken : Address) (w : ModuleBase.chain) (m : coins)
    : result (list Address * list (Z * Z)) :=
  k ← ModuleBase.setToken w _setToken;
  let components := SetToken.components (SetToken.vars k) in
  units ← mapM (issuanceUnitsFromBalance _setToken k m) components;
  Ok (components, units).

Definition getRequiredComponentIssuanceUnits (s : state) (_setToken : Address) (_quantity : Z)
    : result (list Address * list (Z * Z)) :=
  f ← calculateTotalFees this s _setToken _quantity true;
  let totalQuantity := f.1.1 in
  k ← ModuleBase.setToken (world s) _setToken;
  if totalSupply (SetToken.tokens k) =? 0 then
    _calculateRequiredComponentIssuanceUnits _setToken totalQuantity true (world s)
  else
    cu ← _getTotalIssuanceUnitsFromBalances _setToken (world s) (money s);
    totals ← mapM (fun u : Z * Z =>
      equity ← PreciseUnitMath.preciseMulCeil u.1 totalQuantity;
      debt ← PreciseUnitMath.preciseMul u.2 totalQuantity;
      Ok (equity, debt)) cu.2;
    Ok (cu.1, totals).

(** ** Moving components *)

Section Hooks.
Context (invokePreIssueHook : Address -> Address -> Z -> Address -> Address -> state -> result state).
Context (moduleIssueHook moduleRedeemHook : Address -> Address -> Z -> state -> result state).
Context (componentIssueHook componentRedeemHook : Address -> Address -> Z -> Address -> bool -> state -> result state).

Definition resolveEquity (msg_sender _setToken : Address) (_quantity : Z) (_to : Address) (_isIssue : bool)
    (_initialSetSupply _finalSetSupply : Z) (s : state) (p : Address * Z) : result state :=
  let (component, componentQuantity) := p in
  if 0 <? componentQuantity then
    if _isIssue then
      m ← safeTransferFrom this component msg_sender _setToken componentQuantity (money s);
      _ ← validateCollateralizationPostTransferInPreHook _setToken component _initialSetSupply componentQuantity (world s, m);
      _executeExternalPositionHooks componentIssueHook componentRedeemHook _setToken _quantity component true true
        (set_moved s (world s, m))
    else
      s ← _executeExternalPositionHooks componentIssueHook componentRedeemHook _setToken _quantity component false true s;
      wm ← ModuleBase.invokeTransfer this _setToken component _to componentQuantity (world s, money s);
      _ ← validateCollateralizationPostTransferOut _setToken component _finalSetSupply wm;
      Ok (set_moved s wm)
  else Ok s.

Definition _resolveEquityPositions (msg_sender _setToken : Address) (_quantity : Z) (_to : Address) (_isIssue : bool)
    (_components : list Address) (_componentEquityQuantities : list Z) (_initialSetSupply _finalSetSupply : Z)
    (s : state) : result state :=
  foldM (resolveEquity msg_sender _setToken _quantity _to _isIssue _initialSetSupply _finalSetSupply) s
    (combine _components _componentEquityQuantities).

Definition resolveDebt (msg_sender _setToken : Address) (_quantity : Z) (_isIssue : bool)
    (_initialSetSupply _finalSetSupply : Z) (s : state) (p : Address * Z) : result state :=
  let (component, componentQuantity) := p in
  if 0 <? componentQuantity then
    if _isIssue then
      s ← _executeExternalPositionHooks componentIssueHook componentRedeemHook _setToken _quantity component true false s;
      wm ← ModuleBase.invokeTransfer this _setToken component msg_sender componentQuantity (world s, money s);
      _ ← validateCollateralizationPostTransferOut _setToken component _finalSetSupply wm;
      Ok (set_moved s wm)
    else
      m ← safeTransferFrom this component msg_sender _setToken componentQuantity (money s);
      _ ← validateCollateralizationPostTransferInPreHook _setToken component _initialSetSupply componentQuantity (world s, m);
      _executeExternalPositionHooks componentIssueHook componentRedeemHook _setToken _quantity component false false
        (set_moved s (world s, m))
  else Ok s.

Definition _resolveDebtPositions (msg_sender _setToken : Address) (_quantity : Z) (_isIssue : bool)
    (_components : list Address) (_componentDebtQuantities : list Z) (_initialSetSupply _finalSetSupply : Z)
    (s : state) : result state :=
  foldM (resolveDebt msg_sender _setToken _quantity _isIssue _initialSetSupply _finalSetSupply) s
    (combine _components _componentDebtQuantities).

(** ** Issuance and redemption *)

Definition issue (msg_sender _setToken : Address) (_quantity : Z) (_to : Address) : state -> result state :=
  entering this _setToken (fun s =>
    _ ← require (0 <? _quantity) "Issue quantity must be > 0";
    h ← _callManagerPreIssueHooks invokePreIssueHook _setToken _quantity msg_sender _to s;
    s ← _callModulePreIssueHooks moduleIssueHook _setToken _quantity h.1;
    k ← ModuleBase.setToken (world s) _setToken;
    let initialSetSupply := totalSupply (SetToken.tokens k) in
    f ← calculateTotalFees this s _setToken _quantity true;
    cu ← _calculateRequiredComponentIssuanceUnits _setToken f.1.1 true (world s);
    finalSetSupply ← sm_add initialSetSupply f.1.1;
    s ← _resolveEquityPositions msg_sender _setToken f.1.1 _to true cu.1 (map fst cu.2) initialSetSupply finalSetSupply s;
    s ← _resolveDebtPositions msg_sender _setToken f.1.1 true cu.1 (map snd cu.2) initialSetSupply finalSetSupply s;
    s ← _resolveFees this _setToken f.1.2 f.2 s;
    s ← mint this _setToken _to _quantity s;
    Ok (set_world s (world s) [SetTokenIssued _setToken msg_sender _to h.2 _quantity f.1.2 f.2])).

Definition redeem (msg_sender _setToken : Address) (_quantity : Z) (_to : Address) : state -> result state :=
  entering this _setToken (fun s =>
    _ ← require (0 <? _quantity) "Redeem quantity must be > 0";
    s ← _callModulePreRedeemHooks moduleRedeemHook _setToken _quantity s;
    k ← ModuleBase.setToken (world s) _setToken;
    let initialSetSupply := totalSupply (SetToken.tokens k) in
    w ← ModuleBase.on_set _setToken (SetToken.burn (ModuleBase.isModule (world s)) this msg_sender _quantity) (world s);
    let s := set_world s w [] in
    f ← calculateTotalFees this s _setToken _quantity false;
    cu ← _calculateRequiredComponentIssuanceUnits _setToken f.1.1 false (world s);
    finalSetSupply ← sm_sub initialSetSupply f.1.1;
    s ← _resolveDebtPositions msg_sender _setToken f.1.1 false cu.1 (map snd cu.2) initialSetSupply finalSetSupply s;
    s ← _resolveEquityPositions msg_sender _setToken f.1.1 _to false cu.1 (map fst cu.2) initialSetSupply finalSetSupply s;
    s ← _resolveFees this _setToken f.1.2 f.2 s;
    Ok (set_world s (world s) [SetTokenRedeemed _setToken msg_sender _to _quantity f.1.2 f.2])).

End Hooks.

End Module_.

(** ** Facts *)

Section Facts.
Context `{OZ : OpenZeppelin} `{ET : ERC20} `{RG : ReentrancyGuard} `{CN : Coins} `{BN : BigNumber} (this : Address).
Context (componentIssueHook componentRedeemHook : Address -> Address -> Z -> Address -> bool -> state -> result state).

(** A loop whose rounds each lift the measure of one key, from [lo] at least to [hi]
    at least, and lower no other of those that count. *)
Lemma foldM_lifts {S B} (bal : S -> Address -> Z) (C : Address -> Prop) (K : S -> Prop) (lo hi : Address -> Z)
    (f : S -> Address * B -> result S) l s s' :
  (forall s p s', p ∈ l -> K s -> f s p = Ok s' ->
     K s' /\ (lo p.1 <= bal s p.1 -> hi p.1 <= bal s' p.1) /\ forall t, C t -> t <> p.1 -> bal s t <= bal s' t) ->
  (forall x, x ∈ l.*1 -> C x) -> NoDup l.*1 -> K s -> foldM f s l = Ok s' ->
  K s' /\ (forall x, x ∈ l.*1 -> lo x <= bal s x -> hi x <= bal s' x) /\ forall t, C t -> t ∉ l.*1 -> bal s t <= bal s' t.
Proof.
  revert s. induction l as [|p l IH]; intros s HF HC HN HK Q; cbn [foldM] in Q.
  - apply Ok_inj in Q as <-. split; [done|]. split; [|done]. intros x Hx. by apply elem_of_nil in Hx.
  - apply bind_Ok_inv in Q as (s1 & Q1 & Q). cbn in HN, HC. apply NoDup_cons in HN as [Hn HN].
    destruct (HF s p s1) as (HK1 & Hb & Ho); [by left|done|done|].
    destruct (IH s1) as (HK' & HB & HO); [|intros; apply HC; by right|done|done|done|].
    { intros. apply HF; [by right|done|done]. }
    split; [done|]. split.
    + intros x [->|Hx]%elem_of_cons Hlo; [pose proof (HO _ (HC p.1 ltac:(by left)) Hn); pose proof (Hb Hlo); lia|]. apply HB; [done|].
      assert (x <> p.1) as Hd by (intros ->; done). pose proof (Ho _ (HC x ltac:(by right)) Hd). lia.
    + intros t Ct Ht. cbn in Ht. pose proof (HO t Ct ltac:(set_solver)). pose proof (Ho t Ct ltac:(set_solver)). lia.
Qed.

(** ** What a validation says *)

Lemma validateIn_Ok a x n0 n k m s u : holding a k m s -> SetToken.Inv k -> is_uint256 n0 -> is_uint256 n -> forall m',
  validateCollateralizationPostTransferInPreHook a x n0 n (world s, m') = Ok u ->
  exists r, SetToken.getDefaultPositionRealUnit k x = Ok r /\ 0 <= r /\
    r * n0 + n * PRECISE_UNIT <= coin_balance m' x a * PRECISE_UNIT.
Proof.
  intros (c & Hc & HI & HS & _) HIk Hn0 Hn m' Q. unfold validateCollateralizationPostTransferInPreHook in Q.
  apply bind_Ok_inv in Q as (c0 & Q0%ModuleBase.setToken_Ok & Q). cbn [fst snd] in *. rewrite Hc in Q0. injection Q0 as <-.
  apply bind_Ok_inv in Q as (r & Qr & Q). apply bind_Ok_inv in Q as (r' & Qu & Q).
  destruct (BasicIssuanceModule.real_unit_uint256 _ _ _ _ HI Qr Qu) as (-> & H0 & Hr).
  apply bind_Ok_inv in Q as (b & Qb & Q). apply bind_Ok_inv in Q as (t & Qt & Q).
  apply mulCeil_Ok in Qb as [-> Ub]; [|done..]. apply sm_add_inv in Qt as [-> _]; [|done..].
  apply require_Ok_inv, Z.leb_le in Q. exists r. rewrite (BasicIssuanceModule.same_claims_unit _ _ x HS) in Qr.
  split; [done|]. split; [done|]. pose proof (cdiv_bounds (n0 * r) PRECISE_UNIT PRECISE_UNIT_pos). nia.
Qed.

Lemma validateOut_Ok a x n1 k m s u : holding a k m s -> is_uint256 n1 ->
  validateCollateralizationPostTransferOut a x n1 (world s, money s) = Ok u ->
  exists r, SetToken.getDefaultPositionRealUnit k x = Ok r /\ 0 <= r /\ r * n1 <= bal a s x.
Proof.
  intros (c & Hc & HI & HS & _) Hn1 Q. unfold validateCollateralizationPostTransferOut in Q.
  apply bind_Ok_inv in Q as (c0 & Q0%ModuleBase.setToken_Ok & Q). cbn [fst snd] in *. rewrite Hc in Q0. injection Q0 as <-.
  apply bind_Ok_inv in Q as (r & Qr & Q). apply bind_Ok_inv in Q as (r' & Qu & Q).
  destruct (BasicIssuanceModule.real_unit_uint256 _ _ _ _ HI Qr Qu) as (-> & H0 & Hr).
  apply bind_Ok_inv in Q as (b & Qb & Q). apply mulCeil_Ok in Qb as [-> Ub]; [|done..].
  apply require_Ok_inv, Z.leb_le in Q. exists r. rewrite (BasicIssuanceModule.same_claims_unit _ _ x HS) in Qr.
  split; [done|]. split; [done|]. pose proof (cdiv_bounds (n1 * r) PRECISE_UNIT PRECISE_UNIT_pos). unfold bal. nia.
Qed.

(** ** Steps *)

(** The token keeps its claims, its supply and its other components; nothing is known
    of the component itself. *)
Definition touches (a : Address) (k : SetToken.state) (n : Z) (x : Address) (s s' : state) : Prop :=
  exists d, gains a k n x d s s'.

Lemma touches_refl a k n x s : holding a k n s -> touches a k n x s s.
Proof. exists 0. by apply gains_refl. Qed.

Lemma touches_trans a k n x s1 s2 s3 : touches a k n x s1 s2 -> touches a k n x s2 s3 -> touches a k n x s1 s3.
Proof. intros [d H1] [d' H2]. exists (d + d'). by eapply gains_trans. Qed.

Lemma touches_holding a k n x s s' : touches a k n x s s' -> holding a k n s'.
Proof. by intros (d & H & _). Qed.

Lemma touches_intro a k n x s s' : holding a k n s' -> (forall t, t <> x -> bal a s t <= bal a s' t) -> touches a k n x s s'.
Proof. intros H1 H2. exists (bal a s' x - bal a s x). split; [done|]. split; [lia|]. intros t _. apply H2. Qed.

Lemma safeTransferFrom_touches a k n x from to q s m : holding a k n s ->
  safeTransferFrom this x from to q (money s) = Ok m -> touches a k n x s (set_moved s (world s, m)).
Proof.
  intros HK Q. apply touches_intro; [exact HK|]. intros t Ht. unfold bal. cbn [money set_moved snd].
  by rewrite (safeTransferFrom_frame _ _ _ _ _ _ _ _ _ Q Ht).
Qed.

Lemma invokeTransfer_touches a k n x to q s wm : holding a k n s ->
  ModuleBase.invokeTransfer this a x to q (world s, money s) = Ok wm -> touches a k n x s (set_moved s wm).
Proof.
  destruct wm as [w m]. intros HK Q. unfold ModuleBase.invokeTransfer in Q.
  destruct (0 <? q); [|apply Ok_inj in Q as [= <- <-]; by apply touches_intro].
  apply ModuleBase.invoke_token_Ok in Q as [HI HO]. apply touches_intro.
  - apply holding_invoked; [by right|done].
  - intros t Ht. unfold bal. cbn [money set_moved snd]. by rewrite HO.
Qed.

(** What the modules rely on about the terms of the token. *)
Context (agreed : SetToken.state -> Prop).

(** The modules that may take a component take no more than their share, rounded up;
    those that bring it may bring anything, or take. *)
Definition restrained (a : Address) : Prop :=
  plays componentIssueHook componentRedeemHook agreed a true true /\
  plays componentIssueHook componentRedeemHook agreed a false false /\
  forall (b : bool) m q x k n s s' v, 0 < q -> is_uint256 q -> holding a k n s -> agreed k -> x ∈ SetToken.components k ->
    m ∈ SetToken.externalPositionModules (SetToken.position k x) -> SetToken.getExternalPositionRealUnit k x m = Ok v ->
    (if b then componentIssueHook else componentRedeemHook) m a q x (negb b) s = Ok s' -> touches a k n x s s'.

(** Modules that play their part in all calls are among them. *)
Lemma replicating_restrained a : replicating componentIssueHook componentRedeemHook agreed a -> restrained a.
Proof.
  intros HR. split; [apply HR|]. split; [apply HR|]. intros b m q x k n s s' v Hq Uq HK HA Hx Hm Hv Q.
  eexists. by eapply (HR b (negb b)).
Qed.

Lemma executeHooks_touches a q x b k n s s' vs : restrained a -> 0 < q -> is_uint256 q -> holding a k n s -> agreed k ->
  x ∈ SetToken.components k -> externals k x vs ->
  _executeExternalPositionHooks componentIssueHook componentRedeemHook a q x b (negb b) s = Ok s' -> touches a k n x s s'.
Proof.
  intros (_ & _ & HR) Hq Uq HK HA Hx HV Q. unfold _executeExternalPositionHooks in Q.
  apply bind_Ok_inv in Q as (c & Qc%ModuleBase.setToken_Ok & Q). pose proof HK as (c0 & Hc & _ & HS & _).
  rewrite Hc in Qc. injection Qc as ->. destruct (same_claims_external _ _ x HS) as [EM _]. rewrite EM in Q.
  assert (Q' : foldM (fun s m => (if b then componentIssueHook else componentRedeemHook) m a q x (negb b) s) s
    (SetToken.externalPositionModules (SetToken.position k x)) = Ok s') by (by destruct b).
  refine (foldM_keeps_in (touches a k n x s) _ _ _ _ _ (touches_refl _ _ _ _ _ HK) Q'). intros t m t' Hm Ht Qt.
  apply list_elem_of_lookup in Hm as Hi. destruct Hi as (i & Hi). destruct (Forall2_lookup_l _ _ _ _ _ HV Hi) as (v & _ & Hv).
  eapply touches_trans; [exact Ht|]. exact (HR b m q x k n t t' v Hq Uq (touches_holding _ _ _ _ _ _ Ht) HA Hx Hm Hv Qt).
Qed.

(** What a round establishes about the component it moves. *)
Definition lifted (a : Address) (k : SetToken.state) (n : Z) (x : Address) (lo hi : Z) (s s' : state) : Prop :=
  holding a k n s' /\ (lo <= bal a s x -> hi <= bal a s' x) /\
  forall t, t ∈ SetToken.components k -> t <> x -> bal a s t <= bal a s' t.

Lemma touches_lifted a k n x lo hi s s' : touches a k n x s s' -> (lo <= bal a s x -> hi <= bal a s' x) ->
  lifted a k n x lo hi s s'.
Proof. intros (d & H1 & _ & H2) H. split; [done|]. by split. Qed.

Lemma bal_nonneg a s x : 0 <= bal a s x.
Proof.
  unfold bal. pose proof (coin_balance_law (money s) x a) as H%is_uint256_spec. pose proof PRECISE_UNIT_pos. nia.
Qed.

Context (sender a to : Address) (k : SetToken.state) (n0 n1 m q : Z).
Context (HR : restrained a) (HI : SetToken.Inv k) (HA : agreed k) (U0 : is_uint256 n0) (U1 : is_uint256 n1) (Uq : is_uint256 q).

(** Equity comes in on issue: afterwards the default position is covered for the
    old supply and the new tokens, whatever it was before, but for what modules
    that take the share of a long position round up. *)
Lemma equityIn_lifted s s' x nx r : 0 < q -> x ∈ SetToken.components k -> holding a k m s -> required k q true x nx ->
  SetToken.getDefaultPositionRealUnit k x = Ok r ->
  resolveEquity this componentIssueHook componentRedeemHook sender a q to true n0 n1 s (x, nx.1) = Ok s' ->
  lifted a k m x (- (long_slips k x * PRECISE_UNIT)) (Z.max r 0 * (n0 + q) - long_slips k x * PRECISE_UNIT) s s'.
Proof.
  intros Hq0 Cx HK (u & (r' & vs & Hr & HV & E1 & _ & V1 & _) & Un & _ & En & _) Qr Q. rewrite Hr in Qr. injection Qr as ->.
  unfold long_slips. rewrite (externals_units _ _ _ HV). pose proof (count_nonneg true vs) as HC.
  pose proof PRECISE_UNIT_pos as HP. pose proof (total_nonneg true vs) as HL. apply is_uint256_spec in V1.
  pose proof (cdiv_bounds (u.1 * q) PRECISE_UNIT HP) as HB. rewrite <- En in HB.
  unfold resolveEquity in Q. destruct (Z.ltb_spec 0 nx.1) as [Hn|Hn].
  - apply bind_Ok_inv in Q as (m1 & Qm & Q). apply bind_Ok_inv in Q as (u1 & Qv & Q).
    apply (validateIn_Ok _ _ _ _ k m s) in Qv as (r1 & Hr1 & H0 & Hv); [|done..]. rewrite Hr in Hr1. injection Hr1 as <-.
    rewrite Z.max_l by done. pose proof (safeTransferFrom_touches a k m x _ _ _ s m1 HK Qm) as HT.
    apply (executeHooks_gain componentIssueHook componentRedeemHook agreed _ _ _ _ _ k m _ _ vs) in Q as HG;
      [|exact (proj1 HR)|done|done|by eapply touches_holding|done..].
    apply touches_lifted; [eapply touches_trans; [exact HT|by eexists]|]. intros _. destruct HG as (_ & HG & _).
    unfold bal at 1 in HG. cbn [money set_moved snd] in HG. pose proof (moved_total true true vs q ltac:(lia)) as HM.
    cbn [Bool.eqb] in HM. nia.
  - apply Ok_inj in Q as <-. apply touches_lifted; [by apply touches_refl|]. intros _.
    assert (u.1 = 0) as E0 by nia. rewrite Z.max_r by lia. rewrite Z.mul_0_l. pose proof (bal_nonneg a s x). nia.
Qed.

(** Equity goes out on redemption, and what is left is checked. *)
Lemma equityOut_lifted s s' x nx r e : 0 <= e -> x ∈ SetToken.components k -> holding a k m s -> required k q false x nx ->
  SetToken.getDefaultPositionRealUnit k x = Ok r -> n1 <= n0 ->
  resolveEquity this componentIssueHook componentRedeemHook sender a q to false n0 n1 s (x, nx.1) = Ok s' ->
  lifted a k m x (Z.max r 0 * n0 - e) (Z.max r 0 * n1 - e) s s'.
Proof.
  intros He Cx HK HN Qr Hn Q. pose proof Uq as [Hq _]%is_uint256_spec. pose proof (required_pos _ _ _ _ _ Hq HN) as Hpos.
  destruct HN as (u & (r' & vs & _ & HV & _) & _). unfold resolveEquity in Q. destruct (Z.ltb_spec 0 nx.1) as [Hn1|Hn1].
  - specialize (Hpos (or_introl Hn1)).
    apply bind_Ok_inv in Q as (s1 & Q1 & Q). apply bind_Ok_inv in Q as (wm & Qm & Q). apply bind_Ok_inv in Q as (v & Qv & Q).
    apply Ok_inj in Q as <-. apply (executeHooks_touches _ _ _ false k m _ _ vs) in Q1; [|done..].
    apply (invokeTransfer_touches a k m) in Qm; [|by eapply touches_holding].
    assert (HT : touches a k m x s (set_moved s1 wm)) by (by eapply touches_trans). apply touches_lifted; [exact HT|]. intros _.
    apply touches_holding in HT. destruct wm as [w m1].
    apply (validateOut_Ok _ _ _ k m (set_moved s1 (w, m1))) in Qv as (r1 & Hr1 & H0 & Hv); [|done..].
    rewrite Qr in Hr1. injection Hr1 as <-. rewrite Z.max_l by done. lia.
  - apply Ok_inj in Q as <-. apply touches_lifted; [by apply touches_refl|]. nia.
Qed.

(** Debt goes out on issue, and what is left is checked. *)
Lemma debtOut_lifted s s' x nx r e : 0 <= e -> x ∈ SetToken.components k -> holding a k m s -> required k q true x nx ->
  SetToken.getDefaultPositionRealUnit k x = Ok r ->
  resolveDebt this componentIssueHook componentRedeemHook sender a q true n0 n1 s (x, nx.2) = Ok s' ->
  lifted a k m x (Z.max r 0 * n1 - e) (Z.max r 0 * n1 - e) s s'.
Proof.
  intros He Cx HK HN Qr Q. pose proof Uq as [Hq _]%is_uint256_spec. pose proof (required_pos _ _ _ _ _ Hq HN) as Hpos.
  destruct HN as (u & (r' & vs & _ & HV & _) & _). unfold resolveDebt in Q. destruct (Z.ltb_spec 0 nx.2) as [Hn1|Hn1].
  - specialize (Hpos (or_intror Hn1)).
    apply bind_Ok_inv in Q as (s1 & Q1 & Q). apply bind_Ok_inv in Q as (wm & Qm & Q). apply bind_Ok_inv in Q as (v & Qv & Q).
    apply Ok_inj in Q as <-. apply (executeHooks_touches _ _ _ true k m _ _ vs) in Q1; [|done..].
    apply (invokeTransfer_touches a k m) in Qm; [|by eapply touches_holding].
    assert (HT : touches a k m x s (set_moved s1 wm)) by (by eapply touches_trans). apply touches_lifted; [exact HT|]. intros _.
    apply touches_holding in HT. destruct wm as [w m1].
    apply (validateOut_Ok _ _ _ k m (set_moved s1 (w, m1))) in Qv as (r1 & Hr1 & H0 & Hv); [|done..].
    rewrite Qr in Hr1. injection Hr1 as <-. rewrite Z.max_l by done. lia.
  - apply Ok_inj in Q as <-. by apply touches_lifted; [apply touches_refl|].
Qed.

(** Debt is paid back on redemption, after the check, but for what modules that take the
    share of a debt round up. *)
Lemma debtIn_lifted s s' x nx r e : short_slips k x * PRECISE_UNIT <= e -> x ∈ SetToken.components k -> holding a k m s ->
  required k q false x nx -> SetToken.getDefaultPositionRealUnit k x = Ok r ->
  resolveDebt this componentIssueHook componentRedeemHook sender a q false n0 n1 s (x, nx.2) = Ok s' ->
  lifted a k m x (Z.max r 0 * n0 - e) (Z.max r 0 * n0 - e) s s'.
Proof.
  intros He Cx HK HN Qr Q. pose proof Uq as [Hq _]%is_uint256_spec. pose proof (required_pos _ _ _ _ _ Hq HN) as Hpos.
  destruct HN as (u & (r' & vs & Hr & HV & _ & E2 & _ & V2) & _ & Un & _ & En). rewrite Hr in Qr. injection Qr as ->.
  unfold short_slips in He. rewrite (externals_units _ _ _ HV) in He. pose proof PRECISE_UNIT_pos as HP.
  unfold resolveDebt in Q. destruct (Z.ltb_spec 0 nx.2) as [Hn|Hn].
  - specialize (Hpos (or_intror Hn)).
    apply bind_Ok_inv in Q as (m1 & Qm & Q). apply bind_Ok_inv in Q as (u1 & Qv & Q).
    apply (validateIn_Ok _ _ _ _ k m s) in Qv as (r1 & Hr1 & H0 & Hv); [|done..]. rewrite Hr in Hr1. injection Hr1 as <-.
    rewrite Z.max_l by done. pose proof (safeTransferFrom_touches a k m x _ _ _ s m1 HK Qm) as HT.
    apply (executeHooks_gain componentIssueHook componentRedeemHook agreed _ _ _ _ _ k m _ _ vs) in Q as HG;
      [|exact (proj1 (proj2 HR))|done|done|by eapply touches_holding|done..].
    apply touches_lifted; [eapply touches_trans; [exact HT|by eexists]|]. intros _. destruct HG as (_ & HG & _).
    unfold bal at 1 in HG. cbn [money set_moved snd] in HG. pose proof (debts_taken vs q Hq) as HM.
    rewrite E2 in En. rewrite <- En in HM. nia.
  - apply Ok_inj in Q as <-. by apply touches_lifted; [apply touches_refl|].
Qed.

(** ** All components *)

(** The default unit of a component, if it is positive. *)
Definition unit (x : Address) : Z :=
  match SetToken.getDefaultPositionRealUnit k x with Ok r => Z.max r 0 | Throw _ => 0 end.

Lemma unit_Ok x r : SetToken.getDefaultPositionRealUnit k x = Ok r -> unit x = Z.max r 0.
Proof. intros E. unfold unit. by rewrite E. Qed.

(** Rounds over the components of quantities picked from those required. *)
Lemma rounds_lift (f : state -> Address * Z -> result state) (pick : Z * Z -> Z) b ns lo hi s s' :
  Forall2 (required k q b) (SetToken.components k) ns -> holding a k m s ->
  (forall s x nx s' r, x ∈ SetToken.components k -> holding a k m s -> required k q b x nx ->
     SetToken.getDefaultPositionRealUnit k x = Ok r ->
     f s (x, pick nx) = Ok s' -> lifted a k m x (lo (Z.max r 0) x) (hi (Z.max r 0) x) s s') ->
  foldM f s (combine (SetToken.components k) (map pick ns)) = Ok s' ->
  holding a k m s' /\ forall x, x ∈ SetToken.components k -> lo (unit x) x <= bal a s x -> hi (unit x) x <= bal a s' x.
Proof.
  intros HF HK Hf Q.
  assert (HL : List.length (SetToken.components k) = List.length (map pick ns))
    by (rewrite length_map; exact (Forall2_length _ _ _ HF)).
  assert (HF' : Forall2 (fun x n => exists nx, n = pick nx /\ required k q b x nx) (SetToken.components k) (map pick ns)).
  { apply Forall2_fmap_r. eapply Forall2_impl; [exact HF|]. intros x nx Hx. by exists nx. }
  apply (foldM_lifts (bal a) (fun x => x ∈ SetToken.components k) (holding a k m) (fun x => lo (unit x) x) (fun x => hi (unit x) x))
    in Q as (H1 & H2 & _);
    [| |by rewrite BasicIssuanceModule.combine_fst by done|by rewrite BasicIssuanceModule.combine_fst by done; apply (SetToken.inv_components _ HI)|exact HK].
  - rewrite BasicIssuanceModule.combine_fst in H2 by done. by split.
  - intros s1 [x n] s2 Hp HK1 Q1. assert (Cx : x ∈ SetToken.components k).
    { rewrite <- (BasicIssuanceModule.combine_fst (SetToken.components k) (map pick ns)) by done.
      exact (list_elem_of_fmap_2 fst _ _ Hp). }
    apply (BasicIssuanceModule.combine_Forall2 _ _ _ _ HF') in Hp as (nx & E & Hx).
    cbn [fst snd] in *. subst n. pose proof Hx as (u & (r & vs & Hr & _) & _).
    destruct (Hf s1 x nx s2 r Cx HK1 Hx Hr Q1) as (G1 & G2 & G3). rewrite (unit_Ok _ _ Hr). by split.
Qed.

Lemma rounds_in ns s s' : 0 < q -> n1 = n0 + q -> Forall2 (required k q true) (SetToken.components k) ns -> holding a k m s ->
  _resolveEquityPositions this componentIssueHook componentRedeemHook sender a q to true (SetToken.components k) (map fst ns) n0 n1 s = Ok s' ->
  holding a k m s' /\ forall x, x ∈ SetToken.components k -> unit x * n1 - long_slips k x * PRECISE_UNIT <= bal a s' x.
Proof.
  intros Hq0 E HF HK Q.
  apply (rounds_lift _ fst true ns (fun _ x => - (long_slips k x * PRECISE_UNIT)) (fun r x => r * n1 - long_slips k x * PRECISE_UNIT) s s')
    in Q as [H1 H2]; [|done|done|].
  - split; [done|]. intros x Hx. apply H2; [done|]. pose proof (bal_nonneg a s x). pose proof PRECISE_UNIT_pos as HP.
    assert (0 <= long_slips k x) by apply count_nonneg. nia.
  - intros s1 x nx s2 r Hx HK1 HN Hr Q1. rewrite E. by eapply equityIn_lifted.
Qed.

Context (e : Address -> Z) (He : forall x, x ∈ SetToken.components k -> 0 <= e x).

Lemma rounds_out ns s s' : n1 <= n0 -> Forall2 (required k q false) (SetToken.components k) ns -> holding a k m s ->
  _resolveEquityPositions this componentIssueHook componentRedeemHook sender a q to false (SetToken.components k) (map fst ns) n0 n1 s = Ok s' ->
  holding a k m s' /\ forall x, x ∈ SetToken.components k -> unit x * n0 - e x <= bal a s x -> unit x * n1 - e x <= bal a s' x.
Proof.
  intros Hn HF HK Q. apply (rounds_lift _ fst false ns (fun r x => r * n0 - e x) (fun r x => r * n1 - e x) s s') in Q; [done..|].
  intros s1 x nx s2 r Hx HK1 HN Hr Q1. eapply equityOut_lifted; [by apply He|done..].
Qed.

Lemma debts_out ns s s' : Forall2 (required k q true) (SetToken.components k) ns -> holding a k m s ->
  _resolveDebtPositions this componentIssueHook componentRedeemHook sender a q true (SetToken.components k) (map snd ns) n0 n1 s = Ok s' ->
  holding a k m s' /\ forall x, x ∈ SetToken.components k -> unit x * n1 - e x <= bal a s x -> unit x * n1 - e x <= bal a s' x.
Proof.
  intros HF HK Q. apply (rounds_lift _ snd true ns (fun r x => r * n1 - e x) (fun r x => r * n1 - e x) s s') in Q; [done..|].
  intros s1 x nx s2 r Hx HK1 HN Hr Q1. eapply debtOut_lifted; [by apply He|done..].
Qed.

Lemma debts_in ns s s' : (forall x, x ∈ SetToken.components k -> short_slips k x * PRECISE_UNIT <= e x) ->
  Forall2 (required k q false) (SetToken.components k) ns -> holding a k m s ->
  _resolveDebtPositions this componentIssueHook componentRedeemHook sender a q false (SetToken.components k) (map snd ns) n0 n1 s = Ok s' ->
  holding a k m s' /\ forall x, x ∈ SetToken.components k -> unit x * n0 - e x <= bal a s x -> unit x * n0 - e x <= bal a s' x.
Proof.
  intros HS HF HK Q. apply (rounds_lift _ snd false ns (fun r x => r * n0 - e x) (fun r x => r * n0 - e x) s s') in Q; [done..|].
  intros s1 x nx s2 r Hx HK1 HN Hr Q1. eapply debtIn_lifted; [by apply HS|done..].
Qed.

End Facts.

(** ** Theorems *)

Section Theorems.
Context `{OZ : OpenZeppelin} `{ET : ERC20} `{RG : ReentrancyGuard} `{CN : Coins} `{BN : BigNumber} (this : Address).
Context (invokePreIssueHook : Address -> Address -> Z -> Address -> Address -> state -> result state).
Context (moduleIssueHook moduleRedeemHook : Address -> Address -> Z -> state -> result state).
Context (componentIssueHook componentRedeemHook : Address -> Address -> Z -> Address -> bool -> state -> result state).

Context (agreed : SetToken.state -> Prop) (N : Address -> nat).

(** What rounding costs at most. *)
Definition rounding (x : Address) : Z := Z.of_nat (N x).

Lemma within_units a k n s : holding a k n s ->
  (forall x, x ∈ SetToken.components k -> unit k x * n - rounding x * PRECISE_UNIT <= bal a s x) -> within a rounding s.
Proof.
  intros HK HB. apply (within_held a k n 0 rounding rounding s s); [by rewrite Z.add_0_r|]. intros x u Hx Hu H0.
  pose proof (HB x Hx) as H. rewrite (unit_Ok _ _ _ Hu), Z.max_l in H by done. lia.
Qed.

Lemma unit_nonneg k x : 0 <= unit k x.
Proof. unfold unit. destruct (SetToken.getDefaultPositionRealUnit k x); lia. Qed.

(** The token exists, its terms are regular, and everything fits its type. *)
Definition ready (a : Address) (s : state) : Prop :=
  good this agreed N a s /\
  exists c, ModuleBase.setTokens (world s) !! a = Some c /\ is_uint256 (totalSupply (SetToken.tokens c)).

(** The hooks that run before anything moves keep that, and those before a redemption
    take nothing from the token. *)
Definition ready_hooks (a : Address) : Prop :=
  (forall h q sender to s s', ready a s -> invokePreIssueHook h a q sender to s = Ok s' -> ready a s') /\
  (forall m q s s', ready a s -> moduleIssueHook m a q s = Ok s' -> ready a s') /\
  (forall m q s s', ready a s -> moduleRedeemHook m a q s = Ok s' -> ready a s' /\ settled a s s').

Lemma ready_status a s g : ready a s -> ready a (set_status s g).
Proof. intros [[[] HG] H]. by split; [split|]. Qed.

Lemma rounding_slips k : regular agreed N k -> forall x, x ∈ SetToken.components k ->
  long_slips k x * PRECISE_UNIT <= rounding x * PRECISE_UNIT /\ short_slips k x * PRECISE_UNIT <= rounding x * PRECISE_UNIT.
Proof.
  intros [_ HS] x Hx. pose proof (HS x Hx) as H. unfold slips in H. pose proof PRECISE_UNIT_pos as HP.
  assert (0 <= long_slips k x) by apply count_nonneg. assert (0 <= short_slips k x) by (unfold short_slips; lia).
  unfold rounding. nia.
Qed.

Lemma v2_issue_covers sender a q to s s' : restrained componentIssueHook componentRedeemHook agreed a -> ready_hooks a ->
  is_uint256 q -> ready a s ->
  issue this invokePreIssueHook moduleIssueHook componentIssueHook componentRedeemHook sender a q to s = Ok s' ->
  within a rounding s'.
Proof.
  intros HR (HM & HIs & _) Hq HY Q.
  apply debt_entering_Ok in Q as (g & s9 & _ & Q & ->). apply bind_Ok_inv in Q as (u & Qu%require_Ok_inv%Z.ltb_lt & Q).
  apply bind_Ok_inv in Q as (h & Qh & Q). apply bind_Ok_inv in Q as (s1 & Qm & Q).
  assert (H1 : ready a h.1).
  { unfold _callManagerPreIssueHooks in Qh. destruct (negb _); [|apply Ok_inj in Qh as <-; by apply ready_status].
    apply bind_Ok_inv in Qh as (s2 & Q2 & Qh). apply Ok_inj in Qh as <-. exact (HM _ _ _ _ _ _ (ready_status a s g HY) Q2). }
  assert (H2 : ready a s1) by (refine (foldM_keeps (ready a) _ _ _ _ _ H1 Qm); intros t x t' Ht Qt; exact (HIs x q t t' Ht Qt)).
  destruct H2 as [(HT & c & Hc & HI & HG) (c0 & Hc0 & US)]. rewrite Hc in Hc0. injection Hc0 as <-. pose proof HG as [HA _].
  apply bind_Ok_inv in Q as (c0 & Q0%ModuleBase.setToken_Ok & Q).
  rewrite Hc in Q0. injection Q0 as <-. apply bind_Ok_inv in Q as (f & Qf & Q).
  destruct (calculateTotalFees_Ok _ _ _ _ _ _ HT Hq Qf) as (E1 & E2 & E3 & U1 & U2 & U3). cbn iota in E1.
  apply bind_Ok_inv in Q as ([l ns] & Qr & Q). destruct (required_units _ _ _ _ _ _ _ Hc HI U1 Qr) as [-> HF].
  cbn [fst snd] in Q. apply bind_Ok_inv in Q as (n1 & Qn & Q). apply sm_add_inv in Qn as [-> Un]; [|done..].
  apply is_uint256_spec in U2, U3. pose proof U1 as U1'%is_uint256_spec.
  apply bind_Ok_inv in Q as (s2 & Qe & Q). apply bind_Ok_inv in Q as (s3 & Qd & Q).
  apply bind_Ok_inv in Q as (s4 & Qfe & Q). apply bind_Ok_inv in Q as (s5 & Qt & Q). apply Ok_inj in Q as <-.
  pose proof (holding_start _ _ _ Hc HI) as HK. set (n := totalSupply (SetToken.tokens c)) in *.
  apply (rounds_in this _ _ agreed sender a to (SetToken.vars c) n (n + f.1.1) n) in Qe as (HK2 & G2); [|done || lia..].
  apply (debts_out this _ _ agreed sender a (SetToken.vars c) n (n + f.1.1) n f.1.1 HR HI HA Un U1
    (fun x => rounding x * PRECISE_UNIT)) in Qd as (HK3 & G3); [|intros; unfold rounding; pose proof PRECISE_UNIT_pos; lia|done..].
  apply (resolveFees_holding _ _ _ _ (SetToken.vars c) n) in Qfe as (HK4 & M4); [|lia|lia|done].
  apply (mint_holding _ _ _ _ _ _ _ _ HK4) in Qt as (HK5 & M5).
  eapply within_units; [exact HK5|]. intros x Hx. destruct (rounding_slips _ HG x Hx) as [HL _]. pose proof (G2 x Hx) as HB2.
  pose proof (G3 x Hx ltac:(lia)) as HB. pose proof (unit_nonneg (SetToken.vars c) x).
  unfold bal in *. cbn [money set_status set_world]. rewrite M5, M4. eapply Z.le_trans; [|exact HB].
  apply Z.sub_le_mono_r, Z.mul_le_mono_nonneg_l; [done|]. destruct (0 <? f.1.2); lia.
Qed.

Lemma v2_redeem_covers sender a q to s s' : restrained componentIssueHook componentRedeemHook agreed a -> ready_hooks a ->
  is_uint256 q -> ready a s -> within a rounding s ->
  redeem this moduleRedeemHook componentIssueHook componentRedeemHook sender a q to s = Ok s' -> within a rounding s'.
Proof.
  intros HR (_ & _ & HRe) Hq HY HC Q.
  apply debt_entering_Ok in Q as (g & s9 & _ & Q & ->). apply bind_Ok_inv in Q as (u & Qu%require_Ok_inv%Z.ltb_lt & Q).
  apply bind_Ok_inv in Q as (s1 & Qm & Q).
  assert (H2 : ready a s1 /\ within a rounding s1).
  { refine (foldM_keeps (fun s => ready a s /\ within a rounding s) _ _ _ _ _ (conj (ready_status a s g HY) HC) Qm).
    intros t x t' [Ht HW] Qt. destruct (HRe x q t t' Ht Qt) as [H1 H2]. split; [done|].
    eapply within_settled; [|exact H2|exact HW]. intros y. unfold rounding. lia. }
  destruct H2 as [[(HT & c & Hc & HI & HG) (c0 & Hc0 & US)] (c1 & Hc1 & _ & HB0)].
  rewrite Hc in Hc0, Hc1. injection Hc0 as <-. injection Hc1 as <-. pose proof HG as [HA _].
  apply bind_Ok_inv in Q as (c0 & Q0%ModuleBase.setToken_Ok & Q). rewrite Hc in Q0. injection Q0 as <-. cbn zeta in Q.
  apply bind_Ok_inv in Q as (w & Qb & Q).
  apply ModuleBase.on_set_Ok in Qb as (c0 & c1 & Hc0 & Qb & ->). rewrite Hc in Hc0. injection Hc0 as <-.
  unfold SetToken.burn in Qb. apply bind_Ok_inv in Qb as (u' & _ & Qb). apply bind_Ok_inv in Qb as (lg & Ql & Qb).
  apply Ok_inj in Qb as <-. apply burn_Ok in Ql as (_ & _ & HS & _).
  set (c2 := SetToken.mkContract (SetToken.vars c) lg) in *. set (s2 := set_world s1 _ []) in Q.
  assert (Hc2 : ModuleBase.setTokens (world s2) !! a = Some c2) by apply lookup_insert_eq.
  assert (HT2 : typed this a s2) by (by destruct HT).
  apply bind_Ok_inv in Q as (f & Qf & Q). destruct (calculateTotalFees_Ok _ _ _ _ _ _ HT2 Hq Qf) as (E1 & E2 & E3 & U1 & U2 & U3).
  cbn iota in E1. apply bind_Ok_inv in Q as ([l ns] & Qr & Q).
  destruct (required_units _ _ _ _ _ _ _ Hc2 HI U1 Qr) as [-> HF]. cbn [fst snd] in Q.
  apply bind_Ok_inv in Q as (n1 & Qn & Q). apply sm_sub_inv in Qn as [-> Un]; [|done..].
  apply is_uint256_spec in U2, U3. pose proof U1 as U1'%is_uint256_spec.
  apply bind_Ok_inv in Q as (s3 & Qd & Q). apply bind_Ok_inv in Q as (s4 & Qe & Q).
  apply bind_Ok_inv in Q as (s5 & Qfe & Q). apply Ok_inj in Q as <-.
  pose proof (holding_start _ _ _ Hc2 HI) as HK. set (n := totalSupply (SetToken.tokens c)) in *.
  set (m := totalSupply (SetToken.tokens c2)) in HK. assert (Em : m = n - q) by (unfold m; cbn; lia).
  assert (He : forall x, x ∈ SetToken.components (SetToken.vars c) -> 0 <= rounding x * PRECISE_UNIT)
    by (intros; unfold rounding; pose proof PRECISE_UNIT_pos; lia).
  apply (debts_in this _ _ agreed sender a (SetToken.vars c) n (n - f.1.1) m f.1.1 HR HI HA US U1
    (fun x => rounding x * PRECISE_UNIT)) in Qd as (HK3 & G3); [|intros x Hx; by apply rounding_slips|done..].
  apply (rounds_out this _ _ agreed sender a to (SetToken.vars c) n (n - f.1.1) m f.1.1 HR HI HA Un U1
    (fun x => rounding x * PRECISE_UNIT) He) in Qe as (HK4 & G4); [|lia|done..].
  apply (resolveFees_holding _ _ _ _ (SetToken.vars c) m) in Qfe as (HK5 & M5); [|lia|lia|done].
  eapply within_units; [exact HK5|]. intros x Hx.
  assert (HB2 : unit (SetToken.vars c) x * n - rounding x * PRECISE_UNIT <= bal a s2 x).
  { change (bal a s2 x) with (bal a s1 x). pose proof (He x Hx) as H0. pose proof (bal_nonneg a s1 x) as Hb. unfold unit.
    destruct (SetToken.getDefaultPositionRealUnit (SetToken.vars c) x) as [r|] eqn:Er; [|lia].
    destruct (Z.le_gt_cases 0 r) as [Hr|Hr]; [|rewrite Z.max_r, Z.mul_0_l by lia; lia].
    rewrite Z.max_l by done. pose proof (HB0 x r Hx Er Hr). unfold bal. lia. }
  pose proof (G4 x Hx (G3 x Hx HB2)) as HB. pose proof (unit_nonneg (SetToken.vars c) x).
  unfold bal in *. cbn [money set_status set_world]. rewrite M5. eapply Z.le_trans; [|exact HB].
  apply Z.sub_le_mono_r, Z.mul_le_mono_nonneg_l; [done|]. destruct (0 <? f.1.2); lia.
Qed.

(** C10: The checks of the second module make up for tokens that do not move what they
    are asked to, and roundings do not add up. Whatever transfers of the components
    really do, and whatever the modules bring that have to bring a component: as long
    as those that take one take no more than their share rounded up, all of them leave
    the other components, the terms and the supply alone, and the hooks before that
    keep the terms regular, after every issue the token holds the default
    unit of every component for every token of the new supply, but for [N x] base units
    of [x] (as for the first module, none if there is one debt in [x] at most and no
    long position), even where it held less before. A redemption leaves it so if it was
    so and the hooks before take nothing from it. *)
Theorem v2_covers sender a q to s s' : restrained componentIssueHook componentRedeemHook agreed a -> ready_hooks a ->
  is_uint256 q -> ready a s ->
  (issue this invokePreIssueHook moduleIssueHook componentIssueHook componentRedeemHook sender a q to s = Ok s' ->
   within a rounding s') /\
  (within a rounding s ->
   redeem this moduleRedeemHook componentIssueHook componentRedeemHook sender a q to s = Ok s' -> within a rounding s').
Proof.
  intros HR HH Hq HY. split; [by eapply v2_issue_covers|]. intros HC. by eapply v2_redeem_covers.
Qed.

End Theorems.

(** ** Instances *)

(** The token, with a base unit of dollars to spare. *)
Definition spare_state : state :=
  set_moved debt_state (world debt_state, <[ ("USDC", "set")%string := 50 * 10 ^ 6 + 1 ]> (money debt_state) : coins).

Lemma spare_ready : ready "issuance" hook_terms hook_slips "set" spare_state.
Proof.
  split; [|exists leveraged; split; [exact debt_lookup|by vm_compute]]. split; [|exact (proj2 debt_good)].
  destruct debt_typed as [T1 T2 T3]. constructor; [exact T1|exact T2|exact T3].
Qed.

Lemma no_debt_hooks_ready : ready_hooks "issuance" no_managerHook no_moduleHook no_moduleHook hook_terms hook_slips "set".
Proof.
  split; [|split]; intros *; intros HG Q; apply Ok_inj in Q; rewrite <- Q; [exact HG|exact HG|].
  split; [exact HG|apply debt_nothing_settled].
Qed.

Definition v2_issued : result state :=
  issue "issuance" no_managerHook no_moduleHook (hook true) (hook false) "alice" "set" debt_amount "bob" spare_state.

Lemma v2_issued_Ok : exists s, v2_issued = Ok s.
Proof. apply is_Ok_true. by vm_compute. Qed.

Lemma v2_covers_witness : exists s, v2_issued = Ok s /\ within "set" (fun x => Z.of_nat (hook_slips x)) s.
Proof.
  destruct v2_issued_Ok as [s H]. exists s. split; [exact H|].
  pose proof (v2_covers (ET := erc20_ref) "issuance" no_managerHook no_moduleHook no_moduleHook (hook true) (hook false)
    hook_terms hook_slips "alice" "set" debt_amount "bob" spare_state s
    (replicating_restrained _ _ _ "set" (leverage_replicates "issuance" "aave" "perp" "USDC" "set"))
    no_debt_hooks_ready debt_amount_uint256 spare_ready) as K.
  exact (proj1 K H).
Defined.

(** Without the base unit to spare, the second module refuses what the first one issues
    and leaves a base unit short ([perp_costs_a_unit]): the dollars it checks when debt
    goes out are those the vault has taken its share of, rounded up. *)
Lemma v2_refuses_rounding :
  issue "issuance" no_managerHook no_moduleHook (hook true) (hook false) "alice" "set" debt_amount "bob" debt_state
    = Throw "Invalid transfer out. Results in undercollateralization".
Proof. apply throws_spec; [intros E; discriminate E|]. vm_compute. reflexivity. Qed.

(** A token that has lost its ether: the first module goes on issuing it, the second
    one does not. *)
Definition empty_state : state := set_moved debt_state (world debt_state, <[ ("ETH", "set")%string := 0 ]> (money debt_state) : coins).

Lemma v2_refuses :
  (exists s, DebtIssuanceModule.issue "issuance" no_managerHook no_moduleHook (hook true) (hook false) "alice" "set" debt_amount
     "bob" empty_state = Ok s) /\
  issue "issuance" no_managerHook no_moduleHook (hook true) (hook false) "alice" "set" debt_amount "bob" empty_state
    = Throw "Invalid transfer in. Results in undercollateralization".
Proof.
  split; [apply is_Ok_true; vm_compute; reflexivity|]. apply throws_spec; [intros E; discriminate E|]. vm_compute. reflexivity.
Qed.

End DebtIssuanceModuleV2.
