(* ===== verification/NavIssuanceModule.v ===== *)
(** * The NAV issuance module

    [contracts/protocol/modules/v1/CustomOracleNAVIssuanceModule.sol]: issuing and
    redeeming a SetToken for a reserve asset at its net asset value. The valuer of a
    token, the decimals of an asset and what a hook does are parameters; ether and
    its wrapper are the class [WETH] over the tokens of [Coins]. The computations on
    quantities alone are [NavIssuanceModuleUtils.NAVModule]. *)

From S2P Require Import Prelude JsString Ethers Constants MathUtils SafeMath PreciseUnitMath NavIssuanceModuleUtils Erc20 Ownable Controller PriceOracle SetToken Position ModuleBase SetValuer.
From Stdlib Require Import String.

Local Open Scope Z_scope.

(** Wrapped ether is one of the tokens: deposits and withdrawals by an account, and
    transfers of ether, which move no token. *)
Class WETH `{CN : Coins} := {
  weth : Address;
  deposit : Address -> Z -> coins -> result coins;
  withdraw : Address -> Z -> coins -> result coins;
  sendEther : Address -> Address -> Z -> coins -> result coins;
  deposit_law a q m m' t b : is_uint256 q -> deposit a q m = Ok m' ->
    coin_balance m' t b = coin_balance m t b + if decide (t = weth /\ b = a) then q else 0;
  withdraw_law a q m m' t b : is_uint256 q -> withdraw a q m = Ok m' ->
    coin_balance m' t b = coin_balance m t b - if decide (t = weth /\ b = a) then q else 0;
  sendEther_law a b q m m' t c : sendEther a b q m = Ok m' -> coin_balance m' t c = coin_balance m t c;
  transfer_law sender to q m r b : is_uint256 q -> coin_call sender weth 0 (transfer_data to q) m = Ok r ->
    coin_balance r.1 weth b = coin_balance m weth b + (if decide (b = to) then q else 0)
                                                    - (if decide (b = sender) then q else 0);
}.

(** A transfer of a plain token moves the balances of its two ends only. *)
Class PlainCoins `{CN : Coins} : Prop :=
  plain_law sender t from to q m m' b : safeTransferFrom sender t from to q m = Ok m' -> b <> from -> b <> to ->
    coin_balance m' t b = coin_balance m t b.

(** *** Concrete wrapped ether

    Ether itself is no token and is left out. *)

Definition ref_credit (a : Address) (q : Z) (m : ref_coins) : result ref_coins :=
  _ ← require (is_uint256 (ref_coin_balance m "WETH" a + q)) "overflow";
  Ok (<[ ("WETH"%string, a) := ref_coin_balance m "WETH" a + q ]> m).

Lemma ref_credit_Ok a q m m' t b : ref_credit a q m = Ok m' ->
  ref_coin_balance m' t b = ref_coin_balance m t b + if decide (t = "WETH"%string /\ b = a) then q else 0.
Proof.
  unfold ref_credit. intros Q. apply bind_Ok_inv in Q as (u & Q1 & Q). apply require_Ok_inv in Q1. apply Ok_inj in Q as <-.
  rewrite ref_coin_insert by (by apply Is_true_true_2). case_decide as D; [destruct D as [-> ->]; lia|lia].
Qed.

#[refine, export] Instance weth_ref : WETH (CN := coins_ref) := {|
  weth := "WETH"%string; deposit := ref_credit; withdraw := fun a q => ref_credit a (- q);
  sendEther := fun _ _ _ m => Ok m |}.
Proof.
  - intros a q m m' t b _ Q. exact (ref_credit_Ok a q m m' t b Q).
  - intros a q m m' t b _ Q. cbn. rewrite (ref_credit_Ok a (- q) m m' t b Q). case_decide; lia.
  - intros a b q m m' t c Q. by apply Ok_inj in Q as <-.
  - intros sender to q m r b Hq Q. cbn in Q. unfold ref_coin_call in Q.
    rewrite string_pos_string in Q. change (Some (encode (to, q)) ≫= decode) with (decode (encode (to, q)) : option (Address * Z)) in Q.
    rewrite decode_encode in Q. apply bind_Ok_inv in Q as (m' & Q & E). apply Ok_inj in E as <-.
    cbn. rewrite (ref_coin_move_Ok _ _ _ _ _ _ Hq Q). repeat case_decide; naive_solver lia.
Defined.

#[export] Instance plain_ref : PlainCoins (CN := coins_ref).
Proof.
  intros sender t from to q m m' b Q Hf Ht. cbn in Q |- *. unfold ref_coin_move in Q.
  apply bind_Ok_inv in Q as (u & _ & Q). apply bind_Ok_inv in Q as (u' & _ & Q). apply Ok_inj in Q as <-.
  unfold ref_coin_balance. by rewrite !(lookup_insert_ne _ _ (t, b)) by congruence.
Qed.

Module NavIssuanceModule.

Record NAVIssuanceSettings := mkSettings {
  managerIssuanceHook : Address;
  managerRedemptionHook : Address;
  setValuer : Address;
  reserveAssets : list Address;
  feeRecipient : Address;
  managerFees : Z * Z;
  maxManagerFee : Z;
  premiumPercentage : Z;
  maxPremiumPercentage : Z;
  minSetTokenSupply : Z;
}.

Record ActionInfo := mkInfo {
  preFeeReserveQuantity : Z;
  protocolFees : Z;
  managerFee : Z;
  netFlowQuantity : Z;
  setTokenQuantity : Z;
  previousSetTokenSupply : Z;
  newSetTokenSupply : Z;
  newPositionMultiplier : Z;
  newReservePositionUnit : Z;
}.

Inductive Event :=
  | SetTokenNAVIssued (_setToken _issuer _to _reserveAsset _hookContract : Address)
      (_setTokenQuantity _managerFee _premium : Z)
  | SetTokenNAVRedeemed (_setToken _redeemer _to _reserveAsset _hookContract : Address)
      (_setTokenQuantity _managerFee _premium : Z)
  | ReserveAssetAdded (_setToken _newReserveAsset : Address)
  | ReserveAssetRemoved (_setToken _removedReserveAsset : Address)
  | PremiumEdited (_setToken : Address) (_newPremium : Z)
  | ManagerFeeEdited (_setToken : Address) (_newManagerFee _index : Z)
  | FeeRecipientEdited (_setToken _feeRecipient : Address).

Definition MANAGER_ISSUE_FEE_INDEX : Z := 0.
Definition MANAGER_REDEEM_FEE_INDEX : Z := 1.
Definition PROTOCOL_ISSUE_MANAGER_REVENUE_SHARE_FEE_INDEX : Z := 0.
Definition PROTOCOL_REDEEM_MANAGER_REVENUE_SHARE_FEE_INDEX : Z := 1.
Definition PROTOCOL_ISSUE_DIRECT_FEE_INDEX : Z := 2.
Definition PROTOCOL_REDEEM_DIRECT_FEE_INDEX : Z := 3.

(** A read or write of an array of two outside of it stops the call. *)
Definition fee_at (fees : Z * Z) (i : Z) : result Z :=
  if i =? 0 then Ok fees.1 else if i =? 1 then Ok fees.2 else Throw "invalid opcode".

Definition set_fee_at (fees : Z * Z) (i v : Z) : result (Z * Z) :=
  if i =? 0 then Ok (v, fees.2) else if i =? 1 then Ok (fees.1, v) else Throw "invalid opcode".

Definition no_settings : NAVIssuanceSettings := mkSettings ADDRESS_ZERO ADDRESS_ZERO ADDRESS_ZERO [] ADDRESS_ZERO (0, 0) 0 0 0 0.

Definition set_reserveAssets (x : NAVIssuanceSettings) l := mkSettings (managerIssuanceHook x) (managerRedemptionHook x)
  (setValuer x) l (feeRecipient x) (managerFees x) (maxManagerFee x) (premiumPercentage x) (maxPremiumPercentage x)
  (minSetTokenSupply x).
Definition set_recipient (x : NAVIssuanceSettings) r := mkSettings (managerIssuanceHook x) (managerRedemptionHook x)
  (setValuer x) (reserveAssets x) r (managerFees x) (maxManagerFee x) (premiumPercentage x) (maxPremiumPercentage x)
  (minSetTokenSupply x).
Definition set_managerFees (x : NAVIssuanceSettings) f := mkSettings (managerIssuanceHook x) (managerRedemptionHook x)
  (setValuer x) (reserveAssets x) (feeRecipient x) f (maxManagerFee x) (premiumPercentage x) (maxPremiumPercentage x)
  (minSetTokenSupply x).
Definition set_premium (x : NAVIssuanceSettings) p := mkSettings (managerIssuanceHook x) (managerRedemptionHook x)
  (setValuer x) (reserveAssets x) (feeRecipient x) (managerFees x) (maxManagerFee x) p (maxPremiumPercentage x)
  (minSetTokenSupply x).

Section Module_.
Context `{OZ : OpenZeppelin} `{ET : ERC20} `{RG : ReentrancyGuard} `{WE : WETH} (this : Address).

Record state := mk {
  status : guard;
  navIssuanceSettings : gmap Address NAVIssuanceSettings;
  isReserveAsset : gset (Address * Address);
  emitted : list Event;
  world : ModuleBase.chain;
  money : coins;
}.

Definition settings (s : state) (_setToken : Address) : NAVIssuanceSettings :=
  default no_settings (navIssuanceSettings s !! _setToken).

Definition reserve (s : state) (_setToken _asset : Address) : bool := bool_decide ((_setToken, _asset) ∈ isReserveAsset s).

Definition set_status (s : state) g :=
  mk g (navIssuanceSettings s) (isReserveAsset s) (emitted s) (world s) (money s).
Definition set_settings (s : state) _setToken x r e :=
  mk (status s) (<[ _setToken := x ]> (navIssuanceSettings s)) r (emitted s ++ e) (world s) (money s).
Definition set_world (s : state) w e :=
  mk (status s) (navIssuanceSettings s) (isReserveAsset s) (emitted s ++ e) w (money s).
Definition set_money (s : state) m :=
  mk (status s) (navIssuanceSettings s) (isReserveAsset s) (emitted s) (world s) m.

Definition constructor (w : ModuleBase.chain) (m : coins) : state := mk guard_new ∅ ∅ [] w m.

(** ** Fees and quantities

    [calculateSetTokenValuation] is the function of that name of the contract at
    its first argument. *)

Context (calculateSetTokenValuation : Address -> Address -> Address -> ModuleBase.chain -> result Z).
Context (decimals : Address -> result Z).

Definition _getIssuePremium (s : state) (_setToken _reserveAsset : Address) (_quantity : Z) : Z :=
  premiumPercentage (settings s _setToken).

Definition _getRedeemPremium (s : state) (_setToken _reserveAsset : Address) (_quantity : Z) : Z :=
  premiumPercentage (settings s _setToken).

Definition _getProtocolAndManagerFeePercentages (s : state) (_setToken : Address)
    (_protocolManagerFeeIndex _protocolDirectFeeIndex _managerFeeIndex : Z) : result (Z * Z) :=
  let protocolDirectFeePercent :=
    Controller.getModuleFee (ModuleBase.controller (world s)) this _protocolDirectFeeIndex in
  let protocolManagerShareFeePercent :=
    Controller.getModuleFee (ModuleBase.controller (world s)) this _protocolManagerFeeIndex in
  managerFeePercent ← fee_at (managerFees (settings s _setToken)) _managerFeeIndex;
  protocolRevenueSharePercentage ← PreciseUnitMath.preciseMul protocolManagerShareFeePercent managerFeePercent;
  managerRevenueSharePercentage ← sm_sub managerFeePercent protocolRevenueSharePercentage;
  totalProtocolFeePercentage ← sm_add protocolRevenueSharePercentage protocolDirectFeePercent;
  Ok (totalProtocolFeePercentage, managerRevenueSharePercentage).

(** Protocol fees, manager fee and what is left. *)
Definition _getFees (s : state) (_setToken : Address) (_reserveAssetQuantity : Z)
    (_protocolManagerFeeIndex _protocolDirectFeeIndex _managerFeeIndex : Z) : result (Z * Z * Z) :=
  p ← _getProtocolAndManagerFeePercentages s _setToken _protocolManagerFeeIndex _protocolDirectFeeIndex _managerFeeIndex;
  NAVModule._getFees p.1 p.2 _reserveAssetQuantity.

Definition _getSetValuer (s : state) (_setToken : Address) : Address :=
  let customValuer := setValuer (settings s _setToken) in
  if bool_decide (customValuer = ADDRESS_ZERO)
  then ResourceIdentifier.getSetValuer (ModuleBase.controller (world s)) else customValuer.

Definition valuation (s : state) (_setToken _reserveAsset : Address) : result Z :=
  calculateSetTokenValuation (_getSetValuer s _setToken) _setToken _reserveAsset (world s).

(** [10 ** decimals] wraps. *)
Definition baseUnits (_reserveAsset : Address) : result Z :=
  reserveAssetDecimals ← decimals _reserveAsset; Ok (wrap_uint256 (10 ^ reserveAssetDecimals)).

Definition _getSetTokenMintQuantity (s : state) (_setToken _reserveAsset : Address) (_netReserveFlows _setTotalSupply : Z)
    : result Z :=
  let premium := _getIssuePremium s _setToken _reserveAsset _netReserveFlows in
  setTokenValuation ← valuation s _setToken _reserveAsset;
  base ← baseUnits _reserveAsset;
  NAVModule._getSetTokenMintQuantity premium setTokenValuation base _netReserveFlows _setTotalSupply.

Definition _getRedeemReserveQuantity (s : state) (_setToken _reserveAsset : Address) (_setTokenQuantity : Z) : result Z :=
  setTokenValuation ← valuation s _setToken _reserveAsset;
  totalRedeemValueInPreciseUnits ← PreciseUnitMath.preciseMul _setTokenQuantity setTokenValuation;
  base ← baseUnits _reserveAsset;
  prePremiumReserveQuantity ← PreciseUnitMath.preciseMul totalRedeemValueInPreciseUnits base;
  premiumQuantity ← PreciseUnitMath.preciseMulCeil prePremiumReserveQuantity
                      (_getRedeemPremium s _setToken _reserveAsset _setTokenQuantity);
  sm_sub prePremiumReserveQuantity premiumQuantity.

Definition _getIssuePositionMultiplier (k : SetToken.contract) (_setTokenQuantity _previousSupply : Z) : result (Z * Z) :=
  NAVModule._getIssuePositionMultiplier (SetToken.positionMultiplier (SetToken.vars k)) _previousSupply _setTokenQuantity.

Definition _getRedeemPositionMultiplier (k : SetToken.contract) (_setTokenQuantity _previousSupply : Z) : result (Z * Z) :=
  newTotalSupply ← sm_sub _previousSupply _setTokenQuantity;
  p ← toInt256 _previousSupply;
  x ← ssm_mul (SetToken.positionMultiplier (SetToken.vars k)) p;
  n ← toInt256 newTotalSupply;
  newMultiplier ← ssm_div x n;
  Ok (newTotalSupply, newMultiplier).

Definition _getIssuePositionUnit (k : SetToken.contract) (_reserveAsset : Address)
    (_previousSupply _netFlow _newSupply : Z) : result Z :=
  r ← SetToken.getDefaultPositionRealUnit (SetToken.vars k) _reserveAsset;
  existingUnit ← toUint256 r;
  x ← PreciseUnitMath.preciseMul existingUnit _previousSupply;
  totalReserve ← sm_add x _netFlow;
  PreciseUnitMath.preciseDiv totalReserve _newSupply.

Definition _getRedeemPositionUnit (k : SetToken.contract) (_reserveAsset : Address)
    (_previousSupply _netFlow _protocolFees _managerFee _newSupply : Z) : result Z :=
  r ← SetToken.getDefaultPositionRealUnit (SetToken.vars k) _reserveAsset;
  existingUnit ← toUint256 r;
  totalExistingUnits ← PreciseUnitMath.preciseMul existingUnit _previousSupply;
  x ← sm_add _netFlow _protocolFees;
  outflow ← sm_add x _managerFee;
  _ ← require (outflow <=? totalExistingUnits) "Must be greater than total available collateral";
  y ← sm_sub totalExistingUnits outflow;
  PreciseUnitMath.preciseDiv y _newSupply.

Definition _createIssuanceInfo (s : state) (_setToken _reserveAsset : Address) (_reserveAssetQuantity : Z)
    : result ActionInfo :=
  k ← ModuleBase.setToken (world s) _setToken;
  let previousSupply := totalSupply (SetToken.tokens k) in
  f ← _getFees s _setToken _reserveAssetQuantity PROTOCOL_ISSUE_MANAGER_REVENUE_SHARE_FEE_INDEX
        PROTOCOL_ISSUE_DIRECT_FEE_INDEX MANAGER_ISSUE_FEE_INDEX;
  quantity ← _getSetTokenMintQuantity s _setToken _reserveAsset f.2 previousSupply;
  nm ← _getIssuePositionMultiplier k quantity previousSupply;
  u ← _getIssuePositionUnit k _reserveAsset previousSupply f.2 nm.1;
  Ok (mkInfo _reserveAssetQuantity f.1.1 f.1.2 f.2 quantity previousSupply nm.1 nm.2 u).

Definition _createRedemptionInfo (s : state) (_setToken _reserveAsset : Address) (_setTokenQuantity : Z)
    : result ActionInfo :=
  pre ← _getRedeemReserveQuantity s _setToken _reserveAsset _setTokenQuantity;
  f ← _getFees s _setToken pre PROTOCOL_REDEEM_MANAGER_REVENUE_SHARE_FEE_INDEX
        PROTOCOL_REDEEM_DIRECT_FEE_INDEX MANAGER_REDEEM_FEE_INDEX;
  k ← ModuleBase.setToken (world s) _setToken;
  let previousSupply := totalSupply (SetToken.tokens k) in
  nm ← _getRedeemPositionMultiplier k _setTokenQuantity previousSupply;
  u ← _getRedeemPositionUnit k _reserveAsset previousSupply f.2 f.1.1 f.1.2 nm.1;
  Ok (mkInfo pre f.1.1 f.1.2 f.2 _setTokenQuantity previousSupply nm.1 nm.2 u).

(** ** Validation *)

Definition _validateCommon (s : state) (_setToken _reserveAsset : Address) (_quantity : Z) : result unit :=
  _ ← require (0 <? _quantity) "Quantity must be > 0";
  require (reserve s _setToken _reserveAsset) "Must be valid reserve asset".

Definition _validateIssuanceInfo (s : state) (_setToken : Address) (_minSetTokenReceiveQuantity : Z) (i : ActionInfo)
    : result unit :=
  _ ← require (minSetTokenSupply (settings s _setToken) <=? previousSetTokenSupply i)
        "Supply must be greater than minimum to enable issuance";
  require (_minSetTokenReceiveQuantity <=? setTokenQuantity i) "Must be greater than min SetToken".

Definition _validateRedemptionInfo (s : state) (_setToken : Address) (_minReserveReceiveQuantity : Z) (i : ActionInfo)
    : result unit :=
  _ ← require (minSetTokenSupply (settings s _setToken) <=? newSetTokenSupply i)
        "Supply must be greater than minimum to enable redemption";
  require (_minReserveReceiveQuantity <=? netFlowQuantity i) "Must be greater than min receive reserve quantity".

(** ** Transfers and updates *)

Definition _transferCollateralAndHandleFees (msg_sender _setToken _reserveAsset : Address) (i : ActionInfo) (s : state)
    : result state :=
  m ← ModuleBase.transferFrom this _reserveAsset msg_sender _setToken (netFlowQuantity i) (money s);
  m ← (if 0 <? protocolFees i then
         ModuleBase.transferFrom this _reserveAsset msg_sender
           (Controller.feeRecipient (ModuleBase.controller (world s))) (protocolFees i) m
       else Ok m);
  m ← (if 0 <? managerFee i then
         ModuleBase.transferFrom this _reserveAsset msg_sender (feeRecipient (settings s _setToken)) (managerFee i) m
       else Ok m);
  Ok (set_money s m).

(** [weth.transfer]: the call of the wrapper by the module. *)
Definition wethTransfer (_to : Address) (_quantity : Z) (m : coins) : result coins :=
  r ← coin_call this weth 0 (transfer_data _to _quantity) m; Ok r.1.

Definition _transferWETHAndHandleFees (_setToken : Address) (i : ActionInfo) (s : state) : result state :=
  m ← wethTransfer _setToken (netFlowQuantity i) (money s);
  m ← (if 0 <? protocolFees i
       then wethTransfer (Controller.feeRecipient (ModuleBase.controller (world s))) (protocolFees i) m else Ok m);
  m ← (if 0 <? managerFee i then wethTransfer (feeRecipient (settings s _setToken)) (managerFee i) m else Ok m);
  Ok (set_money s m).

(** The new multiplier and the new position of the reserve asset. *)
Definition updatePositions (_setToken _reserveAsset : Address) (i : ActionInfo) (w : ModuleBase.chain)
    : result ModuleBase.chain :=
  w ← ModuleBase.on_set _setToken
        (SetToken.on_vars (SetToken.editPositionMultiplier (ModuleBase.isModule w) this (newPositionMultiplier i))) w;
  ModuleBase.on_set _setToken
    (SetToken.on_vars (PositionLib.editDefaultPosition (ModuleBase.isModule w) this _reserveAsset
                         (newReservePositionUnit i))) w.

Definition _handleIssueStateUpdates (msg_sender _setToken _reserveAsset _to : Address) (i : ActionInfo) (s : state)
    : result state :=
  w ← updatePositions _setToken _reserveAsset i (world s);
  w ← ModuleBase.on_set _setToken (SetToken.mint (ModuleBase.isModule w) this _to (setTokenQuantity i)) w;
  Ok (set_world s w [SetTokenNAVIssued _setToken msg_sender _to _reserveAsset
                       (managerIssuanceHook (settings s _setToken)) (setTokenQuantity i) (managerFee i)
                       (protocolFees i)]).

Definition _handleRedeemStateUpdates (msg_sender _setToken _reserveAsset _to : Address) (i : ActionInfo) (s : state)
    : result state :=
  w ← updatePositions _setToken _reserveAsset i (world s);
  Ok (set_world s w [SetTokenNAVRedeemed _setToken msg_sender _to _reserveAsset
                       (managerRedemptionHook (settings s _setToken)) (setTokenQuantity i) (managerFee i)
                       (protocolFees i)]).

(** Transfers out of the SetToken. *)
Definition payOut (_setToken _reserveAsset _to : Address) (_quantity : Z) (s : state) : result state :=
  wm ← ModuleBase.strictInvokeTransfer this _setToken _reserveAsset _to _quantity (world s, money s);
  Ok (set_money (set_world s wm.1 []) wm.2).

Definition _handleRedemptionFees (_setToken _reserveAsset : Address) (i : ActionInfo) (s : state) : result state :=
  wm ← ModuleBase.payProtocolFeeFromSetToken this _setToken _reserveAsset (protocolFees i) (world s, money s);
  let s := set_money (set_world s wm.1 []) wm.2 in
  if 0 <? managerFee i
  then payOut _setToken _reserveAsset (feeRecipient (settings s _setToken)) (managerFee i) s else Ok s.

(** ** Issuance and redemption

    [invokePreIssueHook] and [invokePreRedeemHook] of the hook at an address. *)

Context (invokePreIssueHook : Address -> Address -> Address -> Z -> Address -> Address -> state -> result state).
Context (invokePreRedeemHook : Address -> Address -> Z -> Address -> Address -> state -> result state).

Definition _callPreIssueHooks (_setToken _reserveAsset : Address) (_reserveAssetQuantity : Z) (_caller _to : Address)
    (s : state) : result state :=
  let preIssueHook := managerIssuanceHook (settings s _setToken) in
  if negb (bool_decide (preIssueHook = ADDRESS_ZERO))
  then invokePreIssueHook preIssueHook _setToken _reserveAsset _reserveAssetQuantity _caller _to s else Ok s.

Definition _callPreRedeemHooks (_setToken : Address) (_setQuantity : Z) (_caller _to : Address) (s : state)
    : result state :=
  let preRedeemHook := managerRedemptionHook (settings s _setToken) in
  if negb (bool_decide (preRedeemHook = ADDRESS_ZERO))
  then invokePreRedeemHook preRedeemHook _setToken _setQuantity _caller _to s else Ok s.

(** [nonReentrant onlyValidAndInitializedSet] *)
Definition entering (_setToken : Address) (body : state -> result state) (s : state) : result state :=
  g ← enter (status s);
  let s := set_status s g in
  _ ← ModuleBase._validateOnlyValidAndInitializedSet this _setToken (world s);
  s ← body s;
  Ok (set_status s (leave (status s))).

Definition issue (msg_sender _setToken _reserveAsset : Address) (_reserveAssetQuantity _minSetTokenReceiveQuantity : Z)
    (_to : Address) : state -> result state :=
  entering _setToken (fun s =>
    _ ← _validateCommon s _setToken _reserveAsset _reserveAssetQuantity;
    s ← _callPreIssueHooks _setToken _reserveAsset _reserveAssetQuantity msg_sender _to s;
    issueInfo ← _createIssuanceInfo s _setToken _reserveAsset _reserveAssetQuantity;
    _ ← _validateIssuanceInfo s _setToken _minSetTokenReceiveQuantity issueInfo;
    s ← _transferCollateralAndHandleFees msg_sender _setToken _reserveAsset issueInfo s;
    _handleIssueStateUpdates msg_sender _setToken _reserveAsset _to issueInfo s).

(** A call with [msg_value] of ether, which the module has when its code starts. *)
Definition issueWithEther (msg_sender : Address) (msg_value : Z) (_setToken : Address)
    (_minSetTokenReceiveQuantity : Z) (_to : Address) (s : state) : result state :=
  m ← sendEther msg_sender this msg_value (money s);
  entering _setToken (fun s =>
    m ← deposit this msg_value (money s);
    let s := set_money s m in
    _ ← _validateCommon s _setToken weth msg_value;
    s ← _callPreIssueHooks _setToken weth msg_value msg_sender _to s;
    issueInfo ← _createIssuanceInfo s _setToken weth msg_value;
    _ ← _validateIssuanceInfo s _setToken _minSetTokenReceiveQuantity issueInfo;
    s ← _transferWETHAndHandleFees _setToken issueInfo s;
    _handleIssueStateUpdates msg_sender _setToken weth _to issueInfo s) (set_money s m).

Definition burn (_setToken _account : Address) (_quantity : Z) (s : state) : result state :=
  w ← ModuleBase.on_set _setToken (SetToken.burn (ModuleBase.isModule (world s)) this _account _quantity) (world s);
  Ok (set_world s w []).

Definition redeem (msg_sender _setToken _reserveAsset : Address) (_setTokenQuantity _minReserveReceiveQuantity : Z)
    (_to : Address) : state -> result state :=
  entering _setToken (fun s =>
    _ ← _validateCommon s _setToken _reserveAsset _setTokenQuantity;
    s ← _callPreRedeemHooks _setToken _setTokenQuantity msg_sender _to s;
    redeemInfo ← _createRedemptionInfo s _setToken _reserveAsset _setTokenQuantity;
    _ ← _validateRedemptionInfo s _setToken _minReserveReceiveQuantity redeemInfo;
    s ← burn _setToken msg_sender _setTokenQuantity s;
    s ← payOut _setToken _reserveAsset _to (netFlowQuantity redeemInfo) s;
    s ← _handleRedemptionFees _setToken _reserveAsset redeemInfo s;
    _handleRedeemStateUpdates msg_sender _setToken _reserveAsset _to redeemInfo s).

Definition redeemIntoEther (msg_sender _setToken : Address) (_setTokenQuantity _minReserveReceiveQuantity : Z)
    (_to : Address) : state -> result state :=
  entering _setToken (fun s =>
    _ ← _validateCommon s _setToken weth _setTokenQuantity;
    s ← _callPreRedeemHooks _setToken _setTokenQuantity msg_sender _to s;
    redeemInfo ← _createRedemptionInfo s _setToken weth _setTokenQuantity;
    _ ← _validateRedemptionInfo s _setToken _minReserveReceiveQuantity redeemInfo;
    s ← burn _setToken msg_sender _setTokenQuantity s;
    s ← payOut _setToken weth this (netFlowQuantity redeemInfo) s;
    m ← withdraw this (netFlowQuantity redeemInfo) (money s);
    m ← sendEther this _to (netFlowQuantity redeemInfo) m;
    let s := set_money s m in
    s ← _handleRedemptionFees _setToken weth redeemInfo s;
    _handleRedeemStateUpdates msg_sender _setToken weth _to redeemInfo s).

(** ** Settings *)

Definition addReserveAsset (msg_sender _setToken _reserveAsset : Address) (s : state) : result state :=
  _ ← ModuleBase._validateOnlyManagerAndValidSet this _setToken msg_sender (world s);
  _ ← require (negb (reserve s _setToken _reserveAsset)) "Reserve asset already exists";
  let x := settings s _setToken in
  Ok (set_settings s _setToken (set_reserveAssets x (reserveAssets x ++ [_reserveAsset]))
        ({[ (_setToken, _reserveAsset) ]} ∪ isReserveAsset s) [ReserveAssetAdded _setToken _reserveAsset]).

Definition removeReserveAsset (msg_sender _setToken _reserveAsset : Address) (s : state) : result state :=
  _ ← ModuleBase._validateOnlyManagerAndValidSet this _setToken msg_sender (world s);
  _ ← require (reserve s _setToken _reserveAsset) "Reserve asset does not exist";
  let x := settings s _setToken in
  l ← AddressArrayUtils.remove (reserveAssets x) _reserveAsset;
  Ok (set_settings s _setToken (set_reserveAssets x l)
        (isReserveAsset s ∖ {[ (_setToken, _reserveAsset) ]}) [ReserveAssetRemoved _setToken _reserveAsset]).

Definition editPremium (msg_sender _setToken : Address) (_premiumPercentage : Z) (s : state) : result state :=
  _ ← ModuleBase._validateOnlyManagerAndValidSet this _setToken msg_sender (world s);
  let x := settings s _setToken in
  _ ← require (_premiumPercentage <=? maxPremiumPercentage x) "Premium must be less than maximum allowed";
  Ok (set_settings s _setToken (set_premium x _premiumPercentage) (isReserveAsset s)
        [PremiumEdited _setToken _premiumPercentage]).

Definition editManagerFee (msg_sender _setToken : Address) (_managerFeePercentage _managerFeeIndex : Z) (s : state)
    : result state :=
  _ ← ModuleBase._validateOnlyManagerAndValidSet this _setToken msg_sender (world s);
  let x := settings s _setToken in
  _ ← require (_managerFeePercentage <=? maxManagerFee x) "Manager fee must be less than maximum allowed";
  f ← set_fee_at (managerFees x) _managerFeeIndex _managerFeePercentage;
  Ok (set_settings s _setToken (set_managerFees x f) (isReserveAsset s)
        [ManagerFeeEdited _setToken _managerFeePercentage _managerFeeIndex]).

Definition editFeeRecipient (msg_sender _setToken _managerFeeRecipient : Address) (s : state) : result state :=
  _ ← ModuleBase._validateOnlyManagerAndValidSet this _setToken msg_sender (world s);
  _ ← require (bool_decide (_managerFeeRecipient <> ADDRESS_ZERO)) "Fee recipient must not be 0 address";
  Ok (set_settings s _setToken (set_recipient (settings s _setToken) _managerFeeRecipient) (isReserveAsset s)
        [FeeRecipientEdited _setToken _managerFeeRecipient]).

(** The loop of [initialize] over the reserve assets. *)
Definition flagReserves (_setToken : Address) (l : list Address) (r : gset (Address * Address))
    : result (gset (Address * Address)) :=
  foldM (fun r a => _ ← require (negb (bool_decide ((_setToken, a) ∈ r))) "Reserve assets must be unique";
                    Ok ({[ (_setToken, a) ]} ∪ r)) r l.

Definition initialize (msg_sender _setToken : Address) (x : NAVIssuanceSettings) (s : state) : result state :=
  _ ← ModuleBase._validateOnlySetManager _setToken msg_sender (world s);
  _ ← ModuleBase._validateOnlyValidAndPendingSet this _setToken (world s);
  _ ← require (0 <? List.length (reserveAssets x))%nat "Reserve assets must be greater than 0";
  _ ← require (maxManagerFee x <? PRECISE_UNIT) "Max manager fee must be less than 100%";
  _ ← require (maxPremiumPercentage x <? PRECISE_UNIT) "Max premium percentage must be less than 100%";
  _ ← require ((managerFees x).1 <=? maxManagerFee x) "Manager issue fee must be less than max";
  _ ← require ((managerFees x).2 <=? maxManagerFee x) "Manager redeem fee must be less than max";
  _ ← require (premiumPercentage x <=? maxPremiumPercentage x) "Premium must be less than max";
  _ ← require (bool_decide (feeRecipient x <> ADDRESS_ZERO)) "Fee Recipient must be non-zero address.";
  _ ← require (0 <? minSetTokenSupply x) "Min SetToken supply must be greater than 0";
  r ← flagReserves _setToken (reserveAssets x) (isReserveAsset s);
  let s := set_settings s _setToken x r [] in
  w ← ModuleBase.on_set _setToken (SetToken.on_vars (SetToken.initializeModule this)) (world s);
  Ok (set_world s w []).

(** The sender is the SetToken that lets go of the module. *)
Definition removeModule (msg_sender : Address) (s : state) : state :=
  mk (status s) (delete msg_sender (navIssuanceSettings s))
    (foldl (fun r a => r ∖ {[ (msg_sender, a) ]}) (isReserveAsset s) (reserveAssets (settings s msg_sender)))
    (emitted s) (world s) (money s).

(** ** Getters *)

Definition getReserveAssets (s : state) (_setToken : Address) : list Address := reserveAssets (settings s _setToken).

Definition getIssuePremium (s : state) (_setToken _reserveAsset : Address) (_quantity : Z) : Z :=
  _getIssuePremium s _setToken _reserveAsset _quantity.

Definition getRedeemPremium (s : state) (_setToken _reserveAsset : Address) (_quantity : Z) : Z :=
  _getRedeemPremium s _setToken _reserveAsset _quantity.

Definition getManagerFee (s : state) (_setToken : Address) (_managerFeeIndex : Z) : result Z :=
  fee_at (managerFees (settings s _setToken)) _managerFeeIndex.

Definition getExpectedSetTokenIssueQuantity (s : state) (_setToken _reserveAsset : Address) (_reserveAssetQuantity : Z)
    : result Z :=
  f ← _getFees s _setToken _reserveAssetQuantity PROTOCOL_ISSUE_MANAGER_REVENUE_SHARE_FEE_INDEX
        PROTOCOL_ISSUE_DIRECT_FEE_INDEX MANAGER_ISSUE_FEE_INDEX;
  k ← ModuleBase.setToken (world s) _setToken;
  _getSetTokenMintQuantity s _setToken _reserveAsset f.2 (totalSupply (SetToken.tokens k)).

Definition getExpectedReserveRedeemQuantity (s : state) (_setToken _reserveAsset : Address) (_setTokenQuantity : Z)
    : result Z :=
  pre ← _getRedeemReserveQuantity s _setToken _reserveAsset _setTokenQuantity;
  f ← _getFees s _setToken pre PROTOCOL_REDEEM_MANAGER_REVENUE_SHARE_FEE_INDEX
        PROTOCOL_REDEEM_DIRECT_FEE_INDEX MANAGER_REDEEM_FEE_INDEX;
  Ok f.2.

Definition isIssueValid (s : state) (_setToken _reserveAsset : Address) (_reserveAssetQuantity : Z) : result bool :=
  k ← ModuleBase.setToken (world s) _setToken;
  Ok (negb (_reserveAssetQuantity =? 0) && reserve s _setToken _reserveAsset
      && (minSetTokenSupply (settings s _setToken) <=? totalSupply (SetToken.tokens k))).

(** [||] stops at the first operand that holds. *)
Definition isRedeemValid (s : state) (_setToken _reserveAsset : Address) (_setTokenQuantity : Z) : result bool :=
  k ← ModuleBase.setToken (world s) _setToken;
  let setTotalSupply := totalSupply (SetToken.tokens k) in
  invalid ← (if (_setTokenQuantity =? 0) || negb (reserve s _setToken _reserveAsset) then Ok true
             else x ← sm_add (minSetTokenSupply (settings s _setToken)) _setTokenQuantity; Ok (setTotalSupply <? x));
  if (invalid : bool) then Ok false
  else
    expectedRedeemQuantity ← getExpectedReserveRedeemQuantity s _setToken _reserveAsset _setTokenQuantity;
    r ← SetToken.getDefaultPositionRealUnit (SetToken.vars k) _reserveAsset;
    existingUnit ← toUint256 r;
    x ← PreciseUnitMath.preciseMul existingUnit setTotalSupply;
    Ok (expectedRedeemQuantity <=? x).

(** The calls that change the state. *)
Inductive Call :=
  | Issue (_setToken _reserveAsset : Address) (_quantity _minimum : Z) (_to : Address)
  | IssueWithEther (_value : Z) (_setToken : Address) (_minimum : Z) (_to : Address)
  | Redeem (_setToken _reserveAsset : Address) (_quantity _minimum : Z) (_to : Address)
  | RedeemIntoEther (_setToken : Address) (_quantity _minimum : Z) (_to : Address)
  | AddReserveAsset (_setToken _reserveAsset : Address)
  | RemoveReserveAsset (_setToken _reserveAsset : Address)
  | EditPremium (_setToken : Address) (_premiumPercentage : Z)
  | EditManagerFee (_setToken : Address) (_managerFeePercentage _managerFeeIndex : Z)
  | EditFeeRecipient (_setToken _managerFeeRecipient : Address)
  | Initialize (_setToken : Address) (_settings : NAVIssuanceSettings)
  | RemoveModule.

Definition exec (msg_sender : Address) (c : Call) (s : state) : result state :=
  match c with
  | Issue a r q m to => issue msg_sender a r q m to s
  | IssueWithEther v a m to => issueWithEther msg_sender v a m to s
  | Redeem a r q m to => redeem msg_sender a r q m to s
  | RedeemIntoEther a q m to => redeemIntoEther msg_sender a q m to s
  | AddReserveAsset a r => addReserveAsset msg_sender a r s
  | RemoveReserveAsset a r => removeReserveAsset msg_sender a r s
  | EditPremium a p => editPremium msg_sender a p s
  | EditManagerFee a p i => editManagerFee msg_sender a p i s
  | EditFeeRecipient a r => editFeeRecipient msg_sender a r s
  | Initialize a x => initialize msg_sender a x s
  | RemoveModule => Ok (removeModule msg_sender s)
  end.

End Module_.

(** ** Facts about quantities *)

Section Quantities.
Context `{OZ : OpenZeppelin} `{BN : BigNumber}.

Lemma fees_Ok pp mp q f : is_uint256 pp -> is_uint256 mp -> is_uint256 q -> NAVModule._getFees pp mp q = Ok f ->
  f.1.1 + f.1.2 + f.2 = q /\ f.1.1 = pp * q / PRECISE_UNIT /\ f.1.2 = mp * q / PRECISE_UNIT /\
  is_uint256 f.1.1 /\ is_uint256 f.1.2 /\ is_uint256 f.2.
Proof.
  intros Hp Hm Hq Q. unfold NAVModule._getFees in Q. apply bind_Ok_inv in Q as (x & Qx & Q).
  apply bind_Ok_inv in Q as (y & Qy & Q). apply bind_Ok_inv in Q as (n & Qn & Q).
  apply bind_Ok_inv in Q as (z & Qz & Q). apply Ok_inj in Q as <-. cbn [fst snd].
  apply preciseMul_Ok in Qx as [Ex Ux]; [|done..]. apply preciseMul_Ok in Qy as [Ey Uy]; [|done..].
  apply sm_sub_inv in Qn as [-> Un]; [|done..]. apply sm_sub_inv in Qz as [-> Uz]; [|done..].
  split; [lia|done].
Qed.

(** The worth in reserve of the tokens that are minted: what they are sold for,
    net of the premium, against the value of the supply. *)
Lemma mint_quantity_Ok prem val base net S q : is_uint256 prem -> is_uint256 val -> is_uint256 base ->
  is_uint256 net -> is_uint256 S -> NAVModule._getSetTokenMintQuantity prem val base net S = Ok q ->
  let paid := net * PRECISE_UNIT / base in
  let sold := (net - net * prem / PRECISE_UNIT) * PRECISE_UNIT / base in
  is_uint256 q /\ 0 < base /\ 0 <= sold <= paid /\
  q * (S * val / PRECISE_UNIT + paid - sold) <= sold * S.
Proof.
  intros Hprem Hval Hbase Hnet HS Q paid sold. unfold NAVModule._getSetTokenMintQuantity in Q.
  apply bind_Ok_inv in Q as (pv & Qpv & Q). apply bind_Ok_inv in Q as (n & Qn & Q).
  apply bind_Ok_inv in Q as (np & Qnp & Q). apply bind_Ok_inv in Q as (sd & Qsd & Q).
  apply bind_Ok_inv in Q as (v & Qv & Q). apply bind_Ok_inv in Q as (v' & Qv' & Q).
  apply bind_Ok_inv in Q as (den & Qden & Q). apply bind_Ok_inv in Q as (num & Qnum & Q).
  apply preciseMul_Ok in Qpv as [Epv Upv]; [|done..]. apply preciseDiv_Ok in Qn as (Hb & En & Un); [|done..].
  apply sm_sub_inv in Qnp as [Enp Unp]; [|done..]. apply preciseDiv_Ok in Qsd as (_ & Esd & Usd); [|done..].
  apply preciseMul_Ok in Qv as [Ev Uv]; [|done..]. apply sm_add_inv in Qv' as [Ev' Uv']; [|done..].
  apply sm_sub_inv in Qden as [Eden Uden]; [|done..]. apply preciseMul_Ok in Qnum as [Enum Unum]; [|done..].
  apply preciseDiv_Ok in Q as (H0 & Eq & Uq); [|done..]. rewrite Enp, Epv in Esd. fold paid in En. fold sold in Esd.
  rewrite Esd, En, Ev in *. clear Esd En. rewrite Ev' in Eden. clear Ev'. split; [done|]. split; [done|].
  apply is_uint256_spec in Usd, Unum, Upv, Unp, Hnet. pose proof PRECISE_UNIT_pos as HU. split.
  - split; [lia|]. apply Z.div_le_mono; [done|]. apply Z.mul_le_mono_nonneg_r; lia.
  - pose proof (floor_bounds (num * PRECISE_UNIT) den H0) as HQ. rewrite <- Eq in HQ.
    pose proof (floor_bounds (sold * S) PRECISE_UNIT HU) as HN. rewrite <- Enum in HN. rewrite <- Eden. lia.
Qed.

Lemma issue_multiplier_Ok m S q nm : 0 < m -> is_int256 m -> is_uint256 S -> is_uint256 q ->
  NAVModule._getIssuePositionMultiplier m S q = Ok nm ->
  nm.1 = S + q /\ 0 < nm.1 /\ is_uint256 nm.1 /\ nm.2 = m * S / nm.1 /\ is_int256 nm.2.
Proof.
  intros Hm Im HS Hq Q. unfold NAVModule._getIssuePositionMultiplier in Q. apply bind_Ok_inv in Q as (n & Qn & Q).
  apply bind_Ok_inv in Q as (p & Qp & Q). apply bind_Ok_inv in Q as (x & Qx & Q).
  apply bind_Ok_inv in Q as (c & Qc & Q). apply bind_Ok_inv in Q as (r & Qr & Q). apply Ok_inj in Q as <-.
  cbn [fst snd]. apply sm_add_inv in Qn as [-> Un]; [|done..]. apply toInt256_Ok in Qp as [-> Ip]; [|done].
  apply ssm_mul_inv in Qx as [-> Ix]; [|done..]. apply toInt256_Ok in Qc as [-> Ic]; [|done].
  apply ssm_div_inv in Qr as (H0 & -> & Ir); [|done..]. apply is_uint256_spec in HS. pose proof Un as Un'%is_uint256_spec.
  split; [lia|]. split; [lia|]. split; [done|]. rewrite quot_nonneg in Ir |- * by nia. done.
Qed.

Lemma redeem_multiplier_Ok `{ET : ERC20} k q S nm : SetToken.Inv (SetToken.vars k) -> is_uint256 S -> is_uint256 q ->
  _getRedeemPositionMultiplier k q S = Ok nm ->
  nm.1 = S - q /\ 0 < nm.1 /\ is_uint256 nm.1 /\ nm.2 = SetToken.positionMultiplier (SetToken.vars k) * S / nm.1 /\
  is_int256 nm.2.
Proof.
  intros HI HS Hq Q. pose proof (SetToken.inv_multiplier _ HI) as Hm. pose proof (SetToken.inv_multiplier_int _ HI) as Im.
  unfold _getRedeemPositionMultiplier in Q. apply bind_Ok_inv in Q as (n & Qn & Q).
  apply bind_Ok_inv in Q as (p & Qp & Q). apply bind_Ok_inv in Q as (x & Qx & Q).
  apply bind_Ok_inv in Q as (c & Qc & Q). apply bind_Ok_inv in Q as (r & Qr & Q). apply Ok_inj in Q as <-.
  cbn [fst snd]. apply sm_sub_inv in Qn as [-> Un]; [|done..]. apply toInt256_Ok in Qp as [-> Ip]; [|done].
  apply ssm_mul_inv in Qx as [-> Ix]; [|done..]. apply toInt256_Ok in Qc as [-> Ic]; [|done].
  apply ssm_div_inv in Qr as (H0 & -> & Ir); [|done..]. apply is_uint256_spec in HS. pose proof Un as Un'%is_uint256_spec.
  split; [lia|]. split; [lia|]. split; [done|]. rewrite quot_nonneg in Ir |- * by nia. done.
Qed.

(** The unit of the reserve asset before: a real unit of the token. *)
Definition reserve_unit (k : SetToken.state) (r : Address) (u : Z) : Prop :=
  SetToken.getDefaultPositionRealUnit k r = Ok u /\ 0 <= u /\ is_uint256 u /\
  u = SetToken.virtualUnit (SetToken.position k r) * SetToken.positionMultiplier k / PRECISE_UNIT.

Lemma reserve_unit_Ok k r x u : SetToken.Inv k -> SetToken.getDefaultPositionRealUnit k r = Ok x ->
  toUint256 x = Ok u -> reserve_unit k r u.
Proof.
  intros HI Q Q1. pose proof Q as Q2. apply conservativePreciseMul_Ok in Q2 as (Ex & Hx & _);
    [|apply (SetToken.inv_units _ HI)|apply (SetToken.inv_multiplier_int _ HI)].
  apply toUint256_Ok in Q1 as [-> H0]; [|done]. split; [done|]. split; [done|]. split; [|done].
  apply is_int256_spec in Hx. apply is_uint256_spec. change (2 ^ 256) with (2 * 2 ^ 255). lia.
Qed.

Lemma issue_unit_Ok `{ET : ERC20} k r S net n u' : SetToken.Inv (SetToken.vars k) -> is_uint256 S -> is_uint256 net ->
  is_uint256 n -> _getIssuePositionUnit k r S net n = Ok u' ->
  is_uint256 u' /\ exists u, reserve_unit (SetToken.vars k) r u /\ u' = (u * S / PRECISE_UNIT + net) * PRECISE_UNIT / n.
Proof.
  intros HI HS Hnet Hn Q. unfold _getIssuePositionUnit in Q. apply bind_Ok_inv in Q as (x & Qx & Q).
  apply bind_Ok_inv in Q as (u & Qu & Q). apply bind_Ok_inv in Q as (y & Qy & Q). apply bind_Ok_inv in Q as (t & Qt & Q).
  pose proof (reserve_unit_Ok _ _ _ _ HI Qx Qu) as HR. destruct (HR) as (_ & _ & Uu & _).
  apply preciseMul_Ok in Qy as [-> Uy]; [|done..]. apply sm_add_inv in Qt as [-> Ut]; [|done..].
  apply preciseDiv_Ok in Q as (_ & -> & U); [|done..]. split; [done|]. by exists u.
Qed.

Lemma redeem_unit_Ok `{ET : ERC20} k r S net pf mf n u' : SetToken.Inv (SetToken.vars k) -> is_uint256 S ->
  is_uint256 net -> is_uint256 pf -> is_uint256 mf -> is_uint256 n ->
  _getRedeemPositionUnit k r S net pf mf n = Ok u' ->
  is_uint256 u' /\ exists u, reserve_unit (SetToken.vars k) r u /\ net + pf + mf <= u * S / PRECISE_UNIT /\
    u' = (u * S / PRECISE_UNIT - (net + pf + mf)) * PRECISE_UNIT / n.
Proof.
  intros HI HS Hnet Hp Hm Hn Q. unfold _getRedeemPositionUnit in Q. apply bind_Ok_inv in Q as (x & Qx & Q).
  apply bind_Ok_inv in Q as (u & Qu & Q). apply bind_Ok_inv in Q as (y & Qy & Q). apply bind_Ok_inv in Q as (a & Qa & Q).
  apply bind_Ok_inv in Q as (o & Qo & Q). apply bind_Ok_inv in Q as (v & Qv & Q). apply bind_Ok_inv in Q as (z & Qz & Q).
  pose proof (reserve_unit_Ok _ _ _ _ HI Qx Qu) as HR. destruct (HR) as (_ & _ & Uu & _).
  apply preciseMul_Ok in Qy as [-> Uy]; [|done..]. apply sm_add_inv in Qa as [-> Ua]; [|done..].
  apply sm_add_inv in Qo as [-> Uo]; [|done..]. apply require_Ok_inv, Z.leb_le in Qv.
  apply sm_sub_inv in Qz as [-> Uz]; [|done..]. apply preciseDiv_Ok in Q as (_ & -> & U); [|done..].
  split; [done|]. by exists u.
Qed.

End Quantities.

(** ** Facts about issues and redemptions *)

Section Facts.
Context `{OZ : OpenZeppelin} `{ET : ERC20} `{RG : ReentrancyGuard} `{WE : WETH} `{BN : BigNumber} (this : Address).
Context (calculateSetTokenValuation : Address -> Address -> Address -> ModuleBase.chain -> result Z).
Context (decimals : Address -> result Z).
Context (valuation_uint256 : forall v a q w x, calculateSetTokenValuation v a q w = Ok x -> is_uint256 x).

(** The state fits the types of the contracts. *)
Record typed (s : state) : Prop := {
  typed_fees a : is_uint256 (managerFees (settings s a)).1 /\ is_uint256 (managerFees (settings s a)).2;
  typed_premium a : is_uint256 (premiumPercentage (settings s a));
  typed_minimum a : is_uint256 (minSetTokenSupply (settings s a));
  typed_protocol i : is_uint256 (Controller.getModuleFee (ModuleBase.controller (world s)) this i);
  typed_token a c : ModuleBase.setTokens (world s) !! a = Some c ->
    SetToken.Inv (SetToken.vars c) /\ is_uint256 (totalSupply (SetToken.tokens c));
}.

(** What all info of an action says: the fees are part of the quantity before
    fees, and the multiplier shrinks as the supply grows. *)
Record action (c : SetToken.contract) (i : ActionInfo) : Prop := {
  action_previous : previousSetTokenSupply i = totalSupply (SetToken.tokens c);
  action_fees : netFlowQuantity i + protocolFees i + managerFee i = preFeeReserveQuantity i;
  action_net : is_uint256 (netFlowQuantity i);
  action_protocol : is_uint256 (protocolFees i);
  action_manager : is_uint256 (managerFee i);
  action_quantity : is_uint256 (setTokenQuantity i);
  action_new : 0 < newSetTokenSupply i;
  action_multiplier : newPositionMultiplier i =
    SetToken.positionMultiplier (SetToken.vars c) * previousSetTokenSupply i / newSetTokenSupply i;
  action_multiplier_int : is_int256 (newPositionMultiplier i);
  action_unit : is_uint256 (newReservePositionUnit i);
}.

Lemma percentages_Ok s a i j k p : typed s ->
  _getProtocolAndManagerFeePercentages this s a i j k = Ok p -> is_uint256 p.1 /\ is_uint256 p.2.
Proof.
  intros HT Q. unfold _getProtocolAndManagerFeePercentages in Q. apply bind_Ok_inv in Q as (m & Qm & Q).
  apply bind_Ok_inv in Q as (x & Qx & Q). apply bind_Ok_inv in Q as (y & Qy & Q).
  apply bind_Ok_inv in Q as (z & Qz & Q). apply Ok_inj in Q as <-. cbn [fst snd].
  assert (Um : is_uint256 m).
  { unfold fee_at in Qm. destruct (typed_fees _ HT a). by repeat case_match; [apply Ok_inj in Qm as <-..|]. }
  apply preciseMul_Ok in Qx as [_ Ux]; [|apply (typed_protocol _ HT)|done].
  apply sm_sub_inv in Qy as [_ Uy]; [|done..]. by apply sm_add_inv in Qz as [_ Uz]; [|done|apply (typed_protocol _ HT)].
Qed.

Lemma getFees_Ok s a q i j k f : typed s -> is_uint256 q -> _getFees this s a q i j k = Ok f ->
  f.1.1 + f.1.2 + f.2 = q /\ is_uint256 f.1.1 /\ is_uint256 f.1.2 /\ is_uint256 f.2.
Proof.
  intros HT Hq Q. unfold _getFees in Q. apply bind_Ok_inv in Q as (p & Qp & Q).
  destruct (percentages_Ok _ _ _ _ _ _ HT Qp) as [U1 U2]. apply fees_Ok in Q; [|done..]. tauto.
Qed.

Lemma baseUnits_uint256 r b : baseUnits decimals r = Ok b -> is_uint256 b.
Proof.
  unfold baseUnits. intros Q. apply bind_Ok_inv in Q as (d & _ & Q). apply Ok_inj in Q as <-.
  apply SetValuer.wrap_uint256_typed.
Qed.

(** The information of an issuance. *)
Lemma createIssuanceInfo_Ok s a r q i c : typed s -> ModuleBase.setTokens (world s) !! a = Some c -> is_uint256 q ->
  _createIssuanceInfo this calculateSetTokenValuation decimals s a r q = Ok i ->
  action c i /\ preFeeReserveQuantity i = q /\
  newSetTokenSupply i = totalSupply (SetToken.tokens c) + setTokenQuantity i /\
  _getSetTokenMintQuantity calculateSetTokenValuation decimals s a r (netFlowQuantity i)
    (totalSupply (SetToken.tokens c)) = Ok (setTokenQuantity i) /\
  exists u, reserve_unit (SetToken.vars c) r u /\ newReservePositionUnit i =
    (u * totalSupply (SetToken.tokens c) / PRECISE_UNIT + netFlowQuantity i) * PRECISE_UNIT / newSetTokenSupply i.
Proof.
  intros HT Hc Hq Q. destruct (typed_token _ HT a c Hc) as [HI HS]. unfold _createIssuanceInfo in Q.
  apply bind_Ok_inv in Q as (k & Qk%ModuleBase.setToken_Ok & Q). rewrite Hc in Qk. injection Qk as <-.
  apply bind_Ok_inv in Q as (f & Qf & Q). apply bind_Ok_inv in Q as (n & Qn & Q).
  apply bind_Ok_inv in Q as (nm & Qnm & Q). apply bind_Ok_inv in Q as (u & Qu & Q). apply Ok_inj in Q as <-.
  apply getFees_Ok in Qf as (Ef & U1 & U2 & U3); [|done..].
  assert (Un : is_uint256 n).
  { unfold _getSetTokenMintQuantity in Qn. apply bind_Ok_inv in Qn as (v & Qv & Qn).
    apply bind_Ok_inv in Qn as (b & Qb & Qn). apply valuation_uint256 in Qv. apply baseUnits_uint256 in Qb.
    apply mint_quantity_Ok in Qn as [Un _]; [done|apply (typed_premium _ HT)|done..]. }
  apply issue_multiplier_Ok in Qnm as (E1 & H0 & Us & E2 & I2); [|apply (SetToken.inv_multiplier _ HI)|
    apply (SetToken.inv_multiplier_int _ HI)|done|done].
  apply issue_unit_Ok in Qu as (Uu & Hu); [|done..].
  split; [constructor; cbn; (done || lia)|]. split; [done|]. split; [exact E1|]. split; [exact Qn|exact Hu].
Qed.

(** The information of a redemption. *)
Lemma redeemReserveQuantity_Ok s a r q x : typed s -> is_uint256 q ->
  _getRedeemReserveQuantity calculateSetTokenValuation decimals s a r q = Ok x ->
  is_uint256 x /\ exists v b, valuation calculateSetTokenValuation s a r = Ok v /\ baseUnits decimals r = Ok b /\
    0 <= x <= q * v / PRECISE_UNIT * b / PRECISE_UNIT.
Proof.
  intros HT Hq Q. unfold _getRedeemReserveQuantity in Q. apply bind_Ok_inv in Q as (v & Qv & Q).
  apply bind_Ok_inv in Q as (t & Qt & Q). apply bind_Ok_inv in Q as (b & Qb & Q).
  apply bind_Ok_inv in Q as (y & Qy & Q). apply bind_Ok_inv in Q as (z & Qz & Q).
  pose proof (valuation_uint256 _ _ _ _ _ Qv) as Uv. pose proof (baseUnits_uint256 _ _ Qb) as Ub.
  apply preciseMul_Ok in Qt as [-> Ut]; [|done..]. apply preciseMul_Ok in Qy as [-> Uy]; [|done..].
  pose proof (preciseMulCeil_uint256 _ _ _ Uy (typed_premium _ HT a) Qz) as Uz.
  apply sm_sub_inv in Q as [-> U]; [|done..]. split; [done|]. exists v, b. split; [done|]. split; [done|].
  apply is_uint256_spec in U, Uz. lia.
Qed.

Lemma createRedemptionInfo_Ok s a r q i c : typed s -> ModuleBase.setTokens (world s) !! a = Some c -> is_uint256 q ->
  _createRedemptionInfo this calculateSetTokenValuation decimals s a r q = Ok i ->
  action c i /\ setTokenQuantity i = q /\
  newSetTokenSupply i = totalSupply (SetToken.tokens c) - q /\
  _getRedeemReserveQuantity calculateSetTokenValuation decimals s a r q = Ok (preFeeReserveQuantity i) /\
  exists u, reserve_unit (SetToken.vars c) r u /\
    preFeeReserveQuantity i <= u * totalSupply (SetToken.tokens c) / PRECISE_UNIT /\ newReservePositionUnit i =
    (u * totalSupply (SetToken.tokens c) / PRECISE_UNIT - preFeeReserveQuantity i) * PRECISE_UNIT / newSetTokenSupply i.
Proof.
  intros HT Hc Hq Q. destruct (typed_token _ HT a c Hc) as [HI HS]. unfold _createRedemptionInfo in Q.
  apply bind_Ok_inv in Q as (pre & Qpre & Q). pose proof (redeemReserveQuantity_Ok _ _ _ _ _ HT Hq Qpre) as [Upre _].
  apply bind_Ok_inv in Q as (f & Qf & Q).
  apply bind_Ok_inv in Q as (k & Qk%ModuleBase.setToken_Ok & Q). rewrite Hc in Qk. injection Qk as <-.
  apply bind_Ok_inv in Q as (nm & Qnm & Q). apply bind_Ok_inv in Q as (u & Qu & Q). apply Ok_inj in Q as <-.
  apply getFees_Ok in Qf as (Ef & U1 & U2 & U3); [|done..].
  apply redeem_multiplier_Ok in Qnm as (E1 & H0 & Us & E2 & I2); [|done..].
  apply redeem_unit_Ok in Qu as (Uu & x & Hx & Hle & Eu); [|done..].
  assert (Epre : f.2 + f.1.1 + f.1.2 = pre) by lia. rewrite Epre in *.
  split; [constructor; cbn; (done || lia)|]. split; [done|]. split; [exact E1|]. split; [exact Qpre|]. by exists x.
Qed.

(** ** The token after an action *)

(** The multiplier is the new one, and the unit of the reserve asset the new one
    over it; all other units are kept. *)
Record repositioned (r : Address) (i : ActionInfo) (k k' : SetToken.state) : Prop := {
  rep_inv : SetToken.Inv k';
  rep_multiplier : SetToken.positionMultiplier k' = newPositionMultiplier i;
  rep_positive : 0 < newPositionMultiplier i;
  rep_others d : d <> r -> SetToken.position k' d = SetToken.position k d;
  rep_reserve : SetToken.virtualUnit (SetToken.position k' r) =
    newReservePositionUnit i * PRECISE_UNIT / newPositionMultiplier i;
}.

Lemma updatePositions_Ok a r i w w' c c0 : action c0 i -> ModuleBase.setTokens w !! a = Some c ->
  SetToken.Inv (SetToken.vars c) -> updatePositions this a r i w = Ok w' -> exists k',
  repositioned r i (SetToken.vars c) k' /\
  w' = ModuleBase.mkChain (ModuleBase.controller w)
         (<[ a := SetToken.mkContract k' (SetToken.tokens c) ]> (ModuleBase.setTokens w)).
Proof.
  intros HA Hc HI Q. unfold updatePositions in Q. apply bind_Ok_inv in Q as (w1 & Q1 & Q).
  apply ModuleBase.on_set_Ok in Q1 as (c1 & c1' & Hc1 & Q1 & ->). rewrite Hc in Hc1. injection Hc1 as <-.
  apply bind_Ok_inv in Q1 as (k1 & Q1 & E). apply Ok_inj in E as <-.
  pose proof (action_multiplier_int _ _ HA) as Im. pose proof Q1 as Q1'.
  apply SetToken.editPositionMultiplier_Ok in Q1' as (-> & Hm & _); [|done..].
  assert (HI1 : SetToken.Inv (SetToken.set_multiplier (SetToken.vars c) (newPositionMultiplier i)
    (SetToken.PositionMultiplierEdited (newPositionMultiplier i)))) by (by apply SetToken.Inv_set_multiplier).
  apply ModuleBase.on_set_Ok in Q as (c2 & c2' & Hc2 & Q2 & ->).
  cbn [ModuleBase.setTokens ModuleBase.controller] in *. rewrite lookup_insert_eq in Hc2. injection Hc2 as <-.
  apply bind_Ok_inv in Q2 as (k' & Q2 & E). apply Ok_inj in E as <-.
  cbn [SetToken.vars SetToken.tokens] in *. pose proof (action_unit _ _ HA) as Uu.
  apply PositionLib.editDefaultPosition_Ok in Q2 as (HI' & HM & HO & Hi & Hv); [|done..].
  exists k'. rewrite insert_insert_eq. split; [|done].
  apply SetToken._convertRealToVirtualUnit_Ok in Hv as (Hv & _); [|done..].
  constructor; [done|by rewrite HM|done| |exact Hv]. intros d Hd. by rewrite HO.
Qed.

(** ** Money *)

(** What an action brings in, to holders other than the payer. *)
Record collected (payer a r : Address) (i : ActionInfo) (s s' : state) (m : coins) : Prop := {
  col_state : s' = set_money s m;
  col_reserve b : b <> payer -> coin_balance m r b = coin_balance (money s) r b +
    (if decide (b = a) then netFlowQuantity i else 0) +
    (if decide (b = Controller.feeRecipient (ModuleBase.controller (world s))) then protocolFees i else 0) +
    (if decide (b = feeRecipient (settings s a)) then managerFee i else 0);
  col_others t b : t <> r -> coin_balance m t b = coin_balance (money s) t b;
}.

Lemma transferFrom_plain `{PC : !PlainCoins} t from to q m m' b : is_uint256 q ->
  ModuleBase.transferFrom this t from to q m = Ok m' -> b <> from ->
  coin_balance m' t b = coin_balance m t b + if decide (b = to) then q else 0.
Proof.
  intros Hq Q Hb. case_decide as D.
  - subst. by apply ModuleBase.transferFrom_Ok in Q as [-> _].
  - unfold ModuleBase.transferFrom in Q. destruct (0 <? q); [|apply Ok_inj in Q as <-; lia].
    apply bind_Ok_inv in Q as (m1 & Q1 & Q). apply bind_Ok_inv in Q as (x & _ & Q).
    apply bind_Ok_inv in Q as (u & _ & Q). apply Ok_inj in Q as <-.
    rewrite (plain_law _ _ _ _ _ _ _ _ Q1) by done. lia.
Qed.

(** A fee that is paid if it is not zero. *)
Lemma fee_step (pay : coins -> result coins) q r to payer m m' : is_uint256 q ->
  (forall m', pay m = Ok m' -> (forall b, b <> payer -> coin_balance m' r b = coin_balance m r b +
     if decide (b = to) then q else 0) /\ forall t b, t <> r -> coin_balance m' t b = coin_balance m t b) ->
  (if 0 <? q then pay m else Ok m) = Ok m' ->
  (forall b, b <> payer -> coin_balance m' r b = coin_balance m r b + if decide (b = to) then q else 0) /\
  forall t b, t <> r -> coin_balance m' t b = coin_balance m t b.
Proof.
  intros Hq HP Q. apply is_uint256_spec in Hq. destruct (Z.ltb_spec 0 q); [by apply HP|].
  apply Ok_inj in Q as <-. split; [|done]. intros b _. case_decide; lia.
Qed.

Lemma transferCollateral_Ok `{PC : !PlainCoins} sender a r i s s' c : action c i ->
  _transferCollateralAndHandleFees this sender a r i s = Ok s' -> exists m, collected sender a r i s s' m.
Proof.
  intros HA Q. unfold _transferCollateralAndHandleFees in Q. apply bind_Ok_inv in Q as (m1 & Q1 & Q).
  apply bind_Ok_inv in Q as (m2 & Q2 & Q). apply bind_Ok_inv in Q as (m3 & Q3 & Q). apply Ok_inj in Q as <-.
  pose proof (action_net _ _ HA) as Hn. pose proof (action_protocol _ _ HA) as Hp. pose proof (action_manager _ _ HA) as Hm.
  apply (fee_step _ _ r (Controller.feeRecipient (ModuleBase.controller (world s))) sender) in Q2 as [B2 O2];
    [|exact Hp|intros m' Q; split; [intros b; by apply transferFrom_plain|by apply ModuleBase.transferFrom_Ok in Q as [_ ?]]].
  apply (fee_step _ _ r (feeRecipient (settings s a)) sender) in Q3 as [B3 O3];
    [|exact Hm|intros m' Q; split; [intros b; by apply transferFrom_plain|by apply ModuleBase.transferFrom_Ok in Q as [_ ?]]].
  exists m3. constructor; [done| |].
  - intros b Hb. rewrite B3, B2, (transferFrom_plain _ _ _ _ _ _ _ Hn Q1) by done. done.
  - intros t b Ht. rewrite O3, O2 by done. by apply ModuleBase.transferFrom_Ok in Q1 as [_ ->].
Qed.

Lemma wethTransfer_Ok to q m m' : is_uint256 q -> wethTransfer this to q m = Ok m' ->
  (forall b, b <> this -> coin_balance m' weth b = coin_balance m weth b + if decide (b = to) then q else 0) /\
  forall t b, t <> weth -> coin_balance m' t b = coin_balance m t b.
Proof.
  intros Hq Q. unfold wethTransfer in Q. apply bind_Ok_inv in Q as (r & Q & E). apply Ok_inj in E as <-. split.
  - intros b Hb. rewrite (transfer_law _ _ _ _ _ b Hq Q). rewrite (decide_False (P := b = this)) by done. lia.
  - intros t b Ht. by eapply coin_call_frame.
Qed.

Lemma transferWETH_Ok a i s s' c : action c i -> _transferWETHAndHandleFees this a i s = Ok s' ->
  exists m, collected this a weth i s s' m.
Proof.
  intros HA Q. unfold _transferWETHAndHandleFees in Q. apply bind_Ok_inv in Q as (m1 & Q1 & Q).
  apply bind_Ok_inv in Q as (m2 & Q2 & Q). apply bind_Ok_inv in Q as (m3 & Q3 & Q). apply Ok_inj in Q as <-.
  pose proof (action_net _ _ HA) as Hn. pose proof (action_protocol _ _ HA) as Hp. pose proof (action_manager _ _ HA) as Hm.
  apply wethTransfer_Ok in Q1 as [B1 O1]; [|done].
  apply (fee_step _ _ weth (Controller.feeRecipient (ModuleBase.controller (world s))) this) in Q2 as [B2 O2];
    [|exact Hp|intros m' Q; by apply wethTransfer_Ok].
  apply (fee_step _ _ weth (feeRecipient (settings s a)) this) in Q3 as [B3 O3];
    [|exact Hm|intros m' Q; by apply wethTransfer_Ok].
  exists m3. constructor; [done| |].
  - intros b Hb. by rewrite B3, B2, B1.
  - intros t b Ht. by rewrite O3, O2, O1.
Qed.

(** ** Issues *)

(** From the state [s1] after the hook to [s']: the token at [a] went from [c] to
    [c']. *)
Record nav_issued (payer a r to : Address) (minimum : Z) (i : ActionInfo) (s1 s' : state) (c c' : SetToken.contract)
    : Prop := {
  ni_info : _createIssuanceInfo this calculateSetTokenValuation decimals s1 a r (preFeeReserveQuantity i) = Ok i;
  ni_minimum : minSetTokenSupply (settings s1 a) <= totalSupply (SetToken.tokens c) /\ minimum <= setTokenQuantity i;
  ni_sets : ModuleBase.setTokens (world s') = <[ a := c' ]> (ModuleBase.setTokens (world s1));
  ni_controller : ModuleBase.controller (world s') = ModuleBase.controller (world s1);
  ni_positions : repositioned r i (SetToken.vars c) (SetToken.vars c');
  ni_supply : totalSupply (SetToken.tokens c') = totalSupply (SetToken.tokens c) + setTokenQuantity i;
  ni_balance b : balanceOf (SetToken.tokens c') b =
    balanceOf (SetToken.tokens c) b + if decide (b = to) then setTokenQuantity i else 0;
  ni_money : exists s2, collected payer a r i s1 s2 (money s');
  ni_settings : navIssuanceSettings s' = navIssuanceSettings s1 /\ isReserveAsset s' = isReserveAsset s1;
}.

Lemma issue_tail payer sender a r to minimum i s1 s2 m s3 g c : typed s1 ->
  ModuleBase.setTokens (world s1) !! a = Some c -> is_uint256 (preFeeReserveQuantity i) ->
  _createIssuanceInfo this calculateSetTokenValuation decimals s1 a r (preFeeReserveQuantity i) = Ok i ->
  _validateIssuanceInfo s1 a minimum i = Ok tt -> collected payer a r i s1 s2 m ->
  _handleIssueStateUpdates this sender a r to i s2 = Ok s3 ->
  exists c', nav_issued payer a r to minimum i s1 (set_status s3 g) c c'.
Proof.
  intros HT Hc Hq Qi Qv HC Q. destruct (createIssuanceInfo_Ok _ _ _ _ _ _ HT Hc Hq Qi) as (HA & _ & HN & _ & _).
  destruct (typed_token _ HT a c Hc) as [HI HS]. pose proof (col_state _ _ _ _ _ _ _ HC) as E. subst s2.
  unfold _handleIssueStateUpdates in Q. apply bind_Ok_inv in Q as (w & Qw & Q).
  apply bind_Ok_inv in Q as (w' & Qm & Q). apply Ok_inj in Q as <-. cbn [world set_money] in Qw.
  destruct (updatePositions_Ok _ _ _ _ _ _ _ HA Hc HI Qw) as (k' & HR & ->).
  apply ModuleBase.on_set_Ok in Qm as (c1 & c' & Hc1 & Qm & ->). cbn [ModuleBase.setTokens ModuleBase.controller] in *.
  rewrite lookup_insert_eq in Hc1. injection Hc1 as <-.
  unfold SetToken.mint in Qm. apply bind_Ok_inv in Qm as (u & _ & Qm). apply bind_Ok_inv in Qm as (l & Ql & Qm).
  apply Ok_inj in Qm as <-. apply mint_Ok in Ql as (_ & ES & EB). cbn [SetToken.tokens SetToken.vars] in *.
  unfold _validateIssuanceInfo in Qv. apply bind_Ok_inv in Qv as (u1 & Q1 & Q2).
  apply require_Ok_inv, Z.leb_le in Q1. apply require_Ok_inv, Z.leb_le in Q2.
  rewrite (action_previous _ _ HA) in Q1. exists (SetToken.mkContract k' l). constructor; cbn; try done.
  - by rewrite insert_insert_eq.
  - by exists (set_money s1 m).
Qed.

Lemma entering_Ok a body s s' : entering this a body s = Ok s' -> exists g s2,
  enter (status s) = Ok g /\ body (set_status s g) = Ok s2 /\ s' = set_status s2 (leave (status s2)).
Proof.
  intros Q. unfold entering in Q. apply bind_Ok_inv in Q as (g & Qg & Q). apply bind_Ok_inv in Q as (u & _ & Q).
  apply bind_Ok_inv in Q as (s2 & Q2 & Q). apply Ok_inj in Q as <-. by exists g, s2.
Qed.

Lemma createIssuanceInfo_quantity s a r q i :
  _createIssuanceInfo this calculateSetTokenValuation decimals s a r q = Ok i -> preFeeReserveQuantity i = q.
Proof.
  unfold _createIssuanceInfo. intros Q. apply bind_Ok_inv in Q as (k & _ & Q). apply bind_Ok_inv in Q as (f & _ & Q).
  apply bind_Ok_inv in Q as (n & _ & Q). apply bind_Ok_inv in Q as (nm & _ & Q). apply bind_Ok_inv in Q as (u & _ & Q).
  by apply Ok_inj in Q as <-.
Qed.

Lemma nav_issue_Ok `{PC : !PlainCoins} hook sender a r q minimum to s s' : is_uint256 q ->
  issue this calculateSetTokenValuation decimals hook sender a r q minimum to s = Ok s' ->
  0 < q /\ reserve s a r = true /\ exists g s1 i,
    _callPreIssueHooks hook a r q sender to (set_status s g) = Ok s1 /\ preFeeReserveQuantity i = q /\
    forall c, typed s1 -> ModuleBase.setTokens (world s1) !! a = Some c ->
      exists c', nav_issued sender a r to minimum i s1 s' c c'.
Proof.
  intros Hq Q. apply entering_Ok in Q as (g & s4 & _ & Q & ->). apply bind_Ok_inv in Q as (u & Qv & Q).
  unfold _validateCommon in Qv. apply bind_Ok_inv in Qv as (u1 & V1 & V2).
  apply require_Ok_inv, Z.ltb_lt in V1. apply require_Ok_inv in V2. split; [done|]. split; [exact V2|].
  apply bind_Ok_inv in Q as (s1 & Qh & Q). apply bind_Ok_inv in Q as (i & Qi & Q).
  apply bind_Ok_inv in Q as ([] & Qm & Q). apply bind_Ok_inv in Q as (s2 & Qc & Q).
  pose proof (createIssuanceInfo_quantity _ _ _ _ _ Qi) as Eq. exists g, s1, i. split; [exact Qh|]. split; [exact Eq|].
  intros c HT Hc. rewrite <- Eq in Qi, Hq. destruct (createIssuanceInfo_Ok _ _ _ _ _ _ HT Hc Hq Qi) as (HA & _).
  destruct (transferCollateral_Ok _ _ _ _ _ _ _ HA Qc) as [m HC]. by eapply issue_tail.
Qed.

Lemma issueWithEther_Ok hook sender v a minimum to s s' : is_uint256 v ->
  issueWithEther this calculateSetTokenValuation decimals hook sender v a minimum to s = Ok s' ->
  0 < v /\ reserve s a weth = true /\ exists g m s1 i,
    (forall t b, coin_balance m t b = coin_balance (money s) t b + if decide (t = weth /\ b = this) then v else 0) /\
    _callPreIssueHooks hook a weth v sender to (set_money (set_status s g) m) = Ok s1 /\ preFeeReserveQuantity i = v /\
    forall c, typed s1 -> ModuleBase.setTokens (world s1) !! a = Some c ->
      exists c', nav_issued this a weth to minimum i s1 s' c c'.
Proof.
  intros Hq Q. apply bind_Ok_inv in Q as (m0 & Qe & Q). apply entering_Ok in Q as (g & s4 & _ & Q & ->).
  apply bind_Ok_inv in Q as (m & Qd & Q). apply bind_Ok_inv in Q as (u & Qv & Q).
  unfold _validateCommon in Qv. apply bind_Ok_inv in Qv as (u1 & V1 & V2).
  apply require_Ok_inv, Z.ltb_lt in V1. apply require_Ok_inv in V2. split; [done|]. split; [exact V2|].
  apply bind_Ok_inv in Q as (s1 & Qh & Q). apply bind_Ok_inv in Q as (i & Qi & Q).
  apply bind_Ok_inv in Q as ([] & Qm & Q). apply bind_Ok_inv in Q as (s2 & Qc & Q).
  pose proof (createIssuanceInfo_quantity _ _ _ _ _ Qi) as Eq. exists g, m, s1, i. split.
  { intros t b. rewrite (deposit_law _ _ _ _ t b Hq Qd). cbn [money set_status set_money].
    by rewrite (sendEther_law _ _ _ _ _ _ _ Qe). }
  split; [exact Qh|]. split; [exact Eq|].
  intros c HT Hc. rewrite <- Eq in Qi, Hq. destruct (createIssuanceInfo_Ok _ _ _ _ _ _ HT Hc Hq Qi) as (HA & _).
  destruct (transferWETH_Ok _ _ _ _ _ HA Qc) as [m' HC]. by eapply issue_tail.
Qed.

(** ** Redemptions *)

(** A token whose positions and supply are as they were. *)
Definition quiet (a : Address) (c : SetToken.contract) (w w' : ModuleBase.chain) : Prop :=
  exists k', w' = ModuleBase.mkChain (ModuleBase.controller w)
                    (<[ a := SetToken.mkContract k' (SetToken.tokens c) ]> (ModuleBase.setTokens w)) /\
    SetToken.Inv k' /\ (forall d, SetToken.position k' d = SetToken.position (SetToken.vars c) d) /\
    SetToken.positionMultiplier k' = SetToken.positionMultiplier (SetToken.vars c).

Lemma quiet_refl a c w : ModuleBase.setTokens w !! a = Some c -> SetToken.Inv (SetToken.vars c) -> quiet a c w w.
Proof.
  intros Hc HI. exists (SetToken.vars c). split; [|done]. destruct w as [ctl sets], c as [k l]. cbn in *.
  by rewrite insert_id.
Qed.

Lemma quiet_invoked a c w0 w w' : quiet a c w0 w -> ModuleBase.invoked a w w' -> quiet a c w0 w'.
Proof.
  intros HQ [->|(c1 & e & Hc1 & ->)]; [done|]. destruct HQ as (k & -> & HI & HP & HM). cbn in *.
  rewrite lookup_insert_eq in Hc1. injection Hc1 as <-. exists (SetToken.emit k e). cbn.
  split; [by rewrite insert_insert_eq|]. split; [by apply SetToken.Inv_emit|]. by split.
Qed.

Record nav_redeemed (a r sender : Address) (minimum : Z) (i : ActionInfo) (s1 s' : state) (c c' : SetToken.contract)
    : Prop := {
  nr_info : _createRedemptionInfo this calculateSetTokenValuation decimals s1 a r (setTokenQuantity i) = Ok i;
  nr_minimum : minSetTokenSupply (settings s1 a) <= newSetTokenSupply i /\ minimum <= netFlowQuantity i;
  nr_sets b : ModuleBase.setTokens (world s') !! b =
    if decide (b = a) then Some c' else ModuleBase.setTokens (world s1) !! b;
  nr_controller : ModuleBase.controller (world s') = ModuleBase.controller (world s1);
  nr_inv : SetToken.Inv (SetToken.vars c');
  nr_multiplier : SetToken.positionMultiplier (SetToken.vars c') = newPositionMultiplier i /\ 0 < newPositionMultiplier i;
  nr_others d : d <> r -> SetToken.position (SetToken.vars c') d = SetToken.position (SetToken.vars c) d;
  nr_reserve : SetToken.virtualUnit (SetToken.position (SetToken.vars c') r) =
    newReservePositionUnit i * PRECISE_UNIT / newPositionMultiplier i;
  nr_supply : totalSupply (SetToken.tokens c') = totalSupply (SetToken.tokens c) - setTokenQuantity i;
  nr_balance b : balanceOf (SetToken.tokens c') b =
    balanceOf (SetToken.tokens c) b - if decide (b = sender) then setTokenQuantity i else 0;
  nr_enough : setTokenQuantity i <= balanceOf (SetToken.tokens c) sender;
  nr_money : coin_balance (money s') r a = coin_balance (money s1) r a - preFeeReserveQuantity i /\
    forall t b, t <> r -> coin_balance (money s') t b = coin_balance (money s1) t b;
  nr_settings : navIssuanceSettings s' = navIssuanceSettings s1 /\ isReserveAsset s' = isReserveAsset s1;
}.

(** A payment out of the token at [a]: [q] less of [r], and nothing else of the
    module, the controller or the token. *)
Record paidOut (a r : Address) (q : Z) (c : SetToken.contract) (w0 : ModuleBase.chain) (s s' : state) : Prop := {
  po_state : exists w m, s' = set_money (set_world s w []) m;
  po_quiet : quiet a c w0 (world s');
  po_reserve : coin_balance (money s') r a = coin_balance (money s) r a - q;
  po_others t b : t <> r -> coin_balance (money s') t b = coin_balance (money s) t b;
}.

Lemma payOut_Ok a r to q c w0 s s' : is_uint256 q -> quiet a c w0 (world s) -> payOut this a r to q s = Ok s' ->
  paidOut a r q c w0 s s'.
Proof.
  intros Hq HQ Q. unfold payOut in Q. apply bind_Ok_inv in Q as ([w m] & Q & E). apply Ok_inj in E as <-.
  apply ModuleBase.strictInvokeTransfer_Ok in Q as (HI & HB & HO); [|done].
  constructor; cbn; [by exists w, m|by eapply quiet_invoked|done|done].
Qed.

Lemma handleRedemptionFees_Ok a r i c c0 w0 s s' : action c0 i -> quiet a c w0 (world s) ->
  _handleRedemptionFees this a r i s = Ok s' -> paidOut a r (protocolFees i + managerFee i) c w0 s s'.
Proof.
  intros HA HQ Q. pose proof (action_protocol _ _ HA) as Hp. pose proof (action_manager _ _ HA) as Hm.
  unfold _handleRedemptionFees in Q. apply bind_Ok_inv in Q as ([w m] & Q1 & Q).
  apply ModuleBase.payProtocolFee_Ok in Q1 as (HI & HB & HO); [|done]. cbn [fst snd] in Q.
  set (s1 := set_money (set_world s w []) m) in *.
  assert (HQ1 : quiet a c w0 (world s1)) by (by eapply quiet_invoked).
  destruct (Z.ltb_spec 0 (managerFee i)) as [H0|H0].
  - apply (payOut_Ok _ _ _ _ c w0) in Q; [|done|done]. destruct Q as [(w' & m' & ->) HQ' HR HT]. constructor.
    + exists w', m'. unfold s1, set_money, set_world. cbn. by rewrite !app_nil_r.
    + done.
    + rewrite HR. cbn. lia.
    + intros t b Ht. rewrite HT by done. by apply HO.
  - apply Ok_inj in Q as <-. apply is_uint256_spec in Hm. constructor; [by exists w, m|done| |exact HO]. cbn. lia.
Qed.

Lemma burn_token_Ok a sender q s s2 c : ModuleBase.setTokens (world s) !! a = Some c -> burn this a sender q s = Ok s2 ->
  exists c1, s2 = set_world s (ModuleBase.mkChain (ModuleBase.controller (world s))
                                  (<[ a := c1 ]> (ModuleBase.setTokens (world s)))) [] /\
    SetToken.vars c1 = SetToken.vars c /\ q <= balanceOf (SetToken.tokens c) sender /\
    totalSupply (SetToken.tokens c1) = totalSupply (SetToken.tokens c) - q /\
    forall b, balanceOf (SetToken.tokens c1) b = balanceOf (SetToken.tokens c) b - if decide (b = sender) then q else 0.
Proof.
  intros Hc Q. unfold burn in Q. apply bind_Ok_inv in Q as (w & Qw & Q). apply Ok_inj in Q as <-.
  apply ModuleBase.on_set_Ok in Qw as (c0 & c1 & Hc0 & Qt & ->). rewrite Hc in Hc0. injection Hc0 as <-.
  unfold SetToken.burn in Qt. apply bind_Ok_inv in Qt as (u4 & _ & Qt). apply bind_Ok_inv in Qt as (lg & Ql & Qt).
  apply Ok_inj in Qt as <-. apply burn_Ok in Ql as (_ & HE & HS & HB). by eexists.
Qed.

Lemma redeem_tail a r sender to minimum i s1 s2 s3 s4 s5 g c c1 : typed s1 ->
  ModuleBase.setTokens (world s1) !! a = Some c -> is_uint256 (setTokenQuantity i) ->
  _createRedemptionInfo this calculateSetTokenValuation decimals s1 a r (setTokenQuantity i) = Ok i ->
  _validateRedemptionInfo s1 a minimum i = Ok tt -> burn this a sender (setTokenQuantity i) s1 = Ok s2 ->
  ModuleBase.setTokens (world s2) !! a = Some c1 -> paidOut a r (netFlowQuantity i) c1 (world s2) s2 s3 ->
  _handleRedemptionFees this a r i s3 = Ok s4 -> _handleRedeemStateUpdates this sender a r to i s4 = Ok s5 ->
  exists c', nav_redeemed a r sender minimum i s1 (set_status s5 g) c c'.
Proof.
  intros HT Hc Hq Qi Qv Qb Hc1 HP Qf Qu.
  destruct (createRedemptionInfo_Ok _ _ _ _ _ _ HT Hc Hq Qi) as (HA & _ & HN & _ & _).
  destruct (typed_token _ HT a c Hc) as [HI HS].
  destruct (burn_token_Ok _ _ _ _ _ _ Hc Qb) as (c1' & E2 & EV & HE & ES & EB).
  assert (c1' = c1) as -> by (rewrite E2 in Hc1; cbn in Hc1; rewrite lookup_insert_eq in Hc1; by injection Hc1).
  destruct HP as [(w3 & m3 & E3) HQ3 HR3 HO3]. apply (handleRedemptionFees_Ok _ _ _ c1 c (world s2)) in Qf; [|exact HA|exact HQ3].
  destruct Qf as [(w4 & m4 & E4) HQ4 HR4 HO4].
  unfold _handleRedeemStateUpdates in Qu. apply bind_Ok_inv in Qu as (w & Qw & Qu). apply Ok_inj in Qu as <-.
  destruct HQ4 as (k4 & Ew4 & HI4 & HP4 & HM4).
  assert (Hc4 : ModuleBase.setTokens (world s4) !! a = Some (SetToken.mkContract k4 (SetToken.tokens c1)))
    by (rewrite Ew4; apply lookup_insert_eq).
  destruct (updatePositions_Ok _ _ _ _ _ _ _ HA Hc4 HI4 Qw) as (k' & [R1 R2 R3 R4 R5] & ->).
  unfold _validateRedemptionInfo in Qv. apply bind_Ok_inv in Qv as (u1 & Q1 & Q2).
  apply require_Ok_inv, Z.leb_le in Q1. apply require_Ok_inv, Z.leb_le in Q2.
  exists (SetToken.mkContract k' (SetToken.tokens c1)).
  constructor; cbn [world set_world set_status money SetToken.vars SetToken.tokens ModuleBase.setTokens ModuleBase.controller];
    try done.
  - intros b. rewrite Ew4, E2. cbn. case_decide as D; [subst; by rewrite lookup_insert_eq|].
    by rewrite !lookup_insert_ne by congruence.
  - by rewrite Ew4, E2.
  - intros d Hd. by rewrite R4, HP4, EV.
  - rewrite HR4, HR3, E2. cbn. pose proof (action_fees _ _ HA). split; [lia|]. intros t b Ht. by rewrite HO4, HO3, E2.
  - by rewrite E4, E3, E2.
Qed.

Lemma createRedemptionInfo_quantity s a r q i :
  _createRedemptionInfo this calculateSetTokenValuation decimals s a r q = Ok i -> setTokenQuantity i = q.
Proof.
  unfold _createRedemptionInfo. intros Q. apply bind_Ok_inv in Q as (pre & _ & Q). apply bind_Ok_inv in Q as (f & _ & Q).
  apply bind_Ok_inv in Q as (k & _ & Q). apply bind_Ok_inv in Q as (nm & _ & Q). apply bind_Ok_inv in Q as (u & _ & Q).
  by apply Ok_inj in Q as <-.
Qed.

(** The state after a burn is quiet on the burnt token. *)
Lemma burn_quiet a sender q s s2 c : typed s -> ModuleBase.setTokens (world s) !! a = Some c ->
  burn this a sender q s = Ok s2 -> exists c1, ModuleBase.setTokens (world s2) !! a = Some c1 /\ quiet a c1 (world s2) (world s2).
Proof.
  intros HT Hc Q. destruct (typed_token _ HT a c Hc) as [HI _].
  destruct (burn_token_Ok _ _ _ _ _ _ Hc Q) as (c1 & -> & EV & _). exists c1. cbn.
  rewrite lookup_insert_eq. split; [done|]. apply quiet_refl; cbn; [apply lookup_insert_eq|by rewrite EV].
Qed.

Lemma nav_redeem_Ok hook sender a r q minimum to s s' : is_uint256 q ->
  redeem this calculateSetTokenValuation decimals hook sender a r q minimum to s = Ok s' ->
  0 < q /\ reserve s a r = true /\ exists g s1 i,
    _callPreRedeemHooks hook a q sender to (set_status s g) = Ok s1 /\ setTokenQuantity i = q /\
    forall c, typed s1 -> ModuleBase.setTokens (world s1) !! a = Some c ->
      exists c', nav_redeemed a r sender minimum i s1 s' c c'.
Proof.
  intros Hq Q. apply entering_Ok in Q as (g & s6 & _ & Q & ->). apply bind_Ok_inv in Q as (u & Qv & Q).
  unfold _validateCommon in Qv. apply bind_Ok_inv in Qv as (u1 & V1 & V2).
  apply require_Ok_inv, Z.ltb_lt in V1. apply require_Ok_inv in V2. split; [done|]. split; [exact V2|].
  apply bind_Ok_inv in Q as (s1 & Qh & Q). apply bind_Ok_inv in Q as (i & Qi & Q).
  apply bind_Ok_inv in Q as ([] & Qm & Q). apply bind_Ok_inv in Q as (s2 & Qb & Q).
  apply bind_Ok_inv in Q as (s3 & Qp & Q). apply bind_Ok_inv in Q as (s4 & Qf & Q).
  pose proof (createRedemptionInfo_quantity _ _ _ _ _ Qi) as Eq. exists g, s1, i. split; [exact Qh|]. split; [exact Eq|].
  intros c HT Hc. rewrite <- Eq in Qi, Hq, Qb. destruct (createRedemptionInfo_Ok _ _ _ _ _ _ HT Hc Hq Qi) as (HA & _).
  destruct (burn_quiet _ _ _ _ _ _ HT Hc Qb) as (c1 & Hc1 & HQ1).
  apply (payOut_Ok _ _ _ _ c1 (world s2)) in Qp; [|apply (action_net _ _ HA)|exact HQ1]. by eapply redeem_tail.
Qed.

Lemma redeemIntoEther_Ok hook sender a q minimum to s s' : is_uint256 q -> a <> this ->
  redeemIntoEther this calculateSetTokenValuation decimals hook sender a q minimum to s = Ok s' ->
  0 < q /\ reserve s a weth = true /\ exists g s1 i,
    _callPreRedeemHooks hook a q sender to (set_status s g) = Ok s1 /\ setTokenQuantity i = q /\
    forall c, typed s1 -> ModuleBase.setTokens (world s1) !! a = Some c ->
      exists c', nav_redeemed a weth sender minimum i s1 s' c c'.
Proof.
  intros Hq Ha Q. apply entering_Ok in Q as (g & s6 & _ & Q & ->). apply bind_Ok_inv in Q as (u & Qv & Q).
  unfold _validateCommon in Qv. apply bind_Ok_inv in Qv as (u1 & V1 & V2).
  apply require_Ok_inv, Z.ltb_lt in V1. apply require_Ok_inv in V2. split; [done|]. split; [exact V2|].
  apply bind_Ok_inv in Q as (s1 & Qh & Q). apply bind_Ok_inv in Q as (i & Qi & Q).
  apply bind_Ok_inv in Q as ([] & Qm & Q). apply bind_Ok_inv in Q as (s2 & Qb & Q).
  apply bind_Ok_inv in Q as (s3 & Qp & Q). apply bind_Ok_inv in Q as (m & Qw & Q).
  apply bind_Ok_inv in Q as (m' & Qs & Q). apply bind_Ok_inv in Q as (s4 & Qf & Q).
  pose proof (createRedemptionInfo_quantity _ _ _ _ _ Qi) as Eq. exists g, s1, i. split; [exact Qh|]. split; [exact Eq|].
  intros c HT Hc. rewrite <- Eq in Qi, Hq, Qb. destruct (createRedemptionInfo_Ok _ _ _ _ _ _ HT Hc Hq Qi) as (HA & _).
  destruct (burn_quiet _ _ _ _ _ _ HT Hc Qb) as (c1 & Hc1 & HQ1). pose proof (action_net _ _ HA) as Hn.
  apply (payOut_Ok _ _ _ _ c1 (world s2)) in Qp; [|exact Hn|exact HQ1].
  assert (HM : forall t b, coin_balance m' t b =
    coin_balance (money s3) t b - if decide (t = weth /\ b = this) then netFlowQuantity i else 0).
  { intros t b. by rewrite (sendEther_law _ _ _ _ _ _ _ Qs), (withdraw_law _ _ _ _ t b Hn Qw). }
  assert (HP : paidOut a weth (netFlowQuantity i) c1 (world s2) s2 (set_money s3 m')).
  { destruct Qp as [(w3 & m3 & ->) HQ3 HR3 HO3]. constructor; [by exists w3, m'|exact HQ3| |].
    - cbn [money set_money]. rewrite HM, HR3. rewrite decide_False by naive_solver. lia.
    - intros t b Ht. cbn [money set_money]. rewrite HM, HO3 by done. rewrite decide_False by naive_solver. lia. }
  by eapply redeem_tail.
Qed.

End Facts.

(** ** Coverage

    A token is covered when the virtual units of its positions, times the
    multiplier and the supply, are what it holds at least. In virtual units no
    rounding is lost when the multiplier changes. *)

Definition covered_by (k : SetToken.state) (supply : Z) (bal : Address -> Z) : Prop :=
  forall x, SetToken.virtualUnit (SetToken.position k x) * SetToken.positionMultiplier k * supply
    <= bal x * (PRECISE_UNIT * PRECISE_UNIT).

Lemma scaled_claim v m S S' B : 0 < m -> 0 <= S -> 0 < S' -> 0 <= B -> v * m * S <= B -> v * (m * S / S') * S' <= B.
Proof.
  intros Hm HS HS' HB H. pose proof (floor_bounds (m * S) S' HS') as [HF _].
  assert (0 <= m * S / S') by (apply Z.div_pos; nia). set (m' := m * S / S') in *.
  destruct (Z.le_gt_cases 0 v) as [Hv|Hv]; [|nia].
  pose proof (Z.mul_le_mono_nonneg_l _ _ v Hv HF). lia.
Qed.

Lemma tracked_claim v m S u bal : 0 <= S -> u = v * m / PRECISE_UNIT ->
  v * m * S <= bal * (PRECISE_UNIT * PRECISE_UNIT) -> u * S / PRECISE_UNIT <= bal.
Proof.
  intros HS -> H. pose proof PRECISE_UNIT_pos as HU. pose proof (floor_bounds (v * m) PRECISE_UNIT HU) as [HF _].
  set (u := v * m / PRECISE_UNIT) in *. pose proof (Z.mul_le_mono_nonneg_r _ _ S HS HF).
  apply Z.div_le_upper_bound; [done|]. apply (Z.mul_le_mono_pos_r _ _ PRECISE_UNIT HU). lia.
Qed.

Lemma reserve_claim u m T S bal : 0 < m -> 0 < S -> u = T * PRECISE_UNIT / S -> T <= bal ->
  u * PRECISE_UNIT / m * m * S <= bal * (PRECISE_UNIT * PRECISE_UNIT).
Proof.
  intros Hm HS -> HT. pose proof PRECISE_UNIT_pos as HU.
  pose proof (floor_bounds (T * PRECISE_UNIT) S HS) as [HF _]. set (u := T * PRECISE_UNIT / S) in *.
  pose proof (floor_bounds (u * PRECISE_UNIT) m Hm) as [HG _]. set (v := u * PRECISE_UNIT / m) in *.
  apply (Z.mul_le_mono_nonneg_r _ _ S) in HG; [|lia]. apply (Z.mul_le_mono_nonneg_r _ _ PRECISE_UNIT) in HF; [|lia].
  pose proof (Z.mul_le_mono_nonneg_r _ _ (PRECISE_UNIT * PRECISE_UNIT) ltac:(lia) HT). lia.
Qed.

(** The token after an action on the reserve asset [r], of which it holds [net]
    more ([net] is negative for a redemption). *)
Lemma covered_action `{OZ : OpenZeppelin} r i k k' (bal bal' : Address -> Z) supply net u :
  SetToken.Inv k -> 0 <= supply -> (forall x, 0 <= bal x) -> covered_by k supply bal ->
  0 < newSetTokenSupply i -> 0 < newPositionMultiplier i ->
  newPositionMultiplier i = SetToken.positionMultiplier k * supply / newSetTokenSupply i ->
  SetToken.positionMultiplier k' = newPositionMultiplier i ->
  (forall d, d <> r -> SetToken.position k' d = SetToken.position k d) ->
  SetToken.virtualUnit (SetToken.position k' r) = newReservePositionUnit i * PRECISE_UNIT / newPositionMultiplier i ->
  reserve_unit k r u ->
  newReservePositionUnit i = (u * supply / PRECISE_UNIT + net) * PRECISE_UNIT / newSetTokenSupply i ->
  bal r + net <= bal' r -> (forall x, x <> r -> bal' x = bal x) ->
  covered_by k' (newSetTokenSupply i) bal'.
Proof.
  intros HI HS HB HC Hn Hm Em EM EO ER (_ & _ & _ & Eu) EU Hr Ho x. pose proof PRECISE_UNIT_pos as HU.
  rewrite EM. destruct (decide (x = r)) as [->|D].
  - rewrite ER. eapply reserve_claim; [done|done|exact EU|].
    pose proof (tracked_claim _ _ _ u (bal r) HS Eu (HC r)). lia.
  - rewrite EO, Ho, Em by done. pose proof (HB x). apply scaled_claim; [apply (SetToken.inv_multiplier _ HI)|done|done| |apply HC].
    nia.
Qed.

(** ** Rounding of a redemption

    The reserve that is paid, by the contract and by the TypeScript helper: both
    within two units of the exact amount. *)

Lemma minus_ceil x p : x - cdiv (x * p) PRECISE_UNIT = x * (PRECISE_UNIT - p) / PRECISE_UNIT.
Proof.
  pose proof PRECISE_UNIT_pos as HU. pose proof (cdiv_bounds (x * p) PRECISE_UNIT HU).
  apply Z.div_unique_pos with (r := cdiv (x * p) PRECISE_UNIT * PRECISE_UNIT - x * p); lia.
Qed.

Section Rounding.
Context (U V b k f : Z) (HU : 0 < U) (HV : 0 <= V) (Hb : 0 <= b <= U) (Hk : 0 <= k <= U) (Hf : 0 <= f <= U).

Lemma contract_bracket X Y C : X * U <= V * b < (X + 1) * U -> Y * U <= X * k < (Y + 1) * U ->
  Y * f <= C * U < Y * f + 2 * U ->
  V * b * k * f - 2 * (U * U * U) <= C * (U * U * U) < V * b * k * f + 2 * (U * U * U).
Proof.
  intros HX HY HC.
  assert (HKF : 0 <= k * f <= U * U) by nia.
  assert (H1 : V * b * (k * f) <= (X + 1) * U * (k * f)) by (apply Z.mul_le_mono_nonneg_r; lia).
  assert (H2 : X * U * (k * f) <= V * b * (k * f)) by (apply Z.mul_le_mono_nonneg_r; lia).
  assert (HUF : 0 <= U * f <= U * U) by nia.
  assert (H3 : X * k * (U * f) <= (Y + 1) * U * (U * f)) by (apply Z.mul_le_mono_nonneg_r; lia).
  assert (H4 : Y * U * (U * f) <= X * k * (U * f)) by (apply Z.mul_le_mono_nonneg_r; lia).
  assert (H5 : Y * f * (U * U) <= C * U * (U * U)) by (apply Z.mul_le_mono_nonneg_r; nia).
  assert (H6 : C * U * (U * U) < (Y * f + 2 * U) * (U * U)) by (apply Z.mul_lt_mono_pos_r; nia).
  assert (H7 : U * (k * f) <= U * (U * U)) by (apply Z.mul_le_mono_nonneg_l; lia).
  assert (H8 : U * (U * f) <= U * (U * U)) by (apply Z.mul_le_mono_nonneg_l; lia). lia.
Qed.

Lemma helper_bracket Z' W T : Z' * U <= V * k < (Z' + 1) * U -> Z' * f <= W * U < Z' * f + 2 * U ->
  T * U <= W * b < (T + 1) * U ->
  V * b * k * f - 2 * (U * U * U) < T * (U * U * U) < V * b * k * f + 2 * (U * U * U).
Proof.
  intros HZ HW HT. set (fb := f * b). assert (HFB : 0 <= fb <= U * U) by (unfold fb; nia).
  assert (H1 : V * k * fb <= (Z' + 1) * U * fb) by (apply Z.mul_le_mono_nonneg_r; lia).
  assert (H2 : Z' * U * fb <= V * k * fb) by (apply Z.mul_le_mono_nonneg_r; lia).
  assert (HBU : 0 <= b * U <= U * U) by nia.
  assert (H3 : Z' * f * (b * U) <= W * U * (b * U)) by (apply Z.mul_le_mono_nonneg_r; lia).
  assert (H4 : b = 0 \/ W * U * (b * U) < (Z' * f + 2 * U) * (b * U)).
  { destruct (decide (b = 0)) as [|D]; [by left|]. right. apply Z.mul_lt_mono_pos_r; [|lia]. nia. }
  assert (H5 : T * U * (U * U) <= W * b * (U * U)) by (apply Z.mul_le_mono_nonneg_r; nia).
  assert (H6 : W * b * (U * U) < (T + 1) * U * (U * U)) by (apply Z.mul_lt_mono_pos_r; nia).
  assert (H7 : U * fb <= U * (U * U)) by (apply Z.mul_le_mono_nonneg_l; lia).
  assert (H8 : U * (b * U) <= U * (U * U)) by (apply Z.mul_le_mono_nonneg_l; lia). unfold fb in *.
  destruct H4 as [->|H4]; [nia|lia].
Qed.

End Rounding.

(** ** Theorems *)

Section Theorems.
Context `{OZ : OpenZeppelin} `{ET : ERC20} `{RG : ReentrancyGuard} `{WE : WETH} `{PC : !PlainCoins} `{BN : BigNumber}.
Context (this : Address) (decimals : Address -> result Z).
Context (issueHook : Address -> Address -> Address -> Z -> Address -> Address -> state -> result state).
Context (redeemHook : Address -> Address -> Z -> Address -> Address -> state -> result state).

(** What valuers answer fits the type; it may change from call to call. *)
Definition typed_valuer (v : Address -> Address -> Address -> ModuleBase.chain -> result Z) : Prop :=
  forall a b q w x, v a b q w = Ok x -> is_uint256 x.

Definition covered (a : Address) (s : state) : Prop :=
  exists c, ModuleBase.setTokens (world s) !! a = Some c /\ SetToken.Inv (SetToken.vars c) /\
    0 <= totalSupply (SetToken.tokens c) /\
    covered_by (SetToken.vars c) (totalSupply (SetToken.tokens c)) (fun x => coin_balance (money s) x a).

(** Calls that issue or redeem the token at [a], with amounts of the type, or that
    change settings. *)
Definition call_about (a sender : Address) (c : Call) : Prop :=
  match c with
  | Issue b _ q _ _ => b = a /\ sender <> a /\ is_uint256 q
  | IssueWithEther v b _ _ => b = a /\ is_uint256 v
  | Redeem b _ q _ _ | RedeemIntoEther b q _ _ => b = a /\ is_uint256 q
  | _ => True
  end.

(** What happens outside of the module and takes nothing from the token. *)
Definition harmless (a : Address) (s s' : state) : Prop :=
  forall c, ModuleBase.setTokens (world s) !! a = Some c -> SetToken.Inv (SetToken.vars c) ->
    exists c', ModuleBase.setTokens (world s') !! a = Some c' /\ SetToken.Inv (SetToken.vars c') /\
      (forall d, SetToken.position (SetToken.vars c') d = SetToken.position (SetToken.vars c) d) /\
      SetToken.positionMultiplier (SetToken.vars c') = SetToken.positionMultiplier (SetToken.vars c) /\
      totalSupply (SetToken.tokens c') = totalSupply (SetToken.tokens c) /\
      forall x, coin_balance (money s) x a <= coin_balance (money s') x a.

Inductive nav_flow (a : Address) : state -> state -> Prop :=
  | flow_call v sender c s s' : typed_valuer v -> typed this s -> call_about a sender c ->
      exec this v decimals issueHook redeemHook sender c s = Ok s' -> nav_flow a s s'
  | flow_outside s s' : harmless a s s' -> nav_flow a s s'.

Lemma covered_harmless a s s' : harmless a s s' -> covered a s -> covered a s'.
Proof.
  intros HH (c & Hc & HI & HS & HC). destruct (HH c Hc HI) as (c' & Hc' & HI' & HP & HM & ES & HB).
  exists c'. split; [done|]. split; [done|]. rewrite ES. split; [done|]. intros x. rewrite HP, HM.
  eapply Z.le_trans; [exact (HC x)|]. apply Z.mul_le_mono_nonneg_r; [|apply HB]. pose proof PRECISE_UNIT_pos. lia.
Qed.

(** Hooks may do what keeps the token covered and the state typed. *)
Definition good_hooks (a : Address) : Prop :=
  (forall h r q sender to s s', typed this s /\ covered a s -> issueHook h a r q sender to s = Ok s' ->
     typed this s' /\ covered a s') /\
  (forall h q sender to s s', typed this s /\ covered a s -> redeemHook h a q sender to s = Ok s' ->
     typed this s' /\ covered a s').

Lemma good_issue_hook a r q sender to s s' : good_hooks a -> typed this s -> covered a s ->
  _callPreIssueHooks issueHook a r q sender to s = Ok s' -> typed this s' /\ covered a s'.
Proof.
  intros [HH _] HT HC Q. unfold _callPreIssueHooks in Q. destruct (negb _); [by eapply HH|by apply Ok_inj in Q as <-].
Qed.

Lemma good_redeem_hook a q sender to s s' : good_hooks a -> typed this s -> covered a s ->
  _callPreRedeemHooks redeemHook a q sender to s = Ok s' -> typed this s' /\ covered a s'.
Proof.
  intros [_ HH] HT HC Q. unfold _callPreRedeemHooks in Q. destruct (negb _); [by eapply HH|by apply Ok_inj in Q as <-].
Qed.

Lemma balance_nonneg m t b : 0 <= coin_balance m t b.
Proof. pose proof (coin_balance_law m t b) as H%is_uint256_spec. lia. Qed.

(** An issue keeps the token covered. *)
Lemma covered_issued v payer a r to minimum i s1 s' : typed_valuer v -> typed this s1 -> covered a s1 -> payer <> a ->
  is_uint256 (preFeeReserveQuantity i) ->
  (forall c, ModuleBase.setTokens (world s1) !! a = Some c ->
     exists c', nav_issued this v decimals payer a r to minimum i s1 s' c c') -> covered a s'.
Proof.
  intros HV HT (c & Hc & HI & HS & HC) Hp Hq HN. destruct (HN c Hc) as (c' & [Qi _ Es _ [R1 R2 R3 R4 R5] ET' _ Hm _]).
  destruct (createIssuanceInfo_Ok this v decimals HV s1 a r _ i c HT Hc Hq Qi) as (HA & _ & EN & _ & u & Hu & EU).
  destruct Hm as [s2 [_ HB HO]]. exists c'. rewrite Es, lookup_insert_eq. split; [done|]. split; [done|].
  rewrite ET', <- EN. pose proof (action_new _ _ HA) as Hn. split; [lia|].
  pose proof (action_protocol _ _ HA) as U1%is_uint256_spec. pose proof (action_manager _ _ HA) as U2%is_uint256_spec.
  eapply (covered_action r i (SetToken.vars c) _ (fun x => coin_balance (money s1) x a));
    [done|done|intros x; apply balance_nonneg|exact HC|done|done| |done|done|done|exact Hu|exact EU| |].
  - by rewrite (action_multiplier _ _ HA), (action_previous _ _ HA).
  - cbn beta. rewrite HB by done. rewrite decide_True by done. repeat case_decide; lia.
  - intros x Hx. cbn beta. by apply HO.
Qed.

Lemma covered_redeemed v a r sender minimum i s1 s' : typed_valuer v -> typed this s1 -> covered a s1 ->
  is_uint256 (setTokenQuantity i) ->
  (forall c, ModuleBase.setTokens (world s1) !! a = Some c ->
     exists c', nav_redeemed this v decimals a r sender minimum i s1 s' c c') -> covered a s'.
Proof.
  intros HV HT (c & Hc & HI & HS & HC) Hq HN.
  destruct (HN c Hc) as (c' & [Qi _ Es _ HI' [EM HM] EO ER ET' _ _ [HB HO] _]).
  destruct (createRedemptionInfo_Ok this v decimals HV s1 a r _ i c HT Hc Hq Qi) as (HA & _ & EN & _ & u & Hu & Hle & EU).
  exists c'. rewrite Es, decide_True by done. split; [done|]. split; [done|].
  rewrite ET', <- EN. pose proof (action_new _ _ HA) as Hn. split; [lia|].
  eapply (covered_action r i (SetToken.vars c) _ (fun x => coin_balance (money s1) x a) _ _ (- preFeeReserveQuantity i));
    [done|done|intros x; apply balance_nonneg|exact HC|done|done| |done|done|done|exact Hu| | |].
  - by rewrite (action_multiplier _ _ HA), (action_previous _ _ HA).
  - exact EU.
  - cbn beta. rewrite HB. lia.
  - intros x Hx. cbn beta. by apply HO.
Qed.

Definition is_flow (c : Call) : bool :=
  match c with Issue _ _ _ _ _ | IssueWithEther _ _ _ _ | Redeem _ _ _ _ _ | RedeemIntoEther _ _ _ _ => true | _ => false end.

Lemma harmless_same a s s' : world s' = world s -> money s' = money s -> harmless a s s'.
Proof. intros EW EM c Hc HI. rewrite EW, EM. by exists c. Qed.

Lemma settings_harmless v sender c s s' a : is_flow c = false ->
  exec this v decimals issueHook redeemHook sender c s = Ok s' -> harmless a s s'.
Proof.
  intros Hf Q. destruct c; cbn [is_flow] in Hf; try discriminate Hf; cbn [exec] in Q.
  - unfold addReserveAsset in Q. inv_result. by apply harmless_same.
  - unfold removeReserveAsset in Q. inv_result. by apply harmless_same.
  - unfold editPremium in Q. inv_result. by apply harmless_same.
  - unfold editManagerFee in Q. inv_result. by apply harmless_same.
  - unfold editFeeRecipient in Q. inv_result. by apply harmless_same.
  - unfold initialize in Q. do 11 apply bind_Ok_inv in Q as (? & _ & Q). apply bind_Ok_inv in Q as (w & Qw & Q).
    apply Ok_inj in Q as <-. intros c Hc HI. cbn [world set_settings] in Qw.
    apply ModuleBase.on_set_Ok in Qw as (c0 & c' & Hc0 & Qt & ->). cbn [world set_world ModuleBase.setTokens money set_settings].
    destruct (decide (_setToken = a)) as [->|D]; [|exists c; by rewrite lookup_insert_ne].
    rewrite Hc in Hc0. injection Hc0 as <-. apply bind_Ok_inv in Qt as (k & Qk & E). apply Ok_inj in E as <-.
    exists (SetToken.mkContract k (SetToken.tokens c)). rewrite lookup_insert_eq. split; [done|].
    split; [by eapply SetToken.Inv_initializeModule|]. unfold SetToken.initializeModule in Qk. by inv_result.
  - apply Ok_inj in Q as <-. by apply harmless_same.
Qed.

Lemma flow_covered a s s' : a <> this -> good_hooks a -> nav_flow a s s' -> covered a s -> covered a s'.
Proof.
  intros Ha HH H HC. destruct H as [v sender c s s' HV HT HA Q|s s' H]; [|by eapply covered_harmless].
  assert (HTm : forall g m, typed this (set_money (set_status s g) m)) by (intros; by destruct HT).
  assert (HTs : forall g, typed this (set_status s g)) by (intros; by destruct HT).
  destruct (is_flow c) eqn:Ef; [|exact (covered_harmless a s s' (settings_harmless v sender c s s' a Ef Q) HC)].
  destruct c as [b r q mn to|q b mn to|b r q mn to|b q mn to| | | | | | |]; try discriminate Ef; cbn [call_about exec] in HA, Q.
  - destruct HA as (-> & Hs & Hq). apply nav_issue_Ok in Q as (_ & _ & g & s1 & i & Qh & Eq & HN); [|done..].
    apply good_issue_hook in Qh as [HT1 HC1]; [|done|by apply HTs|exact HC].
    eapply (covered_issued v sender); [done|done|done|done|by rewrite Eq|]. intros c Hc. by apply HN.
  - destruct HA as (-> & Hq). apply issueWithEther_Ok in Q as (_ & _ & g & m & s1 & i & HM & Qh & Eq & HN); [|done..].
    apply good_issue_hook in Qh as [HT1 HC1]; [|done|by apply HTm|].
    + eapply (covered_issued v this); [done|done|done|done|by rewrite Eq|]. intros c Hc. by apply HN.
    + destruct HC as (c & Hc & HI & HS & HC). exists c. split; [exact Hc|]. split; [done|]. split; [done|].
      intros x. cbn [money set_money]. rewrite HM, decide_False by naive_solver. rewrite Z.add_0_r. apply HC.
  - destruct HA as (-> & Hq). apply nav_redeem_Ok in Q as (_ & _ & g & s1 & i & Qh & Eq & HN); [|done..].
    apply good_redeem_hook in Qh as [HT1 HC1]; [|done|by apply HTs|exact HC].
    eapply (covered_redeemed v); [done|done|done|by rewrite Eq|]. intros c Hc. by apply HN.
  - destruct HA as (-> & Hq). apply redeemIntoEther_Ok in Q as (_ & _ & g & s1 & i & Qh & Eq & HN); [|done..].
    apply good_redeem_hook in Qh as [HT1 HC1]; [|done|by apply HTs|exact HC].
    eapply (covered_redeemed v); [done|done|done|by rewrite Eq|]. intros c Hc. by apply HN.
Qed.

(** C7: Issuing and redeeming at net asset value keeps a token covered. Start from a
    token whose virtual units, times multiplier and supply, it holds. After any
    issues and redemptions for any of its reserve assets, with or without ether, by
    anyone but itself, at whatever its valuers answer and with whatever hooks do
    that keeps it covered, mixed with changes of settings and with anything outside
    that takes nothing from it: it holds the unit of every component for every
    token of its supply. *)
Theorem nav_keeps_covered a s s' : a <> this -> good_hooks a -> covered a s -> rtc (nav_flow a) s s' ->
  exists c, ModuleBase.setTokens (world s') !! a = Some c /\ SetToken.Inv (SetToken.vars c) /\
    forall x u, SetToken.getDefaultPositionRealUnit (SetToken.vars c) x = Ok u ->
      u * totalSupply (SetToken.tokens c) <= coin_balance (money s') x a * PRECISE_UNIT.
Proof.
  intros Ha HH HC H. assert (HC' : covered a s').
  { revert HC. induction H as [s|s s1 s2 Hs _ IH]; [done|]. intros HC. by eapply IH, flow_covered. }
  destruct HC' as (c & Hc & HI & HS & HC'). exists c. split; [done|]. split; [done|]. intros x u Q.
  apply conservativePreciseMul_Ok in Q as (-> & _); [|apply (SetToken.inv_units _ HI)|apply (SetToken.inv_multiplier_int _ HI)].
  pose proof PRECISE_UNIT_pos as HU. specialize (HC' x). cbn beta in HC'.
  pose proof (floor_bounds (SetToken.virtualUnit (SetToken.position (SetToken.vars c) x) *
    SetToken.positionMultiplier (SetToken.vars c)) PRECISE_UNIT HU) as [HF _].
  apply (Z.mul_le_mono_nonneg_r _ _ _ HS) in HF. apply (Z.mul_le_mono_pos_r _ _ PRECISE_UNIT HU). lia.
Qed.

(** Without a hook the state that is acted on is the one of the call. *)
Lemma no_issue_hook a r q sender to s s1 : managerIssuanceHook (settings s a) = ADDRESS_ZERO ->
  _callPreIssueHooks issueHook a r q sender to s = Ok s1 -> s1 = s.
Proof.
  intros Hh Q. unfold _callPreIssueHooks in Q. rewrite Hh, bool_decide_eq_true_2 in Q by done. by apply Ok_inj in Q.
Qed.

Lemma no_redeem_hook a q sender to s s1 : managerRedemptionHook (settings s a) = ADDRESS_ZERO ->
  _callPreRedeemHooks redeemHook a q sender to s = Ok s1 -> s1 = s.
Proof.
  intros Hh Q. unfold _callPreRedeemHooks in Q. rewrite Hh, bool_decide_eq_true_2 in Q by done. by apply Ok_inj in Q.
Qed.

Lemma issue_plain v sender a r q minimum to s s' c : typed_valuer v -> typed this s -> is_uint256 q ->
  ModuleBase.setTokens (world s) !! a = Some c -> managerIssuanceHook (settings s a) = ADDRESS_ZERO ->
  issue this v decimals issueHook sender a r q minimum to s = Ok s' ->
  0 < q /\ reserve s a r = true /\ exists g i c', typed this (set_status s g) /\
    nav_issued this v decimals sender a r to minimum i (set_status s g) s' c c' /\ preFeeReserveQuantity i = q.
Proof.
  intros HV HT Hq Hc Hh Q. apply nav_issue_Ok in Q as (H0 & Hr & g & s1 & i & Qh & Eq & HN); [|done..].
  apply no_issue_hook in Qh as ->; [|exact Hh]. split; [done|]. split; [done|].
  assert (HT1 : typed this (set_status s g)) by (by destruct HT). destruct (HN c HT1 Hc) as [c' HC]. by exists g, i, c'.
Qed.

Lemma redeem_plain v sender a r q minimum to s s' c : typed_valuer v -> typed this s -> is_uint256 q ->
  ModuleBase.setTokens (world s) !! a = Some c -> managerRedemptionHook (settings s a) = ADDRESS_ZERO ->
  redeem this v decimals redeemHook sender a r q minimum to s = Ok s' ->
  0 < q /\ reserve s a r = true /\ exists g i c', typed this (set_status s g) /\
    nav_redeemed this v decimals a r sender minimum i (set_status s g) s' c c' /\ setTokenQuantity i = q.
Proof.
  intros HV HT Hq Hc Hh Q. apply nav_redeem_Ok in Q as (H0 & Hr & g & s1 & i & Qh & Eq & HN); [|done..].
  apply no_redeem_hook in Qh as ->; [|exact Hh]. split; [done|]. split; [done|].
  assert (HT1 : typed this (set_status s g)) by (by destruct HT). destruct (HN c HT1 Hc) as [c' HC]. by exists g, i, c'.
Qed.

(** What TypeScript expects of an issue: the minted quantity is what
    [getExpectedSetTokenIssueQuantity] returns, and the net flow what
    [getExpectedPostFeeQuantity] returns. *)
Definition expected_issue (prem val b mp pp : Z) (a r : Address) (q supply n net : Z) : Prop :=
  NavIssuanceModuleUtils.getExpectedSetTokenIssueQuantity (fun _ _ => Ok val) (fun _ => Ok supply) a r b q mp pp prem = Ok n /\
  getExpectedPostFeeQuantity q mp pp = Ok net.

Lemma createIssuanceInfo_expected v s a r q i c : typed_valuer v -> typed this s ->
  ModuleBase.setTokens (world s) !! a = Some c -> is_uint256 q ->
  _createIssuanceInfo this v decimals s a r q = Ok i ->
  exists p val b,
    _getProtocolAndManagerFeePercentages this s a PROTOCOL_ISSUE_MANAGER_REVENUE_SHARE_FEE_INDEX
      PROTOCOL_ISSUE_DIRECT_FEE_INDEX MANAGER_ISSUE_FEE_INDEX = Ok p /\
    valuation v s a r = Ok val /\ baseUnits decimals r = Ok b /\
    protocolFees i = p.1 * q / PRECISE_UNIT /\ managerFee i = p.2 * q / PRECISE_UNIT /\
    expected_issue (premiumPercentage (settings s a)) val b p.2 p.1 a r q (totalSupply (SetToken.tokens c))
      (setTokenQuantity i) (netFlowQuantity i).
Proof.
  intros HV HT Hc Hq Q. destruct (typed_token _ _ HT a c Hc) as [HI HS]. unfold _createIssuanceInfo in Q.
  apply bind_Ok_inv in Q as (k & Qk%ModuleBase.setToken_Ok & Q). rewrite Hc in Qk. injection Qk as <-.
  apply bind_Ok_inv in Q as (f & Qf & Q). apply bind_Ok_inv in Q as (n & Qn & Q).
  apply bind_Ok_inv in Q as (nm & _ & Q). apply bind_Ok_inv in Q as (u & _ & Q). apply Ok_inj in Q as <-.
  unfold _getFees in Qf. apply bind_Ok_inv in Qf as (p & Qp & Qf). pose proof (percentages_Ok _ _ _ _ _ _ _ HT Qp) as [U1 U2].
  unfold _getSetTokenMintQuantity in Qn. apply bind_Ok_inv in Qn as (val & Qv & Qn).
  apply bind_Ok_inv in Qn as (b & Qb & Qn). exists p, val, b. cbn [protocolFees managerFee setTokenQuantity netFlowQuantity].
  pose proof (fees_Ok _ _ _ _ U1 U2 Hq Qf) as (Ef & E1 & E2 & V1 & V2 & V3).
  split; [exact Qp|]. split; [exact Qv|]. split; [exact Qb|]. split; [exact E1|]. split; [exact E2|]. split.
  - apply mint_quantity_agreement; [done|done|apply (typed_premium _ _ HT)|by eapply HV|by eapply baseUnits_uint256|done|done|].
    unfold NAVModule.expectedMint. by rewrite Qf, bind_Ok.
  - rewrite getExpectedPostFeeQuantity_eq. f_equal. apply is_uint256_spec in U1, U2, Hq. pose proof PRECISE_UNIT_pos.
    rewrite !quot_nonneg by nia. rewrite (Z.mul_comm q p.2), (Z.mul_comm q p.1). lia.
Qed.

(** C8: An issue does what the TypeScript utilities expect of it. Without a hook, an
    issue of a reserve asset that succeeds mints to the recipient exactly
    [getExpectedSetTokenIssueQuantity], at least the minimum asked for, of a token
    whose supply is at least its minimum; the token receives exactly
    [getExpectedPostFeeQuantity] of the reserve asset, protocol and manager receive
    their percentages, and no other token moves; the multiplier is at least the
    expected one and above it by at most [multiplier / 10^18 + 1]; and
    [isIssueValid] had said so. *)
Theorem nav_issue_expected v sender a r q minimum to s s' c : typed_valuer v -> typed this s -> is_uint256 q ->
  ModuleBase.setTokens (world s) !! a = Some c -> managerIssuanceHook (settings s a) = ADDRESS_ZERO ->
  issue this v decimals issueHook sender a r q minimum to s = Ok s' ->
  let supply := totalSupply (SetToken.tokens c) in
  exists c' p val b n net,
    ModuleBase.setTokens (world s') !! a = Some c' /\
    _getProtocolAndManagerFeePercentages this s a PROTOCOL_ISSUE_MANAGER_REVENUE_SHARE_FEE_INDEX
      PROTOCOL_ISSUE_DIRECT_FEE_INDEX MANAGER_ISSUE_FEE_INDEX = Ok p /\
    valuation v s a r = Ok val /\ baseUnits decimals r = Ok b /\
    expected_issue (premiumPercentage (settings s a)) val b p.2 p.1 a r q supply n net /\
    minimum <= n /\ minSetTokenSupply (settings s a) <= supply /\
    totalSupply (SetToken.tokens c') = supply + n /\
    (forall x, balanceOf (SetToken.tokens c') x = balanceOf (SetToken.tokens c) x + if decide (x = to) then n else 0) /\
    (forall x, x <> sender -> coin_balance (money s') r x = coin_balance (money s) r x +
       (if decide (x = a) then net else 0) +
       (if decide (x = Controller.feeRecipient (ModuleBase.controller (world s))) then p.1 * q / PRECISE_UNIT else 0) +
       (if decide (x = feeRecipient (settings s a)) then p.2 * q / PRECISE_UNIT else 0)) /\
    (forall t x, t <> r -> coin_balance (money s') t x = coin_balance (money s) t x) /\
    (forall e, getExpectedIssuePositionMultiplier (SetToken.positionMultiplier (SetToken.vars c)) supply (supply + n) = Ok e ->
       e <= SetToken.positionMultiplier (SetToken.vars c')
         <= e + SetToken.positionMultiplier (SetToken.vars c) / PRECISE_UNIT + 1) /\
    isIssueValid s a r q = Ok true.
Proof.
  intros HV HT Hq Hc Hh Q supply. apply (issue_plain v _ _ _ _ _ _ _ _ c) in Q
    as (H0 & Hr & g & i & c' & HT1 & [Qi [HM1 HM2] Es Ec [R1 R2 R3 R4 R5] ET' EB [s2 [_ HB HO]] _] & Eq); [|done..].
  rewrite Eq in Qi. destruct (createIssuanceInfo_expected _ _ _ _ _ _ _ HV HT1 Hc Hq Qi)
    as (p & val & b & Qp & Qv & Qb & Ep & Em & HE).
  destruct (createIssuanceInfo_Ok this v decimals HV _ a r _ i c HT1 Hc Hq Qi) as (HA & _ & EN & _).
  exists c', p, val, b, (setTokenQuantity i), (netFlowQuantity i). rewrite Es, lookup_insert_eq.
  do 5 (split; [done|]). split; [exact HM2|]. split; [exact HM1|]. split; [exact ET'|]. split; [exact EB|].
  split; [intros x Hx; by rewrite HB, Ep, Em|]. split; [exact HO|]. split.
  - intros e He. destruct (typed_token _ _ HT a c Hc) as [HI HS]. rewrite R2, (action_multiplier _ _ HA), EN,
      (action_previous _ _ HA). fold supply. pose proof (SetToken.inv_multiplier _ HI) as Hm.
    pose proof (action_quantity _ _ HA) as Hn%is_uint256_spec. apply is_uint256_spec in HS. fold supply in HS.
    pose proof (action_new _ _ HA) as Hnew. rewrite EN in Hnew. fold supply in Hnew.
    rewrite issue_multiplier_eq in He by lia. apply Ok_inj in He as <-. apply scaled_quotient_bracket; lia.
  - unfold isIssueValid, ModuleBase.setToken. rewrite Hc, bind_Ok. rewrite Hr.
    rewrite (proj2 (Z.eqb_neq q 0)) by lia. by rewrite (proj2 (Z.leb_le _ _) (HM1 : minSetTokenSupply (settings s a) <= _)).
Qed.

(** C18: Nobody is diluted. At the value [val] per token that the valuer answers,
    whatever it is, neither an issue nor a redemption (without a hook) lowers the
    value per token: the value of the supply before, plus what the token got, is at
    least the share of the new supply; and what a redemption takes out is at most
    the share of the tokens it burns. *)
Theorem nav_never_dilutes v sender a r q minimum to s s' c : typed_valuer v -> typed this s -> is_uint256 q ->
  ModuleBase.setTokens (world s) !! a = Some c -> sender <> a ->
  let supply := totalSupply (SetToken.tokens c) in
  let bal x := coin_balance (money x) r a in
  (managerIssuanceHook (settings s a) = ADDRESS_ZERO ->
   issue this v decimals issueHook sender a r q minimum to s = Ok s' ->
   exists c' val b, ModuleBase.setTokens (world s') !! a = Some c' /\ valuation v s a r = Ok val /\
     baseUnits decimals r = Ok b /\ 0 < b /\
     let value := supply * val / PRECISE_UNIT in
     value * totalSupply (SetToken.tokens c') <= (value + (bal s' - bal s) * PRECISE_UNIT / b) * supply) /\
  (managerRedemptionHook (settings s a) = ADDRESS_ZERO ->
   redeem this v decimals redeemHook sender a r q minimum to s = Ok s' ->
   exists c' val b, ModuleBase.setTokens (world s') !! a = Some c' /\ valuation v s a r = Ok val /\
     baseUnits decimals r = Ok b /\
     let value := supply * val * b in
     value * totalSupply (SetToken.tokens c') <=
       (value - (bal s - bal s') * (PRECISE_UNIT * PRECISE_UNIT)) * supply).
Proof.
  intros HV HT Hq Hc Hs supply bal. destruct (typed_token _ _ HT a c Hc) as [HI HS].
  pose proof HS as HS0%is_uint256_spec. fold supply in HS0. pose proof PRECISE_UNIT_pos as HU. split; intros Hh Q.
  - apply (issue_plain v _ _ _ _ _ _ _ _ c) in Q
      as (_ & _ & g & i & c' & HT1 & [Qi _ Es _ _ ET' _ [s2 [_ HB _]] _] & Eq); [|done..].
    rewrite Eq in Qi. destruct (createIssuanceInfo_Ok this v decimals HV _ a r q i c HT1 Hc Hq Qi) as (HA & _ & _ & Qn & _).
    unfold _getSetTokenMintQuantity in Qn. apply bind_Ok_inv in Qn as (val & Qv & Qn).
    apply bind_Ok_inv in Qn as (b & Qb & Qn). exists c', val, b. rewrite Es, lookup_insert_eq.
    apply mint_quantity_Ok in Qn as (Un & Hb & [Hs0 Hs1] & Hn);
      [|apply (typed_premium _ _ HT)|by eapply HV|by eapply baseUnits_uint256|apply (action_net _ _ HA)|done].
    do 4 (split; [done|]). rewrite ET'. fold supply in Hn |- *. apply is_uint256_spec in Un.
    pose proof (action_protocol _ _ HA) as U1%is_uint256_spec. pose proof (action_manager _ _ HA) as U2%is_uint256_spec.
    assert (HN : netFlowQuantity i <= bal s' - bal s).
    { unfold bal. rewrite HB, decide_True by done. cbn [money set_status]. repeat case_decide; lia. }
    assert (HP : netFlowQuantity i * PRECISE_UNIT / b <= (bal s' - bal s) * PRECISE_UNIT / b)
      by (apply Z.div_le_mono; [done|]; apply Z.mul_le_mono_nonneg_r; lia).
    set (sold := (netFlowQuantity i - _) * _ / b) in *. set (paid := netFlowQuantity i * PRECISE_UNIT / b) in *.
    set (value := supply * val / PRECISE_UNIT) in *. set (got := (bal s' - bal s) * PRECISE_UNIT / b) in *. cbv zeta. nia.
  - apply (redeem_plain v _ _ _ _ _ _ _ _ c) in Q
      as (_ & _ & g & i & c' & HT1 & [Qi _ Es _ _ _ _ _ ET' _ _ [HB _] _] & Eq); [|done..].
    rewrite Eq in Qi, ET'. destruct (createRedemptionInfo_Ok this v decimals HV _ a r _ i c HT1 Hc Hq Qi) as (HA & _ & _ & Qr & _).
    destruct (redeemReserveQuantity_Ok this v decimals HV _ _ _ _ _ HT1 Hq Qr) as (_ & val & b & Qv & Qb & Hpre).
    exists c', val, b. rewrite Es, decide_True by done. do 3 (split; [done|]). rewrite ET'. fold supply.
    unfold bal. rewrite HB. cbn [money set_status]. cbv zeta. set (pre := preFeeReserveQuantity i) in *.
    pose proof (floor_bounds (q * val) PRECISE_UNIT HU) as [HF _]. set (x := q * val / PRECISE_UNIT) in *.
    pose proof (floor_bounds (x * b) PRECISE_UNIT HU) as [HG _]. set (y := x * b / PRECISE_UNIT) in *.
    pose proof (baseUnits_uint256 _ _ _ Qb) as Ub%is_uint256_spec.
    assert (HP : pre * (PRECISE_UNIT * PRECISE_UNIT) <= q * val * b) by nia.
    pose proof (Z.mul_le_mono_nonneg_r _ _ supply ltac:(lia) HP). lia.
Qed.

(** *** Settings *)

(** Nothing of the settings changes. *)
Definition keeps (s s' : state) : Prop :=
  navIssuanceSettings s' = navIssuanceSettings s /\ isReserveAsset s' = isReserveAsset s.

(** What a call of a hook leaves. *)
Definition hooked (s s' : state) : Prop :=
  s' = s \/ (exists h a r q sender to, issueHook h a r q sender to s = Ok s') \/
  (exists h a q sender to, redeemHook h a q sender to s = Ok s').

Lemma issue_hooked a r q sender to s s' : _callPreIssueHooks issueHook a r q sender to s = Ok s' -> hooked s s'.
Proof.
  unfold _callPreIssueHooks. intros Q. destruct (negb _); [right; left; by repeat eexists|left; by apply Ok_inj in Q].
Qed.

Lemma redeem_hooked a q sender to s s' : _callPreRedeemHooks redeemHook a q sender to s = Ok s' -> hooked s s'.
Proof.
  unfold _callPreRedeemHooks. intros Q. destruct (negb _); [right; right; by repeat eexists|left; by apply Ok_inj in Q].
Qed.

Lemma burn_keeps a b q s s' : burn this a b q s = Ok s' -> keeps s s'.
Proof. unfold burn. intros Q. apply bind_Ok_inv in Q as (w & _ & Q). by apply Ok_inj in Q as <-. Qed.

Lemma payOut_keeps a r b q s s' : payOut this a r b q s = Ok s' -> keeps s s'.
Proof. unfold payOut. intros Q. apply bind_Ok_inv in Q as (w & _ & Q). by apply Ok_inj in Q as <-. Qed.

Lemma redemptionFees_keeps a r i s s' : _handleRedemptionFees this a r i s = Ok s' -> keeps s s'.
Proof.
  unfold _handleRedemptionFees. intros Q. apply bind_Ok_inv in Q as (w & _ & Q).
  destruct (0 <? managerFee i); [by apply payOut_keeps in Q|by apply Ok_inj in Q as <-].
Qed.

Lemma redeemUpdates_keeps sender a r to i s s' : _handleRedeemStateUpdates this sender a r to i s = Ok s' -> keeps s s'.
Proof. unfold _handleRedeemStateUpdates. intros Q. apply bind_Ok_inv in Q as (w & _ & Q). by apply Ok_inj in Q as <-. Qed.

Lemma issueUpdates_keeps sender a r to i s s' : _handleIssueStateUpdates this sender a r to i s = Ok s' -> keeps s s'.
Proof.
  unfold _handleIssueStateUpdates. intros Q. apply bind_Ok_inv in Q as (w & _ & Q).
  apply bind_Ok_inv in Q as (w' & _ & Q). by apply Ok_inj in Q as <-.
Qed.

Lemma collateral_keeps sender a r i s s' : _transferCollateralAndHandleFees this sender a r i s = Ok s' -> keeps s s'.
Proof.
  unfold _transferCollateralAndHandleFees. intros Q. do 3 apply bind_Ok_inv in Q as (? & _ & Q). by apply Ok_inj in Q as <-.
Qed.

Lemma weth_keeps a i s s' : _transferWETHAndHandleFees this a i s = Ok s' -> keeps s s'.
Proof.
  unfold _transferWETHAndHandleFees. intros Q. do 3 apply bind_Ok_inv in Q as (? & _ & Q). by apply Ok_inj in Q as <-.
Qed.

Lemma keeps_trans s1 s2 s3 : keeps s1 s2 -> keeps s2 s3 -> keeps s1 s3.
Proof. unfold keeps. intros [] []. split; congruence. Qed.

(** Only hooks change settings during issues and redemptions. *)
Lemma flow_keeps v sender c s s' : is_flow c = true -> exec this v decimals issueHook redeemHook sender c s = Ok s' ->
  exists s0 s1, keeps s s0 /\ hooked s0 s1 /\ keeps s1 s'.
Proof.
  intros Hf Q. destruct c; try discriminate Hf; cbn [exec] in Q.
  - apply entering_Ok in Q as (g & s6 & _ & Q & ->). apply bind_Ok_inv in Q as (u & _ & Q).
    apply bind_Ok_inv in Q as (s1 & Qh%issue_hooked & Q). do 2 apply bind_Ok_inv in Q as (? & _ & Q).
    apply bind_Ok_inv in Q as (s2 & Q2%collateral_keeps & Q). apply issueUpdates_keeps in Q.
    exists (set_status s g), s1. split; [done|]. split; [done|]. exact (keeps_trans _ _ _ Q2 Q).
  - apply bind_Ok_inv in Q as (m0 & _ & Q). apply entering_Ok in Q as (g & s6 & _ & Q & ->).
    apply bind_Ok_inv in Q as (m & _ & Q). apply bind_Ok_inv in Q as (u & _ & Q).
    apply bind_Ok_inv in Q as (s1 & Qh%issue_hooked & Q). do 2 apply bind_Ok_inv in Q as (? & _ & Q).
    apply bind_Ok_inv in Q as (s2 & Q2%weth_keeps & Q). apply issueUpdates_keeps in Q.
    eexists _, s1. split; [|split; [exact Qh|exact (keeps_trans _ _ _ Q2 Q)]]. done.
  - apply entering_Ok in Q as (g & s6 & _ & Q & ->). apply bind_Ok_inv in Q as (u & _ & Q).
    apply bind_Ok_inv in Q as (s1 & Qh%redeem_hooked & Q). do 2 apply bind_Ok_inv in Q as (? & _ & Q).
    apply bind_Ok_inv in Q as (s2 & Q2%burn_keeps & Q). apply bind_Ok_inv in Q as (s3 & Q3%payOut_keeps & Q).
    apply bind_Ok_inv in Q as (s4 & Q4%redemptionFees_keeps & Q). apply redeemUpdates_keeps in Q.
    exists (set_status s g), s1. split; [done|]. split; [done|].
    exact (keeps_trans _ _ _ Q2 (keeps_trans _ _ _ Q3 (keeps_trans _ _ _ Q4 Q))).
  - apply entering_Ok in Q as (g & s6 & _ & Q & ->). apply bind_Ok_inv in Q as (u & _ & Q).
    apply bind_Ok_inv in Q as (s1 & Qh%redeem_hooked & Q). do 2 apply bind_Ok_inv in Q as (? & _ & Q).
    apply bind_Ok_inv in Q as (s2 & Q2%burn_keeps & Q). apply bind_Ok_inv in Q as (s3 & Q3%payOut_keeps & Q).
    do 2 apply bind_Ok_inv in Q as (? & _ & Q).
    apply bind_Ok_inv in Q as (s4 & Q4%redemptionFees_keeps & Q). apply redeemUpdates_keeps in Q.
    exists (set_status s g), s1. split; [done|]. split; [done|].
    exact (keeps_trans _ _ _ Q2 (keeps_trans _ _ _ Q3 (keeps_trans _ _ _ Q4 Q))).
Qed.

(** The terms a manager initialized the module with. *)
Record terms (a : Address) (x0 : NAVIssuanceSettings) (s : state) : Prop := {
  terms_fixed : exists x, navIssuanceSettings s !! a = Some x /\
    managerIssuanceHook x = managerIssuanceHook x0 /\ managerRedemptionHook x = managerRedemptionHook x0 /\
    setValuer x = setValuer x0 /\ maxManagerFee x = maxManagerFee x0 /\
    maxPremiumPercentage x = maxPremiumPercentage x0 /\ minSetTokenSupply x = minSetTokenSupply x0;
  terms_bounds : (managerFees (settings s a)).1 <= maxManagerFee x0 /\ (managerFees (settings s a)).2 <= maxManagerFee x0 /\
    premiumPercentage (settings s a) <= maxPremiumPercentage x0 /\ feeRecipient (settings s a) <> ADDRESS_ZERO;
  terms_unique : NoDup (reserveAssets (settings s a));
  terms_flags r : reserve s a r = true <-> r ∈ reserveAssets (settings s a);
}.

Lemma terms_keeps a x0 s s' : keeps s s' -> terms a x0 s -> terms a x0 s'.
Proof.
  intros [E1 E2] [T1 T2 T3 T4]. assert (ES : settings s' a = settings s a) by (unfold settings; by rewrite E1).
  constructor; rewrite ?ES, ?E1; try done. intros r. unfold reserve. rewrite E2. apply T4.
Qed.

Lemma flagReserves_Ok a l r r' : flagReserves a l r = Ok r' ->
  NoDup l /\ (forall x, x ∈ l -> (a, x) ∉ r) /\ forall b x, (b, x) ∈ r' <-> (b, x) ∈ r \/ (b = a /\ x ∈ l).
Proof.
  unfold flagReserves. revert r. induction l as [|y l IH]; intros r Q; cbn [foldM] in Q.
  - apply Ok_inj in Q as <-. split; [constructor|]. set_solver.
  - apply bind_Ok_inv in Q as (r1 & Q1 & Q). apply bind_Ok_inv in Q1 as (u & Qu & Q1).
    apply require_Ok_inv, negb_true_iff, bool_decide_eq_false in Qu. apply Ok_inj in Q1 as <-.
    destruct (IH _ Q) as (HN & HU & HL). split; [apply NoDup_cons; split; [|done]|split].
    + intros Hy. apply (HU y Hy). set_solver.
    + intros x [->|Hx]%elem_of_cons; [done|]. pose proof (HU x Hx). set_solver.
    + intros b x. rewrite HL. set_solver.
Qed.

Lemma unflag_spec (a : Address) (l : list Address) (r : gset (Address * Address)) (p : Address * Address) :
  p ∈ foldl (fun r x => r ∖ {[ (a, x) ]}) r l <-> p ∈ r /\ ~ (p.1 = a /\ p.2 ∈ l).
Proof.
  revert r. induction l as [|y l IH]; intros r; cbn [foldl]; [set_solver|]. rewrite IH, elem_of_difference, elem_of_singleton.
  destruct p as [b x]. cbn [fst snd]. rewrite elem_of_cons. naive_solver.
Qed.

(** Calls between the initialization of the module by a token and its removal. *)
Definition under_terms (a sender : Address) (c : Call) : Prop :=
  match c with Initialize b _ => b <> a | RemoveModule => sender <> a | _ => True end.

Inductive settings_flow (a : Address) : state -> state -> Prop :=
  | settings_call v sender c s s' : under_terms a sender c ->
      exec this v decimals issueHook redeemHook sender c s = Ok s' -> settings_flow a s s'
  | settings_outside s s' : keeps s s' -> settings_flow a s s'.

(** A change of the settings of another token. *)
Lemma terms_other a b x x0 r e s : b <> a -> (forall y, (a, y) ∈ r <-> (a, y) ∈ isReserveAsset s) ->
  terms a x0 s -> terms a x0 (set_settings s b x r e).
Proof.
  intros Hb Hr [T1 T2 T3 T4].
  assert (ES : settings (set_settings s b x r e) a = settings s a)
    by (unfold settings; cbn; by rewrite lookup_insert_ne).
  constructor; rewrite ?ES; [|done..|].
  - destruct T1 as (y & Hy & HF). exists y. cbn. by rewrite lookup_insert_ne.
  - intros y. rewrite <- T4. unfold reserve. cbn. by rewrite !bool_decide_eq_true.
Qed.

(** A change of the settings of the token. *)
Lemma terms_edit a x x0 r e s : terms a x0 s ->
  (managerIssuanceHook x = managerIssuanceHook (settings s a) /\ managerRedemptionHook x = managerRedemptionHook (settings s a) /\
   setValuer x = setValuer (settings s a) /\ maxManagerFee x = maxManagerFee (settings s a) /\
   maxPremiumPercentage x = maxPremiumPercentage (settings s a) /\ minSetTokenSupply x = minSetTokenSupply (settings s a)) ->
  (managerFees x).1 <= maxManagerFee x0 -> (managerFees x).2 <= maxManagerFee x0 ->
  premiumPercentage x <= maxPremiumPercentage x0 -> feeRecipient x <> ADDRESS_ZERO ->
  NoDup (reserveAssets x) -> (forall y, (a, y) ∈ r <-> y ∈ reserveAssets x) ->
  terms a x0 (set_settings s a x r e).
Proof.
  intros [(y & Hy & HF) _ _ _] HX H1 H2 H3 H4 H5 H6.
  assert (ES : settings (set_settings s a x r e) a = x) by (unfold settings; cbn; by rewrite lookup_insert_eq).
  assert (EY : settings s a = y) by (unfold settings; by rewrite Hy). rewrite EY in HX.
  constructor; rewrite ?ES; [|done..|].
  - exists x. cbn. rewrite lookup_insert_eq. split; [done|]. intuition congruence.
  - intros z. unfold reserve. cbn. rewrite bool_decide_eq_true. apply H6.
Qed.

Lemma terms_max a x0 s : terms a x0 s -> maxManagerFee (settings s a) = maxManagerFee x0 /\
  maxPremiumPercentage (settings s a) = maxPremiumPercentage x0.
Proof. intros [(y & Hy & HF) _ _ _]. unfold settings. rewrite Hy. cbn. tauto. Qed.

Lemma terms_call v sender c s s' a x0 : is_flow c = false -> under_terms a sender c ->
  exec this v decimals issueHook redeemHook sender c s = Ok s' -> terms a x0 s -> terms a x0 s'.
Proof.
  intros Hf HU Q HT. destruct (terms_max _ _ _ HT) as [EM1 EM2]. pose proof HT as [_ (T1 & T2 & T3 & T4) T5 T6].
  assert (HF : forall y, (a, y) ∈ isReserveAsset s <-> y ∈ reserveAssets (settings s a))
    by (intros y; rewrite <- T6; unfold reserve; by rewrite bool_decide_eq_true).
  destruct c as [| | | |b r|b r|b p|b p j|b r|b x|]; try discriminate Hf; cbn [exec] in Q; clear Hf; cbn [under_terms] in HU.
  - unfold addReserveAsset in Q. guards. unfold reserve in *. guards.
    destruct (decide (b = a)) as [->|D]; [|apply terms_other; [done|set_solver|done]].
    apply terms_edit; try done; cbn.
    + apply SetToken.NoDup_snoc; [done|]. by rewrite <- HF.
    + intros y. rewrite elem_of_app, list_elem_of_singleton, <- HF. set_solver.
  - unfold removeReserveAsset in Q. guards. unfold reserve in *. guards.
    destruct (decide (b = a)) as [->|D]; [|apply terms_other; [done|set_solver|done]].
    match goal with H : AddressArrayUtils.remove _ _ = Ok _ |- _ => rename H into QR end.
    destruct (remove_spec _ r T5 (proj1 (HF r) ltac:(done))) as (l & Ql & HN & HL). rewrite Ql in QR. apply Ok_inj in QR as <-.
    apply terms_edit; try done; cbn. intros y. rewrite HL, <- HF. set_solver.
  - unfold editPremium in Q. guards. destruct (decide (b = a)) as [->|D]; [|by apply terms_other].
    apply terms_edit; try done; cbn; lia.
  - unfold editManagerFee in Q. guards. destruct (decide (b = a)) as [->|D]; [|by apply terms_other].
    match goal with H : set_fee_at _ _ _ = Ok _ |- _ => rename H into QF end. unfold set_fee_at in QF.
    repeat case_match; try discriminate QF; apply Ok_inj in QF as <-; apply terms_edit; try done; cbn; lia.
  - unfold editFeeRecipient in Q. guards. destruct (decide (b = a)) as [->|D]; [|by apply terms_other].
    by apply terms_edit.
  - unfold initialize in Q. do 10 apply bind_Ok_inv in Q as (? & _ & Q). apply bind_Ok_inv in Q as (r & Qr & Q).
    apply bind_Ok_inv in Q as (w & _ & Q). apply Ok_inj in Q as <-. apply flagReserves_Ok in Qr as (_ & _ & HL).
    eapply terms_keeps; [|apply (terms_other a b x x0 r [] s); [exact HU| |exact HT]]; [done|]. intros y. rewrite HL. naive_solver.
  - apply Ok_inj in Q as <-. destruct HT as [(y & Hy & HX) _ _ _].
    assert (ES : settings (removeModule sender s) a = settings s a)
      by (unfold settings; cbn; by rewrite lookup_delete_ne).
    constructor; rewrite ?ES; [|done..|].
    + exists y. cbn. by rewrite lookup_delete_ne.
    + intros z. rewrite <- T6. unfold reserve. cbn [removeModule isReserveAsset]. rewrite !bool_decide_eq_true, unflag_spec.
      cbn [fst snd]. naive_solver.
Qed.

Lemma initialize_terms sender a x s s' : (forall r, (a, r) ∉ isReserveAsset s) -> initialize this sender a x s = Ok s' ->
  terms a x s' /\ maxManagerFee x < PRECISE_UNIT /\ maxPremiumPercentage x < PRECISE_UNIT /\ 0 < minSetTokenSupply x.
Proof.
  intros HR Q. unfold initialize in Q. do 2 apply bind_Ok_inv in Q as (? & _ & Q).
  apply bind_Ok_inv in Q as (? & _ & Q). apply bind_Ok_inv in Q as (? & G2%require_Ok_inv & Q).
  apply bind_Ok_inv in Q as (? & G3%require_Ok_inv & Q). apply bind_Ok_inv in Q as (? & G4%require_Ok_inv & Q).
  apply bind_Ok_inv in Q as (? & G5%require_Ok_inv & Q). apply bind_Ok_inv in Q as (? & G6%require_Ok_inv & Q).
  apply bind_Ok_inv in Q as (? & G7%require_Ok_inv & Q). apply bind_Ok_inv in Q as (? & G8%require_Ok_inv & Q).
  apply bind_Ok_inv in Q as (r & Qr & Q). apply bind_Ok_inv in Q as (w & _ & Q). apply Ok_inj in Q as <-.
  apply flagReserves_Ok in Qr as (HN & _ & HL). guards. split; [|done].
  assert (ES : settings (set_world (set_settings s a x r []) w []) a = x) by (unfold settings; cbn; by rewrite lookup_insert_eq).
  constructor; rewrite ?ES; [|done..|].
  - exists x. cbn. by rewrite lookup_insert_eq.
  - intros y. unfold reserve. cbn. rewrite bool_decide_eq_true, HL. naive_solver.
Qed.

(** C19: The terms a manager gives a token's NAV issuance hold until the token lets go
    of the module. From an initialization on, after any calls by anyone, with
    whatever a hook does that keeps the terms: hooks, valuer, maximal fees and
    minimal supply are the initial ones, fees and premium are at most their maxima,
    which are below 100%, the fee recipient is not zero, and an asset is flagged as
    a reserve exactly if it is listed, once. Removing the module leaves neither
    settings nor flags. *)
Theorem nav_terms sender a x s s0 s' : (forall r, (a, r) ∉ isReserveAsset s) -> initialize this sender a x s = Ok s0 ->
  (forall s s', hooked s s' -> terms a x s -> terms a x s') -> rtc (settings_flow a) s0 s' ->
  terms a x s' /\ maxManagerFee x < PRECISE_UNIT /\ maxPremiumPercentage x < PRECISE_UNIT /\ 0 < minSetTokenSupply x /\
  navIssuanceSettings (removeModule a s') !! a = None /\ forall r, (a, r) ∉ isReserveAsset (removeModule a s').
Proof.
  intros HR Q HH H. apply initialize_terms in Q as (HT & H1 & H2 & H3); [|done].
  assert (HT' : terms a x s').
  { revert HT. induction H as [s1|s1 s2 s3 Hs _ IH]; [done|]. intros HT. apply IH. clear IH.
    destruct Hs as [v sender' c s1 s2 HU Q|s1 s2 HK]; [|by eapply terms_keeps].
    destruct (is_flow c) eqn:Ef; [|by eapply terms_call].
    destruct (flow_keeps _ _ _ _ _ Ef Q) as (t1 & t2 & K1 & K2 & K3).
    exact (terms_keeps _ _ _ _ K3 (HH _ _ K2 (terms_keeps _ _ _ _ K1 HT))). }
  split; [done|]. do 3 (split; [done|]). split; [apply lookup_delete_eq|]. intros r.
  cbn [removeModule isReserveAsset]. rewrite unflag_spec. cbn [fst snd]. intros [Hr Hn]. apply Hn. split; [done|].
  apply (terms_flags _ _ _ HT'). unfold reserve. by apply bool_decide_eq_true.
Qed.

(** *** Redemptions *)

Lemma two_fees z f g : 0 <= z ->
  z * (PRECISE_UNIT - f - g) <= (z - z * f / PRECISE_UNIT - z * g / PRECISE_UNIT) * PRECISE_UNIT
    < z * (PRECISE_UNIT - f - g) + 2 * PRECISE_UNIT.
Proof.
  intros Hz. pose proof PRECISE_UNIT_pos as HU. pose proof (floor_bounds (z * f) PRECISE_UNIT HU).
  pose proof (floor_bounds (z * g) PRECISE_UNIT HU). lia.
Qed.

Lemma expected_redeem_eq q val b mf df p : 0 <= q -> 0 <= val -> 0 <= b -> 0 <= mf -> 0 <= df -> 0 <= p <= PRECISE_UNIT ->
  mf + df <= PRECISE_UNIT ->
  let z := val * q / PRECISE_UNIT * (PRECISE_UNIT - p) / PRECISE_UNIT in
  let w := z - z * mf / PRECISE_UNIT - z * df / PRECISE_UNIT in
  0 <= z /\ NavIssuanceModuleUtils.getExpectedReserveRedeemQuantity q val b mf df p = Ok (w * b / PRECISE_UNIT).
Proof.
  intros Hq Hv Hb Hm Hd Hp Hs z w. pose proof PRECISE_UNIT_pos as HU.
  assert (HV : 0 <= val * q / PRECISE_UNIT) by (apply Z.div_pos; nia).
  assert (Hz : 0 <= z) by (apply Z.div_pos; nia). split; [done|].
  assert (Hw : 0 <= w) by (pose proof (two_fees z mf df Hz) as HW; fold w in HW; nia).
  unfold NavIssuanceModuleUtils.getExpectedReserveRedeemQuantity. rewrite MathUtils.preciseMul_nonneg_eq, bind_Ok by done.
  rewrite MathUtils.preciseMulCeil_nonneg_eq, bind_Ok by lia. bn_simpl. rewrite minus_ceil. fold z.
  rewrite getExpectedPostFeeQuantity_eq, bind_Ok. rewrite !quot_nonneg by nia. fold w.
  by rewrite MathUtils.preciseMul_nonneg_eq.
Qed.

(** The net quantity of a redemption against its expectation. *)
Lemma redeem_net_bracket v s a r q pre p f : typed_valuer v -> typed this s -> is_uint256 q ->
  is_uint256 p.1 -> is_uint256 p.2 ->
  _getRedeemReserveQuantity v decimals s a r q = Ok pre -> NAVModule._getFees p.1 p.2 pre = Ok f ->
  exists val b, valuation v s a r = Ok val /\ baseUnits decimals r = Ok b /\
    (premiumPercentage (settings s a) <= PRECISE_UNIT -> p.2 + p.1 <= PRECISE_UNIT -> b <= PRECISE_UNIT ->
     exists x, NavIssuanceModuleUtils.getExpectedReserveRedeemQuantity q val b p.2 p.1 (premiumPercentage (settings s a)) = Ok x /\
       Z.abs (f.2 - x) <= 3).
Proof.
  intros HV HT Hq U1 U2 Q Qf. unfold _getRedeemReserveQuantity in Q. apply bind_Ok_inv in Q as (val & Qv & Q).
  apply bind_Ok_inv in Q as (t & Qt & Q). apply bind_Ok_inv in Q as (b & Qb & Q).
  apply bind_Ok_inv in Q as (y & Qy & Q). apply bind_Ok_inv in Q as (z & Qz & Q).
  exists val, b. split; [done|]. split; [done|]. intros Hp Hs Hb.
  pose proof (HV _ _ _ _ _ Qv) as Uv. pose proof (baseUnits_uint256 _ _ _ Qb) as Ub. pose proof (typed_premium _ _ HT a) as Up.
  apply preciseMul_Ok in Qt as [Et Ut]; [|done..]. apply preciseMul_Ok in Qy as [Ey Uy]; [|done..].
  pose proof (preciseMulCeil_uint256 _ _ _ Uy Up Qz) as Uz. apply preciseMulCeil_sound in Qz; [|done..].
  apply sm_sub_inv in Q as [Ep Upre]; [|done..]. apply fees_Ok in Qf as (Ef & E1 & E2 & _); [|done..].
  pose proof Uy as Hy%is_uint256_spec. pose proof Ut as Ht%is_uint256_spec. apply is_uint256_spec in Uv, Ub, Up, U1, U2, Upre, Hq.
  unfold _getRedeemPremium in Qz. rewrite MathUtils.preciseMulCeil_nonneg_eq in Qz by lia. apply Ok_inj in Qz.
  rewrite <- Qz, minus_ceil in Ep. clear Qz Uz z. pose proof PRECISE_UNIT_pos as HU.
  destruct (expected_redeem_eq q val b p.2 p.1 (premiumPercentage (settings s a))) as [Hz HE]; [lia..|].
  eexists. split; [exact HE|]. cbv zeta in Hz |- *. rewrite (Z.mul_comm val q), <- Et in Hz |- *.
  set (k := PRECISE_UNIT - premiumPercentage (settings s a)) in *. set (g := PRECISE_UNIT - p.2 - p.1).
  assert (Hk : 0 <= k <= PRECISE_UNIT) by (unfold k; lia). assert (Hg : 0 <= g <= PRECISE_UNIT) by (unfold g; lia).
  set (zz := t * k / PRECISE_UNIT) in *. set (w := zz - zz * p.2 / PRECISE_UNIT - zz * p.1 / PRECISE_UNIT). set (x := w * b / PRECISE_UNIT).
  assert (HC : f.2 = pre - pre * p.2 / PRECISE_UNIT - pre * p.1 / PRECISE_UNIT) by (rewrite (Z.mul_comm pre p.2), (Z.mul_comm pre p.1); lia).
  pose proof (two_fees pre p.2 p.1 ltac:(lia)) as H3. rewrite <- HC in H3. fold g in H3.
  pose proof (two_fees zz p.2 p.1 Hz) as H5. fold w in H5. fold g in H5.
  pose proof (floor_bounds (t * b) PRECISE_UNIT HU) as H1. rewrite <- Ey in H1.
  pose proof (floor_bounds (y * k) PRECISE_UNIT HU) as H2. rewrite <- Ep in H2.
  pose proof (floor_bounds (t * k) PRECISE_UNIT HU) as H4. fold zz in H4.
  pose proof (floor_bounds (w * b) PRECISE_UNIT HU) as H6. fold x in H6.
  assert (B1 : t * b * k * g - 2 * (PRECISE_UNIT * PRECISE_UNIT * PRECISE_UNIT) <= f.2 * (PRECISE_UNIT * PRECISE_UNIT * PRECISE_UNIT)
    < t * b * k * g + 2 * (PRECISE_UNIT * PRECISE_UNIT * PRECISE_UNIT))
    by (apply contract_bracket with (X := y) (Y := pre); (assumption || lia)).
  assert (B2 : t * b * k * g - 2 * (PRECISE_UNIT * PRECISE_UNIT * PRECISE_UNIT) < x * (PRECISE_UNIT * PRECISE_UNIT * PRECISE_UNIT)
    < t * b * k * g + 2 * (PRECISE_UNIT * PRECISE_UNIT * PRECISE_UNIT))
    by (apply helper_bracket with (Z' := zz) (W := w); (assumption || lia)).
  assert (HUUU : 0 < PRECISE_UNIT * PRECISE_UNIT * PRECISE_UNIT) by nia. revert B1 B2 HUUU.
  generalize (PRECISE_UNIT * PRECISE_UNIT * PRECISE_UNIT), (t * b * k * g), (f.2). intros m e n B1 B2 Hm.
  assert (-4 * m < (n - x) * m < 4 * m) by lia. assert (-4 < n - x) by nia. assert (n - x < 4) by nia. lia.
Qed.

(** The runs that a redemption info comes from. *)
Lemma createRedemptionInfo_runs v s a r q i c : ModuleBase.setTokens (world s) !! a = Some c ->
  _createRedemptionInfo this v decimals s a r q = Ok i ->
  exists p f x u t,
    _getProtocolAndManagerFeePercentages this s a PROTOCOL_REDEEM_MANAGER_REVENUE_SHARE_FEE_INDEX
      PROTOCOL_REDEEM_DIRECT_FEE_INDEX MANAGER_REDEEM_FEE_INDEX = Ok p /\
    _getRedeemReserveQuantity v decimals s a r q = Ok (preFeeReserveQuantity i) /\
    NAVModule._getFees p.1 p.2 (preFeeReserveQuantity i) = Ok f /\ netFlowQuantity i = f.2 /\
    SetToken.getDefaultPositionRealUnit (SetToken.vars c) r = Ok x /\ toUint256 x = Ok u /\
    preciseMul u (totalSupply (SetToken.tokens c)) = Ok t.
Proof.
  intros Hc Q. unfold _createRedemptionInfo in Q. apply bind_Ok_inv in Q as (pre & Qpre & Q).
  apply bind_Ok_inv in Q as (f & Qf & Q). apply bind_Ok_inv in Q as (k & Qk%ModuleBase.setToken_Ok & Q).
  rewrite Hc in Qk. injection Qk as <-. apply bind_Ok_inv in Q as (nm & _ & Q). apply bind_Ok_inv in Q as (u' & Qu & Q).
  apply Ok_inj in Q as <-. cbn [preFeeReserveQuantity netFlowQuantity].
  unfold _getFees in Qf. apply bind_Ok_inv in Qf as (p & Qp & Qf). unfold _getRedeemPositionUnit in Qu.
  apply bind_Ok_inv in Qu as (x & Qx & Qu). apply bind_Ok_inv in Qu as (u & Q1 & Qu).
  apply bind_Ok_inv in Qu as (t & Qt & _). by exists p, f, x, u, t.
Qed.

(** C17: A redemption does what the TypeScript utilities expect of it, to three base
    units. Without a hook, a redemption that succeeds burns the tokens of the
    redeemer, who had them, and leaves at least the minimal supply; the net
    quantity is the one the contract announces, at least the minimum asked for, and
    within three units of what [getExpectedReserveRedeemQuantity] of the utilities
    returns for an asset of at most 18 decimals and fees and premium of at most
    100%; the token pays that and the fees, no other token moves; and
    [isRedeemValid] had said so. *)
Theorem nav_redeem_expected v sender a r q minimum to s s' c : typed_valuer v -> typed this s -> is_uint256 q ->
  ModuleBase.setTokens (world s) !! a = Some c -> managerRedemptionHook (settings s a) = ADDRESS_ZERO ->
  redeem this v decimals redeemHook sender a r q minimum to s = Ok s' ->
  let prem := premiumPercentage (settings s a) in
  exists c' p val b net pre,
    ModuleBase.setTokens (world s') !! a = Some c' /\
    _getProtocolAndManagerFeePercentages this s a PROTOCOL_REDEEM_MANAGER_REVENUE_SHARE_FEE_INDEX
      PROTOCOL_REDEEM_DIRECT_FEE_INDEX MANAGER_REDEEM_FEE_INDEX = Ok p /\
    valuation v s a r = Ok val /\ baseUnits decimals r = Ok b /\
    getExpectedReserveRedeemQuantity this v decimals s a r q = Ok net /\ minimum <= net /\
    (prem <= PRECISE_UNIT -> p.2 + p.1 <= PRECISE_UNIT -> b <= PRECISE_UNIT ->
     exists x, NavIssuanceModuleUtils.getExpectedReserveRedeemQuantity q val b p.2 p.1 prem = Ok x /\ Z.abs (net - x) <= 3) /\
    pre = net + p.1 * pre / PRECISE_UNIT + p.2 * pre / PRECISE_UNIT /\
    coin_balance (money s') r a = coin_balance (money s) r a - pre /\
    (forall t x, t <> r -> coin_balance (money s') t x = coin_balance (money s) t x) /\
    totalSupply (SetToken.tokens c') = totalSupply (SetToken.tokens c) - q /\
    minSetTokenSupply (settings s a) <= totalSupply (SetToken.tokens c') /\
    q <= balanceOf (SetToken.tokens c) sender /\
    (forall x, balanceOf (SetToken.tokens c') x = balanceOf (SetToken.tokens c) x - if decide (x = sender) then q else 0) /\
    isRedeemValid this v decimals s a r q = Ok true.
Proof.
  intros HV HT Hq Hc Hh Q prem. apply (redeem_plain v _ _ _ _ _ _ _ _ c) in Q
    as (H0 & Hr & g & i & c' & HT1 & [Qi [HM1 HM2] Es _ _ _ _ _ ET' EB HE [HB HO] _] & Eq); [|done..].
  rewrite Eq in *. destruct (typed_token _ _ HT a c Hc) as [HI HS].
  destruct (createRedemptionInfo_Ok this v decimals HV _ a r q i c HT1 Hc Hq Qi) as (HA & _ & EN & _ & u & Hu & Hle & _).
  destruct (createRedemptionInfo_runs v _ a r q i c Hc Qi) as (p & f & x & u' & t & Qp & Qr & Qf & En & Qx & Qu & Qt).
  destruct (percentages_Ok _ _ _ _ _ _ _ HT1 Qp) as [U1 U2].
  destruct (redeem_net_bracket v _ a r q _ p f HV HT1 Hq U1 U2 Qr Qf) as (val & b & Qv & Qb & HX).
  assert (QE : getExpectedReserveRedeemQuantity this v decimals s a r q = Ok (netFlowQuantity i)).
  { unfold getExpectedReserveRedeemQuantity, _getFees. by rewrite Qr, bind_Ok, Qp, bind_Ok, Qf, bind_Ok, En. }
  exists c', p, val, b, (netFlowQuantity i), (preFeeReserveQuantity i). rewrite Es, decide_True by done.
  do 4 (split; [done|]). split; [exact QE|]. split; [exact HM2|]. split.
  { intros A1 A2 A3. destruct (HX A1 A2 A3) as (z & Qz & Hz). exists z. split; [exact Qz|by rewrite En]. }
  pose proof (action_new _ _ HA) as Hnew. pose proof (action_fees _ _ HA) as Hfees.
  pose proof (action_protocol _ _ HA) as V1%is_uint256_spec. pose proof (action_manager _ _ HA) as V2%is_uint256_spec.
  pose proof (action_net _ _ HA) as V3%is_uint256_spec.
  apply is_uint256_spec in HS. pose proof (typed_minimum _ _ HT a) as Umin. pose proof Umin as Hmin%is_uint256_spec.
  split; [|split; [exact HB|split; [exact HO|split; [exact ET'|split; [|split; [exact HE|split; [exact EB|]]]]]]].
  - destruct (redeemReserveQuantity_Ok this v decimals HV _ _ _ _ _ HT1 Hq Qr) as [Upre _].
    destruct (fees_Ok _ _ _ _ U1 U2 Upre Qf) as (Ef & E1 & E2 & _). rewrite En. lia.
  - rewrite ET', <- EN. exact HM1.
  - unfold isRedeemValid, ModuleBase.setToken. rewrite Hc, bind_Ok, Hr, (proj2 (Z.eqb_neq q 0)) by lia. cbn [orb negb].
    change (minSetTokenSupply (settings s a) <= newSetTokenSupply i) in HM1.
    rewrite sm_add_Ok by (done || lia). rewrite !bind_Ok, (proj2 (Z.ltb_ge _ _)) by lia.
    rewrite QE, bind_Ok, Qx, bind_Ok, Qu, bind_Ok, Qt, bind_Ok. f_equal. apply Z.leb_le.
    destruct Hu as (Hu & _). destruct (reserve_unit_Ok _ _ _ _ HI Qx Qu) as (Hu' & _ & Uu & _). rewrite Hu in Hu'.
    apply Ok_inj in Hu' as <-. apply preciseMul_Ok in Qt as [-> _]; [lia|done|by apply is_uint256_spec].
Qed.

End Theorems.

(** ** Instances *)

(** Dollars, ether and wrapped ether, quoted in dollars. *)
Definition sample_oracle : PriceOracle.state :=
  PriceOracle.mk "owner" (<[ ("USDC", "USD")%string := "one"%string ]>
    (<[ ("ETH", "USD")%string := "eth"%string ]> {[ ("WETH", "USD")%string := "eth"%string ]})) "USD" [] [].

Definition sample_read (o : Address) : result Z :=
  if String.eqb o "one" then Ok (10 ^ 18) else if String.eqb o "eth" then Ok (1700 * 10 ^ 18) else Throw "no oracle".

Definition sample_adapter (ad a b : Address) : result (bool * Z) := Throw "no adapter".

Definition sample_decimals (t : Address) : result Z := Ok (if String.eqb t "USDC" then 6 else 18).

(** The valuer of the protocol; there is no other. *)
Definition sample_valuer (v a q : Address) (w : ModuleBase.chain) : result Z :=
  if String.eqb v "valuer"
  then SetValuer.calculateSetTokenValuation sample_read sample_adapter sample_decimals "valuer" "controller"
         {[ "oracle"%string := sample_oracle ]} a q w
  else Throw "no valuer".

(** Direct fees of 0.1%, and a tenth of the manager's. *)
Definition sample_controller : Controller.state :=
  let s0 := Controller.constructor "owner" "protocol" in
  match (s ← Controller.exec "owner" (Controller.Initialize ["factory"] ["nav"] ["oracle"; "valuer"] [1; 2]) s0;
         s ← Controller.exec "factory" (Controller.AddSet "set") s;
         s ← Controller.exec "owner" (Controller.AddFee "nav" 0 (10 ^ 17)) s;
         s ← Controller.exec "owner" (Controller.AddFee "nav" 1 (10 ^ 17)) s;
         s ← Controller.exec "owner" (Controller.AddFee "nav" 2 (10 ^ 15)) s;
         Controller.exec "owner" (Controller.AddFee "nav" 3 (10 ^ 15)) s)%string with
  | Ok s => s | Throw _ => s0 end.

Definition sample_pending : SetToken.state := SetToken.constructor ["ETH"; "USDC"]%string [10 ^ 17; 50 * 10 ^ 6]
  ["nav"]%string "controller" "manager" "Set" "SET".

Definition sample_vars : SetToken.state :=
  match SetToken.initializeModule "nav" sample_pending with Ok s => s | Throw _ => sample_pending end.

(** Fifty tokens, of a tenth of an ether and fifty dollars each. *)
Definition sample_ledger : ledger_ref :=
  match ref_mint "alice" (50 * 10 ^ 18) empty_ledger with Ok l => l | Throw _ => empty_ledger end.

Definition sample_token : SetToken.contract := SetToken.mkContract sample_vars sample_ledger.

Definition sample_money : coins :=
  <[ ("ETH", "set")%string := 5 * 10 ^ 18 ]> (<[ ("USDC", "set")%string := 2500 * 10 ^ 6 ]>
    {[ ("USDC", "bob")%string := 10 ^ 10 ]}).

Definition sample_settings : NAVIssuanceSettings :=
  mkSettings ADDRESS_ZERO ADDRESS_ZERO ADDRESS_ZERO ["USDC"; "WETH"]%string "manager" (2 * 10 ^ 15, 10 ^ 16) (2 * 10 ^ 16)
    (5 * 10 ^ 15) (10 ^ 16) (10 ^ 18).

Definition sample_state : state :=
  mk guard_new {[ "set"%string := sample_settings ]} {[ ("set", "USDC")%string; ("set", "WETH")%string ]} []
    (ModuleBase.mkChain sample_controller {[ "set"%string := sample_token ]}) sample_money.

Definition no_issueHook (h a r : Address) (q : Z) (sender to : Address) (s : state) : result state := Ok s.
Definition no_redeemHook (h a : Address) (q : Z) (sender to : Address) (s : state) : result state := Ok s.

Lemma typed_sample_valuer : typed_valuer sample_valuer.
Proof.
  intros v a q w x Q. unfold sample_valuer in Q. destruct (String.eqb v "valuer"); [|discriminate Q].
  unfold SetValuer.calculateSetTokenValuation in Q. do 4 apply bind_Ok_inv in Q as (? & _ & Q).
  cbn [toUint256 oz_ref] in Q. apply fits_uint256_inv in Q as [-> Q]. by apply is_uint256_spec.
Qed.

Lemma Inv_nav_vars : SetToken.Inv sample_vars.
Proof.
  eapply (SetToken.Inv_initializeModule "nav" sample_pending); [|vm_compute; reflexivity].
  apply SetToken.storage_constructor; apply (bool_decide_eq_true_1 _); vm_compute; reflexivity.
Qed.

Lemma nav_sample_lookup : ModuleBase.setTokens (world sample_state) !! "set"%string = Some sample_token.
Proof. apply lookup_singleton_eq. Qed.

Lemma sample_fees_typed : map_Forall (fun _ v => is_uint256 v) (Controller.fees sample_controller).
Proof. apply (bool_decide_eq_true_1 _). vm_compute. reflexivity. Qed.

Lemma module_fee_typed k m i : map_Forall (fun _ v => is_uint256 v) (Controller.fees k) ->
  is_uint256 (Controller.getModuleFee k m i).
Proof.
  intros H. unfold Controller.getModuleFee. destruct (Controller.fees k !! (m, i)) as [f|] eqn:E; cbn [default].
  - exact (H _ _ E).
  - by apply is_uint256_spec.
Qed.

Lemma typed_sample : typed "nav" sample_state.
Proof.
  assert (HS : forall a, settings sample_state a = sample_settings \/ settings sample_state a = no_settings).
  { intros a. unfold settings. cbn [navIssuanceSettings sample_state]. destruct (decide (a = "set"%string)) as [->|D].
    - left. by rewrite lookup_singleton_eq.
    - right. by rewrite lookup_singleton_ne. }
  constructor.
  - intros a. by destruct (HS a) as [-> | ->]; split; vm_compute.
  - intros a. by destruct (HS a) as [-> | ->]; vm_compute.
  - intros a. by destruct (HS a) as [-> | ->]; vm_compute.
  - intros i. exact (module_fee_typed _ "nav" i sample_fees_typed).
  - intros a c Hc. destruct (decide (a = "set"%string)) as [->|D].
    + pose proof (eq_trans (eq_sym Hc) nav_sample_lookup) as E. injection E as ->. split; [exact Inv_nav_vars|by vm_compute].
    + pose proof (eq_trans (eq_sym Hc) (lookup_singleton_ne "set"%string a sample_token (not_eq_sym D))) as E.
      discriminate E.
Qed.

Lemma sample_positions : SetToken.componentPositions sample_vars = SetToken.componentPositions sample_pending.
Proof. vm_compute. reflexivity. Qed.

Lemma sample_position x : x <> "ETH"%string -> x <> "USDC"%string ->
  SetToken.virtualUnit (SetToken.position (SetToken.vars sample_token) x) = 0.
Proof.
  intros D1 D2. change (SetToken.vars sample_token) with sample_vars. unfold SetToken.position. rewrite sample_positions.
  fold (SetToken.position sample_pending x). unfold sample_pending.
  destruct (PositionLib.constructor_units ["ETH"; "USDC"]%string [10 ^ 17; 50 * 10 ^ 6] ["nav"%string] "controller" "manager"
    "Set" "SET" x) as (v & -> & Hv & H0).
  - apply (bool_decide_eq_true_1 _). vm_compute. reflexivity.
  - reflexivity.
  - apply (bool_decide_eq_true_1 _). vm_compute. reflexivity.
  - cbn [SetToken.virtualUnit]. assert (x ∉ ["ETH"; "USDC"]%string) as Hx by (intros [?|[?|[]%elem_of_nil]%elem_of_cons]%elem_of_cons; contradiction).
    rewrite Hv in Hx. lia.
Qed.

Lemma covered_sample : covered "set" sample_state.
Proof.
  exists sample_token. split; [exact nav_sample_lookup|]. split; [exact Inv_nav_vars|]. split; [apply Z.leb_le; by vm_compute|].
  intros x. cbn beta. destruct (decide (x = "ETH"%string)) as [->|D1]; [apply Z.leb_le; by vm_compute|].
  destruct (decide (x = "USDC"%string)) as [->|D2]; [apply Z.leb_le; by vm_compute|].
  rewrite (sample_position _ D1 D2), !Z.mul_0_l.
  apply Z.mul_nonneg_nonneg; [apply balance_nonneg|]. apply Z.leb_le. by vm_compute.
Qed.

Lemma no_hooks_good : good_hooks "nav" no_issueHook no_redeemHook "set".
Proof. split; intros *; intros HC Q; apply Ok_inj in Q; rewrite <- Q; exact HC. Qed.

(** Bob pays a thousand dollars, Alice redeems nine tokens. *)
Definition sample_issue : result state :=
  issue "nav" sample_valuer sample_decimals no_issueHook "bob" "set" "USDC" (10 ^ 9) 1 "bob" sample_state.

Definition sample_redeem : result state :=
  redeem "nav" sample_valuer sample_decimals no_redeemHook "alice" "set" "USDC" (9 * 10 ^ 18) 1 "alice" sample_state.

Lemma sample_issue_Ok : exists s, sample_issue = Ok s.
Proof. apply is_Ok_true. by vm_compute. Qed.

Lemma sample_redeem_Ok : exists s, sample_redeem = Ok s.
Proof. apply is_Ok_true. by vm_compute. Qed.

Lemma sample_quantities : is_uint256 (10 ^ 9) /\ is_uint256 (9 * 10 ^ 18).
Proof. split; by vm_compute. Qed.

Lemma nav_keeps_covered_witness : exists s c, sample_issue = Ok s /\
  ModuleBase.setTokens (world s) !! "set"%string = Some c /\
  forall x u, SetToken.getDefaultPositionRealUnit (SetToken.vars c) x = Ok u ->
    u * totalSupply (SetToken.tokens c) <= coin_balance (money s) x "set" * PRECISE_UNIT.
Proof.
  destruct sample_issue_Ok as [s H].
  destruct (nav_keeps_covered (ET := erc20_ref) "nav" sample_decimals no_issueHook no_redeemHook "set" sample_state s)
    as (c & Hc & _ & HC).
  - intros E. discriminate E.
  - exact no_hooks_good.
  - exact covered_sample.
  - apply rtc_once. eapply (flow_call "nav" sample_decimals no_issueHook no_redeemHook "set" sample_valuer "bob"
      (Issue "set" "USDC" (10 ^ 9) 1 "bob")); [exact typed_sample_valuer|exact typed_sample| |exact H].
    split; [reflexivity|]. split; [intros E; discriminate E|exact (proj1 sample_quantities)].
  - exists s, c. split; [exact H|]. split; [exact Hc|exact HC].
Defined.

Lemma no_hooks : managerIssuanceHook (settings sample_state "set") = ADDRESS_ZERO /\
  managerRedemptionHook (settings sample_state "set") = ADDRESS_ZERO.
Proof. split; vm_compute; reflexivity. Qed.

Lemma nav_issue_expected_witness : exists s c n, sample_issue = Ok s /\
  ModuleBase.setTokens (world s) !! "set"%string = Some c /\ 1 <= n /\
  totalSupply (SetToken.tokens c) = totalSupply (SetToken.tokens sample_token) + n /\
  isIssueValid sample_state "set" "USDC" (10 ^ 9) = Ok true.
Proof.
  destruct sample_issue_Ok as [s H].
  destruct (nav_issue_expected (ET := erc20_ref) "nav" sample_decimals no_issueHook sample_valuer "bob" "set" "USDC" (10 ^ 9) 1
    "bob" sample_state s sample_token typed_sample_valuer typed_sample (proj1 sample_quantities) nav_sample_lookup
    (proj1 no_hooks) H) as (c & p & val & b & n & net & H1 & _ & _ & _ & _ & H2 & _ & H3 & _ & _ & _ & _ & H4).
  exists s, c, n. split; [exact H|]. split; [exact H1|]. split; [exact H2|]. split; [exact H3|exact H4].
Defined.

Lemma nav_redeem_expected_witness : exists s c, sample_redeem = Ok s /\
  ModuleBase.setTokens (world s) !! "set"%string = Some c /\
  totalSupply (SetToken.tokens c) = totalSupply (SetToken.tokens sample_token) - 9 * 10 ^ 18 /\
  isRedeemValid "nav" sample_valuer sample_decimals sample_state "set" "USDC" (9 * 10 ^ 18) = Ok true.
Proof.
  destruct sample_redeem_Ok as [s H].
  pose proof (nav_redeem_expected (ET := erc20_ref) "nav" sample_decimals no_redeemHook sample_valuer "alice" "set" "USDC"
    (9 * 10 ^ 18) 1 "alice" sample_state s sample_token typed_sample_valuer typed_sample (proj2 sample_quantities)
    nav_sample_lookup (proj2 no_hooks)) as K.
  specialize (K H). destruct K as (c & p & val & b & n & pre & H1 & _ & _ & _ & _ & _ & _ & _ & _ & _ & H2 & _ & _ & _ & H3).
  exists s, c. split; [exact H|]. split; [exact H1|]. split; [exact H2|exact H3].
Defined.

Lemma nav_never_dilutes_witness : exists s, sample_issue = Ok s /\
  exists c val b, ModuleBase.setTokens (world s) !! "set"%string = Some c /\ 0 < b /\
    let supply := totalSupply (SetToken.tokens sample_token) in
    let value := supply * val / PRECISE_UNIT in
    value * totalSupply (SetToken.tokens c) <=
      (value + (coin_balance (money s) "USDC" "set" - coin_balance sample_money "USDC" "set") * PRECISE_UNIT / b) * supply.
Proof.
  destruct sample_issue_Ok as [s H]. exists s. split; [exact H|].
  destruct (nav_never_dilutes (ET := erc20_ref) "nav" sample_decimals no_issueHook no_redeemHook sample_valuer "bob" "set" "USDC"
    (10 ^ 9) 1 "bob" sample_state s sample_token typed_sample_valuer typed_sample (proj1 sample_quantities) nav_sample_lookup)
    as [HI _]; [intros E; discriminate E|].
  destruct (HI (proj1 no_hooks) H) as (c & val & b & H1 & _ & _ & H2 & H3).
  exists c, val, b. split; [exact H1|]. split; [exact H2|exact H3].
Defined.

(** The state before the module is initialized; the manager gives it its terms. *)
Definition fresh_state : state :=
  mk guard_new ∅ ∅ []
    (ModuleBase.mkChain sample_controller {[ "set"%string := SetToken.mkContract sample_pending sample_ledger ]}) sample_money.

Definition sample_initialized : result state := initialize "nav" "manager" "set" sample_settings fresh_state.

Lemma sample_initialized_Ok : exists s, sample_initialized = Ok s.
Proof. apply is_Ok_true. by vm_compute. Qed.

Lemma no_flags r : ("set"%string, r) ∉ isReserveAsset fresh_state.
Proof. exact (not_elem_of_empty _). Qed.

Lemma nav_terms_witness : exists s, sample_initialized = Ok s /\
  forall s' sender v, editPremium "nav" sender "set" v s = Ok s' -> premiumPercentage (settings s' "set") <= 10 ^ 16.
Proof.
  destruct sample_initialized_Ok as [s H]. exists s. split; [exact H|]. intros s' sender v Q.
  destruct (nav_terms (ET := erc20_ref) "nav" sample_decimals no_issueHook no_redeemHook "manager" "set" sample_settings
    fresh_state s s' no_flags H) as (HT & _).
  - intros s1 s2 [E|[(h & b & r & q & c & t & E)|(h & b & q & c & t & E)]] HT; [by rewrite E|apply Ok_inj in E; by rewrite <- E..].
  - apply rtc_once. eapply (settings_call "nav" sample_decimals no_issueHook no_redeemHook "set" sample_valuer sender
      (EditPremium "set" v)); [exact I|exact Q].
  - exact (proj1 (proj2 (proj2 (terms_bounds _ _ _ HT)))).
Defined.

(** A redemption can be announced as valid and revert: [isRedeemValid] compares the
    net quantity, after fees, with what the token holds, the redemption itself takes
    the fees from it, too. Sixty percent of the supply is more than the dollars of
    the sample token. *)
Definition big_redeem : Z := 11440 * 10 ^ 15.

Theorem redeem_valid_but_reverts :
  isRedeemValid "nav" sample_valuer sample_decimals sample_state "set" "USDC" big_redeem = Ok true /\
  redeem "nav" sample_valuer sample_decimals no_redeemHook "alice" "set" "USDC" big_redeem 1 "alice" sample_state
    = Throw "Must be greater than total available collateral".
Proof.
  split; [vm_compute; reflexivity|]. apply throws_spec; [intros E; discriminate E|]. vm_compute. reflexivity.
Qed.

End NavIssuanceModule.
