(* ===== verification/IntegrationRegistry.v ===== *)
(** * The integration registry

    [contracts/protocol/IntegrationRegistry.sol]: adapters by module and by the
    hash of their name. The registry asks its controller whether a module is
    enabled; that answer is an argument of the functions that ask. *)

From S2P Require Import Prelude JsString Ethers Constants Ownable Controller.
From Stdlib Require Import String.

Local Open Scope Z_scope.

Module IntegrationRegistry.

Inductive Event :=
  | IntegrationAdded (m adapter : Address) (name : string)
  | IntegrationEdited (m adapter : Address) (name : string)
  | IntegrationRemoved (m adapter : Address) (name : string)
  | OwnershipTransferred (previousOwner newOwner : Address).

Record state := mk {
  owner : Address;
  controller : Address;
  integrations : gmap (Address * string) Address;   (** module and hash of the name *)
  emitted : list Event;
}.

Definition constructor (msg_sender _controller : Address) : state :=
  mk msg_sender _controller ∅ [OwnershipTransferred ADDRESS_ZERO msg_sender].

Section IntegrationRegistry.
Context `{EU : EthersUtils} `{OW : Ownable}.

Definition _nameHash (_name : string) : string := keccak256 _name.

Definition adapterOf (s : state) (_module : Address) (hash : string) : Address :=
  default ADDRESS_ZERO (integrations s !! (_module, hash)).

Definition getIntegrationAdapter (_module : Address) (_name : string) (s : state) : Address :=
  adapterOf s _module (_nameHash _name).

Definition getIntegrationAdapterWithHash (_module : Address) (hash : string) (s : state) : Address :=
  adapterOf s _module hash.

Definition isValidIntegration (_module : Address) (_name : string) (s : state) : bool :=
  bool_decide (adapterOf s _module (_nameHash _name) <> ADDRESS_ZERO).

Definition onlyOwner (msg_sender : Address) (s : state) : result unit :=
  require (bool_decide (msg_sender = owner s)) "Ownable: caller is not the owner".

Definition addIntegration (isModule : Address -> bool) (msg_sender _module : Address)
    (_name : string) (_adapter : Address) (s : state) : result state :=
  _ ← onlyOwner msg_sender s;
  let hashedName := _nameHash _name in
  _ ← require (isModule _module) "Must be valid module.";
  _ ← require (bool_decide (adapterOf s _module hashedName = ADDRESS_ZERO)) "Integration exists already.";
  _ ← require (bool_decide (_adapter <> ADDRESS_ZERO)) "Adapter address must exist.";
  Ok (mk (owner s) (controller s) (<[ (_module, hashedName) := _adapter ]> (integrations s))
        (emitted s ++ [IntegrationAdded _module _adapter _name])).

Definition editIntegration (isModule : Address -> bool) (msg_sender _module : Address)
    (_name : string) (_adapter : Address) (s : state) : result state :=
  _ ← onlyOwner msg_sender s;
  let hashedName := _nameHash _name in
  _ ← require (isModule _module) "Must be valid module.";
  _ ← require (bool_decide (adapterOf s _module hashedName <> ADDRESS_ZERO)) "Integration does not exist.";
  _ ← require (bool_decide (_adapter <> ADDRESS_ZERO)) "Adapter address must exist.";
  Ok (mk (owner s) (controller s) (<[ (_module, hashedName) := _adapter ]> (integrations s))
        (emitted s ++ [IntegrationEdited _module _adapter _name])).

(** The checks and the loop of the two batch functions. *)
Definition batch (f : Address -> string -> Address -> state -> result state)
    (msg_sender : Address) (_modules : list Address) (_names : list string)
    (_adapters : list Address) (s : state) : result state :=
  _ ← onlyOwner msg_sender s;
  let modulesCount := List.length _modules in
  _ ← require (0 <? modulesCount)%nat "Modules must not be empty";
  _ ← require (modulesCount =? List.length _names)%nat "Module and name lengths mismatch";
  _ ← require (modulesCount =? List.length _adapters)%nat "Module and adapter lengths mismatch";
  foldM (fun s (mna : (Address * string) * Address) => f mna.1.1 mna.1.2 mna.2 s) s
    (combine (combine _modules _names) _adapters).

Definition batchAddIntegration isModule msg_sender :=
  batch (addIntegration isModule msg_sender) msg_sender.

Definition batchEditIntegration isModule msg_sender :=
  batch (editIntegration isModule msg_sender) msg_sender.

Definition removeIntegration (msg_sender _module : Address) (_name : string) (s : state)
    : result state :=
  _ ← onlyOwner msg_sender s;
  let hashedName := _nameHash _name in
  let oldAdapter := adapterOf s _module hashedName in
  _ ← require (bool_decide (oldAdapter <> ADDRESS_ZERO)) "Integration does not exist.";
  Ok (mk (owner s) (controller s) (delete (_module, hashedName) (integrations s))
        (emitted s ++ [IntegrationRemoved _module oldAdapter _name])).

(** Inherited from [Ownable]. *)
Definition transferOwnership (msg_sender newOwner : Address) (s : state) : result state :=
  o ← ownable_transfer msg_sender newOwner (owner s);
  Ok (mk o (controller s) (integrations s) (emitted s ++ [OwnershipTransferred (owner s) o])).

Definition renounceOwnership (msg_sender : Address) (s : state) : result state :=
  o ← ownable_renounce msg_sender (owner s);
  Ok (mk o (controller s) (integrations s) (emitted s ++ [OwnershipTransferred (owner s) o])).

(** ** Lemmas *)

Lemma addIntegration_Ok_inv isModule sender m n a s s' :
  addIntegration isModule sender m n a s = Ok s' ->
  adapterOf s m (_nameHash n) = ADDRESS_ZERO /\ a <> ADDRESS_ZERO /\ isModule m = true /\
  sender = owner s /\ owner s' = owner s /\
  integrations s' = <[ (m, _nameHash n) := a ]> (integrations s).
Proof.
  unfold addIntegration, onlyOwner, require.
  destruct (bool_decide (sender = _)) eqn:E1; run_result; [|done].
  destruct (isModule m) eqn:E2; run_result; [|done].
  destruct (bool_decide (adapterOf _ _ _ = _)) eqn:E3; run_result; [|done].
  destruct (bool_decide (a <> _)) eqn:E4; run_result; [|done].
  apply bool_decide_eq_true in E1, E3, E4. by intros [= <-].
Qed.

Lemma adapterOf_insert s s' k a m h : integrations s' = <[ k := a ]> (integrations s) ->
  adapterOf s' m h = if decide (k = (m, h)) then a else adapterOf s m h.
Proof.
  intros E. unfold adapterOf. rewrite E. case_decide as D.
  - subst. by rewrite lookup_insert_eq.
  - by rewrite lookup_insert_ne.
Qed.

(** What a run of additions leaves: each key it named, and no other, changed,
    and no key was named twice. *)
Lemma addLoop_spec isModule sender l s s' :
  foldM (fun s (mna : (Address * string) * Address) =>
    addIntegration isModule sender mna.1.1 mna.1.2 mna.2 s) s l = Ok s' ->
  NoDup (map (fun mna : (Address * string) * Address => (mna.1.1, _nameHash mna.1.2)) l) /\
  (forall m n a, (m, n, a) ∈ l -> adapterOf s' m (_nameHash n) = a /\
     adapterOf s m (_nameHash n) = ADDRESS_ZERO /\ a <> ADDRESS_ZERO) /\
  (forall m h, (m, h) ∉ map (fun mna : (Address * string) * Address => (mna.1.1, _nameHash mna.1.2)) l ->
     adapterOf s' m h = adapterOf s m h).
Proof.
  revert s; induction l as [|[[m n] a] l IH]; intros s; cbn [foldM].
  - intros [= <-]. split_and!; [constructor|set_solver|done].
  - cbn [fst snd]. intros H. apply bind_Ok_inv in H as (s1 & H1 & H).
    apply addIntegration_Ok_inv in H1 as (Hfresh & Hnz & _ & _ & _ & Hi).
    destruct (IH _ H) as (HN & Hin & Hout). cbn [map fst snd].
    assert (Hkey : (m, _nameHash n) ∉
        map (fun mna : (Address * string) * Address => (mna.1.1, _nameHash mna.1.2)) l).
    { intros (([m' n'] & a') & Ek & Hm)%list_elem_of_In%in_map_iff.
      apply list_elem_of_In in Hm. cbn in Ek. injection Ek as -> Eh.
      destruct (Hin m n' a' Hm) as (_ & Hz & _).
      rewrite (adapterOf_insert _ _ _ _ _ _ Hi) in Hz. case_decide; congruence. }
    split_and!; [by constructor| |].
    + intros m' n' a' [Heq|Hm]%elem_of_cons.
      * injection Heq as -> -> ->. split_and!; [|done|done].
        rewrite Hout by done. rewrite (adapterOf_insert _ _ _ _ _ _ Hi). by rewrite decide_True.
      * destruct (Hin m' n' a' Hm) as (E1 & E2 & E3). split_and!; [done| |done].
        rewrite (adapterOf_insert _ _ _ _ _ _ Hi) in E2. case_decide; [congruence|done].
    + intros m' h' Hnot. apply not_elem_of_cons in Hnot as [Hne Hnot].
      rewrite Hout by done. rewrite (adapterOf_insert _ _ _ _ _ _ Hi).
      by rewrite decide_False by done.
Qed.

(** ** Theorems *)

(** A batch of additions takes effect as a whole or not at all: when it
    succeeds, every named integration was absent, was named once, and is now
    exactly the given adapter; every other integration is as before. *)
Theorem batchAddIntegration_all isModule sender ms ns adapters s s' :
  batchAddIntegration isModule sender ms ns adapters s = Ok s' ->
  let l := combine (combine ms ns) adapters in
  List.length l = List.length ms /\
  NoDup (map (fun mna : (Address * string) * Address => (mna.1.1, _nameHash mna.1.2)) l) /\
  (forall m n a, (m, n, a) ∈ l -> getIntegrationAdapter m n s' = a /\ isValidIntegration m n s' = true /\
     isValidIntegration m n s = false) /\
  (forall m h, (m, h) ∉ map (fun mna : (Address * string) * Address => (mna.1.1, _nameHash mna.1.2)) l ->
     getIntegrationAdapterWithHash m h s' = getIntegrationAdapterWithHash m h s).
Proof.
  unfold batchAddIntegration, batch, onlyOwner, require.
  destruct (bool_decide (sender = _)); run_result; [|done].
  destruct (0 <? _)%nat eqn:E1; run_result; [|done].
  destruct (List.length ms =? List.length ns)%nat eqn:E2; run_result; [|done].
  destruct (List.length ms =? List.length adapters)%nat eqn:E3; run_result; [|done].
  apply Nat.eqb_eq in E2, E3. intros H. apply addLoop_spec in H as (HN & Hin & Hout).
  split_and!; [rewrite !length_combine; lia | done | | exact Hout].
  intros m n a Hm. destruct (Hin m n a Hm) as (E & Ez & Hz).
  unfold getIntegrationAdapter, isValidIntegration. rewrite E, Ez.
  split_and!; [done | by apply bool_decide_eq_true | apply bool_decide_eq_false; tauto].
Qed.

(** Adding an integration and removing it again restores the registry. *)
Theorem add_remove_roundtrip isModule sender m n a s s' :
  addIntegration isModule sender m n a s = Ok s' ->
  exists s'', removeIntegration sender m n s' = Ok s'' /\
    forall m' h, getIntegrationAdapterWithHash m' h s'' = getIntegrationAdapterWithHash m' h s.
Proof.
  intros H. apply addIntegration_Ok_inv in H as (Hz & Hnz & _ & -> & Ho & Hi).
  unfold removeIntegration, onlyOwner, require.
  rewrite (bool_decide_eq_true_2 (owner s = owner s')) by done. run_result.
  rewrite (adapterOf_insert _ _ _ _ _ _ Hi), decide_True by done.
  rewrite bool_decide_eq_true_2 by done. run_result. eexists. split; [reflexivity|].
  intros m' h. unfold getIntegrationAdapterWithHash, adapterOf at 1. cbn [integrations].
  destruct (decide ((m, _nameHash n) = (m', h))) as [E|D]; [injection E as <- <-|].
  - by rewrite lookup_delete_eq, Hz.
  - rewrite lookup_delete_ne by done. fold (adapterOf s' m' h).
    by rewrite (adapterOf_insert _ _ _ _ _ _ Hi), decide_False by done.
Qed.

End IntegrationRegistry.
End IntegrationRegistry.

(** ** Concrete instances *)

Section Instances.
Import IntegrationRegistry.

Definition registry0 : state := constructor "owner" "controller".

Lemma batchAdd_runs : is_Ok (batchAddIntegration (fun _ => true) "owner" ["m"; "m"]%string ["A"; "B"]%string
  ["x"; "y"]%string registry0) = true.
Proof. vm_compute. reflexivity. Qed.

Lemma batchAdd_witness : exists s',
  batchAddIntegration (fun _ => true) "owner" ["m"; "m"]%string ["A"; "B"]%string ["x"; "y"]%string registry0 = Ok s' /\
  getIntegrationAdapter "m" "B" s' = "y"%string.
Proof.
  destruct (is_Ok_true _ batchAdd_runs) as [s' E]. exists s'. split; [exact E|].
  eapply (batchAddIntegration_all (fun _ => true) "owner" ["m"; "m"]%string ["A"; "B"]%string
    ["x"; "y"]%string registry0 s' E). right. left.
Defined.

Lemma add_runs : is_Ok (addIntegration (fun _ => true) "owner" "m" "A" "x" registry0) = true.
Proof. vm_compute. reflexivity. Qed.

Lemma add_remove_witness : exists s'',
  (s' ← addIntegration (fun _ => true) "owner" "m" "A" "x" registry0; removeIntegration "owner" "m" "A" s') = Ok s''
  /\ forall m' h, getIntegrationAdapterWithHash m' h s'' = getIntegrationAdapterWithHash m' h registry0.
Proof.
  destruct (is_Ok_true _ add_runs) as [s' E]. rewrite E, bind_Ok.
  exact (add_remove_roundtrip (fun _ => true) "owner" "m" "A" "x" registry0 s' E).
Defined.

End Instances.
