(* ===== verification/Protocol.v ===== *)
(** * The protocol contracts on a chain

    [contracts/protocol/SetTokenCreator.sol], and the state that a history of
    transactions leaves in the modelled contracts: controllers
    (Controller.v), factories, integration registries (IntegrationRegistry.v)
    and the SetTokens that are created (SetToken.v; calls made to them
    afterwards are not replayed), with the logs of these contracts by block. Contracts
    that are not modelled accept everything here and keep no state. [ProtocolNode] is
    a node whose answers about the modelled contracts are theirs. *)

From S2P Require Import Prelude JsString Ethers Constants Evm Erc20 Ownable Controller SetToken IntegrationRegistry.
From Stdlib Require Import String.

Local Open Scope Z_scope.

Import AddressArrayUtils.

(** ** SetTokenCreator *)

Module SetTokenCreator.

Inductive Event :=
  | SetTokenCreated (_setToken _manager : Address) (_name _symbol : string)
  | OwnershipTransferred (previousOwner newOwner : Address).

Record state := mk { owner : Address; controller : Address; created : nat; emitted : list Event }.

Definition constructor (msg_sender _controller : Address) : state :=
  mk msg_sender _controller 0 [OwnershipTransferred ADDRESS_ZERO msg_sender].

(** The component and unit checks of [create]. *)
Definition checkComponents (l : list (Address * Z)) : result unit :=
  foldM (fun _ (cu : Address * Z) =>
    _ ← require (bool_decide (cu.1 <> ADDRESS_ZERO)) "Component must not be null address";
    require (0 <? cu.2) "Units must be greater than 0") tt l.

Definition checkModules (ctl : Controller.state) (l : list Address) : result unit :=
  foldM (fun _ m => require (bool_decide (m ∈ Controller.isModule ctl)) "Must be enabled module") tt l.

(** [create], called on the factory at [this]; [setToken] is the address the
    new contract gets. Gives the SetToken and the controller after [addSet]. *)
Definition create (this msg_sender setToken : Address) (_components : list Address)
    (_units : list Z) (_modules : list Address) (_manager : Address) (_name _symbol : string)
    (ctl : Controller.state) (s : state) : result (SetToken.state * Controller.state * state) :=
  _ ← require (bool_decide (msg_sender = owner s)) "Ownable: caller is not the owner";
  _ ← require (0 <? List.length _components)%nat "Must have at least 1 component";
  _ ← require (List.length _components =? List.length _units)%nat
        "Component and unit lengths must be the same";
  dup ← hasDuplicate _components;
  _ ← require (negb dup) "Components must not have a duplicate";
  _ ← require (0 <? List.length _modules)%nat "Must have at least 1 module";
  _ ← require (bool_decide (_manager <> ADDRESS_ZERO)) "Manager must not be empty";
  _ ← checkComponents (combine _components _units);
  _ ← checkModules ctl _modules;
  let token := SetToken.constructor _components _units _modules (controller s) _manager _name _symbol in
  ctl' ← Controller.addSet this setToken ctl;
  Ok (token, ctl', mk (owner s) (controller s) (S (created s))
    (emitted s ++ [SetTokenCreated setToken _manager _name _symbol])).

(** Inherited from [Ownable]. *)
Definition transferOwnership `{Ownable} (msg_sender newOwner : Address) (s : state) : result state :=
  o ← ownable_transfer msg_sender newOwner (owner s);
  Ok (mk o (controller s) (created s) (emitted s ++ [OwnershipTransferred (owner s) o])).

Definition renounceOwnership `{Ownable} (msg_sender : Address) (s : state) : result state :=
  o ← ownable_renounce msg_sender (owner s);
  Ok (mk o (controller s) (created s) (emitted s ++ [OwnershipTransferred (owner s) o])).

End SetTokenCreator.

(** ** Decoding calls *)

Definition strings_of (l : list jsv) : option (list string) :=
  mapM (fun v => match v with JStr s => Some s | _ => None end) l.

Definition numbers_of (l : list jsv) : option (list Z) :=
  mapM (fun v => match v with JNum z => Some z | _ => None end) l.

Lemma strings_of_JStr l : strings_of (map JStr l) = Some l.
Proof. unfold strings_of. induction l as [|s l IH]; [done|]. cbn. cbn in IH. by rewrite IH. Qed.

Lemma numbers_of_JNum l : numbers_of (map JNum l) = Some l.
Proof. unfold numbers_of. induction l as [|s l IH]; [done|]. cbn. cbn in IH. by rewrite IH. Qed.

Definition controllerCall (method : string) (args : list jsv) : option Controller.Call :=
  match method, args with
  | "initialize", [JArr fs; JArr ms; JArr rs; JArr ids] =>
      fs ← strings_of fs; ms ← strings_of ms; rs ← strings_of rs; ids ← numbers_of ids;
      Some (Controller.Initialize fs ms rs ids)
  | "addSet", [JStr a] => Some (Controller.AddSet a)
  | "removeSet", [JStr a] => Some (Controller.RemoveSet a)
  | "addFactory", [JStr a] => Some (Controller.AddFactory a)
  | "removeFactory", [JStr a] => Some (Controller.RemoveFactory a)
  | "addModule", [JStr a] => Some (Controller.AddModule a)
  | "removeModule", [JStr a] => Some (Controller.RemoveModule a)
  | "addResource", [JStr a; JNum id] => Some (Controller.AddResource a id)
  | "removeResource", [JNum id] => Some (Controller.RemoveResource id)
  | "addFee", [JStr m; JNum t; JNum p] => Some (Controller.AddFee m t p)
  | "editFee", [JStr m; JNum t; JNum p] => Some (Controller.EditFee m t p)
  | "editFeeRecipient", [JStr r] => Some (Controller.EditFeeRecipient r)
  | "transferOwnership", [JStr o] => Some (Controller.TransferOwnership o)
  | "renounceOwnership", [] => Some Controller.RenounceOwnership
  | _, _ => None
  end%string.

Definition unrecognized {A} : result A := Throw "function selector was not recognized".

(** ** Execution of a history *)

Record world := mkWorld {
  controllers : gmap Address Controller.state;
  creators : gmap Address SetTokenCreator.state;
  registries : gmap Address IntegrationRegistry.state;
  setTokens : gmap Address SetToken.state;
}.

(** The contracts that are modelled. *)
Inductive kind := KController | KSetTokenCreator | KIntegrationRegistry | KSetToken | KOther.

Definition contract_kind (c : string) : kind :=
  match c with
  | "Controller" => KController
  | "SetTokenCreator" => KSetTokenCreator
  | "IntegrationRegistry" => KIntegrationRegistry
  | "SetToken" => KSetToken
  | _ => KOther
  end%string.

Definition empty_world : world := mkWorld ∅ ∅ ∅ ∅.

Section World.
Context `{EU : EthersUtils} `{OW : Ownable}.
Context (addr : Address -> nat -> Address).   (** address of a contract by creator and nonce *)

Definition exec_deploy (w : world) (a from : Address) (c : string) (args : list jsv) : result world :=
  match contract_kind c, args with
  | KController, [JStr r] =>
      Ok (mkWorld (<[ a := Controller.constructor from r ]> (controllers w)) (creators w)
            (registries w) (setTokens w))
  | KSetTokenCreator, [JStr ctl] =>
      Ok (mkWorld (controllers w) (<[ a := SetTokenCreator.constructor from ctl ]> (creators w))
            (registries w) (setTokens w))
  | KIntegrationRegistry, [JStr ctl] =>
      Ok (mkWorld (controllers w) (creators w)
            (<[ a := IntegrationRegistry.constructor from ctl ]> (registries w)) (setTokens w))
  | KSetToken, [JArr cs; JArr us; JArr ms; JStr ctl; JStr m; JStr n; JStr sy] =>
      match strings_of cs, numbers_of us, strings_of ms with
      | Some cs, Some us, Some ms =>
          Ok (mkWorld (controllers w) (creators w) (registries w)
                (<[ a := SetToken.constructor cs us ms ctl m n sy ]> (setTokens w)))
      | _, _, _ => Throw "invalid value"
      end
  | _, _ => Ok (mkWorld (controllers w) (creators w) (registries w) (setTokens w))
  end.

Definition exec_creator (w : world) (from to : Address) (s : SetTokenCreator.state)
    (method : string) (args : list jsv) : result world :=
  match String.eqb method "create", args with
  | true, [JArr cs; JArr us; JArr ms; JStr m; JStr n; JStr sy] =>
      match strings_of cs, numbers_of us, strings_of ms, controllers w !! SetTokenCreator.controller s with
      | Some cs, Some us, Some ms, Some ctl =>
          (** A contract's first nonce is 1. *)
          let a := addr to (S (SetTokenCreator.created s)) in
          r ← SetTokenCreator.create to from a cs us ms m n sy ctl s;
          Ok (mkWorld (<[ SetTokenCreator.controller s := r.1.2 ]> (controllers w))
                (<[ to := r.2 ]> (creators w)) (registries w) (<[ a := r.1.1 ]> (setTokens w)))
      | _, _, _, _ => Throw "invalid value"
      end
  | _, _ =>
      s' ← match method, args with
           | "transferOwnership", [JStr o] => SetTokenCreator.transferOwnership from o s
           | "renounceOwnership", [] => SetTokenCreator.renounceOwnership from s
           | _, _ => unrecognized
           end%string;
      Ok (mkWorld (controllers w) (<[ to := s' ]> (creators w)) (registries w) (setTokens w))
  end.

Definition exec_registry (w : world) (from to : Address) (s : IntegrationRegistry.state)
    (method : string) (args : list jsv) : result world :=
  let isModule m := match controllers w !! IntegrationRegistry.controller s with
                    | Some ctl => bool_decide (m ∈ Controller.isModule ctl)
                    | None => false
                    end in
  s' ← match method, args with
       | "addIntegration", [JStr m; JStr n; JStr a] =>
           IntegrationRegistry.addIntegration isModule from m n a s
       | "editIntegration", [JStr m; JStr n; JStr a] =>
           IntegrationRegistry.editIntegration isModule from m n a s
       | "removeIntegration", [JStr m; JStr n] =>
           IntegrationRegistry.removeIntegration from m n s
       | "batchAddIntegration", [JArr ms; JArr ns; JArr xs] =>
           match strings_of ms, strings_of ns, strings_of xs with
           | Some ms, Some ns, Some xs =>
               IntegrationRegistry.batchAddIntegration isModule from ms ns xs s
           | _, _, _ => Throw "invalid value"
           end
       | "batchEditIntegration", [JArr ms; JArr ns; JArr xs] =>
           match strings_of ms, strings_of ns, strings_of xs with
           | Some ms, Some ns, Some xs =>
               IntegrationRegistry.batchEditIntegration isModule from ms ns xs s
           | _, _, _ => Throw "invalid value"
           end
       | "transferOwnership", [JStr o] => IntegrationRegistry.transferOwnership from o s
       | "renounceOwnership", [] => IntegrationRegistry.renounceOwnership from s
       | _, _ => unrecognized
       end%string;
  Ok (mkWorld (controllers w) (creators w) (<[ to := s' ]> (registries w)) (setTokens w)).

Definition exec_controller (w : world) (from to : Address) (s : Controller.state)
    (method : string) (args : list jsv) : result world :=
  match controllerCall method args with
  | Some c =>
      s' ← Controller.exec from c s;
      Ok (mkWorld (<[ to := s' ]> (controllers w)) (creators w) (registries w) (setTokens w))
  | None => unrecognized
  end.

Definition exec_event (w : world) (ev : event) : result world :=
  match ev with
  | Deployed a from c _ args => exec_deploy w a from c args
  | Sent from to method args value =>
      match controllers w !! to, creators w !! to, registries w !! to with
      | Some s, _, _ => exec_controller w from to s method args
      | None, Some s, _ => exec_creator w from to s method args
      | None, None, Some s => exec_registry w from to s method args
      | None, None, None => Ok (mkWorld (controllers w) (creators w) (registries w) (setTokens w))
      end
  end.

Definition run_event (w : world) (ev : event) : world :=
  match exec_event w ev with Ok w' => w' | Throw _ => w end.

Definition world_of (h : history) : world := foldl run_event empty_world h.

(** ** What an event can touch *)

(** A controller changes only by a deployment at its address, a transaction
    to it, or a factory's [create]. *)
Definition touches (a : Address) (ev : event) : Prop :=
  match ev with
  | Deployed a' _ _ _ _ => a' = a
  | Sent _ to method _ _ => to = a \/ method = "create"%string
  end.

Lemma run_event_controller w ev a : ~ touches a ev ->
  controllers (run_event w ev) !! a = controllers w !! a.
Proof.
  intros Hnt. unfold run_event. destruct (exec_event w ev) as [w'|] eqn:E; [|done].
  destruct ev as [a' from c links args|from to m args v]; cbn [touches exec_event] in *.
  - unfold exec_deploy in E. destruct (contract_kind c); repeat case_match; simplify_eq/=; try done.
    by rewrite lookup_insert_ne.
  - destruct (controllers w !! to) eqn:E1; [|destruct (creators w !! to) eqn:E2;
      [|destruct (registries w !! to) eqn:E3]].
    + unfold exec_controller in E. case_match; [|done].
      apply bind_Ok_inv in E as (s' & _ & E). simplify_eq/=. rewrite lookup_insert_ne; [done|].
      intros ->. tauto.
    + unfold exec_creator in E. destruct (String.eqb_spec m "create"); [destruct Hnt; by right|].
      apply bind_Ok_inv in E as (s' & _ & E). by simplify_eq/=.
    + unfold exec_registry in E. apply bind_Ok_inv in E as (s' & _ & E). by simplify_eq/=.
    + by simplify_eq/=.
Qed.

Lemma world_of_app h evs : world_of (h ++ evs) = foldl run_event (world_of h) evs.
Proof. unfold world_of. by rewrite foldl_app. Qed.

Lemma world_of_snoc h ev : world_of (h ++ [ev]) = run_event (world_of h) ev.
Proof. by rewrite world_of_app. Qed.

Lemma world_of_frame h evs a : Forall (fun ev => ~ touches a ev) evs ->
  controllers (world_of (h ++ evs)) !! a = controllers (world_of h) !! a.
Proof.
  rewrite world_of_app. generalize (world_of h) as w. intros w HF. revert w.
  induction HF as [|ev evs Hev _ IH]; intros w; [done|]. cbn [foldl].
  rewrite IH. by apply run_event_controller.
Qed.

(** ** Logs *)

(** A log is its emitter and its topics: the hash of the event's signature and the
    indexed arguments, where an address stands for itself padded. Its data is left out. *)
Record Log := mkLog { emitter : Address; topics : list string }.

Definition log_of (a : Address) (signature : string) (indexed : list string) : Log :=
  mkLog a (keccak256 signature :: indexed).

Definition controller_log (a : Address) (e : Controller.Event) : Log :=
  match e with
  | Controller.FactoryAdded f => log_of a "FactoryAdded(address)" [f]
  | Controller.FactoryRemoved f => log_of a "FactoryRemoved(address)" [f]
  | Controller.FeeEdited m t p => log_of a "FeeEdited(address,uint256,uint256)" [m; toHexString t]
  | Controller.FeeRecipientChanged r => log_of a "FeeRecipientChanged(address)" []
  | Controller.ModuleAdded m => log_of a "ModuleAdded(address)" [m]
  | Controller.ModuleRemoved m => log_of a "ModuleRemoved(address)" [m]
  | Controller.ResourceAdded r id => log_of a "ResourceAdded(address,uint256)" [r]
  | Controller.ResourceRemoved r id => log_of a "ResourceRemoved(address,uint256)" [r]
  | Controller.SetAdded t f => log_of a "SetAdded(address,address)" [t; f]
  | Controller.SetRemoved t => log_of a "SetRemoved(address)" [t]
  | Controller.OwnershipTransferred o n => log_of a "OwnershipTransferred(address,address)" [o; n]
  end%string.

Definition creator_log (a : Address) (e : SetTokenCreator.Event) : Log :=
  match e with
  | SetTokenCreator.SetTokenCreated t m n sy => log_of a "SetTokenCreated(address,address,string,string)" [t]
  | SetTokenCreator.OwnershipTransferred o n => log_of a "OwnershipTransferred(address,address)" [o; n]
  end%string.

Definition registry_log (a : Address) (e : IntegrationRegistry.Event) : Log :=
  match e with
  | IntegrationRegistry.IntegrationAdded m x n => log_of a "IntegrationAdded(address,address,string)" [m; x]
  | IntegrationRegistry.IntegrationEdited m x n => log_of a "IntegrationEdited(address,address,string)" [m]
  | IntegrationRegistry.IntegrationRemoved m x n => log_of a "IntegrationRemoved(address,address,string)" [m; x]
  | IntegrationRegistry.OwnershipTransferred o n => log_of a "OwnershipTransferred(address,address)" [o; n]
  end%string.

(** What the contract at [a] emitted between two states of the chain. *)
Definition news {A B} (f : A -> list B) (before after : option A) : list B :=
  drop (List.length (default [] (f <$> before))) (default [] (f <$> after)).

Definition contract_logs (w w' : world) (a : Address) : list Log :=
  map (controller_log a) (news Controller.emitted (controllers w !! a) (controllers w' !! a)) ++
  map (creator_log a) (news SetTokenCreator.emitted (creators w !! a) (creators w' !! a)) ++
  map (registry_log a) (news IntegrationRegistry.emitted (registries w !! a) (registries w' !! a)).

(** The logs of a transaction that leads from [w] to [w']: a factory calls its
    controller before it emits. *)
Definition event_logs (w w' : world) (ev : event) : list Log :=
  match ev with
  | Deployed a _ _ _ _ => contract_logs w w' a
  | Sent _ to _ _ _ =>
      match creators w !! to with
      | Some s => contract_logs w w' (SetTokenCreator.controller s)
      | None => []
      end ++ contract_logs w w' to
  end.

(** Logs with the numbers of their blocks: every transaction is mined in a block of
    its own. *)
Fixpoint logs_from (w : world) (block : nat) (h : history) : list (nat * Log) :=
  match h with
  | [] => []
  | ev :: h =>
      let w' := run_event w ev in
      map (pair (S block)) (event_logs w w' ev) ++ logs_from w' (S block) h
  end.

Definition logs_of (h : history) : list (nat * Log) := logs_from empty_world 0 h.

Definition has_topic (topic : string) (l : Log) : bool := bool_decide (head (topics l) = Some topic).

(** [getLogs({ fromBlock, toBlock, topics: [topic] })] on those logs. *)
Definition getLogs (h : history) (fromBlock toBlock : nat) (topic : string) : list Log :=
  map snd (List.filter (fun p : nat * Log =>
    (fromBlock <=? p.1)%nat && (p.1 <=? toBlock)%nat && has_topic topic p.2) (logs_of h)).

Lemma logs_from_app w n h h' :
  logs_from w n (h ++ h') = logs_from w n h ++ logs_from (foldl run_event w h) (n + List.length h) h'.
Proof.
  revert w n. induction h as [|ev h IH]; intros w n; cbn [app logs_from foldl List.length]; [by rewrite Nat.add_0_r|].
  rewrite IH, app_assoc. by rewrite Nat.add_succ_r.
Qed.

Lemma logs_from_block w n h p : p ∈ logs_from w n h -> (p.1 <= n + List.length h)%nat.
Proof.
  revert w n. induction h as [|ev h IH]; intros w n; cbn [logs_from List.length]; [by intros ?%elem_of_nil|].
  intros [(l & -> & _)%list_elem_of_fmap|Hp%IH]%elem_of_app; cbn; lia.
Qed.

Lemma filter_old_logs h n (b : Log -> bool) : (List.length h < n)%nat ->
  List.filter (fun p : nat * Log => (n <=? p.1)%nat && (p.1 <=? n)%nat && b p.2) (logs_of h) = [].
Proof.
  intros Hn. assert (HF : forall p, p ∈ logs_of h -> (p.1 < n)%nat) by (intros p Hp%logs_from_block; lia).
  induction (logs_of h) as [|p l IH]; [done|]. cbn [List.filter].
  rewrite (proj2 (Nat.leb_gt n p.1)) by (apply HF; by left). apply IH. intros q Hq. apply HF. by right.
Qed.

(** The latest block holds the logs of the latest transaction. *)
Lemma getLogs_latest h ev topic : let n := List.length (h ++ [ev]) in
  getLogs (h ++ [ev]) n n topic =
    List.filter (has_topic topic) (event_logs (world_of h) (world_of (h ++ [ev])) ev).
Proof.
  intros n. unfold getLogs, logs_of. rewrite logs_from_app, List.filter_app, map_app.
  fold (logs_of h).
  rewrite (filter_old_logs h n (has_topic topic))
    by (unfold n; rewrite length_app; cbn; lia).
  cbn [logs_from map app]. rewrite app_nil_r, world_of_snoc. fold (world_of h).
  replace (S (0 + List.length h)) with n by (unfold n; rewrite length_app; cbn; lia). cbn [Nat.add].
  induction (event_logs _ _ _) as [|l ls IH]; [done|]. cbn [map List.filter fst snd].
  rewrite Nat.leb_refl. cbn [andb]. destruct (has_topic topic l); cbn [map snd]; by rewrite IH.
Qed.

End World.

(** ** Nodes that run the modelled contracts *)

Definition log_json (l : Log) : jsv := JArr [JStr (emitter l); JArr (map JStr (topics l))].

Definition SetTokenCreated_topic `{EthersUtils} : string := keccak256 "SetTokenCreated(address,address,string,string)".

Class ProtocolNode `{EthersUtils} `{Ownable} (N : Node) : Prop := {
  (** The node executes a transaction only if the modelled contract does. *)
  accepts_sound h ev : accepts h ev = Ok tt ->
    is_Ok (exec_event create (world_of create h) ev) = true;
  view_isInitialized h a s : controllers (world_of create h) !! a = Some s ->
    view h a "isInitialized" [] = Ok (JBool (Controller.isInitialized s));
  (** Only factories emit this event, so that the logs of the modelled contracts are
      all there are. *)
  view_getLogs h : let latest := List.length h in
    view h "provider" "getLogs" [JStr "latest"; JStr "latest"; JStr SetTokenCreated_topic] =
      Ok (JArr (map log_json (getLogs create h latest latest SetTokenCreated_topic)));
}.

Lemma accepted_run `{EthersUtils} `{Ownable} `{PN : ProtocolNode} h ev :
  accepts h ev = Ok tt ->
  exec_event create (world_of create h) ev = Ok (world_of create (h ++ [ev])).
Proof.
  intros Ha. apply accepts_sound in Ha. rewrite world_of_snoc. unfold run_event.
  destruct (exec_event _ _ _); done.
Qed.

(** The reference node: it runs the modelled contracts and nothing else. *)
Section ReferenceNode.
Context `{EU : EthersUtils} `{OW : Ownable}.

Definition protocol_accepts (h : history) (ev : event) : result unit :=
  _ ← exec_event create_ref (world_of create_ref h) ev; Ok tt.

(** The number of a block by its name. *)
Definition block_number (h : history) (b : string) : result nat :=
  if String.eqb b "latest" then Ok (List.length h)
  else if String.eqb b "earliest" then Ok 0%nat else Throw "invalid block tag".

Definition protocol_view (h : history) (a : Address) (method : string) (args : list jsv) : result jsv :=
  let w := world_of create_ref h in
  match String.eqb a "provider" && String.eqb method "getLogs", args with
  | true, [JStr fromBlock; JStr toBlock; JStr topic] =>
      f ← block_number h fromBlock; t ← block_number h toBlock;
      Ok (JArr (map log_json (getLogs create_ref h f t topic)))
  | true, _ => Throw "invalid argument"
  | false, _ =>
      match controllers w !! a with
      | Some s => if String.eqb method "isInitialized"
                  then Ok (JBool (Controller.isInitialized s)) else Ok (JNum 0)
      | None => Ok (JNum 0)
      end
  end.

Definition protocol_node (accounts : list Address) : Node.
Proof.
  refine {| create := create_ref; accepts := protocol_accepts; view := protocol_view;
            listAccounts := accounts |};
    [apply create_ref_inj | apply create_ref_lower_inj | done].
Defined.

End ReferenceNode.

#[export] Instance protocol_node_ok `{EU : EthersUtils} `{OW : Ownable} accounts : ProtocolNode (protocol_node accounts).
Proof.
  constructor.
  - intros h ev. cbn [accepts create protocol_node]. unfold protocol_accepts.
    by destruct (exec_event _ _ _).
  - intros h a s. cbn [view create protocol_node]. intros Hs. unfold protocol_view.
    change (String.eqb "isInitialized" "getLogs") with false. by rewrite andb_false_r, Hs.
  - intros h latest. cbn [view create protocol_node]. unfold protocol_view. done.
Qed.
