(* ===== verification/ConstructorAbi.v ===== *)
(** * Constructors

    The parameter types of the constructor of every contract that the
    deployment helpers deploy, as the contract's source (src/contracts,
    src/external/contracts) or its ABI (src/external/abi) declares them; a
    contract type is an address. [encodes] says which JavaScript values ethers
    can encode as a type, up to the range of integers and the format of
    strings. *)

From S2P Require Import Prelude JsString Ethers Constants Evm.
From Stdlib Require Import String.

Local Open Scope Z_scope.

Inductive abi := TAddress | TUint | TInt | TBool | TString | TBytes | TFixedBytes | TArray (t : abi).

Fixpoint encodes (t : abi) (v : jsv) : bool :=
  match t, v with
  | (TAddress | TString | TBytes | TFixedBytes), JStr _ => true
  | (TUint | TInt), JNum _ => true
  | TBool, JBool _ => true
  | TArray t', JArr l => forallb (encodes t') l
  | _, _ => false
  end.

Definition constructors : list (string * list abi) :=
  [
   ("AMMSplitter", [TAddress; TAddress; TAddress; TAddress]);
   ("APYRescue", [TAddress; TArray TAddress; TAddress]);
   ("AaveGovernanceV2", [TAddress; TUint; TAddress; TArray TAddress]);
   ("AaveGovernanceV2Adapter", [TAddress; TAddress]);
   ("AaveLendingPoolCoreMock", []);
   ("AaveLendingPoolMock", [TAddress]);
   ("AaveLeverageModule", [TAddress; TAddress]);
   ("AaveTokenV2Mintable", []);
   ("AaveV2", []);
   ("AaveV2AToken", []);
   ("AaveV2DefaultReserveInterestRateStrategy", [TAddress; TUint; TUint; TUint; TUint; TUint;
      TUint]);
   ("AaveV2LendingPool", []);
   ("AaveV2LendingPoolAddressesProvider", [TString]);
   ("AaveV2LendingPoolCollateralManager", []);
   ("AaveV2LendingPoolConfigurator", []);
   ("AaveV2LendingRateOracle", []);
   ("AaveV2Mock", []);
   ("AaveV2Oracle", [TArray TAddress; TArray TAddress; TAddress; TAddress]);
   ("AaveV2PriceOracle", []);
   ("AaveV2ProtocolDataProvider", [TAddress]);
   ("AaveV2StableDebtToken", []);
   ("AaveV2StakedTokenIncentivesController", [TAddress; TAddress]);
   ("AaveV2VariableDebtToken", []);
   ("AaveV2WrapV2Adapter", [TAddress]);
   ("AddressArrayUtilsMock", []);
   ("AirdropModule", [TAddress]);
   ("AmmAdapterMock", [TArray TAddress]);
   ("AmmModule", [TAddress]);
   ("AssetLimitHook", [TArray TAddress; TArray TUint]);
   ("BFactory", []);
   ("BRegistry", [TAddress]);
   ("BalancerV1IndexExchangeAdapter", [TAddress]);
   ("BasicIssuanceModule", [TAddress]);
   ("BytesArrayUtilsMock", []);
   ("CERc20", [TAddress; TAddress; TAddress; TUint; TString; TString; TUint]);
   ("CEther", [TAddress; TAddress; TUint; TString; TString; TUint]);
   ("CRVToken", [TString; TString; TUint]);
   ("CTokenOracle", [TAddress; TAddress; TUint; TUint; TString]);
   ("ChainlinkAggregatorMock", [TUint]);
   ("ClaimAdapterMock", []);
   ("ClaimModule", [TAddress]);
   ("Comp", [TAddress]);
   ("CompClaimAdapter", [TAddress]);
   ("Compound", []);
   ("CompoundBravoGovernanceAdapter", [TAddress; TAddress]);
   ("CompoundGovernorAlpha", [TAddress; TAddress; TAddress]);
   ("CompoundGovernorBravoDelegate", []);
   ("CompoundGovernorBravoDelegator", [TAddress; TAddress; TAddress; TAddress; TUint; TUint;
      TUint]);
   ("CompoundLeverageModule", [TAddress; TAddress; TAddress; TAddress; TAddress]);
   ("CompoundLikeGovernanceAdapter", [TAddress; TAddress]);
   ("CompoundMock", []);
   ("CompoundPriceOracleMock", []);
   ("CompoundTimelock", [TAddress; TUint]);
   ("CompoundWrapV2Adapter", []);
   ("Comptroller", []);
   ("ComptrollerMock", [TAddress; TUint; TAddress]);
   ("ContractCallerMock", []);
   ("Controller", [TAddress]);
   ("CurveDeposit", [TArray TAddress; TArray TAddress; TAddress; TAddress]);
   ("CurveExchangeAdapter", [TAddress; TAddress; TInt; TInt; TAddress]);
   ("CurvePoolERC20", [TString; TString; TUint; TUint]);
   ("CurveStEthExchangeAdapter", [TAddress; TAddress; TAddress]);
   ("CurveStableswapMock", [TArray TAddress]);
   ("CurveStakingAdapter", [TAddress]);
   ("CustomOracleNavIssuanceModule", [TAddress; TAddress]);
   ("CustomSetValuerMock", []);
   ("DMMFactory", [TAddress]);
   ("DMMPool", []);
   ("DMMRouter02", [TAddress; TAddress]);
   ("DebtIssuanceMock", []);
   ("DebtIssuanceModule", [TAddress]);
   ("DebtIssuanceModuleV2", [TAddress]);
   ("DebtModuleMock", [TAddress]);
   ("DelegateRegistry", []);
   ("ExchangeIssuanceZeroEx", [TAddress; TAddress; TAddress]);
   ("ExchangeProxy", [TAddress]);
   ("Executor", [TAddress; TUint; TUint; TUint; TUint; TUint; TUint; TUint; TUint]);
   ("ExplicitERC20Mock", []);
   ("ForceFunderMock", []);
   ("GaugeController", [TAddress; TAddress]);
   ("GaugeControllerMock", []);
   ("GeneralIndexModule", [TAddress; TAddress]);
   ("GenericLogic", []);
   ("GodModeMock", [TAddress]);
   ("GovernanceAdapterMock", [TUint]);
   ("GovernanceModule", [TAddress]);
   ("GovernanceStrategy", [TAddress; TAddress]);
   ("IntegrationRegistry", [TAddress]);
   ("InvokeMock", []);
   ("IssuanceModule", [TAddress]);
   ("KyberExchangeAdapter", [TAddress]);
   ("KyberNetworkProxyMock", [TAddress]);
   ("KyberNetworkTokenV2", []);
   ("KyberV3IndexExchangeAdapter", [TAddress; TAddress]);
   ("LiquidityGauge", [TAddress; TAddress]);
   ("LiquidityGaugeReward", [TAddress; TAddress; TAddress; TAddress]);
   ("ManagerIssuanceHookMock", []);
   ("Minter", [TAddress; TAddress]);
   ("ModuleBaseMock", [TAddress]);
   ("ModuleBaseV2Mock", [TAddress]);
   ("ModuleIssuanceHookMock", []);
   ("NAVIssuanceCaller", [TAddress]);
   ("NAVIssuanceHookMock", []);
   ("NFTDescriptor", []);
   ("NonfungiblePositionManager", [TAddress; TAddress; TAddress]);
   ("NotionalTradeModule", [TAddress; TAddress; TAddress]);
   ("OneInchExchangeAdapter", [TAddress; TAddress; TFixedBytes]);
   ("OneInchExchangeMock", [TAddress; TAddress; TUint; TUint]);
   ("Operator", []);
   ("OracleAdapterMock", [TAddress; TUint]);
   ("OracleMock", [TUint]);
   ("PerpV2", []);
   ("PerpV2AccountBalance", []);
   ("PerpV2BaseToken", []);
   ("PerpV2BasisTradingModule", [TAddress; TAddress; TAddress; TAddress; TUint]);
   ("PerpV2ChainlinkPriceFeed", []);
   ("PerpV2ClearingHouse", []);
   ("PerpV2ClearingHouseConfig", []);
   ("PerpV2Exchange", []);
   ("PerpV2InsuranceFund", []);
   ("PerpV2LeverageModuleV2", [TAddress; TAddress; TAddress; TAddress; TUint]);
   ("PerpV2LeverageModuleViewer", [TAddress; TAddress; TAddress; TAddress]);
   ("PerpV2LibraryV2", []);
   ("PerpV2LibraryV2Mock", []);
   ("PerpV2MarketRegistry", []);
   ("PerpV2Mock", []);
   ("PerpV2OrderBook", []);
   ("PerpV2Positions", []);
   ("PerpV2PositionsMock", []);
   ("PerpV2QuoteToken", []);
   ("PerpV2Quoter", [TAddress]);
   ("PerpV2TestAggregatorV3", []);
   ("PerpV2Vault", []);
   ("PositionMock", []);
   ("PositionUnitAdjusterModule", [TAddress; TAddress]);
   ("PositionV2", []);
   ("PositionV2Mock", []);
   ("PreciseUnitMathMock", []);
   ("PriceOracle", [TAddress; TAddress; TArray TAddress; TArray TAddress; TArray TAddress; TArray
      TAddress]);
   ("PriceOracleProxy", [TAddress; TAddress; TAddress; TAddress; TAddress; TAddress; TAddress]);
   ("ProtocolViewer", []);
   ("Quoter", [TAddress; TAddress]);
   ("Registry", []);
   ("ReserveLogic", []);
   ("ResourceIdentifierMock", []);
   ("RgtMigrationWrapAdapter", [TAddress]);
   ("SetToken", [TArray TAddress; TArray TInt; TArray TAddress; TAddress; TAddress; TString;
      TString]);
   ("SetTokenAccessibleMock", [TAddress]);
   ("SetTokenCreator", [TAddress]);
   ("SetValuer", [TAddress]);
   ("SingleIndexModule", [TAddress; TAddress; TAddress; TAddress; TAddress]);
   ("SlippageIssuanceModule", [TAddress]);
   ("SnapshotGovernanceAdapter", [TAddress]);
   ("Stableswap", [TArray TAddress; TArray TAddress; TAddress; TUint; TUint]);
   ("StakingAdapterMock", [TAddress]);
   ("StakingModule", [TAddress]);
   ("StakingRewards", [TAddress; TAddress; TAddress]);
   ("StandardTokenMock", [TAddress; TUint; TString; TString; TUint]);
   ("StandardTokenWithFeeMock", [TAddress; TUint; TString; TString; TUint]);
   ("StandardTokenWithRoundingErrorMock", [TAddress; TUint; TInt; TString; TString; TUint]);
   ("StreamingFeeModule", [TAddress]);
   ("StringArrayUtilsMock", []);
   ("SwapRouter", [TAddress; TAddress]);
   ("SynthMock", [TAddress; TUint; TString; TString; TUint; TFixedBytes]);
   ("SynthetixExchangeAdapter", [TAddress]);
   ("SynthetixExchangerMock", [TAddress; TAddress; TAddress; TFixedBytes; TFixedBytes;
      TFixedBytes; TUint; TUint; TUint; TUint]);
   ("TokenEnabler", [TAddress; TArray TAddress]);
   ("TradeAdapterMock", []);
   ("TradeModule", [TAddress; TAddress]);
   ("TribePegExchangerMock", [TAddress; TAddress]);
   ("Uint256ArrayUtilsMock", []);
   ("Uni", [TAddress; TAddress; TUint]);
   ("UniswapGovernorAlpha", [TAddress; TAddress]);
   ("UniswapPairPriceAdapter", [TAddress; TAddress; TArray TAddress]);
   ("UniswapTimelock", [TAddress; TUint]);
   ("UniswapV2AmmAdapter", [TAddress]);
   ("UniswapV2ExchangeAdapter", [TAddress]);
   ("UniswapV2ExchangeAdapterV2", [TAddress]);
   ("UniswapV2Factory", [TAddress]);
   ("UniswapV2IndexExchangeAdapter", [TAddress]);
   ("UniswapV2Pair", []);
   ("UniswapV2Router02", [TAddress; TAddress]);
   ("UniswapV2TransferFeeExchangeAdapter", [TAddress]);
   ("UniswapV3ExchangeAdapter", [TAddress]);
   ("UniswapV3ExchangeAdapterV2", [TAddress]);
   ("UniswapV3Factory", []);
   ("UniswapV3IndexExchangeAdapter", [TAddress]);
   ("UniswapV3MathMock", []);
   ("UnitConversionUtilsMock", []);
   ("Unitroller", []);
   ("ValidationLogic", []);
   ("Vault", []);
   ("WETH9", []);
   ("WhitePaperInterestRateModel", [TUint; TUint]);
   ("WrapAdapterMock", []);
   ("WrapModule", [TAddress; TAddress]);
   ("WrapModuleV2", [TAddress; TAddress]);
   ("WrapV2AdapterMock", []);
   ("WrappedfCash", [TAddress; TAddress]);
   ("WrappedfCashFactory", [TAddress]);
   ("WrappedfCashFactoryMock", []);
   ("WrappedfCashMock", [TAddress; TAddress; TAddress]);
   ("YearnStrategyMock", [TAddress]);
   ("YearnVaultMock", [TUint]);
   ("YearnVaultOracle", [TAddress; TAddress; TUint; TString]);
   ("YearnWrapV2Adapter", []);
   ("ZeroExApiAdapter", [TAddress; TAddress]);
   ("ZeroExApiV2Adapter", [TAddress; TAddress]);
   ("ZeroExExchangeProxyMock", []);
   ("ZeroExMock", [TAddress; TAddress; TUint; TUint])
  ]%string.

Fixpoint find_constructor (c : string) (l : list (string * list abi)) : option (list abi) :=
  match l with
  | [] => None
  | (n, tys) :: l' => if String.eqb n c then Some tys else find_constructor c l'
  end.

(** The arguments fit the constructor, in number and in kind. *)
Definition args_ok (c : string) (args : list jsv) : bool :=
  match find_constructor c constructors with
  | None => false
  | Some tys => (List.length tys =? List.length args)%nat &&
                forallb (fun tv : abi * jsv => encodes tv.1 tv.2) (combine tys args)
  end.

Lemma args_ok_intro c tys args : find_constructor c constructors = Some tys ->
  Forall2 (fun t v => encodes t v = true) tys args -> args_ok c args = true.
Proof.
  intros E HF. unfold args_ok. rewrite E. apply andb_true_iff. split.
  - apply Nat.eqb_eq. by eapply Forall2_length.
  - clear E. induction HF as [|t v tys args H _ IH]; [done|]. cbn. by rewrite H, IH.
Qed.

Lemma encodes_JStrs t l : (forall s, encodes t (JStr s) = true) -> encodes (TArray t) (JStrs l) = true.
Proof. intros H. cbn. induction l as [|s l IH]; cbn; [done|]. by rewrite H, IH. Qed.

Lemma encodes_JNums t l : (forall z, encodes t (JNum z) = true) -> encodes (TArray t) (JNums l) = true.
Proof. intros H. cbn. induction l as [|s l IH]; cbn; [done|]. by rewrite H, IH. Qed.

(** [m] deploys [c], once, from [signer], with arguments that fit, and gives its address. *)
Definition deploys `{Node} (signer : Address) (c : string) (m : evm Address) : Prop :=
  forall h a h', m h = Ok (a, h') ->
    a = create signer (nonce signer h) /\
    exists links args, h' = h ++ [Deployed a signer c links args] /\ args_ok c args = true.

Lemma deploys_deploy `{Node} signer c links args tys :
  find_constructor c constructors = Some tys ->
  Forall2 (fun t v => encodes t v = true) tys args -> deploys signer c (deploy signer c links args).
Proof.
  intros E HF h a h' Hd. apply deploy_Ok in Hd as (-> & -> & _). split; [done|].
  exists links, args. split; [done|]. by eapply args_ok_intro.
Qed.

Lemma deploys_lift `{Node} {A} signer c (r : result A) (f : A -> evm Address) :
  (forall x, deploys signer c (f x)) -> deploys signer c (lift r ≫= f).
Proof.
  intros Hf h a h' E. apply evm_bind_Ok in E as (x & h1 & E1 & E2).
  apply lift_Ok in E1 as [_ ->]. by apply (Hf x).
Qed.

Ltac deploys_tac :=
  unfold or_default;
  match goal with
  | |- deploys _ _ (deploy _ _ _ _) =>
      eapply deploys_deploy; [vm_compute; reflexivity|];
      repeat constructor; first [reflexivity | apply encodes_JStrs; intro; reflexivity
                                | apply encodes_JNums; intro; reflexivity]
  | |- deploys _ _ (lift _ ≫= _) => apply deploys_lift; intro; deploys_tac
  | |- deploys _ _ ?m => let h := head_of m in unfold h; deploys_tac
  end.
