(* ===== verification/DeployCore.v ===== *)
(** * Deployment helpers of the protocol *)

From S2P Require Import Prelude JsString Ethers Constants UnitsUtils Evm ConstructorAbi Dependencies ProtocolUtils.
From Stdlib Require Import String.

Local Open Scope Z_scope.

(** [utils/deploys/deployLibraries.ts] *)
Module libraries.
Section libraries.
Context `{EU : EthersUtils} `{ND : Node}.

Definition deployCompound (signer : Address) : evm Address :=
  deploy signer "Compound" [] [].

Definition deployAaveV2 (signer : Address) : evm Address :=
  deploy signer "AaveV2" [] [].

Definition deployPerpV2 (signer : Address) : evm Address :=
  deploy signer "PerpV2" [] [].

Definition deployPositionV2 (signer : Address) : evm Address :=
  deploy signer "PositionV2" [] [].

Definition deployPerpV2LibraryV2 (signer : Address) : evm Address :=
  deploy signer "PerpV2LibraryV2" [] [].

Definition deployPerpV2Positions (signer : Address) : evm Address :=
  deploy signer "PerpV2Positions" [] [].

End libraries.
End libraries.

(** [utils/deploys/deployCoreContracts.ts] *)
Module core.
Section core.
Context `{EU : EthersUtils} `{ND : Node}.

Definition deployController (signer : Address) (feeRecipient : string) : evm Address :=
  deploy signer "Controller" [] [JStr feeRecipient].

Definition getController (controllerAddress : string) : evm Address := attach controllerAddress.

Definition deploySetTokenCreator (signer : Address) (controller : string) : evm Address :=
  deploy signer "SetTokenCreator" [] [JStr controller].

Definition getSetTokenCreator (setTokenCreatorAddress : string) : evm Address := attach setTokenCreatorAddress.

Definition deploySetToken (signer : Address) (_components : list string) (_units : list Z)
    (_modules : list string) (_controller _manager _name _symbol : string) : evm Address :=
  deploy signer "SetToken" [] [JStrs _components; JNums _units; JStrs _modules; JStr _controller;
    JStr _manager; JStr _name; JStr _symbol].

Definition getSetToken (setTokenAddress : string) : evm Address := attach setTokenAddress.

Definition deployPriceOracle (signer : Address) (controller masterQuoteAsset : string) (adapters
    assetOnes assetTwos oracles : list string) : evm Address :=
  deploy signer "PriceOracle" [] [JStr controller; JStr masterQuoteAsset; JStrs adapters; JStrs
    assetOnes; JStrs assetTwos; JStrs oracles].

Definition getPriceOracle (priceOracleAddress : string) : evm Address := attach priceOracleAddress.

Definition deployIntegrationRegistry (signer : Address) (controller : string) : evm Address :=
  deploy signer "IntegrationRegistry" [] [JStr controller].

Definition getIntegrationRegistry (integrationRegistryAddress : string) : evm Address := attach integrationRegistryAddress.

Definition deploySetValuer (signer : Address) (controller : string) : evm Address :=
  deploy signer "SetValuer" [] [JStr controller].

Definition deployOperator (signer : Address) : evm Address :=
  deploy signer "Operator" [] [].

Definition deployExchangeIssuanceZeroEx (signer : Address) (wethAddress controllerAddress
    swapTargetAddress : string) : evm Address :=
  deploy signer "ExchangeIssuanceZeroEx" [] [JStr wethAddress; JStr controllerAddress; JStr
    swapTargetAddress].

End core.
End core.

(** [utils/deploys/deployModules.ts] *)
Module modules.
Section modules.
Context `{EU : EthersUtils} `{ND : Node}.

Definition deployBasicIssuanceModule (signer : Address) (controller : string) : evm Address :=
  deploy signer "BasicIssuanceModule" [] [JStr controller].

Definition deployIssuanceModule (signer : Address) (controller : string) : evm Address :=
  deploy signer "IssuanceModule" [] [JStr controller].

Definition deployDebtIssuanceModule (signer : Address) (controller : string) : evm Address :=
  deploy signer "DebtIssuanceModule" [] [JStr controller].

Definition deployDebtIssuanceModuleV2 (signer : Address) (controller : string) : evm Address :=
  deploy signer "DebtIssuanceModuleV2" [] [JStr controller].

Definition deploySlippageIssuanceModule (signer : Address) (controller : string) : evm Address :=
  deploy signer "SlippageIssuanceModule" [] [JStr controller].

Definition deployAmmModule (signer : Address) (controller : string) : evm Address :=
  deploy signer "AmmModule" [] [JStr controller].

Definition getBasicIssuanceModule (basicIssuanceModule : string) : evm Address := attach basicIssuanceModule.

Definition deployStreamingFeeModule (signer : Address) (controller : string) : evm Address :=
  deploy signer "StreamingFeeModule" [] [JStr controller].

Definition getStreamingFeeModule (streamingFeeModule : string) : evm Address := attach streamingFeeModule.

Definition deployAirdropModule (signer : Address) (controller : string) : evm Address :=
  deploy signer "AirdropModule" [] [JStr controller].

Definition deployTradeModule (signer : Address) (controller operator : string) : evm Address :=
  deploy signer "TradeModule" [] [JStr controller; JStr operator].

Definition deployWrapModule (signer : Address) (controller weth : string) : evm Address :=
  deploy signer "WrapModule" [] [JStr controller; JStr weth].

Definition deployClaimModule (signer : Address) (controller : string) : evm Address :=
  deploy signer "ClaimModule" [] [JStr controller].

Definition deployStakingModule (signer : Address) (controller : string) : evm Address :=
  deploy signer "StakingModule" [] [JStr controller].

Definition deployCustomOracleNavIssuanceModule (signer : Address) (controller weth : string) : evm
    Address :=
  deploy signer "CustomOracleNavIssuanceModule" [] [JStr controller; JStr weth].

Definition deploySingleIndexModule (signer : Address) (controller weth uniswapRouter
    sushiswapRouter balancerProxy : string) : evm Address :=
  deploy signer "SingleIndexModule" [] [JStr controller; JStr weth; JStr uniswapRouter; JStr
    sushiswapRouter; JStr balancerProxy].

Definition deployGeneralIndexModule (signer : Address) (controller weth : string) : evm Address :=
  deploy signer "GeneralIndexModule" [] [JStr controller; JStr weth].

Definition deployGovernanceModule (signer : Address) (controller : string) : evm Address :=
  deploy signer "GovernanceModule" [] [JStr controller].

Definition deployCompoundLeverageModule (signer : Address) (controller compToken comptroller cEth
    weth libraryName libraryAddress : string) : evm Address :=
  deploy signer "CompoundLeverageModule" [(libraryName, libraryAddress)] [JStr controller; JStr
    compToken; JStr comptroller; JStr cEth; JStr weth].

Definition deployAaveLeverageModule (signer : Address) (controller lendingPoolAddressesProvider
    libraryName libraryAddress : string) : evm Address :=
  deploy signer "AaveLeverageModule" [(libraryName, libraryAddress)] [JStr controller; JStr
    lendingPoolAddressesProvider].

Definition deployNotionalTradeModule (signer : Address) (controller wrappedfCashFactory weth :
    string) : evm Address :=
  deploy signer "NotionalTradeModule" [] [JStr controller; JStr wrappedfCashFactory; JStr weth].

Definition deployWrapModuleV2 (signer : Address) (controller weth : string) : evm Address :=
  deploy signer "WrapModuleV2" [] [JStr controller; JStr weth].

Definition deployPerpV2LeverageModuleV2 (signer : Address) (controller perpVault perpQuoter
    perpMarketRegistry : string) (maxPerpPositionsPerSet : Z) (positionV2LibraryName
    positionV2LibraryAddress perpV2LibraryName perpV2LibraryAddress perpV2PositionsLibraryName
    perpV2PositionsLibraryAddress : string) : evm Address :=
  deploy signer "PerpV2LeverageModuleV2" [(positionV2LibraryName, positionV2LibraryAddress);
    (perpV2LibraryName, perpV2LibraryAddress); (perpV2PositionsLibraryName,
    perpV2PositionsLibraryAddress)] [JStr controller; JStr perpVault; JStr perpQuoter; JStr
    perpMarketRegistry; JNum maxPerpPositionsPerSet].

Definition deployPerpV2BasisTradingModule (signer : Address) (controller perpVault perpQuoter
    perpMarketRegistry : string) (maxPerpPositionsPerSet : Z) (positionV2LibraryName
    positionV2LibraryAddress perpV2LibraryName perpV2LibraryAddress perpV2PositionsLibraryName
    perpV2PositionsLibraryAddress : string) : evm Address :=
  deploy signer "PerpV2BasisTradingModule" [(positionV2LibraryName, positionV2LibraryAddress);
    (perpV2LibraryName, perpV2LibraryAddress); (perpV2PositionsLibraryName,
    perpV2PositionsLibraryAddress)] [JStr controller; JStr perpVault; JStr perpQuoter; JStr
    perpMarketRegistry; JNum maxPerpPositionsPerSet].

Definition deployPositionUnitAdjusterModule (signer : Address) (controller operator : string) :
    evm Address :=
  deploy signer "PositionUnitAdjusterModule" [] [JStr controller; JStr operator].

Definition deployZeroExApiV2Adapter (signer : Address) (controller operator : string) : evm
    Address :=
  deploy signer "ZeroExApiV2Adapter" [] [JStr controller; JStr operator].

End modules.
End modules.

(** [utils/deploys/deploySetV2.ts] *)
Module setV2.
Section setV2.
Context `{EU : EthersUtils} `{ND : Node}.

Definition deployController (signer : Address) (feeRecipient : string) : evm Address :=
  deploy signer "Controller" [] [JStr feeRecipient].

Definition deploySetTokenCreator (signer : Address) (controller : string) : evm Address :=
  deploy signer "SetTokenCreator" [] [JStr controller].

Definition deployCompoundLib (signer : Address) : evm Address :=
  deploy signer "Compound" [] [].

Definition deploySetToken (signer : Address) (_components : list string) (_units : list Z)
    (_modules : list string) (_controller _manager _name _symbol : string) : evm Address :=
  deploy signer "SetToken" [] [JStrs _components; JNums _units; JStrs _modules; JStr _controller;
    JStr _manager; JStr _name; JStr _symbol].

Definition deployBasicIssuanceModule (signer : Address) (controller : string) : evm Address :=
  deploy signer "BasicIssuanceModule" [] [JStr controller].

Definition deployContractCallerMock (signer : Address) : evm Address :=
  deploy signer "ContractCallerMock" [] [].

Definition deployComptrollerMock (signer : Address) (comp : string) (compAmount : Z) (cToken :
    string) : evm Address :=
  deploy signer "ComptrollerMock" [] [JStr comp; JNum compAmount; JStr cToken].

Definition deployDebtIssuanceModule (signer : Address) (controller : string) : evm Address :=
  deploy signer "DebtIssuanceModule" [] [JStr controller].

Definition deployStreamingFeeModule (signer : Address) (controller : string) : evm Address :=
  deploy signer "StreamingFeeModule" [] [JStr controller].

Definition deploySingleIndexModule (signer : Address) (controller weth uniswapRouter
    sushiswapRouter balancerProxy : string) : evm Address :=
  deploy signer "SingleIndexModule" [] [JStr controller; JStr weth; JStr uniswapRouter; JStr
    sushiswapRouter; JStr balancerProxy].

Definition deployGeneralIndexModule (signer : Address) (controller weth : string) : evm Address :=
  deploy signer "GeneralIndexModule" [] [JStr controller; JStr weth].

Definition deployWETH (signer : Address) : evm Address :=
  deploy signer "WETH9" [] [].

Definition deployIntegrationRegistry (signer : Address) (controller : string) : evm Address :=
  deploy signer "IntegrationRegistry" [] [JStr controller].

Definition deployCompoundLeverageModule (signer : Address) (controller compToken comptroller
    cEther weth : string) : evm Address :=
  compoundLib ← deployCompoundLib signer;
  linkId ← lift (convertLibraryNameToLinkId
    "contracts/protocol/integration/lib/Compound.sol:Compound");
  deploy signer "CompoundLeverageModule" [(linkId, compoundLib)]
    [JStr controller; JStr compToken; JStr comptroller; JStr cEther; JStr weth].

Definition deployGovernanceModule (signer : Address) (controller : string) : evm Address :=
  deploy signer "GovernanceModule" [] [JStr controller].

Definition deployUniswapV2ExchangeAdapter (signer : Address) (router : string) : evm Address :=
  deploy signer "UniswapV2ExchangeAdapter" [] [JStr router].

Definition deployTokenMock (signer : Address) (initialAccount : string) (initialBalance decimals :
    option Z) (name symbol : option string) : evm Address :=
  initialBalance ← or_default initialBalance (ether (Number 1000000000));
  decimals ← or_default decimals (Ok 18);
  name ← or_default name (Ok "Token");
  symbol ← or_default symbol (Ok "Symbol");
  deploy signer "StandardTokenMock" [] [JStr initialAccount; JNum initialBalance; JStr name; JStr
    symbol; JNum decimals].

Definition getTokenMock (token : string) : evm Address := attach token.

Definition deployAaveV2Lib (signer : Address) : evm Address :=
  deploy signer "AaveV2" [] [].

Definition deployAirdropModule (signer : Address) (controller : string) : evm Address :=
  deploy signer "AirdropModule" [] [JStr controller].

Definition deployWrapModule (signer : Address) (controller weth : string) : evm Address :=
  deploy signer "WrapModule" [] [JStr controller; JStr weth].

Definition deploySlippageIssuanceModule (signer : Address) (controller : string) : evm Address :=
  deploy signer "SlippageIssuanceModule" [] [JStr controller].

End setV2.
End setV2.

(** [utils/deploys/deployViewers.ts] *)
Module viewers.
Section viewers.
Context `{EU : EthersUtils} `{ND : Node}.

Definition deployProtocolViewer (signer : Address) : evm Address :=
  deploy signer "ProtocolViewer" [] [].

Definition deployPerpV2LeverageModuleViewer (signer : Address) (perpModule perpAccountBalance
    perpClearingHouseConfig vQuoteToken : string) : evm Address :=
  deploy signer "PerpV2LeverageModuleViewer" [] [JStr perpModule; JStr perpAccountBalance; JStr
    perpClearingHouseConfig; JStr vQuoteToken].

End viewers.
End viewers.

(** [utils/deploys/deployProduct.ts] *)
Module product.
Section product.
Context `{EU : EthersUtils} `{ND : Node}.

Definition deployAssetLimitHook (signer : Address) (_assets : list string) (_limits : list Z) :
    evm Address :=
  deploy signer "AssetLimitHook" [] [JStrs _assets; JNums _limits].

Definition getAssetLimitHook (assetLimitHookAddress : string) : evm Address := attach assetLimitHookAddress.

Definition deployAMMSplitter (signer : Address) (uniRouter sushiRouter uniFactory sushiFactory :
    string) : evm Address :=
  deploy signer "AMMSplitter" [] [JStr uniRouter; JStr sushiRouter; JStr uniFactory; JStr
    sushiFactory].

Definition deployAPYRescue (signer : Address) (apyToken : string) (recoveredTokens : list string)
    (basicIssuanceModule : string) : evm Address :=
  deploy signer "APYRescue" [] [JStr apyToken; JStrs recoveredTokens; JStr basicIssuanceModule].

Definition deployTokenEnabler (signer : Address) (controller : string) (tokensToEnable : list
    string) : evm Address :=
  deploy signer "TokenEnabler" [] [JStr controller; JStrs tokensToEnable].

End product.
End product.

(** [utils/deploys/deployOracles.ts] *)
Module oracles.
Section oracles.
Context `{EU : EthersUtils} `{ND : Node}.

Definition deployCTokenOracle (signer : Address) (cToken underlyingOracle : string)
    (cTokenFullUnit underlyingFullUnit : Z) (dataDescription : string) : evm Address :=
  deploy signer "CTokenOracle" [] [JStr cToken; JStr underlyingOracle; JNum cTokenFullUnit; JNum
    underlyingFullUnit; JStr dataDescription].

Definition deployYearnVaultOracle (signer : Address) (vault underlyingOracle : string)
    (underlyingFullUnit : Z) (dataDescription : string) : evm Address :=
  deploy signer "YearnVaultOracle" [] [JStr vault; JStr underlyingOracle; JNum underlyingFullUnit;
    JStr dataDescription].

End oracles.
End oracles.

(** ** Theorems *)

(** Each helper of Libraries deploys exactly the contract it is named after, from the
    deployer account, with arguments that match the constructor of that
    contract, and returns the address it was deployed at. *)
Theorem libraries_helpers_deploy `{EU : EthersUtils} `{ND : Node} :
  (forall s, deploys s "Compound" (libraries.deployCompound s)) /\
  (forall s, deploys s "AaveV2" (libraries.deployAaveV2 s)) /\
  (forall s, deploys s "PerpV2" (libraries.deployPerpV2 s)) /\
  (forall s, deploys s "PositionV2" (libraries.deployPositionV2 s)) /\
  (forall s, deploys s "PerpV2LibraryV2" (libraries.deployPerpV2LibraryV2 s)) /\
  (forall s, deploys s "PerpV2Positions" (libraries.deployPerpV2Positions s)).
Proof. split_and!; intros; deploys_tac. Qed.

(** Each helper of CoreContracts deploys exactly the contract it is named after, from the
    deployer account, with arguments that match the constructor of that
    contract, and returns the address it was deployed at. *)
Theorem core_helpers_deploy `{EU : EthersUtils} `{ND : Node} :
  (forall s x0, deploys s "Controller" (core.deployController s x0)) /\
  (forall s x0, deploys s "SetTokenCreator" (core.deploySetTokenCreator s x0)) /\
  (forall s x0 x1 x2 x3 x4 x5 x6, deploys s "SetToken" (core.deploySetToken s x0 x1 x2 x3 x4 x5 x6)) /\
  (forall s x0 x1 x2 x3 x4 x5, deploys s "PriceOracle" (core.deployPriceOracle s x0 x1 x2 x3 x4 x5)) /\
  (forall s x0, deploys s "IntegrationRegistry" (core.deployIntegrationRegistry s x0)) /\
  (forall s x0, deploys s "SetValuer" (core.deploySetValuer s x0)) /\
  (forall s, deploys s "Operator" (core.deployOperator s)) /\
  (forall s x0 x1 x2, deploys s "ExchangeIssuanceZeroEx" (core.deployExchangeIssuanceZeroEx s x0 x1 x2)).
Proof. split_and!; intros; deploys_tac. Qed.

(** Each helper of Modules deploys exactly the contract it is named after, from the
    deployer account, with arguments that match the constructor of that
    contract, and returns the address it was deployed at. *)
Theorem modules_helpers_deploy `{EU : EthersUtils} `{ND : Node} :
  (forall s x0, deploys s "BasicIssuanceModule" (modules.deployBasicIssuanceModule s x0)) /\
  (forall s x0, deploys s "IssuanceModule" (modules.deployIssuanceModule s x0)) /\
  (forall s x0, deploys s "DebtIssuanceModule" (modules.deployDebtIssuanceModule s x0)) /\
  (forall s x0, deploys s "DebtIssuanceModuleV2" (modules.deployDebtIssuanceModuleV2 s x0)) /\
  (forall s x0, deploys s "SlippageIssuanceModule" (modules.deploySlippageIssuanceModule s x0)) /\
  (forall s x0, deploys s "AmmModule" (modules.deployAmmModule s x0)) /\
  (forall s x0, deploys s "StreamingFeeModule" (modules.deployStreamingFeeModule s x0)) /\
  (forall s x0, deploys s "AirdropModule" (modules.deployAirdropModule s x0)) /\
  (forall s x0 x1, deploys s "TradeModule" (modules.deployTradeModule s x0 x1)) /\
  (forall s x0 x1, deploys s "WrapModule" (modules.deployWrapModule s x0 x1)) /\
  (forall s x0, deploys s "ClaimModule" (modules.deployClaimModule s x0)) /\
  (forall s x0, deploys s "StakingModule" (modules.deployStakingModule s x0)) /\
  (forall s x0 x1, deploys s "CustomOracleNavIssuanceModule" (modules.deployCustomOracleNavIssuanceModule s
      x0 x1)) /\
  (forall s x0 x1 x2 x3 x4, deploys s "SingleIndexModule" (modules.deploySingleIndexModule s x0 x1 x2 x3
      x4)) /\
  (forall s x0 x1, deploys s "GeneralIndexModule" (modules.deployGeneralIndexModule s x0 x1)) /\
  (forall s x0, deploys s "GovernanceModule" (modules.deployGovernanceModule s x0)) /\
  (forall s x0 x1 x2 x3 x4 x5 x6, deploys s "CompoundLeverageModule" (modules.deployCompoundLeverageModule s
      x0 x1 x2 x3 x4 x5 x6)) /\
  (forall s x0 x1 x2 x3, deploys s "AaveLeverageModule" (modules.deployAaveLeverageModule s x0 x1 x2 x3)) /\
  (forall s x0 x1 x2, deploys s "NotionalTradeModule" (modules.deployNotionalTradeModule s x0 x1 x2)) /\
  (forall s x0 x1, deploys s "WrapModuleV2" (modules.deployWrapModuleV2 s x0 x1)) /\
  (forall s x0 x1 x2 x3 x4 x5 x6 x7 x8 x9 x10, deploys s "PerpV2LeverageModuleV2"
      (modules.deployPerpV2LeverageModuleV2 s x0 x1 x2 x3 x4 x5 x6 x7 x8 x9 x10)) /\
  (forall s x0 x1 x2 x3 x4 x5 x6 x7 x8 x9 x10, deploys s "PerpV2BasisTradingModule"
      (modules.deployPerpV2BasisTradingModule s x0 x1 x2 x3 x4 x5 x6 x7 x8 x9 x10)) /\
  (forall s x0 x1, deploys s "PositionUnitAdjusterModule" (modules.deployPositionUnitAdjusterModule s x0
      x1)) /\
  (forall s x0 x1, deploys s "ZeroExApiV2Adapter" (modules.deployZeroExApiV2Adapter s x0 x1)).
Proof. split_and!; intros; deploys_tac. Qed.

(** Each helper of SetV2 deploys exactly the contract it is named after, from the
    deployer account, with arguments that match the constructor of that
    contract, and returns the address it was deployed at. *)
Theorem setV2_helpers_deploy `{EU : EthersUtils} `{ND : Node} :
  (forall s x0, deploys s "Controller" (setV2.deployController s x0)) /\
  (forall s x0, deploys s "SetTokenCreator" (setV2.deploySetTokenCreator s x0)) /\
  (forall s, deploys s "Compound" (setV2.deployCompoundLib s)) /\
  (forall s x0 x1 x2 x3 x4 x5 x6, deploys s "SetToken" (setV2.deploySetToken s x0 x1 x2 x3 x4 x5 x6)) /\
  (forall s x0, deploys s "BasicIssuanceModule" (setV2.deployBasicIssuanceModule s x0)) /\
  (forall s, deploys s "ContractCallerMock" (setV2.deployContractCallerMock s)) /\
  (forall s x0 x1 x2, deploys s "ComptrollerMock" (setV2.deployComptrollerMock s x0 x1 x2)) /\
  (forall s x0, deploys s "DebtIssuanceModule" (setV2.deployDebtIssuanceModule s x0)) /\
  (forall s x0, deploys s "StreamingFeeModule" (setV2.deployStreamingFeeModule s x0)) /\
  (forall s x0 x1 x2 x3 x4, deploys s "SingleIndexModule" (setV2.deploySingleIndexModule s x0 x1 x2 x3
      x4)) /\
  (forall s x0 x1, deploys s "GeneralIndexModule" (setV2.deployGeneralIndexModule s x0 x1)) /\
  (forall s, deploys s "WETH9" (setV2.deployWETH s)) /\
  (forall s x0, deploys s "IntegrationRegistry" (setV2.deployIntegrationRegistry s x0)) /\
  (forall s x0, deploys s "GovernanceModule" (setV2.deployGovernanceModule s x0)) /\
  (forall s x0, deploys s "UniswapV2ExchangeAdapter" (setV2.deployUniswapV2ExchangeAdapter s x0)) /\
  (forall s x0 x1 x2 x3 x4, deploys s "StandardTokenMock" (setV2.deployTokenMock s x0 x1 x2 x3 x4)) /\
  (forall s, deploys s "AaveV2" (setV2.deployAaveV2Lib s)) /\
  (forall s x0, deploys s "AirdropModule" (setV2.deployAirdropModule s x0)) /\
  (forall s x0 x1, deploys s "WrapModule" (setV2.deployWrapModule s x0 x1)) /\
  (forall s x0, deploys s "SlippageIssuanceModule" (setV2.deploySlippageIssuanceModule s x0)).
Proof. split_and!; intros; deploys_tac. Qed.

(** Each helper of Viewers deploys exactly the contract it is named after, from the
    deployer account, with arguments that match the constructor of that
    contract, and returns the address it was deployed at. *)
Theorem viewers_helpers_deploy `{EU : EthersUtils} `{ND : Node} :
  (forall s, deploys s "ProtocolViewer" (viewers.deployProtocolViewer s)) /\
  (forall s x0 x1 x2 x3, deploys s "PerpV2LeverageModuleViewer" (viewers.deployPerpV2LeverageModuleViewer s
      x0 x1 x2 x3)).
Proof. split_and!; intros; deploys_tac. Qed.

(** Each helper of Product deploys exactly the contract it is named after, from the
    deployer account, with arguments that match the constructor of that
    contract, and returns the address it was deployed at. *)
Theorem product_helpers_deploy `{EU : EthersUtils} `{ND : Node} :
  (forall s x0 x1, deploys s "AssetLimitHook" (product.deployAssetLimitHook s x0 x1)) /\
  (forall s x0 x1 x2 x3, deploys s "AMMSplitter" (product.deployAMMSplitter s x0 x1 x2 x3)) /\
  (forall s x0 x1 x2, deploys s "APYRescue" (product.deployAPYRescue s x0 x1 x2)) /\
  (forall s x0 x1, deploys s "TokenEnabler" (product.deployTokenEnabler s x0 x1)).
Proof. split_and!; intros; deploys_tac. Qed.

(** Each helper of Oracles deploys exactly the contract it is named after, from the
    deployer account, with arguments that match the constructor of that
    contract, and returns the address it was deployed at. *)
Theorem oracles_helpers_deploy `{EU : EthersUtils} `{ND : Node} :
  (forall s x0 x1 x2 x3 x4, deploys s "CTokenOracle" (oracles.deployCTokenOracle s x0 x1 x2 x3 x4)) /\
  (forall s x0 x1 x2 x3, deploys s "YearnVaultOracle" (oracles.deployYearnVaultOracle s x0 x1 x2 x3)).
Proof. split_and!; intros; deploys_tac. Qed.
