(* ===== verification/DeployAdapters.v ===== *)
(** * Deployment helpers of the adapters *)

From S2P Require Import Prelude JsString Ethers Constants UnitsUtils Evm ConstructorAbi Dependencies ProtocolUtils.
From Stdlib Require Import String.

Local Open Scope Z_scope.

(** [utils/deploys/deployAdapters.ts] *)
Module adapters.
Section adapters.
Context `{EU : EthersUtils} `{ND : Node}.

Definition deployKyberExchangeAdapter (signer : Address) (kyberNetworkProxy : string) : evm
    Address :=
  deploy signer "KyberExchangeAdapter" [] [JStr kyberNetworkProxy].

Definition deployOneInchExchangeAdapter (signer : Address) (approveAddress exchangeAddress
    swapFunctionSignature : string) : evm Address :=
  deploy signer "OneInchExchangeAdapter" [] [JStr approveAddress; JStr exchangeAddress; JStr
    swapFunctionSignature].

Definition deployUniswapV2AmmAdapter (signer : Address) (uniswapV2Router : string) : evm Address
    :=
  deploy signer "UniswapV2AmmAdapter" [] [JStr uniswapV2Router].

Definition deployUniswapV2ExchangeAdapter (signer : Address) (uniswapV2Router : string) : evm
    Address :=
  deploy signer "UniswapV2ExchangeAdapter" [] [JStr uniswapV2Router].

Definition deployUniswapV2TransferFeeExchangeAdapter (signer : Address) (uniswapV2Router : string)
    : evm Address :=
  deploy signer "UniswapV2TransferFeeExchangeAdapter" [] [JStr uniswapV2Router].

Definition deployUniswapV2ExchangeAdapterV2 (signer : Address) (uniswapV2Router : string) : evm
    Address :=
  deploy signer "UniswapV2ExchangeAdapterV2" [] [JStr uniswapV2Router].

Definition deployUniswapV2IndexExchangeAdapter (signer : Address) (uniswapV2Router : string) : evm
    Address :=
  deploy signer "UniswapV2IndexExchangeAdapter" [] [JStr uniswapV2Router].

Definition deployAaveGovernanceV2Adapter (signer : Address) (aaveGovernanceV2 aaveToken : string)
    : evm Address :=
  deploy signer "AaveGovernanceV2Adapter" [] [JStr aaveGovernanceV2; JStr aaveToken].

Definition deployCompClaimAdapter (signer : Address) (comptrollerAddress : string) : evm Address
    :=
  deploy signer "CompClaimAdapter" [] [JStr comptrollerAddress].

Definition deployBalancerV1IndexExchangeAdapter (signer : Address) (balancerProxy : string) : evm
    Address :=
  deploy signer "BalancerV1IndexExchangeAdapter" [] [JStr balancerProxy].

Definition deployCompoundLikeGovernanceAdapter (signer : Address) (governanceAlpha governanceToken
    : string) : evm Address :=
  deploy signer "CompoundLikeGovernanceAdapter" [] [JStr governanceAlpha; JStr governanceToken].

Definition deployCompoundBravoGovernanceAdapter (signer : Address) (governorBravo governanceToken
    : string) : evm Address :=
  deploy signer "CompoundBravoGovernanceAdapter" [] [JStr governorBravo; JStr governanceToken].

Definition deployCurveStakingAdapter (signer : Address) (gaugeController : string) : evm Address
    :=
  deploy signer "CurveStakingAdapter" [] [JStr gaugeController].

Definition deployRgtMigrationWrapAdapter (signer : Address) (pegExchanger : string) : evm Address
    :=
  deploy signer "RgtMigrationWrapAdapter" [] [JStr pegExchanger].

Definition deployUniswapPairPriceAdapter (signer : Address) (controller uniswapFactory : string)
    (uniswapPools : list string) : evm Address :=
  deploy signer "UniswapPairPriceAdapter" [] [JStr controller; JStr uniswapFactory; JStrs
    uniswapPools].

Definition getUniswapPairPriceAdapter (uniswapAdapterAddress : string) : evm Address := attach uniswapAdapterAddress.

Definition deployUniswapV3IndexExchangeAdapter (signer : Address) (router : string) : evm Address
    :=
  deploy signer "UniswapV3IndexExchangeAdapter" [] [JStr router].

Definition deployZeroExApiAdapter (signer : Address) (zeroExAddress wethAddress : string) : evm
    Address :=
  deploy signer "ZeroExApiAdapter" [] [JStr zeroExAddress; JStr wethAddress].

Definition deploySnapshotGovernanceAdapter (signer : Address) (delegateRegistry : string) : evm
    Address :=
  deploy signer "SnapshotGovernanceAdapter" [] [JStr delegateRegistry].

Definition deploySynthetixExchangeAdapter (signer : Address) (synthetixExchangerAddress : string)
    : evm Address :=
  deploy signer "SynthetixExchangeAdapter" [] [JStr synthetixExchangerAddress].

Definition deployUniswapV3ExchangeAdapter (signer : Address) (swapRouter : string) : evm Address
    :=
  deploy signer "UniswapV3ExchangeAdapter" [] [JStr swapRouter].

Definition deployUniswapV3ExchangeAdapterV2 (signer : Address) (swapRouter : string) : evm Address
    :=
  deploy signer "UniswapV3ExchangeAdapterV2" [] [JStr swapRouter].

Definition deployKyberV3IndexExchangeAdapter (signer : Address) (dmmRouter dmmFactory : string) :
    evm Address :=
  deploy signer "KyberV3IndexExchangeAdapter" [] [JStr dmmRouter; JStr dmmFactory].

Definition deployCompoundWrapV2Adapter (signer : Address) (libraryName libraryAddress : string) :
    evm Address :=
  deploy signer "CompoundWrapV2Adapter" [(libraryName, libraryAddress)] [].

Definition deployYearnWrapV2Adapter (signer : Address) : evm Address :=
  deploy signer "YearnWrapV2Adapter" [] [].

Definition deployAaveV2WrapV2Adapter (signer : Address) (lendingPool : string) : evm Address :=
  deploy signer "AaveV2WrapV2Adapter" [] [JStr lendingPool].

Definition deployCurveExchangeAdapter (signer : Address) (tokenA tokenB : string) (tokenAIndex
    tokenbBIndex : Z) (exchange : string) : evm Address :=
  deploy signer "CurveExchangeAdapter" [] [JStr tokenA; JStr tokenB; JNum tokenAIndex; JNum
    tokenbBIndex; JStr exchange].

Definition deployCurveStEthExchangeAdapter (signer : Address) (weth steth exchange : string) : evm
    Address :=
  deploy signer "CurveStEthExchangeAdapter" [] [JStr weth; JStr steth; JStr exchange].

Definition deployZeroExApiV2Adapter (signer : Address) (allowanceHolderAddress wethAddress :
    string) : evm Address :=
  deploy signer "ZeroExApiV2Adapter" [] [JStr allowanceHolderAddress; JStr wethAddress].

End adapters.
End adapters.

(** ** Theorems *)

(** Each helper of Adapters deploys exactly the contract it is named after, from the
    deployer account, with arguments that match the constructor of that
    contract, and returns the address it was deployed at. *)
Theorem adapters_helpers_deploy `{EU : EthersUtils} `{ND : Node} :
  (forall s x0, deploys s "KyberExchangeAdapter" (adapters.deployKyberExchangeAdapter s x0)) /\
  (forall s x0 x1 x2, deploys s "OneInchExchangeAdapter" (adapters.deployOneInchExchangeAdapter s x0 x1 x2)) /\
  (forall s x0, deploys s "UniswapV2AmmAdapter" (adapters.deployUniswapV2AmmAdapter s x0)) /\
  (forall s x0, deploys s "UniswapV2ExchangeAdapter" (adapters.deployUniswapV2ExchangeAdapter s x0)) /\
  (forall s x0, deploys s "UniswapV2TransferFeeExchangeAdapter"
      (adapters.deployUniswapV2TransferFeeExchangeAdapter s x0)) /\
  (forall s x0, deploys s "UniswapV2ExchangeAdapterV2" (adapters.deployUniswapV2ExchangeAdapterV2 s x0)) /\
  (forall s x0, deploys s "UniswapV2IndexExchangeAdapter" (adapters.deployUniswapV2IndexExchangeAdapter s
      x0)) /\
  (forall s x0 x1, deploys s "AaveGovernanceV2Adapter" (adapters.deployAaveGovernanceV2Adapter s x0 x1)) /\
  (forall s x0, deploys s "CompClaimAdapter" (adapters.deployCompClaimAdapter s x0)) /\
  (forall s x0, deploys s "BalancerV1IndexExchangeAdapter" (adapters.deployBalancerV1IndexExchangeAdapter s
      x0)) /\
  (forall s x0 x1, deploys s "CompoundLikeGovernanceAdapter" (adapters.deployCompoundLikeGovernanceAdapter s
      x0 x1)) /\
  (forall s x0 x1, deploys s "CompoundBravoGovernanceAdapter" (adapters.deployCompoundBravoGovernanceAdapter
      s x0 x1)) /\
  (forall s x0, deploys s "CurveStakingAdapter" (adapters.deployCurveStakingAdapter s x0)) /\
  (forall s x0, deploys s "RgtMigrationWrapAdapter" (adapters.deployRgtMigrationWrapAdapter s x0)) /\
  (forall s x0 x1 x2, deploys s "UniswapPairPriceAdapter" (adapters.deployUniswapPairPriceAdapter s x0 x1
      x2)) /\
  (forall s x0, deploys s "UniswapV3IndexExchangeAdapter" (adapters.deployUniswapV3IndexExchangeAdapter s
      x0)) /\
  (forall s x0 x1, deploys s "ZeroExApiAdapter" (adapters.deployZeroExApiAdapter s x0 x1)) /\
  (forall s x0, deploys s "SnapshotGovernanceAdapter" (adapters.deploySnapshotGovernanceAdapter s x0)) /\
  (forall s x0, deploys s "SynthetixExchangeAdapter" (adapters.deploySynthetixExchangeAdapter s x0)) /\
  (forall s x0, deploys s "UniswapV3ExchangeAdapter" (adapters.deployUniswapV3ExchangeAdapter s x0)) /\
  (forall s x0, deploys s "UniswapV3ExchangeAdapterV2" (adapters.deployUniswapV3ExchangeAdapterV2 s x0)) /\
  (forall s x0 x1, deploys s "KyberV3IndexExchangeAdapter" (adapters.deployKyberV3IndexExchangeAdapter s x0
      x1)) /\
  (forall s x0 x1, deploys s "CompoundWrapV2Adapter" (adapters.deployCompoundWrapV2Adapter s x0 x1)) /\
  (forall s, deploys s "YearnWrapV2Adapter" (adapters.deployYearnWrapV2Adapter s)) /\
  (forall s x0, deploys s "AaveV2WrapV2Adapter" (adapters.deployAaveV2WrapV2Adapter s x0)) /\
  (forall s x0 x1 x2 x3 x4, deploys s "CurveExchangeAdapter" (adapters.deployCurveExchangeAdapter s x0 x1 x2
      x3 x4)) /\
  (forall s x0 x1 x2, deploys s "CurveStEthExchangeAdapter" (adapters.deployCurveStEthExchangeAdapter s x0 x1
      x2)) /\
  (forall s x0 x1, deploys s "ZeroExApiV2Adapter" (adapters.deployZeroExApiV2Adapter s x0 x1)).
Proof. split_and!; intros; deploys_tac. Qed.
