(* ===== verification/DeployMocks.v ===== *)
(** * Deployment helpers of the mocks *)

From S2P Require Import Prelude JsString Ethers Constants UnitsUtils Evm ConstructorAbi Dependencies ProtocolUtils.
From Stdlib Require Import String.

Local Open Scope Z_scope.

(** [utils/deploys/deployMocks.ts] *)
Module mocks.
Section mocks.
Context `{EU : EthersUtils} `{ND : Node}.

Definition deployExplicitErc20Mock (signer : Address) : evm Address :=
  deploy signer "ExplicitERC20Mock" [] [].

Definition deployInvokeMock (signer : Address) : evm Address :=
  deploy signer "InvokeMock" [] [].

Definition deployManagerIssuanceHookMock (signer : Address) : evm Address :=
  deploy signer "ManagerIssuanceHookMock" [] [].

Definition deployModuleIssuanceHookMock (signer : Address) : evm Address :=
  deploy signer "ModuleIssuanceHookMock" [] [].

Definition deployNavIssuanceHookMock (signer : Address) : evm Address :=
  deploy signer "NAVIssuanceHookMock" [] [].

Definition deployNAVIssuanceCaller (signer : Address) (navIssuanceModule : string) : evm Address
    :=
  deploy signer "NAVIssuanceCaller" [] [JStr navIssuanceModule].

Definition deployAddressArrayUtilsMock (signer : Address) : evm Address :=
  deploy signer "AddressArrayUtilsMock" [] [].

Definition deployUint256ArrayUtilsMock (signer : Address) : evm Address :=
  deploy signer "Uint256ArrayUtilsMock" [] [].

Definition deployKyberNetworkProxyMock (signer : Address) (mockWethAddress : string) : evm Address
    :=
  deploy signer "KyberNetworkProxyMock" [] [JStr mockWethAddress].

Definition deployModuleBaseMock (signer : Address) (controllerAddress : string) : evm Address :=
  deploy signer "ModuleBaseMock" [] [JStr controllerAddress].

Definition deployModuleBaseV2Mock (signer : Address) (controllerAddress : string) : evm Address :=
  deploy signer "ModuleBaseV2Mock" [] [JStr controllerAddress].

Definition deployGodModeMock (signer : Address) (controllerAddress : string) : evm Address :=
  deploy signer "GodModeMock" [] [JStr controllerAddress].

Definition deployDebtModuleMock (signer : Address) (controllerAddress : string) : evm Address :=
  deploy signer "DebtModuleMock" [] [JStr controllerAddress].

Definition deployGovernanceAdapterMock (signer : Address) (initialProposalId : Z) : evm Address :=
  deploy signer "GovernanceAdapterMock" [] [JNum initialProposalId].

Definition deployCurveStableswapMock (signer : Address) (coins : list string) : evm Address :=
  deploy signer "CurveStableswapMock" [] [JStrs coins].

Definition deployOneInchExchangeMock (signer : Address) (sendToken receiveToken : string)
    (sendQuantity receiveQuantity : Z) : evm Address :=
  deploy signer "OneInchExchangeMock" [] [JStr sendToken; JStr receiveToken; JNum sendQuantity;
    JNum receiveQuantity].

Definition deployZeroExMock (signer : Address) (sendToken receiveToken : string) (sendQuantity
    receiveQuantity : Z) : evm Address :=
  deploy signer "ZeroExMock" [] [JStr sendToken; JStr receiveToken; JNum sendQuantity; JNum
    receiveQuantity].

Definition deployOracleMock (signer : Address) (initialValue : Z) : evm Address :=
  deploy signer "OracleMock" [] [JNum initialValue].

Definition deployYearnVaultMock (signer : Address) (pricePerShare : Z) : evm Address :=
  deploy signer "YearnVaultMock" [] [JNum pricePerShare].

Definition deployOracleAdapterMock (signer : Address) (asset : string) (dummyPrice : Z) : evm
    Address :=
  deploy signer "OracleAdapterMock" [] [JStr asset; JNum dummyPrice].

Definition deployPositionMock (signer : Address) : evm Address :=
  deploy signer "PositionMock" [] [].

Definition deployPositionV2Mock (signer : Address) (libraryName libraryAddress : string) : evm
    Address :=
  deploy signer "PositionV2Mock" [(libraryName, libraryAddress)] [].

Definition deployPreciseUnitMathMock (signer : Address) : evm Address :=
  deploy signer "PreciseUnitMathMock" [] [].

Definition deployResourceIdentifierMock (signer : Address) : evm Address :=
  deploy signer "ResourceIdentifierMock" [] [].

Definition deployStakingAdapterMock (signer : Address) (stakingAsset : string) : evm Address :=
  deploy signer "StakingAdapterMock" [] [JStr stakingAsset].

Definition deployTokenMock (signer : Address) (initialAccount : string) (initialBalance decimals :
    option Z) (name symbol : option string) : evm Address :=
  initialBalance ← or_default initialBalance (ether (Number 1000000000));
  decimals ← or_default decimals (Ok 18);
  name ← or_default name (Ok "Token");
  symbol ← or_default symbol (Ok "Symbol");
  deploy signer "StandardTokenMock" [] [JStr initialAccount; JNum initialBalance; JStr name; JStr
    symbol; JNum decimals].

Definition deployTokenWithFeeMock (signer : Address) (initialAccount : string) (initialBalance fee
    : option Z) (name symbol : option string) : evm Address :=
  initialBalance ← or_default initialBalance (ether (Number 1000000000));
  fee ← or_default fee (ether (Literal "0.1"));
  name ← or_default name (Ok "Token");
  symbol ← or_default symbol (Ok "Symbol");
  deploy signer "StandardTokenWithFeeMock" [] [JStr initialAccount; JNum initialBalance; JStr
    name; JStr symbol; JNum fee].

Definition deployTokenWithErrorMock (signer : Address) (initialAccount : string) (initialBalance
    error : Z) (name symbol : option string) (decimals : option Z) : evm Address :=
  name ← or_default name (Ok "Token");
  symbol ← or_default symbol (Ok "Symbol");
  decimals ← or_default decimals (Ok 18);
  deploy signer "StandardTokenWithRoundingErrorMock" [] [JStr initialAccount; JNum initialBalance;
    JNum error; JStr name; JStr symbol; JNum decimals].

Definition deployTradeAdapterMock (signer : Address) : evm Address :=
  deploy signer "TradeAdapterMock" [] [].

Definition deployAmmAdapterMock (signer : Address) (_underlyingTokens : list string) : evm Address
    :=
  deploy signer "AmmAdapterMock" [] [JStrs _underlyingTokens].

Definition deployWrapAdapterMock (signer : Address) : evm Address :=
  deploy signer "WrapAdapterMock" [] [].

Definition deployAaveLendingPoolCoreMock (signer : Address) : evm Address :=
  deploy signer "AaveLendingPoolCoreMock" [] [].

Definition deployAaveLendingPoolMock (signer : Address) (aaveLendingPoolCore : string) : evm
    Address :=
  deploy signer "AaveLendingPoolMock" [] [JStr aaveLendingPoolCore].

Definition deployAaveV2Mock (signer : Address) (libraryName libraryAddress : string) : evm Address
    :=
  deploy signer "AaveV2Mock" [(libraryName, libraryAddress)] [].

Definition deployPerpV2Mock (signer : Address) (libraryName libraryAddress : string) : evm Address
    :=
  deploy signer "PerpV2Mock" [(libraryName, libraryAddress)] [].

Definition deployPerpV2LibraryV2Mock (signer : Address) (libraryName libraryAddress : string) :
    evm Address :=
  deploy signer "PerpV2LibraryV2Mock" [(libraryName, libraryAddress)] [].

Definition deployPerpV2PositionsMock (signer : Address) (libraryName libraryAddress : string) :
    evm Address :=
  deploy signer "PerpV2PositionsMock" [(libraryName, libraryAddress)] [].

Definition deployUniswapV3MathMock (signer : Address) : evm Address :=
  deploy signer "UniswapV3MathMock" [] [].

Definition deployUnitConversionUtilsMock (signer : Address) : evm Address :=
  deploy signer "UnitConversionUtilsMock" [] [].

Definition deploySetTokenAccessibleMock (signer : Address) (controller : string) : evm Address :=
  deploy signer "SetTokenAccessibleMock" [] [JStr controller].

Definition deployClaimAdapterMock (signer : Address) : evm Address :=
  deploy signer "ClaimAdapterMock" [] [].

Definition deployGaugeControllerMock (signer : Address) : evm Address :=
  deploy signer "GaugeControllerMock" [] [].

Definition deployContractCallerMock (signer : Address) : evm Address :=
  deploy signer "ContractCallerMock" [] [].

Definition deployDebtIssuanceMock (signer : Address) : evm Address :=
  deploy signer "DebtIssuanceMock" [] [].

Definition deployComptrollerMock (signer : Address) (comp : string) (compAmount : Z) (cToken :
    string) : evm Address :=
  deploy signer "ComptrollerMock" [] [JStr comp; JNum compAmount; JStr cToken].

Definition deployCompoundMock (signer : Address) (libraryName libraryAddress : string) : evm
    Address :=
  deploy signer "CompoundMock" [(libraryName, libraryAddress)] [].

Definition deploySynthMock (signer : Address) (initialAccount currencyKey : string)
    (initialBalance : option Z) (name symbol : option string) : evm Address :=
  initialBalance ← or_default initialBalance (ether (Number 1000000000));
  name ← or_default name (Ok "Token");
  symbol ← or_default symbol (Ok "Symbol");
  deploy signer "SynthMock" [] [JStr initialAccount; JNum initialBalance; JStr name; JStr symbol;
    JNum 18; JStr currencyKey].

Record CurrencyKeys := mkCurrencyKeys { key_sUsd : string; key_sEth : string; key_sBtc : string }.
Record Rates := mkRates { usd_eth : Z; eth_usd : Z; usd_btc : Z; btc_usd : Z }.

Definition deploySynthetixExchangerMock (signer : Address) (sUsd sEth sBtc : string)
    (currencyKeys : CurrencyKeys) (rates : Rates) : evm Address :=
  deploy signer "SynthetixExchangerMock" [] [JStr sUsd; JStr sEth; JStr sBtc;
    JStr (key_sUsd currencyKeys); JStr (key_sEth currencyKeys); JStr (key_sBtc currencyKeys);
    JNum (usd_eth rates); JNum (eth_usd rates); JNum (usd_btc rates); JNum (btc_usd rates)].

Definition deployCustomSetValuerMock (signer : Address) : evm Address :=
  deploy signer "CustomSetValuerMock" [] [].

Definition deployYearnStrategyMock (signer : Address) (vault : string) : evm Address :=
  deploy signer "YearnStrategyMock" [] [JStr vault].

Definition deployForceFunderMock (signer : Address) : evm Address :=
  deploy signer "ForceFunderMock" [] [].

Definition deployWrapV2AdapterMock (signer : Address) : evm Address :=
  deploy signer "WrapV2AdapterMock" [] [].

Definition deployChainlinkAggregatorMock (signer : Address) (decimals : Z) : evm Address :=
  deploy signer "ChainlinkAggregatorMock" [] [JNum decimals].

Definition deployTribePegExchangerMock (signer : Address) (rgt tribe : string) : evm Address :=
  deploy signer "TribePegExchangerMock" [] [JStr rgt; JStr tribe].

Definition deployStringArrayUtilsMock (signer : Address) : evm Address :=
  deploy signer "StringArrayUtilsMock" [] [].

Definition deployBytesArrayUtilsMock (signer : Address) : evm Address :=
  deploy signer "BytesArrayUtilsMock" [] [].

Definition deployWrappedfCashMock (signer : Address) (assetToken underlyingToken weth : string) :
    evm Address :=
  deploy signer "WrappedfCashMock" [] [JStr assetToken; JStr underlyingToken; JStr weth].

Definition deployWrappedfCashFactoryMock (signer : Address) : evm Address :=
  deploy signer "WrappedfCashFactoryMock" [] [].

Definition deployZeroExExchangeProxyMock (signer : Address) : evm Address :=
  deploy signer "ZeroExExchangeProxyMock" [] [].

Definition getTokenMock (token : string) : evm Address := attach token.

Definition getForkedZeroExExchange : evm Address :=
  a ← lift (dependency "ZERO_EX_EXCHANGE" 1); attach a.

End mocks.
End mocks.

(** ** Theorems *)

(** Each helper of Mocks deploys exactly the contract it is named after, from the
    deployer account, with arguments that match the constructor of that
    contract, and returns the address it was deployed at. *)
Theorem mocks_helpers_deploy `{EU : EthersUtils} `{ND : Node} :
  (forall s, deploys s "ExplicitERC20Mock" (mocks.deployExplicitErc20Mock s)) /\
  (forall s, deploys s "InvokeMock" (mocks.deployInvokeMock s)) /\
  (forall s, deploys s "ManagerIssuanceHookMock" (mocks.deployManagerIssuanceHookMock s)) /\
  (forall s, deploys s "ModuleIssuanceHookMock" (mocks.deployModuleIssuanceHookMock s)) /\
  (forall s, deploys s "NAVIssuanceHookMock" (mocks.deployNavIssuanceHookMock s)) /\
  (forall s x0, deploys s "NAVIssuanceCaller" (mocks.deployNAVIssuanceCaller s x0)) /\
  (forall s, deploys s "AddressArrayUtilsMock" (mocks.deployAddressArrayUtilsMock s)) /\
  (forall s, deploys s "Uint256ArrayUtilsMock" (mocks.deployUint256ArrayUtilsMock s)) /\
  (forall s x0, deploys s "KyberNetworkProxyMock" (mocks.deployKyberNetworkProxyMock s x0)) /\
  (forall s x0, deploys s "ModuleBaseMock" (mocks.deployModuleBaseMock s x0)) /\
  (forall s x0, deploys s "ModuleBaseV2Mock" (mocks.deployModuleBaseV2Mock s x0)) /\
  (forall s x0, deploys s "GodModeMock" (mocks.deployGodModeMock s x0)) /\
  (forall s x0, deploys s "DebtModuleMock" (mocks.deployDebtModuleMock s x0)) /\
  (forall s x0, deploys s "GovernanceAdapterMock" (mocks.deployGovernanceAdapterMock s x0)) /\
  (forall s x0, deploys s "CurveStableswapMock" (mocks.deployCurveStableswapMock s x0)) /\
  (forall s x0 x1 x2 x3, deploys s "OneInchExchangeMock" (mocks.deployOneInchExchangeMock s x0 x1 x2 x3)) /\
  (forall s x0 x1 x2 x3, deploys s "ZeroExMock" (mocks.deployZeroExMock s x0 x1 x2 x3)) /\
  (forall s x0, deploys s "OracleMock" (mocks.deployOracleMock s x0)) /\
  (forall s x0, deploys s "YearnVaultMock" (mocks.deployYearnVaultMock s x0)) /\
  (forall s x0 x1, deploys s "OracleAdapterMock" (mocks.deployOracleAdapterMock s x0 x1)) /\
  (forall s, deploys s "PositionMock" (mocks.deployPositionMock s)) /\
  (forall s x0 x1, deploys s "PositionV2Mock" (mocks.deployPositionV2Mock s x0 x1)) /\
  (forall s, deploys s "PreciseUnitMathMock" (mocks.deployPreciseUnitMathMock s)) /\
  (forall s, deploys s "ResourceIdentifierMock" (mocks.deployResourceIdentifierMock s)) /\
  (forall s x0, deploys s "StakingAdapterMock" (mocks.deployStakingAdapterMock s x0)) /\
  (forall s x0 x1 x2 x3 x4, deploys s "StandardTokenMock" (mocks.deployTokenMock s x0 x1 x2 x3 x4)) /\
  (forall s x0 x1 x2 x3 x4, deploys s "StandardTokenWithFeeMock" (mocks.deployTokenWithFeeMock s x0 x1 x2
      x3 x4)) /\
  (forall s x0 x1 x2 x3 x4 x5, deploys s "StandardTokenWithRoundingErrorMock"
      (mocks.deployTokenWithErrorMock s x0 x1 x2 x3 x4 x5)) /\
  (forall s, deploys s "TradeAdapterMock" (mocks.deployTradeAdapterMock s)) /\
  (forall s x0, deploys s "AmmAdapterMock" (mocks.deployAmmAdapterMock s x0)) /\
  (forall s, deploys s "WrapAdapterMock" (mocks.deployWrapAdapterMock s)) /\
  (forall s, deploys s "AaveLendingPoolCoreMock" (mocks.deployAaveLendingPoolCoreMock s)) /\
  (forall s x0, deploys s "AaveLendingPoolMock" (mocks.deployAaveLendingPoolMock s x0)) /\
  (forall s x0 x1, deploys s "AaveV2Mock" (mocks.deployAaveV2Mock s x0 x1)) /\
  (forall s x0 x1, deploys s "PerpV2Mock" (mocks.deployPerpV2Mock s x0 x1)) /\
  (forall s x0 x1, deploys s "PerpV2LibraryV2Mock" (mocks.deployPerpV2LibraryV2Mock s x0 x1)) /\
  (forall s x0 x1, deploys s "PerpV2PositionsMock" (mocks.deployPerpV2PositionsMock s x0 x1)) /\
  (forall s, deploys s "UniswapV3MathMock" (mocks.deployUniswapV3MathMock s)) /\
  (forall s, deploys s "UnitConversionUtilsMock" (mocks.deployUnitConversionUtilsMock s)) /\
  (forall s x0, deploys s "SetTokenAccessibleMock" (mocks.deploySetTokenAccessibleMock s x0)) /\
  (forall s, deploys s "ClaimAdapterMock" (mocks.deployClaimAdapterMock s)) /\
  (forall s, deploys s "GaugeControllerMock" (mocks.deployGaugeControllerMock s)) /\
  (forall s, deploys s "ContractCallerMock" (mocks.deployContractCallerMock s)) /\
  (forall s, deploys s "DebtIssuanceMock" (mocks.deployDebtIssuanceMock s)) /\
  (forall s x0 x1 x2, deploys s "ComptrollerMock" (mocks.deployComptrollerMock s x0 x1 x2)) /\
  (forall s x0 x1, deploys s "CompoundMock" (mocks.deployCompoundMock s x0 x1)) /\
  (forall s x0 x1 x2 x3 x4, deploys s "SynthMock" (mocks.deploySynthMock s x0 x1 x2 x3 x4)) /\
  (forall s a b c k r, deploys s "SynthetixExchangerMock" (mocks.deploySynthetixExchangerMock s a b c k
      r)) /\
  (forall s, deploys s "CustomSetValuerMock" (mocks.deployCustomSetValuerMock s)) /\
  (forall s x0, deploys s "YearnStrategyMock" (mocks.deployYearnStrategyMock s x0)) /\
  (forall s, deploys s "ForceFunderMock" (mocks.deployForceFunderMock s)) /\
  (forall s, deploys s "WrapV2AdapterMock" (mocks.deployWrapV2AdapterMock s)) /\
  (forall s x0, deploys s "ChainlinkAggregatorMock" (mocks.deployChainlinkAggregatorMock s x0)) /\
  (forall s x0 x1, deploys s "TribePegExchangerMock" (mocks.deployTribePegExchangerMock s x0 x1)) /\
  (forall s, deploys s "StringArrayUtilsMock" (mocks.deployStringArrayUtilsMock s)) /\
  (forall s, deploys s "BytesArrayUtilsMock" (mocks.deployBytesArrayUtilsMock s)) /\
  (forall s x0 x1 x2, deploys s "WrappedfCashMock" (mocks.deployWrappedfCashMock s x0 x1 x2)) /\
  (forall s, deploys s "WrappedfCashFactoryMock" (mocks.deployWrappedfCashFactoryMock s)) /\
  (forall s, deploys s "ZeroExExchangeProxyMock" (mocks.deployZeroExExchangeProxyMock s)).
Proof. split_and!; intros; deploys_tac. Qed.
