(* ===== verification/DeployExternal.v ===== *)
(** * Deployment helpers of third-party protocols *)

From S2P Require Import Prelude JsString Ethers Constants UnitsUtils Evm ConstructorAbi Dependencies ProtocolUtils.
From Stdlib Require Import String.

Local Open Scope Z_scope.

(** [utils/deploys/deployExternal.ts] *)
Module external.
Section external.
Context `{EU : EthersUtils} `{ND : Node}.

Definition deployComp (signer : Address) (_account : string) : evm Address :=
  deploy signer "Comp" [] [JStr _account].

Definition deployCompoundTimelock (signer : Address) (_admin : string) (_delay : Z) : evm Address
    :=
  deploy signer "CompoundTimelock" [] [JStr _admin; JNum _delay].

Definition deployCompoundGovernorAlpha (signer : Address) (_timelock _comp _guardian : string) :
    evm Address :=
  deploy signer "CompoundGovernorAlpha" [] [JStr _timelock; JStr _comp; JStr _guardian].

Definition deployCompoundGovernorBravoDelegate (signer : Address) : evm Address :=
  deploy signer "CompoundGovernorBravoDelegate" [] [].

Definition deployCompoundGovernorBravoDelegator (signer : Address) (timelock comp admin
    implementation : string) (votingPeriod votingDelay proposalThreshold : Z) : evm Address :=
  deploy signer "CompoundGovernorBravoDelegator" [] [JStr timelock; JStr comp; JStr admin; JStr
    implementation; JNum votingPeriod; JNum votingDelay; JNum proposalThreshold].

Definition deployCeRc20 (signer : Address) (underlying comptroller interestRateModel : string)
    (initialExchangeRateMantissa : Z) (name symbol : string) (decimals : Z) : evm Address :=
  deploy signer "CERc20" [] [JStr underlying; JStr comptroller; JStr interestRateModel; JNum
    initialExchangeRateMantissa; JStr name; JStr symbol; JNum decimals].

Definition deployCEther (signer : Address) (comptroller interestRateModel : string)
    (initialExchangeRateMantissa : Z) (name symbol : string) (decimals : Z) : evm Address :=
  deploy signer "CEther" [] [JStr comptroller; JStr interestRateModel; JNum
    initialExchangeRateMantissa; JStr name; JStr symbol; JNum decimals].

Definition deployCompoundPriceOracleMock (signer : Address) : evm Address :=
  deploy signer "CompoundPriceOracleMock" [] [].

Definition deployPriceOracleProxy (signer : Address) (guardian v1PriceOracle cEthAddress
    cUsdcAddress cSaiAddress cDaiAddress cUsdtAddress : string) : evm Address :=
  deploy signer "PriceOracleProxy" [] [JStr guardian; JStr v1PriceOracle; JStr cEthAddress; JStr
    cUsdcAddress; JStr cSaiAddress; JStr cDaiAddress; JStr cUsdtAddress].

Definition deployComptroller (signer : Address) : evm Address :=
  deploy signer "Comptroller" [] [].

Definition deployUnitroller (signer : Address) : evm Address :=
  deploy signer "Unitroller" [] [].

Definition deployWhitePaperInterestRateModel (signer : Address) (baseRate multiplier : Z) : evm
    Address :=
  deploy signer "WhitePaperInterestRateModel" [] [JNum baseRate; JNum multiplier].

Definition deployWETH (signer : Address) : evm Address :=
  deploy signer "WETH9" [] [].

Definition getWETH (weth : string) : evm Address := attach weth.

Definition deployAaveV2LendingPoolAddressesProvider (signer : Address) (marketId : string) : evm
    Address :=
  deploy signer "AaveV2LendingPoolAddressesProvider" [] [JStr marketId].

Definition deployAaveV2LendingPool (signer : Address) (validationLogicAddress reserveLogicAddress
    : string) : evm Address :=
  deploy signer "AaveV2LendingPool" [("__$de8c0cf1a7d7c36c802af9a64fb9d86036$__",
    validationLogicAddress); ("__$22cd43a9dda9ce44e9b92ba393b88fb9ac$__", reserveLogicAddress)]
    [].

Definition deployAaveV2LendingPoolConfigurator (signer : Address) : evm Address :=
  deploy signer "AaveV2LendingPoolConfigurator" [] [].

Definition deployAaveV2LendingPoolCollateralManager (signer : Address) : evm Address :=
  deploy signer "AaveV2LendingPoolCollateralManager" [] [].

Definition deployAaveV2LendingRateOracle (signer : Address) : evm Address :=
  deploy signer "AaveV2LendingRateOracle" [] [].

Definition deployAaveV2Oracle (signer : Address) (assets sources : list string) (fallBackOracle
    weth : string) : evm Address :=
  deploy signer "AaveV2Oracle" [] [JStrs assets; JStrs sources; JStr fallBackOracle; JStr weth].

Definition deployAaveV2PriceOracle (signer : Address) : evm Address :=
  deploy signer "AaveV2PriceOracle" [] [].

Definition deployAaveV2DefaultReserveInterestRateStrategy (signer : Address) (_AddressesProvider :
    string) (_optimalUtilizationRate _baseVariableBorrowRate _variableRateSlope1
    _variableRateSlope2 _stableRateSlope1 _stableRateSlope2 : option Z) : evm Address :=
  _optimalUtilizationRate ← or_default _optimalUtilizationRate (ether (Number 1));
  _baseVariableBorrowRate ← or_default _baseVariableBorrowRate (ether (Number 1));
  _variableRateSlope1 ← or_default _variableRateSlope1 (ether (Number 1));
  _variableRateSlope2 ← or_default _variableRateSlope2 (ether (Number 1));
  _stableRateSlope1 ← or_default _stableRateSlope1 (ether (Number 1));
  _stableRateSlope2 ← or_default _stableRateSlope2 (ether (Number 1));
  deploy signer "AaveV2DefaultReserveInterestRateStrategy" [] [JStr _AddressesProvider; JNum
    _optimalUtilizationRate; JNum _baseVariableBorrowRate; JNum _variableRateSlope1; JNum
    _variableRateSlope2; JNum _stableRateSlope1; JNum _stableRateSlope2].

Definition deployAaveV2ProtocolDataProvider (signer : Address) (addressProvider : string) : evm
    Address :=
  deploy signer "AaveV2ProtocolDataProvider" [] [JStr addressProvider].

Definition deployAaveV2AToken (signer : Address) : evm Address :=
  deploy signer "AaveV2AToken" [] [].

Definition deployAaveV2StableDebtToken (signer : Address) : evm Address :=
  deploy signer "AaveV2StableDebtToken" [] [].

Definition deployAaveV2VariableDebtToken (signer : Address) : evm Address :=
  deploy signer "AaveV2VariableDebtToken" [] [].

Definition deployAaveV2StakedTokenIncentivesController (signer : Address) (stakeToken
    emissionManager : string) : evm Address :=
  deploy signer "AaveV2StakedTokenIncentivesController" [] [JStr stakeToken; JStr
    emissionManager].

Definition getForkedAaveLendingPoolAddressesProvider (_mainnetAddressesProvider : string) : evm
    Address := attach _mainnetAddressesProvider.

Definition getForkedAaveV2ProtocolDataProvider (_mainnetAddressesProvider : string) : evm Address
    := attach _mainnetAddressesProvider.

Definition deployGeneralLogic (signer : Address) : evm Address :=
  deploy signer "GenericLogic" [] [].

Definition deployValidationLogic (signer : Address) (genericLogicLibraryAddress : string) : evm
    Address :=
  deploy signer "ValidationLogic" [("__$52a8a86ab43135662ff256bbc95497e8e3$__",
    genericLogicLibraryAddress)] [].

Definition deployReserveLogic (signer : Address) : evm Address :=
  deploy signer "ReserveLogic" [] [].

Definition deployAaveGovernanceV2 (signer : Address) (_governanceStrategy : string) (_votingDelay
    : Z) (_guardian : string) (_executors : list string) : evm Address :=
  deploy signer "AaveGovernanceV2" [] [JStr _governanceStrategy; JNum _votingDelay; JStr
    _guardian; JStrs _executors].

Definition deployExecutor (signer : Address) (_admin : string) (_delay _gracePeriod _minimumDelay
    _maximumDelay _propositionThreshold _voteDuration _voteDifferential _minmumQuorum : Z) : evm
    Address :=
  deploy signer "Executor" [] [JStr _admin; JNum _delay; JNum _gracePeriod; JNum _minimumDelay;
    JNum _maximumDelay; JNum _propositionThreshold; JNum _voteDuration; JNum _voteDifferential;
    JNum _minmumQuorum].

Definition deployGovernanceStrategy (signer : Address) (_aave _stkaave : string) : evm Address :=
  deploy signer "GovernanceStrategy" [] [JStr _aave; JStr _stkaave].

Definition deployAaveTokenV2Mintable (signer : Address) : evm Address :=
  deploy signer "AaveTokenV2Mintable" [] [].

Definition deployCurveDeposit (signer : Address) (_coins _underlying_coins : list string) (_curve
    _token : string) : evm Address :=
  deploy signer "CurveDeposit" [] [JStrs _coins; JStrs _underlying_coins; JStr _curve; JStr
    _token].

Definition deployCurvePoolERC20 (signer : Address) (_name _symbol : string) (_decimals : option Z)
    (_supply : Z) : evm Address :=
  _decimals ← or_default _decimals (Ok 18);
  deploy signer "CurvePoolERC20" [] [JStr _name; JStr _symbol; JNum _decimals; JNum _supply].

Definition getCurveStEthStableswapMock : evm Address :=
  a ← lift (dependency "CURVE_ETH_STETH_EXCHANGE" 1); attach a.

Definition getCurveWethStethStableswapMock : evm Address :=
  a ← lift (dependency "CURVE_WETH_STETH_EXCHANGE" 1); attach a.

Definition deployStableswap (signer : Address) (_coins _underlying_coins : list string)
    (_pool_token : string) (_aCoefficient _fee : option Z) : evm Address :=
  _aCoefficient ← or_default _aCoefficient (Ok 1);
  _fee ← or_default _fee (Ok 0);
  deploy signer "Stableswap" [] [JStrs _coins; JStrs _underlying_coins; JStr _pool_token; JNum
    _aCoefficient; JNum _fee].

Definition deployCrvToken (signer : Address) (_name _symbol : string) (_decimals : option Z) : evm
    Address :=
  _decimals ← or_default _decimals (Ok 18);
  deploy signer "CRVToken" [] [JStr _name; JStr _symbol; JNum _decimals].

Definition deployGaugeController (signer : Address) (_token _voting_escrow : string) : evm Address
    :=
  deploy signer "GaugeController" [] [JStr _token; JStr _voting_escrow].

Definition deployLiquidityGaugeReward (signer : Address) (_lpAddr _minter _reward_contract
    _rewarded_token : string) : evm Address :=
  deploy signer "LiquidityGaugeReward" [] [JStr _lpAddr; JStr _minter; JStr _reward_contract; JStr
    _rewarded_token].

Definition deployLiquidityGauge (signer : Address) (_lpAddr _minter : string) : evm Address :=
  deploy signer "LiquidityGauge" [] [JStr _lpAddr; JStr _minter].

Definition deployMinter (signer : Address) (_token _controller : string) : evm Address :=
  deploy signer "Minter" [] [JStr _token; JStr _controller].

Definition deployUni (signer : Address) (_account _minter : string) (_mintingAllowedAfter : Z) :
    evm Address :=
  deploy signer "Uni" [] [JStr _account; JStr _minter; JNum _mintingAllowedAfter].

Definition deployUniswapTimelock (signer : Address) (_admin : string) (_delay : Z) : evm Address
    :=
  deploy signer "UniswapTimelock" [] [JStr _admin; JNum _delay].

Definition deployUniswapGovernorAlpha (signer : Address) (_timelock _uni : string) : evm Address
    :=
  deploy signer "UniswapGovernorAlpha" [] [JStr _timelock; JStr _uni].

Definition deployUniswapV2Factory (signer : Address) (_feeToSetter : string) : evm Address :=
  deploy signer "UniswapV2Factory" [] [JStr _feeToSetter].

Definition deployUniswapV2Router02 (signer : Address) (_factory _weth : string) : evm Address :=
  deploy signer "UniswapV2Router02" [] [JStr _factory; JStr _weth].

Definition getForkedUniswapV2Router02 (_mainnetRouter : string) : evm Address := attach _mainnetRouter.

Definition deployUniswapV2Pair (signer : Address) : evm Address :=
  deploy signer "UniswapV2Pair" [] [].

Definition deployStakingRewards (signer : Address) (_rewardsDistribution _rewardsToken
    _stakingToken : string) : evm Address :=
  deploy signer "StakingRewards" [] [JStr _rewardsDistribution; JStr _rewardsToken; JStr
    _stakingToken].

Definition deployB__factory (signer : Address) : evm Address :=
  deploy signer "BFactory" [] [].

Definition deployExchangeProxy (signer : Address) (weth : string) : evm Address :=
  deploy signer "ExchangeProxy" [] [JStr weth].

Definition deployBRegistry (signer : Address) (factory : string) : evm Address :=
  deploy signer "BRegistry" [] [JStr factory].

Definition deployDelegateRegistry (signer : Address) : evm Address :=
  deploy signer "DelegateRegistry" [] [].

Definition deployVault (signer : Address) : evm Address :=
  deploy signer "Vault" [] [].

Definition getVault (vaultAddress : string) : evm Address := attach vaultAddress.

Definition deployRegistry (signer : Address) : evm Address :=
  deploy signer "Registry" [] [].

Definition deployKyberNetworkTokenV2 (signer : Address) : evm Address :=
  deploy signer "KyberNetworkTokenV2" [] [].

Definition deployDMMFactory (signer : Address) (_feeToSetter : string) : evm Address :=
  deploy signer "DMMFactory" [] [JStr _feeToSetter].

Definition deployDMMRouter02 (signer : Address) (_factory _weth : string) : evm Address :=
  deploy signer "DMMRouter02" [] [JStr _factory; JStr _weth].

Definition deployDMMPool (signer : Address) : evm Address :=
  deploy signer "DMMPool" [] [].

Definition deployUniswapV3Factory (signer : Address) : evm Address :=
  deploy signer "UniswapV3Factory" [] [].

Definition deploySwapRouter (signer : Address) (factory weth : string) : evm Address :=
  deploy signer "SwapRouter" [] [JStr factory; JStr weth].

Definition deployNftPositionManager (signer : Address) (factory weth nftDesc : string) : evm
    Address :=
  deploy signer "NonfungiblePositionManager" [] [JStr factory; JStr weth; JStr nftDesc].

Definition deployQuoter (signer : Address) (factory weth : string) : evm Address :=
  deploy signer "Quoter" [] [JStr factory; JStr weth].

Definition deployNFTDescriptor (signer : Address) : evm Address :=
  deploy signer "NFTDescriptor" [] [].

Definition getUniswapV3PoolInstance (pool : string) : evm Address := attach pool.

Definition deployPerpV2OrderBook (signer : Address) : evm Address :=
  deploy signer "PerpV2OrderBook" [] [].

Definition deployPerpV2MarketRegistry (signer : Address) : evm Address :=
  deploy signer "PerpV2MarketRegistry" [] [].

Definition deployPerpV2Quoter (signer : Address) (marketRegistry : string) : evm Address :=
  deploy signer "PerpV2Quoter" [] [JStr marketRegistry].

Definition deployPerpV2QuoteToken (signer : Address) : evm Address :=
  deploy signer "PerpV2QuoteToken" [] [].

Definition deployPerpV2Vault (signer : Address) : evm Address :=
  deploy signer "PerpV2Vault" [] [].

Definition deployPerpV2TestAggregatorV3 (signer : Address) : evm Address :=
  deploy signer "PerpV2TestAggregatorV3" [] [].

Definition deployPerpV2ChainlinkPriceFeed (signer : Address) : evm Address :=
  deploy signer "PerpV2ChainlinkPriceFeed" [] [].

Definition deployPerpV2BaseToken (signer : Address) : evm Address :=
  deploy signer "PerpV2BaseToken" [] [].

Definition deployPerpV2ClearingHouseConfig (signer : Address) : evm Address :=
  deploy signer "PerpV2ClearingHouseConfig" [] [].

Definition deployPerpV2InsuranceFund (signer : Address) : evm Address :=
  deploy signer "PerpV2InsuranceFund" [] [].

Definition deployPerpV2AccountBalance (signer : Address) : evm Address :=
  deploy signer "PerpV2AccountBalance" [] [].

Definition deployPerpV2Exchange (signer : Address) : evm Address :=
  deploy signer "PerpV2Exchange" [] [].

Definition deployPerpV2ClearingHouse (signer : Address) : evm Address :=
  deploy signer "PerpV2ClearingHouse" [] [].

Definition deployWrappedfCash (signer : Address) (notionalProxy weth : string) : evm Address :=
  deploy signer "WrappedfCash" [] [JStr notionalProxy; JStr weth].

Definition deployWrappedfCashFactory (signer : Address) (beacon : string) : evm Address :=
  deploy signer "WrappedfCashFactory" [] [JStr beacon].

Definition getVToken (token : string) : evm Address := attach token.

End external.
End external.

(** ** Theorems *)

(** Each helper of External deploys exactly the contract it is named after, from the
    deployer account, with arguments that match the constructor of that
    contract, and returns the address it was deployed at. *)
Theorem external_helpers_deploy `{EU : EthersUtils} `{ND : Node} :
  (forall s x0, deploys s "Comp" (external.deployComp s x0)) /\
  (forall s x0 x1, deploys s "CompoundTimelock" (external.deployCompoundTimelock s x0 x1)) /\
  (forall s x0 x1 x2, deploys s "CompoundGovernorAlpha" (external.deployCompoundGovernorAlpha s x0 x1 x2)) /\
  (forall s, deploys s "CompoundGovernorBravoDelegate" (external.deployCompoundGovernorBravoDelegate s)) /\
  (forall s x0 x1 x2 x3 x4 x5 x6, deploys s "CompoundGovernorBravoDelegator"
      (external.deployCompoundGovernorBravoDelegator s x0 x1 x2 x3 x4 x5 x6)) /\
  (forall s x0 x1 x2 x3 x4 x5 x6, deploys s "CERc20" (external.deployCeRc20 s x0 x1 x2 x3 x4 x5 x6)) /\
  (forall s x0 x1 x2 x3 x4 x5, deploys s "CEther" (external.deployCEther s x0 x1 x2 x3 x4 x5)) /\
  (forall s, deploys s "CompoundPriceOracleMock" (external.deployCompoundPriceOracleMock s)) /\
  (forall s x0 x1 x2 x3 x4 x5 x6, deploys s "PriceOracleProxy" (external.deployPriceOracleProxy s x0 x1 x2 x3
      x4 x5 x6)) /\
  (forall s, deploys s "Comptroller" (external.deployComptroller s)) /\
  (forall s, deploys s "Unitroller" (external.deployUnitroller s)) /\
  (forall s x0 x1, deploys s "WhitePaperInterestRateModel" (external.deployWhitePaperInterestRateModel s x0
      x1)) /\
  (forall s, deploys s "WETH9" (external.deployWETH s)) /\
  (forall s x0, deploys s "AaveV2LendingPoolAddressesProvider"
      (external.deployAaveV2LendingPoolAddressesProvider s x0)) /\
  (forall s x0 x1, deploys s "AaveV2LendingPool" (external.deployAaveV2LendingPool s x0 x1)) /\
  (forall s, deploys s "AaveV2LendingPoolConfigurator" (external.deployAaveV2LendingPoolConfigurator s)) /\
  (forall s, deploys s "AaveV2LendingPoolCollateralManager"
      (external.deployAaveV2LendingPoolCollateralManager s)) /\
  (forall s, deploys s "AaveV2LendingRateOracle" (external.deployAaveV2LendingRateOracle s)) /\
  (forall s x0 x1 x2 x3, deploys s "AaveV2Oracle" (external.deployAaveV2Oracle s x0 x1 x2 x3)) /\
  (forall s, deploys s "AaveV2PriceOracle" (external.deployAaveV2PriceOracle s)) /\
  (forall s x0 x1 x2 x3 x4 x5 x6, deploys s "AaveV2DefaultReserveInterestRateStrategy"
      (external.deployAaveV2DefaultReserveInterestRateStrategy s x0 x1 x2 x3 x4 x5 x6)) /\
  (forall s x0, deploys s "AaveV2ProtocolDataProvider" (external.deployAaveV2ProtocolDataProvider s x0)) /\
  (forall s, deploys s "AaveV2AToken" (external.deployAaveV2AToken s)) /\
  (forall s, deploys s "AaveV2StableDebtToken" (external.deployAaveV2StableDebtToken s)) /\
  (forall s, deploys s "AaveV2VariableDebtToken" (external.deployAaveV2VariableDebtToken s)) /\
  (forall s x0 x1, deploys s "AaveV2StakedTokenIncentivesController"
      (external.deployAaveV2StakedTokenIncentivesController s x0 x1)) /\
  (forall s, deploys s "GenericLogic" (external.deployGeneralLogic s)) /\
  (forall s x0, deploys s "ValidationLogic" (external.deployValidationLogic s x0)) /\
  (forall s, deploys s "ReserveLogic" (external.deployReserveLogic s)) /\
  (forall s x0 x1 x2 x3, deploys s "AaveGovernanceV2" (external.deployAaveGovernanceV2 s x0 x1 x2 x3)) /\
  (forall s x0 x1 x2 x3 x4 x5 x6 x7 x8, deploys s "Executor" (external.deployExecutor s x0 x1 x2 x3 x4 x5 x6
      x7 x8)) /\
  (forall s x0 x1, deploys s "GovernanceStrategy" (external.deployGovernanceStrategy s x0 x1)) /\
  (forall s, deploys s "AaveTokenV2Mintable" (external.deployAaveTokenV2Mintable s)) /\
  (forall s x0 x1 x2 x3, deploys s "CurveDeposit" (external.deployCurveDeposit s x0 x1 x2 x3)) /\
  (forall s x0 x1 x2 x3, deploys s "CurvePoolERC20" (external.deployCurvePoolERC20 s x0 x1 x2 x3)) /\
  (forall s x0 x1 x2 x3 x4, deploys s "Stableswap" (external.deployStableswap s x0 x1 x2 x3 x4)) /\
  (forall s x0 x1 x2, deploys s "CRVToken" (external.deployCrvToken s x0 x1 x2)) /\
  (forall s x0 x1, deploys s "GaugeController" (external.deployGaugeController s x0 x1)) /\
  (forall s x0 x1 x2 x3, deploys s "LiquidityGaugeReward" (external.deployLiquidityGaugeReward s x0 x1 x2
      x3)) /\
  (forall s x0 x1, deploys s "LiquidityGauge" (external.deployLiquidityGauge s x0 x1)) /\
  (forall s x0 x1, deploys s "Minter" (external.deployMinter s x0 x1)) /\
  (forall s x0 x1 x2, deploys s "Uni" (external.deployUni s x0 x1 x2)) /\
  (forall s x0 x1, deploys s "UniswapTimelock" (external.deployUniswapTimelock s x0 x1)) /\
  (forall s x0 x1, deploys s "UniswapGovernorAlpha" (external.deployUniswapGovernorAlpha s x0 x1)) /\
  (forall s x0, deploys s "UniswapV2Factory" (external.deployUniswapV2Factory s x0)) /\
  (forall s x0 x1, deploys s "UniswapV2Router02" (external.deployUniswapV2Router02 s x0 x1)) /\
  (forall s, deploys s "UniswapV2Pair" (external.deployUniswapV2Pair s)) /\
  (forall s x0 x1 x2, deploys s "StakingRewards" (external.deployStakingRewards s x0 x1 x2)) /\
  (forall s, deploys s "BFactory" (external.deployB__factory s)) /\
  (forall s x0, deploys s "ExchangeProxy" (external.deployExchangeProxy s x0)) /\
  (forall s x0, deploys s "BRegistry" (external.deployBRegistry s x0)) /\
  (forall s, deploys s "DelegateRegistry" (external.deployDelegateRegistry s)) /\
  (forall s, deploys s "Vault" (external.deployVault s)) /\
  (forall s, deploys s "Registry" (external.deployRegistry s)) /\
  (forall s, deploys s "KyberNetworkTokenV2" (external.deployKyberNetworkTokenV2 s)) /\
  (forall s x0, deploys s "DMMFactory" (external.deployDMMFactory s x0)) /\
  (forall s x0 x1, deploys s "DMMRouter02" (external.deployDMMRouter02 s x0 x1)) /\
  (forall s, deploys s "DMMPool" (external.deployDMMPool s)) /\
  (forall s, deploys s "UniswapV3Factory" (external.deployUniswapV3Factory s)) /\
  (forall s x0 x1, deploys s "SwapRouter" (external.deploySwapRouter s x0 x1)) /\
  (forall s x0 x1 x2, deploys s "NonfungiblePositionManager" (external.deployNftPositionManager s x0 x1 x2)) /\
  (forall s x0 x1, deploys s "Quoter" (external.deployQuoter s x0 x1)) /\
  (forall s, deploys s "NFTDescriptor" (external.deployNFTDescriptor s)) /\
  (forall s, deploys s "PerpV2OrderBook" (external.deployPerpV2OrderBook s)) /\
  (forall s, deploys s "PerpV2MarketRegistry" (external.deployPerpV2MarketRegistry s)) /\
  (forall s x0, deploys s "PerpV2Quoter" (external.deployPerpV2Quoter s x0)) /\
  (forall s, deploys s "PerpV2QuoteToken" (external.deployPerpV2QuoteToken s)) /\
  (forall s, deploys s "PerpV2Vault" (external.deployPerpV2Vault s)) /\
  (forall s, deploys s "PerpV2TestAggregatorV3" (external.deployPerpV2TestAggregatorV3 s)) /\
  (forall s, deploys s "PerpV2ChainlinkPriceFeed" (external.deployPerpV2ChainlinkPriceFeed s)) /\
  (forall s, deploys s "PerpV2BaseToken" (external.deployPerpV2BaseToken s)) /\
  (forall s, deploys s "PerpV2ClearingHouseConfig" (external.deployPerpV2ClearingHouseConfig s)) /\
  (forall s, deploys s "PerpV2InsuranceFund" (external.deployPerpV2InsuranceFund s)) /\
  (forall s, deploys s "PerpV2AccountBalance" (external.deployPerpV2AccountBalance s)) /\
  (forall s, deploys s "PerpV2Exchange" (external.deployPerpV2Exchange s)) /\
  (forall s, deploys s "PerpV2ClearingHouse" (external.deployPerpV2ClearingHouse s)) /\
  (forall s x0 x1, deploys s "WrappedfCash" (external.deployWrappedfCash s x0 x1)) /\
  (forall s x0, deploys s "WrappedfCashFactory" (external.deployWrappedfCashFactory s x0)).
Proof. split_and!; intros; deploys_tac. Qed.
