(* ===== verification/Accounts.v ===== *)
(** * Accounts and the clock

    [utils/test/accountUtils.ts], and what [utils/test/testingUtils.ts] reads
    of blocks and transactions. An [Account] is its address: its wallet signs
    for it. A JSON-RPC request is a transaction of no account to the provider;
    a block that is read is its timestamp. *)

From S2P Require Import Prelude JsString Ethers Constants UnitsUtils Evm Traces Dependencies DeployMocks.
From Stdlib Require Import String.

Local Open Scope Z_scope.

(** A contract connected to a signer. *)
Record connected := mkConnected { instance : Address; connected_signer : Address }.

Record ForkedTokens := mkForkedTokens {
  dai : connected; weth : connected; wbtc : connected; usdc : connected; steth : connected;
}.

Section Accounts.
Context `{BN : BigNumber} `{EU : EthersUtils} `{ND : Node}.

Definition getWallets : evm (list Address) := mret listAccounts.

Definition getAccounts : evm (list Address) := wallets ← getWallets; mret wallets.

(** [accounts[accounts.length - 1]]: undefined when there is none. *)
Definition getRandomAccount : evm (option Address) :=
  accounts ← getAccounts; mret (last accounts).

Definition getEthBalance (account : Address) : evm Z := read_Z "provider" "getBalance" [JStr account].

Definition whale (name : string) : result Address :=
  match assoc name whales with Some a => Ok a | None => Throw "whale undefined" end.

(** The whales and the tokens, in the order of the enum [ids]. *)
Definition getForkedDependencyAddresses : result (list Address * list Address) :=
  ws ← mapM whale ["DAI_WHALE"; "WETH_WHALE"; "WBTC_WHALE"; "USDC_WHALE"; "STETH_WHALE"]%string;
  ts ← mapM (fun t => dependency t 1) ["DAI"; "WETH"; "WBTC"; "USDC"; "STETH"]%string;
  Ok (ws, ts).

Definition getForkedTokens : result ForkedTokens :=
  d ← getForkedDependencyAddresses;
  let '(whales, tokens) := d in
  let connect i :=
    match tokens !! i, whales !! i with
    | Some t, Some w => Ok (mkConnected t w)
    | _, _ => Throw "undefined"
    end in
  dai ← connect 0%nat; weth ← connect 1%nat; wbtc ← connect 2%nat; usdc ← connect 3%nat;
  steth ← connect 4%nat;
  Ok (mkForkedTokens dai weth wbtc usdc steth).

Definition sendJSONRpcRequestAsync (method : string) (params : list jsv) : evm unit :=
  send "" "provider" method params.

Definition initializeForkedTokens (deployer : Address) : evm unit :=
  d ← lift getForkedDependencyAddresses;
  for_each (fun whale =>
    _ ← sendJSONRpcRequestAsync "hardhat_impersonateAccount" [JStr whale];
    funder ← mocks.deployForceFunderMock deployer;
    v ← lift (ether (Number 100));
    send_value deployer funder "fund" [JStr whale] v) d.1.

(** ** Blocks and transactions *)

(** [txData.block] is not a field of the transactions of ethers: for them the
    block asked for is undefined. *)
Definition getTransactionTimestamp (txData_block : option jsv) : evm Z :=
  ts ← read_Z "provider" "getBlock" (match txData_block with Some b => [b] | None => [] end);
  lift (bn_from_number ts).

Definition getLastBlockTimestamp : evm Z :=
  ts ← read_Z "provider" "getBlock" [JStr "latest"]; lift (bn_from_number ts).

(** Of the class [Blockchain]: the latest block, by its number. *)
Definition getCurrentTimestamp : evm jsv :=
  n ← read_Z "provider" "getBlockNumber" []; read "provider" "getBlock" [JNum n].

Definition mineBlockAsync : evm unit := sendJSONRpcRequestAsync "evm_mine" [].

(** [duration.toNumber()] throws above 2^53 - 1. *)
Definition increaseTimeAsync (duration : Z) : evm unit :=
  _ ← lift (require (Z.abs duration <? 2 ^ 53) "overflow");
  _ ← sendJSONRpcRequestAsync "evm_increaseTime" [JNum duration];
  mineBlockAsync.

(** A BigNumber is truthy, zero included. *)
Definition getTxFee (gasPrice : option Z) (cumulativeGasUsed : Z) : Z :=
  match gasPrice with Some p => bn_mul p cumulativeGasUsed | None => 0 end.

(** ** Theorems *)

(** The forked tokens are the mainnet tokens of their names, each connected to
    the whale of that token. *)
Lemma getForkedTokens_aligned : exists f, getForkedTokens = Ok f /\
  Forall (fun '(c, t, w) => dependency t 1 = Ok (instance c) /\ whale w = Ok (connected_signer c))
    [(dai f, "DAI", "DAI_WHALE"); (weth f, "WETH", "WETH_WHALE"); (wbtc f, "WBTC", "WBTC_WHALE");
     (usdc f, "USDC", "USDC_WHALE"); (steth f, "STETH", "STETH_WHALE")]%string.
Proof. eexists. split; [reflexivity|]. by repeat constructor. Qed.

(** What funding an account does, from the nonce [n] of the deployer. *)
Definition fund_events (deployer : Address) (n : nat) (whale : Address) : list event :=
  [Sent "" "provider" "hardhat_impersonateAccount" [JStr whale] 0;
   Deployed (create deployer n) deployer "ForceFunderMock" [] [];
   Sent deployer (create deployer n) "fund" [JStr whale] (100 * PRECISE_UNIT)].

Fixpoint funding_events (deployer : Address) (n : nat) (l : list Address) : list event :=
  match l with
  | [] => []
  | w :: l' => fund_events deployer n w ++ funding_events deployer (S (S n)) l'
  end.

(** Every whale is impersonated and then funded with 100 ether by a funder of
    its own. *)
Theorem initializeForkedTokens_run deployer h u h' : deployer <> ""%string ->
  initializeForkedTokens deployer h = Ok (u, h') ->
  exists ws ts, getForkedDependencyAddresses = Ok (ws, ts) /\ List.length ws = 5%nat /\
    h' = h ++ funding_events deployer (nonce deployer h) ws.
Proof.
  intros Hd E. unfold initializeForkedTokens in E. apply evm_bind_Ok in E as ([ws ts] & h0 & E0 & E).
  apply lift_Ok in E0 as [E0 ->]. exists ws, ts. split; [done|].
  split; [by injection E0 as <- <-|]. cbn [fst] in E. clear E0. revert h E.
  induction ws as [|w ws IH]; intros h E.
  - apply evm_ret_Ok in E as [_ ->]. by rewrite app_nil_r.
  - cbn [for_each] in E. apply evm_bind_Ok in E as (a & h1 & E1 & E).
    rewrite ether_Number in E1 by lia. unfold sendJSONRpcRequestAsync, mocks.deployForceFunderMock in E1.
    repeat evm_step. simplify_eq.
    assert (N : forall m, nonce deployer (h ++ [Sent "" "provider" m [JStr w] 0]) = nonce deployer h)
      by (intros; apply nonce_foreign; cbn; congruence).
    rewrite (IH _ E), N. cbn [funding_events fund_events app].
    rewrite !nonce_own, N by done. by rewrite <- !app_assoc.
Qed.

(** The clock moves only as asked: one request to advance it, one block. *)
Lemma increaseTimeAsync_run d h u h' : increaseTimeAsync d h = Ok (u, h') ->
  h' = h ++ [Sent "" "provider" "evm_increaseTime" [JNum d] 0; Sent "" "provider" "evm_mine" [] 0].
Proof.
  intros E. unfold increaseTimeAsync, mineBlockAsync, sendJSONRpcRequestAsync in E.
  repeat evm_step. subst. by rewrite <- app_assoc.
Qed.

End Accounts.

#[local] Instance accounts_node : Node := accepting_node (fun _ _ _ _ => Ok (JNum 0)) [].

Lemma forked_runs : is_Ok (initializeForkedTokens "owner" []) = true.
Proof. vm_compute. reflexivity. Qed.

Lemma initializeForkedTokens_witness : exists u h' ws,
  initializeForkedTokens "owner" [] = Ok (u, h') /\ List.length ws = 5%nat /\
  h' = funding_events "owner" 0 ws.
Proof.
  destruct (is_Ok_true _ forked_runs) as [[u h'] E].
  destruct (initializeForkedTokens_run "owner" [] u h' ltac:(done) E) as (ws & ts & _ & L & H).
  exists u, h', ws. by split_and!.
Defined.
