(* ===== verification/SystemFixtures.v ===== *)
(** * The protocol's test fixtures

    [utils/fixtures/systemFixture.ts] and [utils/fixtures/setFixture.ts]:
    programs that set up a whole protocol on a chain. A contract instance of
    the TypeScript classes is the address it is bound to, an object field that
    a method assigns is a field of the record the method returns. *)

From S2P Require Import Prelude JsString Ethers Constants UnitsUtils Evm ConstructorAbi ProtocolUtils Ownable Controller SetToken IntegrationRegistry Protocol DeployCore DeployMocks DeployExternal.
From Stdlib Require Import String.

Local Open Scope Z_scope.

Section Common.
Context `{EU : EthersUtils} `{ND : Node}.

(** [ether(n)] as an argument. *)
Definition ether_ (n : Z) : evm Z := lift (ether (Number n)).

(** [[, , , this.feeRecipient] = await provider.listAccounts()]; an absent
    account is undefined, which the deployment that uses it rejects. *)
Definition fourthAccount : evm Address :=
  lift (match listAccounts !! 3%nat with
        | Some a => Ok a
        | None => Throw "undefined"
        end).

(** [token.approve(spender, amount)], from the owner of the fixture. *)
Definition approve (owner token spender : Address) (amount : Z) : evm unit :=
  send owner token "approve" [JStr spender; JNum amount].

(** The loop of [approveAndIssueSetToken] and the issuance. *)
Definition approveAndIssue (owner issuanceModule setToken : Address) (issueQuantity : Z)
    (to : Address) : evm unit :=
  positions ← read setToken "getPositions" [];
  components ← lift (match positions with
    | JArr l => mapM (fun p => match p with
                               | JArr (JStr component :: _) => Ok component
                               | _ => Throw "unexpected result type" end) l
    | _ => Throw "unexpected result type" end);
  _ ← for_each (fun component =>
        componentInstance ← mocks.getTokenMock component;
        approve owner componentInstance issuanceModule MAX_UINT_256) components;
  send owner issuanceModule "issue" [JStr setToken; JNum issueQuantity; JStr to].

(** [factory.create(...)] and the address of the new SetToken. *)
Definition createFrom (owner factory : Address) (components : list Address) (units : list Z)
    (modules : list Address) (manager : Address) (name symbol : string) : evm Address :=
  _ ← send owner factory "create"
        [JStrs components; JNums units; JStrs modules; JStr manager; JStr name; JStr symbol];
  retrievedSetAddress ← getCreatedSetTokenAddress (Some "txHash"%string);
  attach retrievedSetAddress.

End Common.

(** ** SystemFixture *)

Module SystemFixture.

Record components := mkComponents {
  weth : Address; usdc : Address; wbtc : Address; dai : Address;
  component1Price : Z; component2Price : Z; component3Price : Z; component4Price : Z;
  ETH_USD_Oracle : Address; USD_USD_Oracle : Address; BTC_USD_Oracle : Address;
  DAI_USD_Oracle : Address;
}.

Record t := mk {
  _ownerAddress : Address;
  feeRecipient : Address;
  controller : Address;
  factory : Address;
  priceOracle : Address;
  integrationRegistry : Address;
  setValuer : Address;
  issuanceModule : Address;
  streamingFeeModule : Address;
  navIssuanceModule : Address;
  tokens : components;
}.

Section SystemFixture.
Context `{EU : EthersUtils} `{ND : Node}.

Definition initializeStandardComponents (owner issuanceModule : Address) : evm components :=
  weth ← external.deployWETH owner;
  b ← ether_ 10000; usdc ← mocks.deployTokenMock owner owner (Some b) (Some 6) None None;
  b ← ether_ 10000; wbtc ← mocks.deployTokenMock owner owner (Some b) (Some 8) None None;
  b ← ether_ 1000000; dai ← mocks.deployTokenMock owner owner (Some b) (Some 18) None None;
  component1Price ← ether_ 230;
  component2Price ← ether_ 1;
  component3Price ← ether_ 9000;
  component4Price ← ether_ 1;
  ETH_USD_Oracle ← mocks.deployOracleMock owner component1Price;
  USD_USD_Oracle ← mocks.deployOracleMock owner component2Price;
  BTC_USD_Oracle ← mocks.deployOracleMock owner component3Price;
  DAI_USD_Oracle ← mocks.deployOracleMock owner component4Price;
  v ← ether_ 5000; _ ← send_value owner weth "deposit" [] v;
  v ← ether_ 10000; _ ← approve owner weth issuanceModule v;
  v ← ether_ 10000; _ ← approve owner usdc issuanceModule v;
  v ← ether_ 10000; _ ← approve owner wbtc issuanceModule v;
  v ← ether_ 10000; _ ← approve owner dai issuanceModule v;
  mret (mkComponents weth usdc wbtc dai component1Price component2Price component3Price
          component4Price ETH_USD_Oracle USD_USD_Oracle BTC_USD_Oracle DAI_USD_Oracle).

Definition initialize (owner : Address) : evm t :=
  feeRecipient ← fourthAccount;
  controller ← core.deployController owner feeRecipient;
  issuanceModule ← modules.deployBasicIssuanceModule owner controller;
  c ← initializeStandardComponents owner issuanceModule;
  integrationRegistry ← core.deployIntegrationRegistry owner controller;
  factory ← core.deploySetTokenCreator owner controller;
  priceOracle ← core.deployPriceOracle owner controller (usdc c) []
    [weth c; usdc c; wbtc c; dai c] [usdc c; usdc c; usdc c; usdc c]
    [ETH_USD_Oracle c; USD_USD_Oracle c; BTC_USD_Oracle c; DAI_USD_Oracle c];
  integrationRegistry ← core.deployIntegrationRegistry owner controller;
  setValuer ← core.deploySetValuer owner controller;
  streamingFeeModule ← modules.deployStreamingFeeModule owner controller;
  navIssuanceModule ← modules.deployCustomOracleNavIssuanceModule owner controller (weth c);
  _ ← send owner controller "initialize"
        [JStrs [factory]; JStrs [issuanceModule; streamingFeeModule; navIssuanceModule];
         JStrs [integrationRegistry; priceOracle; setValuer]; JNums [0; 1; 2]];
  mret (mk owner feeRecipient controller factory priceOracle integrationRegistry setValuer
          issuanceModule streamingFeeModule navIssuanceModule c).

Definition createSetToken (f : t) (components : list Address) (units : list Z)
    (modules : list Address) (manager : option Address) (name symbol : option string) : evm Address :=
  createFrom (_ownerAddress f) (factory f) components units modules
    (default (_ownerAddress f) manager) (default "SetToken"%string name) (default "SET"%string symbol).

Definition createNonControllerEnabledSetToken (f : t) (components : list Address) (units : list Z)
    (modules : list Address) (manager : option Address) (name symbol : option string) : evm Address :=
  core.deploySetToken (_ownerAddress f) components units modules (controller f)
    (default (_ownerAddress f) manager) (default "SetToken"%string name) (default "SET"%string symbol).

Definition approveAndIssueSetToken (f : t) (setToken : Address) (issueQuantity : Z)
    (to : option Address) : evm unit :=
  approveAndIssue (_ownerAddress f) (issuanceModule f) setToken issueQuantity
    (default (_ownerAddress f) to).

End SystemFixture.
End SystemFixture.

(** ** SetFixture *)

Module SetFixture.

Record components := mkComponents {
  weth : Address; usdc : Address; wbtc : Address; dai : Address; usdt : Address;
}.

Record t := mk {
  _ownerAddress : Address;
  feeRecipient : Address;
  controller : Address;
  integrationRegistry : Address;
  factory : Address;
  issuanceModule : Address;
  streamingFeeModule : Address;
  debtIssuanceModule : Address;
  governanceModule : Address;
  airdropModule : Address;
  slippageIssuanceModule : Address;
  generalIndexModule : Address;
  wrapModule : Address;
  tokens : components;
}.

Section SetFixture.
Context `{EU : EthersUtils} `{ND : Node}.

Definition initializeStandardComponents (owner issuanceModule debtIssuanceModule : Address)
    : evm components :=
  weth ← setV2.deployWETH owner;
  b ← ether_ 100000; usdc ← setV2.deployTokenMock owner owner (Some b) (Some 6) None None;
  b ← ether_ 100000; wbtc ← setV2.deployTokenMock owner owner (Some b) (Some 8) None None;
  b ← ether_ 1000000; dai ← setV2.deployTokenMock owner owner (Some b) (Some 18) None None;
  b ← ether_ 100000; usdt ← setV2.deployTokenMock owner owner (Some b) (Some 6) None None;
  v ← ether_ 200000; _ ← send_value owner weth "deposit" [] v;
  v ← ether_ 10000; _ ← approve owner weth issuanceModule v;
  v ← ether_ 10000; _ ← approve owner usdc issuanceModule v;
  v ← ether_ 10000; _ ← approve owner wbtc issuanceModule v;
  v ← ether_ 10000; _ ← approve owner dai issuanceModule v;
  v ← ether_ 10000; _ ← approve owner usdt issuanceModule v;
  v ← ether_ 10000; _ ← approve owner weth debtIssuanceModule v;
  v ← ether_ 10000; _ ← approve owner usdc debtIssuanceModule v;
  v ← ether_ 10000; _ ← approve owner wbtc debtIssuanceModule v;
  v ← ether_ 10000; _ ← approve owner dai debtIssuanceModule v;
  v ← ether_ 10000; _ ← approve owner usdt debtIssuanceModule v;
  mret (mkComponents weth usdc wbtc dai usdt).

Definition initialize (owner : Address) : evm t :=
  feeRecipient ← fourthAccount;
  controller ← setV2.deployController owner feeRecipient;
  integrationRegistry ← setV2.deployIntegrationRegistry owner controller;
  factory ← setV2.deploySetTokenCreator owner controller;
  issuanceModule ← setV2.deployBasicIssuanceModule owner controller;
  streamingFeeModule ← setV2.deployStreamingFeeModule owner controller;
  debtIssuanceModule ← setV2.deployDebtIssuanceModule owner controller;
  governanceModule ← setV2.deployGovernanceModule owner controller;
  airdropModule ← setV2.deployAirdropModule owner controller;
  slippageIssuanceModule ← setV2.deploySlippageIssuanceModule owner controller;
  c ← initializeStandardComponents owner issuanceModule debtIssuanceModule;
  generalIndexModule ← setV2.deployGeneralIndexModule owner controller (weth c);
  wrapModule ← setV2.deployWrapModule owner controller (weth c);
  let modules := [issuanceModule; streamingFeeModule; debtIssuanceModule; governanceModule;
                  generalIndexModule; airdropModule; wrapModule; slippageIssuanceModule] in
  _ ← send owner controller "initialize"
        [JStrs [factory]; JStrs modules; JStrs [integrationRegistry]; JNums [0]];
  mret (mk owner feeRecipient controller integrationRegistry factory issuanceModule
          streamingFeeModule debtIssuanceModule governanceModule airdropModule
          slippageIssuanceModule generalIndexModule wrapModule c).

Definition createSetToken (f : t) (components : list Address) (units : list Z)
    (modules : list Address) (manager : option Address) (name symbol : option string) : evm Address :=
  createFrom (_ownerAddress f) (factory f) components units modules
    (default (_ownerAddress f) manager) (default "SetToken"%string name) (default "SET"%string symbol).

Definition approveAndIssueSetToken (f : t) (setToken : Address) (issueQuantity : Z)
    (to : option Address) : evm unit :=
  approveAndIssue (_ownerAddress f) (issuanceModule f) setToken issueQuantity
    (default (_ownerAddress f) to).

End SetFixture.
End SetFixture.

(** The fixtures run on the reference node. *)
Example system_fixture_runs :
  is_Ok (@SystemFixture.initialize _ (protocol_node ["a"; "b"; "c"; "fees"]%string) "owner" []) = true.
Proof. vm_compute. reflexivity. Qed.

Example set_fixture_runs :
  is_Ok (@SetFixture.initialize _ (protocol_node ["a"; "b"; "c"; "fees"]%string) "owner" []) = true.
Proof. vm_compute. reflexivity. Qed.

(** ** Runs on a chain without protocol contracts *)

Section Runs.
Context `{EU : EthersUtils} `{OW : Ownable} {N : Node} {PN : ProtocolNode N}.

(** [owner] has sent [n] transactions and the modelled contracts are in state [w]. *)
Definition Running (owner : Address) (n : nat) (w : world) (h : history) : Prop :=
  nonce owner h = n /\ world_of create h = w.

Lemma nonce_snoc owner h ev : sender ev = owner -> nonce owner (h ++ [ev]) = S (nonce owner h).
Proof. intros E. rewrite nonce_app, nonce_one, decide_True by done. lia. Qed.

Lemma deploy_runs owner n w h c l args a h' :
  Running owner n w h -> deploy owner c l args h = Ok (a, h') ->
  a = create owner n /\
  exists w', exec_deploy w (create owner n) owner c args = Ok w' /\ Running owner (S n) w' h'.
Proof.
  intros [Hn Hw] E. apply deploy_Ok in E as (-> & -> & Ha). rewrite Hn in *. split; [done|].
  apply accepted_run in Ha. rewrite Hw in Ha. eexists. split; [exact Ha|]. split; [|done].
  rewrite nonce_snoc by done. by rewrite Hn.
Qed.

Lemma send_runs owner n w h to m args v r h' :
  Running owner n w h -> send_value owner to m args v h = Ok (r, h') ->
  exists w', exec_event create w (Sent owner to m args v) = Ok w' /\ Running owner (S n) w' h'.
Proof.
  intros [Hn Hw] E. apply send_Ok in E as [-> Ha].
  apply accepted_run in Ha. rewrite Hw in Ha. eexists. split; [exact Ha|]. split; [|done].
  rewrite nonce_snoc by done. by rewrite Hn.
Qed.

Lemma create_ne owner i j : i <> j -> create owner i <> create owner j.
Proof. intros Hij [_ E]%create_inj. done. Qed.

End Runs.

(** Lookups at contract addresses with different nonces. *)
Ltac address_lookup :=
  repeat first
    [ rewrite lookup_insert_eq | rewrite lookup_empty
    | rewrite lookup_insert_ne by (apply create_ne; lia) ].

(** One step of the run in [E], from the state [R]. *)
Ltac run_step :=
  match goal with
  | R : Running _ _ _ ?h, E : mbind _ _ ?h = Ok _ |- _ =>
      let a := fresh "a" in let h1 := fresh "h" in let E1 := fresh "St" in
      apply evm_bind_Ok in E as (a & h1 & E1 & E)
  | R : Running _ _ _ ?h, E : lift _ ?h = Ok (_, _) |- _ => apply lift_Ok in E as [? ->]
  | R : Running _ _ _ ?h, E : or_default _ _ ?h = Ok (_, _) |- _ => apply lift_Ok in E as [? ->]
  | R : Running _ _ _ ?h, E : mret _ ?h = Ok (_, _) |- _ => apply evm_ret_Ok in E as [-> ->]
  | R : Running _ _ _ ?h, E : deploy _ _ _ _ ?h = Ok (_, _) |- _ =>
      let w := fresh "w" in let W := fresh "W" in let R' := fresh "R" in
      apply (deploy_runs _ _ _ _ _ _ _ _ _ R) in E as (-> & w & W & R');
      cbn [exec_deploy contract_kind controllers creators registries setTokens] in W;
      injection W as <-; clear R
  | R : Running _ _ _ ?h, E : send_value _ _ _ _ _ ?h = Ok (_, _) |- _ =>
      let w := fresh "w" in let W := fresh "W" in let R' := fresh "R" in
      apply (send_runs _ _ _ _ _ _ _ _ _ _ R) in E as (w & W & R'); clear R;
      cbn [exec_event controllers creators registries setTokens] in W;
      revert W; address_lookup; intros W; try (injection W as <-)
  | R : Running _ _ _ ?h, E : ?m ?h = Ok _ |- _ => let f := head_of m in unfold f in E
  end.

(** Different nonces give lists of contracts without duplicates. *)
Ltac nodup_addresses :=
  repeat (apply NoDup_cons; split;
    [rewrite ?not_elem_of_cons; repeat split; try (apply create_ne; lia); apply not_elem_of_nil|]);
  apply NoDup_nil; exact I.

Section Theorems.
Context `{EU : EthersUtils} `{OW : Ownable} {N : Node} {PN : ProtocolNode N}.

(** The last transaction of the set-up. *)
Lemma exec_controller_initialize w own ctl fee fs ms rs ids w' :
  exec_controller w own ctl (Controller.constructor own fee) "initialize"
    [JStrs fs; JStrs ms; JStrs rs; JNums ids] = Ok w' ->
  NoDup fs -> NoDup ms -> NoDup rs ->
  exists s, Controller.configured s own fee fs ms (combine rs ids) /\
    controllers w' = <[ ctl := s ]> (controllers w) /\ creators w' = creators w /\
    registries w' = registries w /\ setTokens w' = setTokens w.
Proof.
  unfold exec_controller, JStrs, JNums. cbn [controllerCall].
  do 4 (rewrite ?strings_of_JStr, ?numbers_of_JNum; cbn [mbind option_bind]).
  intros H Nf Nm Nr. apply bind_Ok_inv in H as (s & Hs & H). injection H as <-.
  exists s. split; [by apply Controller.initialize_configured|]. done.
Qed.

(** A chain on which the protocol is ready: the controller is configured with
    one factory, which creates for it and is owned by the same account. *)
Definition protocol_ready (own : Address) (w : world) (ctl factory registry fee : Address)
    (ms : list Address) (rs : list (Address * Z)) : Prop :=
  (exists s, controllers w !! ctl = Some s /\ Controller.configured s own fee [factory] ms rs) /\
  creators w !! factory = Some (SetTokenCreator.constructor own ctl) /\
  controllers w !! factory = None /\
  registries w !! registry = Some (IntegrationRegistry.constructor own ctl).

(** What the checks of [create] mean. *)
Lemma checkComponents_Ok l : SetTokenCreator.checkComponents l = Ok tt ->
  Forall (fun cu : Address * Z => cu.1 <> ADDRESS_ZERO /\ 0 < cu.2) l.
Proof.
  unfold SetTokenCreator.checkComponents. generalize tt at 1.
  induction l as [|cu l IH]; intros u; cbn [foldM]; [constructor|].
  intros H. apply bind_Ok_inv in H as ([] & H1 & H). inv_result.
  apply bool_decide_eq_true in E. apply Z.ltb_lt in H1. constructor; [done|]. by eapply IH.
Qed.

Lemma checkModules_Ok ctl l : SetTokenCreator.checkModules ctl l = Ok tt ->
  Forall (fun m => m ∈ Controller.isModule ctl) l.
Proof.
  unfold SetTokenCreator.checkModules. generalize tt at 1.
  induction l as [|m l IH]; intros u; cbn [foldM]; [constructor|].
  intros H. apply bind_Ok_inv in H as ([] & H1 & H). inv_result.
  apply bool_decide_eq_true in H1. constructor; [done|]. by eapply IH.
Qed.

Lemma create_Ok this sender a cs us ms m n sy ctl st token ctl' st' :
  SetTokenCreator.create this sender a cs us ms m n sy ctl st = Ok (token, ctl', st') ->
  token = SetToken.constructor cs us ms (SetTokenCreator.controller st) m n sy /\
  NoDup cs /\ List.length cs = List.length us /\
  Forall (fun cu : Address * Z => cu.1 <> ADDRESS_ZERO /\ 0 < cu.2) (combine cs us) /\
  Forall (fun m => m ∈ Controller.isModule ctl) ms /\ m <> ADDRESS_ZERO /\
  Controller.sets ctl' = Controller.sets ctl ++ [a] /\ a ∈ Controller.isSet ctl' /\
  SetTokenCreator.emitted st' = SetTokenCreator.emitted st ++ [SetTokenCreator.SetTokenCreated a m n sy].
Proof.
  unfold SetTokenCreator.create. intros H. inv_result.
  unfold Controller.addSet, AddressArrayUtils.hasDuplicate in *. inv_result.
  apply bool_decide_eq_true in E5. apply Nat.eqb_eq in E1. apply checkComponents_Ok in E6.
  apply checkModules_Ok in E7. rewrite hasDuplicate_loop_spec in E3.
  apply negb_true_iff, bool_decide_eq_false, dec_stable in E3.
  split_and!; try done. cbn. set_solver.
Qed.

(** The log that a factory leaves last. *)
Lemma last_created_log w w' factory st st' e from method args v :
  creators w !! factory = Some st -> creators w' !! factory = Some st' ->
  SetTokenCreator.emitted st' = SetTokenCreator.emitted st ++ [e] ->
  controllers w !! factory = None -> controllers w' !! factory = None -> registries w' = registries w ->
  forall topic, has_topic topic (creator_log factory e) = true ->
  last (map log_json (List.filter (has_topic topic) (event_logs w w' (Sent from factory method args v)))) =
    Some (log_json (creator_log factory e)).
Proof.
  intros H1 H2 He H3 H4 H5 topic HT. cbn [event_logs]. rewrite H1. unfold contract_logs at 2. rewrite H1, H2, H3, H4, H5.
  unfold news. cbn [fmap option_fmap option_map default from_option List.length drop map app id]. rewrite !drop_all.
  rewrite He, drop_app_length. cbn [map app].
  rewrite List.filter_app, map_app. cbn [List.filter]. rewrite HT. cbn [map]. by rewrite last_snoc.
Qed.

Lemma parsed_created factory a m n sy :
  parsedSetToken (log_json (creator_log factory (SetTokenCreator.SetTokenCreated a m n sy))) = Ok a.
Proof. unfold parsedSetToken, log_json, creator_log, log_of. cbn. by rewrite parseLog_law. Qed.

(** A SetToken created on a ready protocol. *)
Lemma createFrom_registers own ctl factory registry fee ms0 rs h cs us ms m n sy a h' :
  protocol_ready own (world_of create h) ctl factory registry fee ms0 rs ->
  createFrom own factory cs us ms m n sy h = Ok (a, h') ->
  a = create factory 1 /\
  setTokens (world_of create h') !! a = Some (SetToken.constructor cs us ms ctl m n sy) /\
  NoDup cs /\ List.length cs = List.length us /\
  Forall (fun cu : Address * Z => cu.1 <> ADDRESS_ZERO /\ 0 < cu.2) (combine cs us) /\
  Forall (fun x => x ∈ ms0) ms /\
  exists s, controllers (world_of create h') !! ctl = Some s /\
    Controller.sets s = [a] /\ a ∈ Controller.isSet s.
Proof.
  intros ((s & Hs & Hcfg) & Hcr & Hno & Hreg) E. unfold createFrom, send in E.
  apply evm_bind_Ok in E as ([] & h1 & E1 & E). apply send_Ok in E1 as [-> Ha].
  apply accepted_run in Ha. set (w := world_of create h) in *.
  set (w' := world_of create (h ++ _)) in *.
  cbn [exec_event] in Ha. rewrite Hno, Hcr in Ha. unfold exec_creator, JStrs, JNums in Ha.
  rewrite strings_of_JStr, numbers_of_JNum, strings_of_JStr in Ha.
  cbn [SetTokenCreator.controller SetTokenCreator.constructor SetTokenCreator.created] in Ha.
  rewrite Hs in Ha. apply bind_Ok_inv in Ha as ([[token ctl'] st'] & Hc & Hw).
  apply create_Ok in Hc as (-> & HN & Hl & Hcs & Hms & _ & Hsets & Hin & Hem).
  injection Hw as Hw. cbn [fst snd] in Hw.
  (* the address read back from the logs *)
  cbn [getCreatedSetTokenAddress] in E. apply evm_bind_Ok in E as (a' & h2 & E2 & E).
  unfold attach in E. apply evm_ret_Ok in E as [-> ->].
  apply evm_bind_Ok in E2 as (logs & h3 & E2 & E). apply read_Ok in E2 as [-> Hlogs].
  fold SetTokenCreated_topic in Hlogs. rewrite view_getLogs, getLogs_latest in Hlogs. apply Ok_inj in Hlogs as <-. fold w w' in E.
  assert (Hne : factory <> ctl) by congruence.
  rewrite (last_created_log w w' factory (SetTokenCreator.constructor own ctl) st'
    (SetTokenCreator.SetTokenCreated (create factory 1) m n sy)) in E; rewrite <- ?Hw;
    [|done|apply lookup_insert_eq|done|done|by cbn; rewrite lookup_insert_ne|done|by apply bool_decide_eq_true].
  rewrite parsed_created in E. apply lift_Ok in E as [E ->]. injection E as <-.
  fold w'. rewrite <- Hw. cbn [setTokens controllers].
  split; [done|]. split; [by rewrite lookup_insert_eq|]. split_and!; try done.
  - destruct Hcfg as (_ & _ & _ & _ & _ & <- & _ & _ & I).
    eapply Forall_impl; [exact Hms|]. intros x. apply (Controller.inv_modules s I).
  - exists ctl'. split; [by rewrite lookup_insert_eq|]. split; [|done].
    destruct Hcfg as (_ & _ & _ & Hnil & _). by rewrite Hsets, Hnil.
Qed.

(** The run of [SystemFixture.initialize]. *)
Lemma system_fixture_run owner h f h' st :
  world_of create h = mkWorld ∅ ∅ ∅ st ->
  SystemFixture.initialize owner h = Ok (f, h') ->
  listAccounts !! 3%nat = Some (SystemFixture.feeRecipient f) /\
  SystemFixture._ownerAddress f = owner /\
  protocol_ready owner (world_of create h') (SystemFixture.controller f) (SystemFixture.factory f)
    (SystemFixture.integrationRegistry f) (SystemFixture.feeRecipient f)
    [SystemFixture.issuanceModule f; SystemFixture.streamingFeeModule f;
     SystemFixture.navIssuanceModule f]
    [(SystemFixture.integrationRegistry f, 0); (SystemFixture.priceOracle f, 1);
     (SystemFixture.setValuer f, 2)].
Proof.
  intros Hw E. assert (R : Running owner (nonce owner h) (mkWorld ∅ ∅ ∅ st) h) by done.
  revert R. generalize (nonce owner h) as n. intros n R. clear Hw.
  unfold SystemFixture.initialize in E. repeat run_step.
  apply exec_controller_initialize in W as (s & Hs & Hc & Hcr & Hr & _); [|nodup_addresses..].
  split; [cbn; by case_match; simplify_eq|]. split; [done|].
  match goal with R : Running _ _ _ _ |- _ => destruct R as [_ ->] end. unfold protocol_ready. rewrite Hc, Hcr, Hr.
  cbn [controllers creators registries SystemFixture.controller SystemFixture.factory
    SystemFixture.integrationRegistry]. address_lookup. split_and!; try done. by exists s.
Qed.

(** ** Theorems *)

(** C1: Running [SystemFixture.initialize] on a chain without protocol contracts
    leaves the protocol ready: the controller belongs to the owner and pays the
    fourth account, has exactly the factory, the three modules, and the three
    resources under ids 0, 1 and 2 that the fixture's fields name, and its
    registries are consistent. *)
Theorem system_fixture_ready owner h f h' st :
  world_of create h = mkWorld ∅ ∅ ∅ st ->
  SystemFixture.initialize owner h = Ok (f, h') ->
  listAccounts !! 3%nat = Some (SystemFixture.feeRecipient f) /\
  SystemFixture._ownerAddress f = owner /\
  protocol_ready owner (world_of create h') (SystemFixture.controller f) (SystemFixture.factory f)
    (SystemFixture.integrationRegistry f) (SystemFixture.feeRecipient f)
    [SystemFixture.issuanceModule f; SystemFixture.streamingFeeModule f;
     SystemFixture.navIssuanceModule f]
    [(SystemFixture.integrationRegistry f, 0); (SystemFixture.priceOracle f, 1);
     (SystemFixture.setValuer f, 2)].
Proof. apply system_fixture_run. Qed.

(** The same for [SetFixture.initialize], with its eight modules and one
    resource. *)
Theorem set_fixture_ready owner h f h' st :
  world_of create h = mkWorld ∅ ∅ ∅ st ->
  SetFixture.initialize owner h = Ok (f, h') ->
  listAccounts !! 3%nat = Some (SetFixture.feeRecipient f) /\
  SetFixture._ownerAddress f = owner /\
  protocol_ready owner (world_of create h') (SetFixture.controller f) (SetFixture.factory f)
    (SetFixture.integrationRegistry f) (SetFixture.feeRecipient f)
    [SetFixture.issuanceModule f; SetFixture.streamingFeeModule f; SetFixture.debtIssuanceModule f;
     SetFixture.governanceModule f; SetFixture.generalIndexModule f; SetFixture.airdropModule f;
     SetFixture.wrapModule f; SetFixture.slippageIssuanceModule f]
    [(SetFixture.integrationRegistry f, 0)].
Proof.
  intros Hw E. assert (R : Running owner (nonce owner h) (mkWorld ∅ ∅ ∅ st) h) by done.
  revert R. generalize (nonce owner h) as n. intros n R. clear Hw.
  unfold SetFixture.initialize in E. repeat run_step.
  apply exec_controller_initialize in W as (s & Hs & Hc & Hcr & Hr & _); [|nodup_addresses..].
  split; [cbn; by case_match; simplify_eq|]. split; [done|].
  match goal with R : Running _ _ _ _ |- _ => destruct R as [_ ->] end. unfold protocol_ready. rewrite Hc, Hcr, Hr.
  cbn [controllers creators registries SetFixture.controller SetFixture.factory
    SetFixture.integrationRegistry]. address_lookup. split_and!; try done. by exists s.
Qed.

(** C3: On an initialized fixture, a [createSetToken] that succeeds was given
    distinct non-zero components with as many positive units, and modules of
    the fixture; it returns the address of a SetToken that holds them, pending
    on its modules and managed as asked (by the owner when no manager is
    given), and that is now the one set of the controller. *)
Theorem createSetToken_registers owner h f h' st cs us ms manager n sy a h'' :
  world_of create h = mkWorld ∅ ∅ ∅ st ->
  SystemFixture.initialize owner h = Ok (f, h') ->
  SystemFixture.createSetToken f cs us ms manager n sy h' = Ok (a, h'') ->
  setTokens (world_of create h'') !! a =
    Some (SetToken.constructor cs us ms (SystemFixture.controller f) (default owner manager)
            (default "SetToken"%string n) (default "SET"%string sy)) /\
  NoDup cs /\ List.length cs = List.length us /\
  Forall (fun cu : Address * Z => cu.1 <> ADDRESS_ZERO /\ 0 < cu.2) (combine cs us) /\
  Forall (fun x => x ∈ [SystemFixture.issuanceModule f; SystemFixture.streamingFeeModule f;
                        SystemFixture.navIssuanceModule f]) ms /\
  exists s, controllers (world_of create h'') !! SystemFixture.controller f = Some s /\
    Controller.sets s = [a] /\ a ∈ Controller.isSet s.
Proof.
  intros Hw Hi Hc.
  assert (Hready : exists registry fee rs, SystemFixture._ownerAddress f = owner /\
    protocol_ready owner (world_of create h') (SystemFixture.controller f)
      (SystemFixture.factory f) registry fee
      [SystemFixture.issuanceModule f; SystemFixture.streamingFeeModule f;
       SystemFixture.navIssuanceModule f] rs) by (do 3 eexists; by eapply system_fixture_run).
  destruct Hready as (registry & fee & rs & <- & Hready).
  apply (createFrom_registers _ _ _ _ _ _ _ _ _ _ _ _ _ _ _ _ Hready) in Hc as [_ Hc]. exact Hc.
Qed.

End Theorems.

(** ** Concrete instances *)

Section Instances.

Definition four_accounts : list Address := ["a"; "b"; "c"; "fees"]%string.
#[local] Instance test_node : Node := protocol_node four_accounts.

Definition test_node_ok : ProtocolNode test_node := protocol_node_ok four_accounts.

Lemma system_fixture_witness : exists f h', SystemFixture.initialize "owner" [] = Ok (f, h') /\
  listAccounts !! 3%nat = Some (SystemFixture.feeRecipient f).
Proof.
  destruct (is_Ok_true _ system_fixture_runs) as [[f h'] E]. exists f, h'. split; [done|].
  destruct (system_fixture_ready (PN := test_node_ok) "owner" [] f h' ∅ eq_refl E) as [H _].
  exact H.
Defined.

Lemma set_fixture_witness : exists f h', SetFixture.initialize "owner" [] = Ok (f, h') /\
  listAccounts !! 3%nat = Some (SetFixture.feeRecipient f).
Proof.
  destruct (is_Ok_true _ set_fixture_runs) as [[f h'] E]. exists f, h'. split; [done|].
  destruct (set_fixture_ready (PN := test_node_ok) "owner" [] f h' ∅ eq_refl E) as [H _].
  exact H.
Defined.

Definition create_after : evm (SystemFixture.t * Address) :=
  f ← SystemFixture.initialize "owner";
  a ← SystemFixture.createSetToken f ["weth"]%string [10 ^ 18] [SystemFixture.issuanceModule f]
        None None None;
  mret (f, a).

Lemma create_after_runs : is_Ok (create_after []) = true.
Proof. vm_compute. reflexivity. Qed.

Lemma createSetToken_witness : exists f h' a h'',
  SystemFixture.initialize "owner" [] = Ok (f, h') /\
  SystemFixture.createSetToken f ["weth"]%string [10 ^ 18] [SystemFixture.issuanceModule f]
    None None None h' = Ok (a, h'') /\
  NoDup ["weth"]%string.
Proof.
  destruct (is_Ok_true _ create_after_runs) as [r E].
  apply evm_bind_Ok in E as (f & h' & E & E2). apply evm_bind_Ok in E2 as (a & h'' & Ec & _).
  exists f, h', a, h''. split_and!; [done|done|].
  destruct (createSetToken_registers (PN := test_node_ok) "owner" [] f h' ∅ _ _ _ _ _ _ _ _
    eq_refl E Ec) as (_ & H & _). exact H.
Defined.

End Instances.
