(* ===== verification/CoreDeploy.v ===== *)
(** * The deployment script

    [deploy/000_core.ts] and [utils/deploys/deployAndLog.ts]. The script runs
    under hardhat-deploy, which keeps the addresses of earlier deployments by
    name; [HardhatDeploy] states what the script relies on. The named accounts
    are those of hardhat.config.ts: [deployer] is account 0, which is also the
    signer of [getContractAt], and [operator] account 1. Console output and the
    balance the script reports are not modelled. *)

From S2P Require Import Prelude JsString Ethers Constants UnitsUtils Evm ConstructorAbi Dependencies ProtocolUtils Ownable Controller IntegrationRegistry Protocol DeployCore DeployMocks DeployExternal SystemFixtures.
From Stdlib Require Import String.

Local Open Scope Z_scope.

(** Deployments recorded on disk, by name. *)
Abbreviation records := (gmap string Address).

(** [deploy(name, { from, args, skipIfAlreadyDeployed: true })] of
    hardhat-deploy: a recorded deployment is returned as it is and its
    arguments are not looked at; otherwise the contract is deployed and
    recorded. *)
Class HardhatDeploy `{Node} := {
  hh_deploy : string -> Address -> result (list jsv) -> records -> evm (Address * records);
  hh_deploy_recorded name from args saved a h : saved !! name = Some a ->
    hh_deploy name from args saved h = Ok ((a, saved), h);
  hh_deploy_new name from args saved h : saved !! name = None ->
    hh_deploy name from args saved h =
      (args' ← lift args; a ← deploy from name [] args'; mret (a, <[ name := a ]> saved)) h;
}.

#[refine] Instance hardhat_deploy_ref `{Node} : HardhatDeploy := {|
  hh_deploy := fun name from args saved =>
    match saved !! name with
    | Some a => mret (a, saved)
    | None => args' ← lift args; a ← deploy from name [] args'; mret (a, <[ name := a ]> saved)
    end |}.
Proof. all: intros * ->; reflexivity. Defined.

Section CoreDeploy.
Context `{EU : EthersUtils} {N : Node} {HD : HardhatDeploy}.

Definition deployAndLog (name : string) (from : Address) (args : result (list jsv)) (saved : records)
    : evm (Address * records) :=
  hh_deploy name from args saved.

(** A named account; an absent one is undefined, which ethers rejects as an argument. *)
Definition namedAccount (i : nat) : result Address :=
  match listAccounts !! i with Some a => Ok a | None => Throw "undefined" end.

(** [fork]: whether the environment variable FORK is set; [networkId]: what
    [getChainId] gives. *)
Definition core_deploy (fork : bool) (networkId : Z) (saved : records) : evm records :=
  let chainId := if fork then 1 else networkId in
  deployer ← lift (namedAccount 0);
  deployedController ← deployAndLog "Controller" deployer (Ok [JStr deployer]) saved;
  deployedSetTokenCreator ← deployAndLog "SetTokenCreator" deployer
    (Ok [JStr deployedController.1]) deployedController.2;
  deployedIntegrationRegistry ← deployAndLog "IntegrationRegistry" deployer
    (Ok [JStr deployedController.1]) deployedSetTokenCreator.2;
  deployedBasicIssuanceModule ← deployAndLog "BasicIssuanceModule" deployer
    (Ok [JStr deployedController.1]) deployedIntegrationRegistry.2;
  deployedTradeModule ← deployAndLog "TradeModule" deployer
    (operator ← namedAccount 1; Ok [JStr deployedController.1; JStr operator])
    deployedBasicIssuanceModule.2;
  zeroEx ← deployAndLog "ExchangeIssuanceZeroEx" deployer
    (weth ← dependency "WETH" chainId; exchange ← dependency "ZERO_EX_EXCHANGE" chainId;
     Ok [JStr weth; JStr deployedController.1; JStr exchange])
    deployedTradeModule.2;
  isInitialized ← read_bool deployedController.1 "isInitialized" [];
  _ ← (if isInitialized : bool then mret tt
       else send deployer deployedController.1 "initialize"
              [JStrs [deployedSetTokenCreator.1];
               JStrs [deployedBasicIssuanceModule.1; deployedTradeModule.1];
               JStrs [deployedIntegrationRegistry.1]; JNums [0]]);
  deployedUniswapV2ExchangeAdapterV2 ← deployAndLog "UniswapV2ExchangeAdapterV2" deployer
    (router ← dependency "UNISWAP_ROUTER" chainId; Ok [JStr router]) zeroEx.2;
  deployedUniswapV3ExchangeAdapterV3 ← deployAndLog "UniswapV3ExchangeAdapterV2" deployer
    (router ← dependency "UNISWAP_ROUTER_V3" chainId; Ok [JStr router])
    deployedUniswapV2ExchangeAdapterV2.2;
  _ ← send deployer deployedIntegrationRegistry.1 "addIntegration"
        [JStr deployedTradeModule.1; JStr "UNISWAPV2"; JStr deployedUniswapV2ExchangeAdapterV2.1];
  _ ← send deployer deployedIntegrationRegistry.1 "addIntegration"
        [JStr deployedTradeModule.1; JStr "UNISWAPV3"; JStr deployedUniswapV3ExchangeAdapterV3.1];
  mret deployedUniswapV3ExchangeAdapterV3.2.

End CoreDeploy.

Definition one_account : Node := protocol_node ["deployer"]%string.
Definition two_accounts : Node := protocol_node ["deployer"; "operator"]%string.

Example core_deploy_runs : is_Ok (@core_deploy two_accounts _ false 1 ∅ []) = true.
Proof. vm_compute. reflexivity. Qed.

Example core_deploy_second_run :
  match @core_deploy two_accounts _ false 1 ∅ [] with
  | Ok (saved, h) => @core_deploy two_accounts _ false 1 saved h = Throw "Integration exists already."
  | Throw _ => False
  end.
Proof. vm_compute. reflexivity. Qed.

(** ** Lemmas *)

Section Facts.
Context `{EU : EthersUtils} {N : Node} {HD : HardhatDeploy}.

(** A deployment records its own name only. *)
Lemma deployAndLog_other name from args saved h a saved' h' name' :
  deployAndLog name from args saved h = Ok ((a, saved'), h') -> name <> name' ->
  saved' !! name' = saved !! name'.
Proof.
  unfold deployAndLog. destruct (saved !! name) as [b|] eqn:E.
  - rewrite (hh_deploy_recorded _ _ _ _ b) by done. by intros [= <- <- <-].
  - rewrite hh_deploy_new by done. intros H Hne.
    apply evm_bind_Ok in H as (args' & h1 & _ & H). apply evm_bind_Ok in H as (a' & h2 & _ & H).
    apply evm_ret_Ok in H as [H _]. injection H as -> ->. by apply lookup_insert_ne.
Qed.

(** An unrecorded contract is deployed only if its arguments are defined. *)
Lemma deployAndLog_args name from args saved h r : saved !! name = None ->
  deployAndLog name from args saved h = Ok r -> is_Ok args = true.
Proof.
  unfold deployAndLog. intros E. rewrite hh_deploy_new by done. intros H. destruct r as [r h'].
  apply evm_bind_Ok in H as (args' & h1 & H & _). apply lift_Ok in H as [-> _]. done.
Qed.

Lemma zero_ex_chain chain a : dependency "ZERO_EX_EXCHANGE" chain = Ok a -> chain = 1.
Proof.
  unfold dependency. replace (assoc _ dependencies) with
    (Some [(1, "0xdef1c0ded9bec7f1a1670819833240f027b25eff"%string)]) by (vm_compute; reflexivity).
  cbn [assoc]. case_decide; [lia|done].
Qed.

End Facts.

Section Steps.
Context `{EU : EthersUtils} `{OW : Ownable} {N : Node} {PN : ProtocolNode N}.

Lemma read_isInitialized own n w h a b h' :
  Running own n w h -> read_bool a "isInitialized" [] h = Ok (b, h') ->
  match controllers w !! a with Some s => b = Controller.isInitialized s | None => True end /\ h' = h.
Proof.
  intros [_ <-] E. unfold read_bool in E. apply evm_bind_Ok in E as (v & h1 & E1 & E).
  apply read_Ok in E1 as [-> Hv]. apply lift_Ok in E as [E ->]. split; [|done].
  destruct (controllers _ !! a) as [s|] eqn:Hs; [|done].
  rewrite (view_isInitialized h a s) in Hv by done. injection Hv as <-. by injection E.
Qed.

Lemma exec_registry_add w from to s m n a w' :
  exec_registry w from to s "addIntegration" [JStr m; JStr n; JStr a] = Ok w' ->
  exists s', w' = mkWorld (controllers w) (creators w) (<[ to := s' ]> (registries w)) (setTokens w) /\
    IntegrationRegistry.adapterOf s m (IntegrationRegistry._nameHash n) = ADDRESS_ZERO /\ a <> ADDRESS_ZERO /\
    IntegrationRegistry.integrations s' =
      <[ (m, IntegrationRegistry._nameHash n) := a ]> (IntegrationRegistry.integrations s).
Proof.
  unfold exec_registry. intros H. apply bind_Ok_inv in H as (s' & H1 & H). injection H as <-.
  apply IntegrationRegistry.addIntegration_Ok_inv in H1 as (? & ? & _ & _ & _ & ?). by exists s'.
Qed.

End Steps.

(** A step of the script: a recorded or a new deployment, the initialization,
    or a registration. *)
Ltac script_step :=
  match goal with
  | E : deployAndLog _ _ _ _ _ = Ok _ |- _ =>
      unfold deployAndLog in E;
      first [ rewrite hh_deploy_new in E by (vm_compute; reflexivity)
            | erewrite hh_deploy_recorded in E by (vm_compute; reflexivity) ]
  | R : Running _ _ _ ?h, E : read_bool _ _ _ ?h = Ok _ |- _ =>
      apply (read_isInitialized _ _ _ _ _ _ _ R) in E as [E ->]; revert E;
      cbn [controllers]; address_lookup; cbn [Controller.isInitialized Controller.constructor];
      intros ->
  | W : exec_controller _ _ _ (Controller.constructor _ _) _ _ = Ok ?w |- _ =>
      let s := fresh "s" in let Hs := fresh "Hs" in
      apply exec_controller_initialize in W as (s & Hs & ? & ? & ? & ?);
        [|nodup_addresses..]; destruct w; cbn [controllers creators registries setTokens] in *; subst
  | W : exec_registry _ _ _ _ _ _ = Ok ?w |- _ =>
      let r := fresh "r" in
      apply exec_registry_add in W as (r & -> & ? & ? & ?);
        cbn [controllers creators registries setTokens] in *
  | E : _ ≫= _ = Ok _ |- _ => inv_result_step; simplify_eq/=
  | E : Ok _ = Ok _ |- _ => injection E as E; try subst
  end.

Section Theorems.
Context `{EU : EthersUtils} `{OW : Ownable} {N : Node} {PN : ProtocolNode N} {HD : HardhatDeploy}.

(** What a completed run leaves: every contract recorded, the controller
    configured, both Uniswap adapters registered for the trade module. *)
Definition core_deployed (own : Address) (w : world) (saved : records) : Prop :=
  exists ctl fac reg bim tm zx v2 v3 s r,
    saved !! "Controller"%string = Some ctl /\ saved !! "SetTokenCreator"%string = Some fac /\
    saved !! "IntegrationRegistry"%string = Some reg /\
    saved !! "BasicIssuanceModule"%string = Some bim /\ saved !! "TradeModule"%string = Some tm /\
    saved !! "ExchangeIssuanceZeroEx"%string = Some zx /\
    saved !! "UniswapV2ExchangeAdapterV2"%string = Some v2 /\
    saved !! "UniswapV3ExchangeAdapterV2"%string = Some v3 /\
    controllers w !! ctl = Some s /\ Controller.configured s own own [fac] [bim; tm] [(reg, 0)] /\
    creators w !! fac = Some (SetTokenCreator.constructor own ctl) /\
    controllers w !! reg = None /\ creators w !! reg = None /\ registries w !! reg = Some r /\
    IntegrationRegistry.getIntegrationAdapter tm "UNISWAPV2" r = v2 /\
    IntegrationRegistry.getIntegrationAdapter tm "UNISWAPV3" r = v3 /\
    v2 <> ADDRESS_ZERO /\ v3 <> ADDRESS_ZERO.

Lemma core_deploy_run fork network h saved h' st :
  world_of create h = mkWorld ∅ ∅ ∅ st ->
  core_deploy fork network ∅ h = Ok (saved, h') ->
  exists own, namedAccount 0 = Ok own /\ core_deployed own (world_of create h') saved.
Proof.
  intros Hw E. unfold core_deploy in E. apply evm_bind_Ok in E as (own & h1 & E1 & E).
  apply lift_Ok in E1 as [Hown ->]. exists own. split; [done|].
  assert (R : Running own (nonce own h) (mkWorld ∅ ∅ ∅ st) h) by done.
  revert R. generalize (nonce own h) as n. intros n R. clear Hw.
  repeat first [script_step | run_step]; cbn [fst snd] in *.
  match goal with R : Running _ _ _ _ |- _ => destruct R as [_ ->] end.
  do 10 eexists.
  do 8 (split; [repeat (rewrite lookup_insert_ne by done); apply lookup_insert_eq|]).
  cbn [controllers creators registries]. address_lookup.
  do 6 (split; [done|]). unfold IntegrationRegistry.getIntegrationAdapter.
  rewrite !(IntegrationRegistry.adapterOf_insert _ _ _ _ _ _ H4),
    (IntegrationRegistry.adapterOf_insert _ _ _ _ _ _ H1).
  assert (Hd : IntegrationRegistry._nameHash "UNISWAPV3" <> IntegrationRegistry._nameHash "UNISWAPV2").
  { intros D. rewrite D, (IntegrationRegistry.adapterOf_insert _ _ _ _ _ _ H1) in H2.
    case_decide; [by apply H0|done]. }
  rewrite decide_False by (intros D; injection D as D; by apply Hd).
  rewrite !decide_True by done. done.
Qed.

Lemma read_bool_initialized h a s b h' :
  controllers (world_of create h) !! a = Some s ->
  read_bool a "isInitialized" [] h = Ok (b, h') -> b = Controller.isInitialized s /\ h' = h.
Proof.
  intros Hs E. destruct (read_isInitialized "" _ _ h a b h' (conj eq_refl eq_refl) E) as [Hb ->].
  by rewrite Hs in Hb.
Qed.

(** A run after a completed one. *)
Lemma core_deploy_again fork network own saved h :
  namedAccount 0 = Ok own -> core_deployed own (world_of create h) saved ->
  is_Ok (core_deploy fork network saved h) = false.
Proof.
  intros Hown (ctl & fac & reg & bim & tm & zx & v2 & v3 & s & r & S1 & S2 & S3 & S4 & S5 & S6 & S7 &
    S8 & Hc & Hcfg & Hcr & Hn1 & Hn2 & Hreg & Ha2 & Ha3 & Hz2 & _).
  destruct (core_deploy fork network saved h) as [[saved' h']|] eqn:E; [|done]. exfalso.
  unfold core_deploy, deployAndLog in E. rewrite Hown in E.
  do 7 (apply evm_bind_Ok in E as (? & ? & E1 & E);
    first [ apply lift_Ok in E1 as [E1 ->]; injection E1 as <-
          | erewrite hh_deploy_recorded in E1 by eassumption; injection E1 as <- <-]; cbn [fst snd] in E).
  apply evm_bind_Ok in E as (b & h1 & E1 & E).
  apply (read_bool_initialized _ _ _ _ _ Hc) in E1 as [-> ->].
  destruct Hcfg as (Hinit & _). rewrite Hinit in E.
  apply evm_bind_Ok in E as ([] & h1 & E1 & E). apply evm_ret_Ok in E1 as [_ ->].
  do 2 (apply evm_bind_Ok in E as (? & ? & E1 & E);
    erewrite hh_deploy_recorded in E1 by eassumption; injection E1 as <- <-; cbn [fst snd] in E).
  apply evm_bind_Ok in E as (? & h1 & E1 & _). apply send_Ok in E1 as [_ Ha].
  apply accepted_run in Ha. cbn [exec_event] in Ha. rewrite Hn1, Hn2, Hreg in Ha.
  apply exec_registry_add in Ha as (r' & _ & Hz & _). by subst v2.
Qed.

(** ** Theorems *)

(** C14: On a chain without protocol contracts and with nothing recorded, a run
    of the script that completes leaves the protocol deployed: the controller
    belongs to the deployer, with the recorded factory, the two recorded
    modules and the recorded registry under id 0, and both Uniswap adapters are
    registered for the trade module. *)
Theorem core_deploy_complete fork network h saved h' st :
  world_of create h = mkWorld ∅ ∅ ∅ st ->
  core_deploy fork network ∅ h = Ok (saved, h') ->
  exists own, namedAccount 0 = Ok own /\ core_deployed own (world_of create h') saved.
Proof. apply core_deploy_run. Qed.

(** The script cannot be run again: although every deployment is skipped as
    recorded and the initialization as done, a run after a completed one always
    fails. *)
Theorem core_deploy_not_rerunnable fork network h saved h' st :
  world_of create h = mkWorld ∅ ∅ ∅ st ->
  core_deploy fork network ∅ h = Ok (saved, h') ->
  is_Ok (core_deploy fork network saved h') = false.
Proof.
  intros Hw E. destruct (core_deploy_run _ _ _ _ _ _ Hw E) as (own & Hown & Hd).
  by apply (core_deploy_again fork network own).
Qed.

(** What a first run needs. *)
Lemma core_deploy_requires fork network saved h r :
  saved !! "TradeModule"%string = None -> saved !! "ExchangeIssuanceZeroEx"%string = None ->
  core_deploy fork network saved h = Ok r ->
  (fork = true \/ network = 1) /\ (2 <= List.length listAccounts)%nat.
Proof.
  intros Ht Hz E. unfold core_deploy in E.
  apply evm_bind_Ok in E as (own & h0 & _ & E).
  do 4 (apply evm_bind_Ok in E as ([? ?] & ? & E1 & E); cbn [fst snd] in E;
    pose proof (deployAndLog_other _ _ _ _ _ _ _ _ "TradeModule" E1 ltac:(discriminate)) as Et;
    rewrite <- Et in Ht;
    pose proof (deployAndLog_other _ _ _ _ _ _ _ _ "ExchangeIssuanceZeroEx" E1 ltac:(discriminate)) as Ez;
    rewrite <- Ez in Hz; clear Et Ez E1).
  apply evm_bind_Ok in E as ([? ?] & ? & E1 & E); cbn [fst snd] in E.
  apply (deployAndLog_args _ _ _ _ _ _ Ht) in E1 as Ha.
  pose proof (deployAndLog_other _ _ _ _ _ _ _ _ "ExchangeIssuanceZeroEx" E1 ltac:(discriminate)) as Ez.
  rewrite <- Ez in Hz. clear Ez E1.
  apply evm_bind_Ok in E as (? & ? & E1 & _). apply (deployAndLog_args _ _ _ _ _ _ Hz) in E1 as Hd.
  split.
  - destruct fork; [by left|]. right. destruct (dependency "WETH" network); [|done].
    destruct (dependency "ZERO_EX_EXCHANGE" network) eqn:Ed; [|done]. by apply zero_ex_chain in Ed.
  - unfold namedAccount in Ha. destruct (listAccounts !! 1%nat) eqn:El; [|done].
    apply lookup_lt_Some in El. lia.
Qed.

(** A first run completes only for chain id 1 (or a fork) and with two
    accounts configured. *)
Theorem core_deploy_needs fork network saved h r :
  saved !! "TradeModule"%string = None -> saved !! "ExchangeIssuanceZeroEx"%string = None ->
  core_deploy fork network saved h = Ok r ->
  (fork = true \/ network = 1) /\ (2 <= List.length listAccounts)%nat.
Proof. apply core_deploy_requires. Qed.

End Theorems.

(** ** Concrete instances *)

Section Instances.

Lemma core_deploy_forked : is_Ok (@core_deploy two_accounts _ true 31337 ∅ []) = true.
Proof. vm_compute. reflexivity. Qed.

Lemma core_deploy_complete_witness : exists saved h own,
  @core_deploy two_accounts _ false 1 ∅ [] = Ok (saved, h) /\
  @core_deployed _ own (world_of create_ref h) saved.
Proof.
  destruct (is_Ok_true _ core_deploy_runs) as [[saved h] E].
  destruct (core_deploy_complete (PN := protocol_node_ok ["deployer"; "operator"]%string)
    false 1 [] saved h ∅ eq_refl E) as (own & _ & H).
  exists saved, h, own. split; [done|exact H].
Defined.

Lemma core_deploy_not_rerunnable_witness : exists saved h,
  @core_deploy two_accounts _ false 1 ∅ [] = Ok (saved, h) /\
  is_Ok (@core_deploy two_accounts _ false 1 saved h) = false.
Proof.
  destruct (is_Ok_true _ core_deploy_runs) as [[saved h] E].
  exists saved, h. split; [done|].
  exact (core_deploy_not_rerunnable (PN := protocol_node_ok ["deployer"; "operator"]%string)
    false 1 [] saved h ∅ eq_refl E).
Defined.

Lemma core_deploy_needs_witness : exists r,
  @core_deploy two_accounts _ true 31337 ∅ [] = Ok r /\
  (2 <= List.length (@listAccounts two_accounts))%nat.
Proof.
  destruct (is_Ok_true _ core_deploy_forked) as [r E].
  exists r. split; [done|].
  exact (proj2 (@core_deploy_needs two_accounts _ true 31337 ∅ [] r eq_refl eq_refl E)).
Defined.

End Instances.
