(* ===== verification/PerpV2Fixture.v ===== *)
(** * The Perpetual Protocol fixture

    [utils/fixtures/perpV2Fixture.ts]: deploys the Perp V2 contracts, wires them
    together and provides liquidity. Its read-only methods are in
    PerpV2Utils.v. A contract field holds the address of the contract; an
    [Account] is its address. *)

From S2P Require Import Prelude JsString Ethers Constants UnitsUtils MathUtils PerpV2Utils Evm Traces DeployMocks DeployExternal.
From Stdlib Require Import String.

Local Open Scope Z_scope.

(** [encodeSqrtRatioX96] of the package @uniswap/v3-sdk, on decimal strings. *)
Class UniswapV3Sdk := {
  encodeSqrtRatioX96 : string -> string -> result Z;
  encodeSqrtRatioX96_law a1 a0 : 0 <= a1 -> 0 < a0 ->
    encodeSqrtRatioX96 (dec_of_Z a1) (dec_of_Z a0) = Ok (Z.sqrt (a1 * 2 ^ 192 / a0));
}.

Definition ONE_MILLION : string := "1000000".

Record TokensFixture := mkTokensFixture {
  token0 : Address; token1 : Address; mockAggregator0 : Address; mockAggregator1 : Address;
}.

Record BaseTokenFixture := mkBaseTokenFixture {
  fixture_baseToken : Address; mockAggregator : Address;
}.

(** The fields of the fixture, and the owner. *)
Record t := mk {
  _ownerAddress : Address;
  _feeTier : Z;
  _usdcDecimals : Z;
  _priceFeeds : gmap Address Address;
  _pools : gmap Address Address;
  maker : Address;
  otherTrader : Address;
  usdc : Address;
  clearingHouse : Address;
  orderBook : Address;
  accountBalance : Address;
  marketRegistry : Address;
  clearingHouseConfig : Address;
  quoter : Address;
  exchange : Address;
  vault : Address;
  insuranceFund : Address;
  uniV3Factory : Address;
  vETHPool : Address;
  vBTCPool : Address;
  vETH : Address;
  vBTC : Address;
  ethPriceFeed : Address;
  btcPriceFeed : Address;
  vQuote : Address;
}.

Section PerpV2Fixture.
Context `{BN : BigNumber} `{EU : EthersUtils} `{ND : Node} `{SDK : UniswapV3Sdk}.

(** ** Token helpers *)

Definition _isAscendingTokenOrder (addr0 addr1 : string) : bool :=
  str_lt (toLowerCase addr0) (toLowerCase addr1).

Definition _createQuoteTokenFixture (owner : Address) (name symbol : string) : evm Address :=
  quoteToken ← external.deployPerpV2QuoteToken owner;
  _ ← send owner quoteToken "initialize" [JStr name; JStr symbol];
  mret quoteToken.

Definition _createBaseTokenFixture (owner : Address) (name symbol : string) : evm BaseTokenFixture :=
  mockAggregator ← mocks.deployChainlinkAggregatorMock owner 6;
  chainlinkPriceFeed ← external.deployPerpV2ChainlinkPriceFeed owner;
  _ ← send owner chainlinkPriceFeed "initialize" [JStr mockAggregator];
  baseToken ← external.deployPerpV2BaseToken owner;
  _ ← send owner baseToken "initialize" [JStr name; JStr symbol; JStr chainlinkPriceFeed];
  mret (mkBaseTokenFixture baseToken mockAggregator).

Definition _tokensFixture (owner : Address) : evm TokensFixture :=
  r0 ← _createBaseTokenFixture owner "RandomTestToken0" "randomToken0";
  r1 ← _createBaseTokenFixture owner "RandomTestToken1" "randomToken1";
  mret (if _isAscendingTokenOrder (fixture_baseToken r0) (fixture_baseToken r1) then
          mkTokensFixture (fixture_baseToken r0) (fixture_baseToken r1)
            (mockAggregator r0) (mockAggregator r1)
        else
          mkTokensFixture (fixture_baseToken r1) (fixture_baseToken r0)
            (mockAggregator r1) (mockAggregator r0)).

(** The [while] loop: it deploys tokens until one is below [token1Addr]. *)
Fixpoint _token0Fixture (fuel : nat) (owner : Address) (token1Addr : string) : evm BaseTokenFixture :=
  match fuel with
  | O => lift (Throw "out of fuel")
  | S fuel' =>
      token0Fixture ← _createBaseTokenFixture owner "RandomTestToken0" "randomToken0";
      if _isAscendingTokenOrder (fixture_baseToken token0Fixture) token1Addr then mret token0Fixture
      else _token0Fixture fuel' owner token1Addr
  end.

(** ** Deposits and initialization *)

(** [usdc.decimals()] is a number; [amount] is a BigNumber. *)
Definition deposit (vault sender : Address) (amount : Z) (token : Address) : evm unit :=
  decimals ← read_Z token "decimals" [];
  parsedAmount ← lift (parseUnits (bn_toString amount) decimals);
  _ ← send sender token "approve" [JStr vault; JNum parsedAmount];
  send sender vault "deposit" [JStr token; JNum parsedAmount].

(** The [usdc] and the tokens with their price feeds. *)
Definition initialize_tokens (fuel : nat) (owner : Address)
    : evm (Address * TokensFixture * BaseTokenFixture) :=
  supply ← lift (ether (Literal "100000000000000"));
  usdc ← mocks.deployTokenMock owner owner (Some supply) (Some 6) None None;
  tokens ← _tokensFixture owner;
  btc ← _token0Fixture fuel owner (token1 tokens);
  mret (usdc, tokens, btc).

(** The factory, its two pools and the contracts up to the vault. *)
Definition initialize_core (owner : Address) (feeTier : Z) (usdc vETH vBTC vQuote : Address)
    : evm (Address * Address * Address * Address * Address * Address * Address * Address) :=
  uniV3Factory ← external.deployUniswapV3Factory owner;
  clearingHouseConfig ← external.deployPerpV2ClearingHouseConfig owner;
  _ ← send owner clearingHouseConfig "initialize" [];
  _ ← send owner uniV3Factory "createPool" [JStr vETH; JStr vQuote; JNum feeTier];
  _ ← send owner uniV3Factory "createPool" [JStr vBTC; JStr vQuote; JNum feeTier];
  marketRegistry ← external.deployPerpV2MarketRegistry owner;
  _ ← send owner marketRegistry "initialize" [JStr uniV3Factory; JStr vQuote];
  orderBook ← external.deployPerpV2OrderBook owner;
  _ ← send owner orderBook "initialize" [JStr marketRegistry];
  insuranceFund ← external.deployPerpV2InsuranceFund owner;
  _ ← send owner insuranceFund "initialize" [JStr usdc];
  accountBalance ← external.deployPerpV2AccountBalance owner;
  exchange ← external.deployPerpV2Exchange owner;
  _ ← send owner exchange "initialize"
        [JStr marketRegistry; JStr orderBook; JStr clearingHouseConfig];
  _ ← send_detached owner exchange "setAccountBalance" [JStr accountBalance];
  _ ← send owner orderBook "setExchange" [JStr exchange];
  _ ← send owner accountBalance "initialize" [JStr clearingHouseConfig; JStr orderBook];
  vault ← external.deployPerpV2Vault owner;
  _ ← send owner vault "initialize"
        [JStr insuranceFund; JStr clearingHouseConfig; JStr accountBalance; JStr exchange];
  _ ← send owner insuranceFund "setBorrower" [JStr vault];
  _ ← send owner accountBalance "setVault" [JStr vault];
  mret (uniV3Factory, clearingHouseConfig, marketRegistry, orderBook, insuranceFund,
        accountBalance, exchange, vault).

(** The clearing house and its registration everywhere. *)
Definition initialize_clearingHouse (owner : Address)
    (uniV3Factory clearingHouseConfig marketRegistry orderBook insuranceFund accountBalance exchange
     vault vETH vBTC vQuote : Address) : evm (Address * Address) :=
  clearingHouse ← external.deployPerpV2ClearingHouse owner;
  _ ← send owner clearingHouse "initialize"
        [JStr clearingHouseConfig; JStr vault; JStr vQuote; JStr uniV3Factory; JStr exchange;
         JStr accountBalance; JStr insuranceFund];
  _ ← send owner clearingHouseConfig "setSettlementTokenBalanceCap" [JNum MAX_UINT_256];
  quoter ← external.deployPerpV2Quoter owner marketRegistry;
  _ ← send owner vQuote "mintMaximumTo" [JStr clearingHouse];
  _ ← send owner vETH "mintMaximumTo" [JStr clearingHouse];
  _ ← send owner vBTC "mintMaximumTo" [JStr clearingHouse];
  _ ← send owner vQuote "addWhitelist" [JStr clearingHouse];
  _ ← send owner vETH "addWhitelist" [JStr clearingHouse];
  _ ← send owner vBTC "addWhitelist" [JStr clearingHouse];
  _ ← send owner marketRegistry "setClearingHouse" [JStr clearingHouse];
  _ ← send owner orderBook "setClearingHouse" [JStr clearingHouse];
  _ ← send owner exchange "setClearingHouse" [JStr clearingHouse];
  _ ← send owner accountBalance "setClearingHouse" [JStr clearingHouse];
  _ ← send owner vault "setClearingHouse" [JStr clearingHouse];
  mret (clearingHouse, quoter).

(** The collateral of an account: a million usdc, minted and deposited. *)
Definition fund (owner usdc vault account : Address) (usdcDecimals : Z) : evm unit :=
  collateralAmount ← lift (parseUnits ONE_MILLION usdcDecimals);
  _ ← send owner usdc "mint" [JStr account; JNum collateralAmount];
  deposit vault account 1000000 usdc.

Definition initialize (fuel : nat) (owner _maker _otherTrader : Address) : evm t :=
  let feeTier := 10000 in
  let usdcDecimals := 6 in
  tok ← initialize_tokens fuel owner;
  let usdc := tok.1.1 in
  let vETH := token0 tok.1.2 in
  let vQuote := token1 tok.1.2 in
  let ethPriceFeed := mockAggregator0 tok.1.2 in
  let vBTC := fixture_baseToken tok.2 in
  let btcPriceFeed := mockAggregator tok.2 in
  let priceFeeds := <[ vBTC := btcPriceFeed ]> (<[ vETH := ethPriceFeed ]> ∅) in
  core ← initialize_core owner feeTier usdc vETH vBTC vQuote;
  let '(uniV3Factory, clearingHouseConfig, marketRegistry, orderBook, insuranceFund,
        accountBalance, exchange, vault) := core in
  poolAddrA ← read_string uniV3Factory "getPool" [JStr vETH; JStr vQuote; JNum feeTier];
  poolAddrB ← read_string uniV3Factory "getPool" [JStr vBTC; JStr vQuote; JNum feeTier];
  vETHPool ← external.getUniswapV3PoolInstance poolAddrA;
  vBTCPool ← external.getUniswapV3PoolInstance poolAddrB;
  let pools := <[ vBTC := vBTCPool ]> (<[ vETH := vETHPool ]> ∅) in
  _ ← send owner vETH "addWhitelist" [JStr poolAddrA];
  _ ← send owner vBTC "addWhitelist" [JStr poolAddrB];
  _ ← send owner vQuote "addWhitelist" [JStr poolAddrA];
  _ ← send owner vQuote "addWhitelist" [JStr poolAddrB];
  ch ← initialize_clearingHouse owner uniV3Factory clearingHouseConfig marketRegistry orderBook
         insuranceFund accountBalance exchange vault vETH vBTC vQuote;
  _ ← fund owner usdc vault _maker usdcDecimals;
  _ ← fund owner usdc vault _otherTrader usdcDecimals;
  mret (mk owner feeTier usdcDecimals priceFeeds pools _maker _otherTrader usdc ch.1 orderBook
          accountBalance marketRegistry clearingHouseConfig ch.2 exchange vault insuranceFund
          uniV3Factory vETHPool vBTCPool vETH vBTC ethPriceFeed btcPriceFeed vQuote).

(** ** Liquidity *)

Definition _encodePriceSqrt (token1Amount token0Amount : Z) : result Z :=
  encodeSqrtRatioX96 (bn_toString token1Amount) (bn_toString token0Amount).

(** [this._pools[token]]; a method of undefined throws. *)
Definition pool_of (f : t) (baseToken : Address) : result Address :=
  match _pools f !! baseToken with
  | Some pool => Ok pool
  | None => Throw "Cannot read property of undefined"
  end.

(** [(2 ^ 16) - 1]: in TypeScript [^] is bitwise exclusive or. *)
Definition observationCardinality : Z := Z.lxor 2 16 - 1.

Definition startPool (f : t) (pool : Address) (baseTokenAmount quoteTokenAmount : Z) : evm unit :=
  sqrtPrice ← lift (_encodePriceSqrt quoteTokenAmount baseTokenAmount);
  _ ← send (_ownerAddress f) pool "initialize" [JNum sqrtPrice];
  send (_ownerAddress f) pool "increaseObservationCardinalityNext" [JNum observationCardinality].

(** [addPool], [setFeeRatio] and the maker's [addLiquidity]. *)
Definition provideLiquidity (f : t) (baseToken : Address)
    (baseTokenAmount quoteTokenAmount lowerTick upperTick : Z) : evm unit :=
  _ ← send (_ownerAddress f) (marketRegistry f) "addPool" [JStr baseToken; JNum (_feeTier f)];
  _ ← send (_ownerAddress f) (marketRegistry f) "setFeeRatio" [JStr baseToken; JNum (_feeTier f)];
  send (maker f) (clearingHouse f) "addLiquidity"
    [JArr [JStr baseToken; JNum baseTokenAmount; JNum quoteTokenAmount; JNum lowerTick;
           JNum upperTick; JNum 0; JNum 0; JBool false; JNum MAX_UINT_256]].

Definition initializePoolWithLiquidityWide (f : t) (baseToken : Address)
    (baseTokenAmount quoteTokenAmount : Z) : evm unit :=
  pool ← lift (pool_of f baseToken);
  _ ← startPool f pool baseTokenAmount quoteTokenAmount;
  tickSpacing ← read_Z pool "tickSpacing" [];
  let lowerTick := _getMinTick tickSpacing in
  let upperTick := _getMaxTick tickSpacing in
  provideLiquidity f baseToken baseTokenAmount quoteTokenAmount lowerTick upperTick.

Definition initializePoolWithLiquidityWithinTicks (f : t) (baseToken : Address)
    (baseTokenAmount quoteTokenAmount lowerTick upperTick : Z) : evm unit :=
  pool ← lift (pool_of f baseToken);
  _ ← startPool f pool baseTokenAmount quoteTokenAmount;
  provideLiquidity f baseToken baseTokenAmount quoteTokenAmount lowerTick upperTick.

Definition setBaseTokenOraclePrice (f : t) (baseToken : Address) (price : Z) : evm unit :=
  match _priceFeeds f !! baseToken with
  | Some feed => send (_ownerAddress f) feed "setRoundData" [JNum 0; JNum price; JNum 0; JNum 0; JNum 0]
  | None => lift (Throw "Cannot read property of undefined")
  end.

Definition getVTokenInstance (token : Address) : evm Address := external.getVToken token.

End PerpV2Fixture.

(** ** Lemmas *)

Section Facts.
Context `{BN : BigNumber} `{EU : EthersUtils} `{ND : Node} `{SDK : UniswapV3Sdk}.

(** The transactions of one base token: aggregator, price feed, token. *)
Definition base_events (owner : Address) (n : nat) (name symbol : string) : list event :=
  [Deployed (create owner n) owner "ChainlinkAggregatorMock" [] [JNum 6];
   Deployed (create owner (S n)) owner "PerpV2ChainlinkPriceFeed" [] [];
   Sent owner (create owner (S n)) "initialize" [JStr (create owner n)] 0;
   Deployed (create owner (3 + n)) owner "PerpV2BaseToken" [] [];
   Sent owner (create owner (3 + n)) "initialize"
     [JStr name; JStr symbol; JStr (create owner (S n))] 0].

Lemma base_ran owner h0 evs n h nm sy r h' : Ran owner h0 evs n h ->
  _createBaseTokenFixture owner nm sy h = Ok (r, h') ->
  r = mkBaseTokenFixture (create owner (3 + n)) (create owner n) /\
  Ran owner h0 (evs ++ base_events owner n nm sy) (5 + n) h'.
Proof.
  intros R E. unfold _createBaseTokenFixture in E. repeat trace_step.
    split; [done|].
  match goal with R : Ran _ _ _ _ _ |- _ => by rewrite <- !app_assoc in R end.
Qed.

Lemma base_calls owner n nm sy i :
  calls_to (create owner i) (base_events owner n nm sy) =
    if (i =? S n)%nat || (i =? 3 + n)%nat then ["initialize"%string] else [].
Proof.
  unfold base_events.
  unfold calls_to. cbn.
  repeat case_decide; repeat case_match; try done;
    repeat match goal with
    | H : create owner _ = create owner _ |- _ => apply create_inj in H as [_ H]
    | H : (_ || _) = true |- _ => apply orb_true_iff in H as [H|H]
    | H : (_ || _) = false |- _ => apply orb_false_iff in H as [? H]
    | H : (_ =? _)%nat = true |- _ => apply Nat.eqb_eq in H
    | H : (_ =? _)%nat = false |- _ => apply Nat.eqb_neq in H
    end; subst; try done; try lia.
Qed.

(** Addresses that are not below each other are equal up to case. *)
Lemma ascending_total owner i j : i <> j ->
  _isAscendingTokenOrder (create owner i) (create owner j) = false ->
  _isAscendingTokenOrder (create owner j) (create owner i) = true.
Proof.
  unfold _isAscendingTokenOrder. intros Hij H.
  destruct (str_lt (toLowerCase (create owner j)) _) eqn:H1; [done|].
  by apply (str_lt_trichotomy _ _ H), create_lower_inj in H1.
Qed.

Lemma tokens_ran owner h0 evs n h r h' : Ran owner h0 evs n h -> _tokensFixture owner h = Ok (r, h') ->
  Ran owner h0 ((evs ++ base_events owner n "RandomTestToken0" "randomToken0") ++
                base_events owner (5 + n) "RandomTestToken1" "randomToken1") (10 + n) h' /\
  _isAscendingTokenOrder (token0 r) (token1 r) = true /\
  ((token0 r = create owner (3 + n) /\ token1 r = create owner (8 + n) /\
    mockAggregator0 r = create owner n /\ mockAggregator1 r = create owner (5 + n)) \/
   (token0 r = create owner (8 + n) /\ token1 r = create owner (3 + n) /\
    mockAggregator0 r = create owner (5 + n) /\ mockAggregator1 r = create owner n)).
Proof.
  intros R E. unfold _tokensFixture in E.
  apply evm_bind_Ok in E as (r0 & h1 & E1 & E). apply (base_ran _ _ _ _ _ _ _ _ _ R) in E1 as [-> R1].
  apply evm_bind_Ok in E as (r1 & h2 & E2 & E). apply (base_ran _ _ _ _ _ _ _ _ _ R1) in E2 as [-> R2].
  apply evm_ret_Ok in E as [-> ->]. cbn [fixture_baseToken mockAggregator]. split; [exact R2|].
  destruct (_isAscendingTokenOrder (create owner (3 + n)) (create owner (3 + (5 + n)))) eqn:Ho.
  - split; [done|]. by left.
  - split; [apply ascending_total in Ho; [done|lia]|]. by right.
Qed.

(** The transactions of [k] iterations of the loop. *)
Fixpoint loop_events (owner : Address) (n k : nat) : list event :=
  match k with
  | O => []
  | S k' => base_events owner n "RandomTestToken0" "randomToken0" ++ loop_events owner (5 + n) k'
  end.

Lemma loop_calls_outside owner k : forall n i, (i < n \/ n + 5 * k <= i)%nat ->
  calls_to (create owner i) (loop_events owner n k) = [].
Proof.
  induction k as [|k IH]; intros n i Hi; [done|]. cbn [loop_events].
  rewrite calls_to_app, base_calls, IH by lia.
  destruct (Nat.eqb_spec i (S n)); [lia|]. by destruct (Nat.eqb_spec i (3 + n)); [lia|].
Qed.

Lemma loop_calls_token owner k : forall n j, (j < k)%nat ->
  calls_to (create owner (3 + n + 5 * j)) (loop_events owner n k) = ["initialize"%string].
Proof.
  induction k as [|k IH]; intros n j Hj; [lia|]. cbn [loop_events].
  rewrite calls_to_app, base_calls.
  destruct (Nat.eqb_spec (3 + n + 5 * j) (S n)); [lia|].
  destruct (Nat.eqb_spec (3 + n + 5 * j) (3 + n)); cbn [orb].
  - rewrite loop_calls_outside by lia. done.
  - destruct j as [|j]; [lia|].
    replace (3 + n + 5 * S j)%nat with (3 + (5 + n) + 5 * j)%nat by lia. rewrite IH by lia. done.
Qed.

Lemma token0_ran owner token1Addr fuel : forall h0 evs n h r h', Ran owner h0 evs n h ->
  _token0Fixture fuel owner token1Addr h = Ok (r, h') ->
  exists k, (k < fuel)%nat /\ Ran owner h0 (evs ++ loop_events owner n (S k)) (5 * S k + n) h' /\
    r = mkBaseTokenFixture (create owner (3 + n + 5 * k)) (create owner (n + 5 * k)) /\
    _isAscendingTokenOrder (create owner (3 + n + 5 * k)) token1Addr = true.
Proof.
  induction fuel as [|fuel IH]; intros h0 evs n h r h' R E; [done|]. cbn [_token0Fixture] in E.
  apply evm_bind_Ok in E as (r0 & h1 & E1 & E). apply (base_ran _ _ _ _ _ _ _ _ _ R) in E1 as [-> R1].
  cbn [fixture_baseToken] in E. destruct (_isAscendingTokenOrder _ _) eqn:Ho.
  - apply evm_ret_Ok in E as [-> ->]. exists 0%nat. cbn [loop_events]. rewrite app_nil_r.
    replace (n + 5 * 0)%nat with n by lia. replace (3 + n + 5 * 0)%nat with (3 + n)%nat by lia.
    split; [lia|]. split; [|done]. by replace (5 * 1 + n)%nat with (5 + n)%nat by lia.
  - destruct (IH _ _ _ _ _ _ R1 E) as (k & Hk & R2 & -> & Hlt). exists (S k).
    replace (n + 5 * S k)%nat with (5 + n + 5 * k)%nat by lia.
    replace (3 + n + 5 * S k)%nat with (3 + (5 + n) + 5 * k)%nat by lia.
    split; [lia|]. split; [|done].
    replace (5 * S (S k) + n)%nat with (5 * S k + (5 + n))%nat by lia.
    by rewrite <- app_assoc in R2.
Qed.

(** The token contract [token] reads the price feed of the aggregator [agg]. *)
Definition priced_by (evs : list event) (owner token agg : Address) : Prop :=
  exists feed name symbol, Sent owner feed "initialize" [JStr agg] 0 ∈ evs /\
    Sent owner token "initialize" [JStr name; JStr symbol; JStr feed] 0 ∈ evs.

Lemma base_priced owner n nm sy evs : base_events owner n nm sy ⊆ evs ->
  priced_by evs owner (create owner (3 + n)) (create owner n).
Proof.
  intros H. exists (create owner (S n)), nm, sy. split; apply H; unfold base_events; set_solver.
Qed.

Lemma loop_priced owner k : forall n j evs, (j < k)%nat -> loop_events owner n k ⊆ evs ->
  priced_by evs owner (create owner (3 + n + 5 * j)) (create owner (n + 5 * j)).
Proof.
  induction k as [|k IH]; intros n j evs Hj H; [lia|]. cbn [loop_events] in H. destruct j as [|j].
  - replace (3 + n + 5 * 0)%nat with (3 + n)%nat by lia. replace (n + 5 * 0)%nat with n by lia.
    apply (base_priced owner n "RandomTestToken0" "randomToken0"). set_solver.
  - replace (3 + n + 5 * S j)%nat with (3 + (5 + n) + 5 * j)%nat by lia.
    replace (n + 5 * S j)%nat with (5 + n + 5 * j)%nat by lia. apply IH; [lia|set_solver].
Qed.

(** What the token stage leaves: three initialized tokens, in order, each with
    its own aggregator, below the nonce [m]. *)
Definition tokens_ready (owner : Address) (evs : list event) (m : nat)
    (usdc vETH vBTC vQuote ethFeed btcFeed : Address) : Prop :=
  exists u i b q, usdc = create owner u /\ vETH = create owner i /\ vBTC = create owner b /\
    vQuote = create owner q /\ (u < m /\ i < m /\ b < m /\ q < m)%nat /\ NoDup [u; i; b; q] /\
    calls_to (create owner i) evs = ["initialize"%string] /\
    calls_to (create owner b) evs = ["initialize"%string] /\
    calls_to (create owner q) evs = ["initialize"%string] /\
    (forall j, (m <= j)%nat -> calls_to (create owner j) evs = []) /\
    _isAscendingTokenOrder vETH vQuote = true /\ _isAscendingTokenOrder vBTC vQuote = true /\
    priced_by evs owner vETH ethFeed /\ priced_by evs owner vBTC btcFeed.

(** Computes the calls in the events of the token stage. *)
Ltac token_calls :=
  repeat first
    [ rewrite calls_to_app | rewrite calls_to_deployed | rewrite base_calls
    | rewrite loop_calls_outside by lia | rewrite loop_calls_token by lia ];
  repeat match goal with
    | |- context [(?a =? ?b)%nat] =>
        first [ rewrite (proj2 (Nat.eqb_eq a b)) by lia | rewrite (proj2 (Nat.eqb_neq a b)) by lia ]
    end;
  try reflexivity.

Lemma initialize_tokens_ran n fuel owner h r h' : Ran owner h [] n h -> initialize_tokens fuel owner h = Ok (r, h') ->
  exists evs m, Ran owner h evs m h' /\
    tokens_ready owner evs m r.1.1 (token0 r.1.2) (fixture_baseToken r.2) (token1 r.1.2)
      (mockAggregator0 r.1.2) (mockAggregator r.2).
Proof.
  intros R E. unfold initialize_tokens in E. apply evm_bind_Ok in E as (x & h1 & E1 & E).
  apply lift_Ok in E1 as [_ ->]. apply evm_bind_Ok in E as (u & h1 & E1 & E).
  assert (Hu : u = create owner n /\ exists ev, Ran owner h [ev] (S n) h1 /\
    forall a, calls_to a [ev] = []).
  { clear E. unfold mocks.deployTokenMock in E1. repeat trace_step.
    split; [done|].
    cbn [app] in *. eexists. split; [eassumption|done]. }
  destruct Hu as (-> & ev & R1 & Hev). clear R E1.
  apply evm_bind_Ok in E as (t & h2 & E2 & E). apply (tokens_ran _ _ _ _ _ _ _ R1) in E2 as (R2 & Hlt & Ht).
  apply evm_bind_Ok in E as (b & h3 & E3 & E).
  apply (token0_ran _ _ _ _ _ _ _ _ _ R2) in E3 as (k & _ & R3 & -> & Hlt').
  apply evm_ret_Ok in E as [-> ->]. cbn [fst snd fixture_baseToken mockAggregator].
  do 2 eexists. split; [exact R3|].
  destruct Ht as [(T0 & T1 & A0 & _)|(T0 & T1 & A0 & _)]; rewrite T0, T1, A0 in *; clear T0 T1 A0 R1 R2 R3.
  - exists n, (3 + S n)%nat, (3 + (10 + S n) + 5 * k)%nat, (8 + S n)%nat.
    split_and!; try done; try lia.
    + repeat constructor; set_unfold; lia.
    + rewrite !calls_to_app, Hev. token_calls.
    + rewrite !calls_to_app, Hev. token_calls.
    + rewrite !calls_to_app, Hev. token_calls.
    + intros j Hj. rewrite !calls_to_app, Hev. token_calls.
    + apply (base_priced owner (S n) "RandomTestToken0" "randomToken0"). set_solver.
    + apply (loop_priced owner (S k)); [lia|set_solver].
  - exists n, (8 + S n)%nat, (3 + (10 + S n) + 5 * k)%nat, (3 + S n)%nat.
    split_and!; try done; try lia.
    + repeat constructor; set_unfold; lia.
    + rewrite !calls_to_app, Hev. token_calls.
    + rewrite !calls_to_app, Hev. token_calls.
    + rewrite !calls_to_app, Hev. token_calls.
    + intros j Hj. rewrite !calls_to_app, Hev. token_calls.
    + apply (base_priced owner (5 + S n) "RandomTestToken1" "randomToken1"). set_solver.
    + apply (loop_priced owner (S k)); [lia|set_solver].
Qed.

(** The contracts of a fixture that have to be initialized before use. *)
Definition upgradeable (f : t) : list Address :=
  [clearingHouseConfig f; marketRegistry f; orderBook f; insuranceFund f; accountBalance f;
   exchange f; vault f; clearingHouse f; vQuote f; vETH f; vBTC f].

(** The contracts that have to know the clearing house. *)
Definition clearing_house_clients (f : t) : list Address :=
  [marketRegistry f; orderBook f; exchange f; accountBalance f; vault f].

(** Finds a transaction in the events of a run. *)
Ltac find_event := repeat first [apply list_elem_of_here | apply list_elem_of_further].

Lemma initialize_run n fuel owner mk_ ot h f h' : Ran owner h [] n h ->
  initialize fuel owner mk_ ot h = Ok (f, h') ->
  exists evs0 evs m, Ran owner h evs0 m (h ++ evs0) /\ h' = h ++ evs0 ++ evs /\
    _ownerAddress f = owner /\
    tokens_ready owner evs0 m (usdc f) (vETH f) (vBTC f) (vQuote f) (ethPriceFeed f) (btcPriceFeed f) /\
    _priceFeeds f = <[ vBTC f := btcPriceFeed f ]> (<[ vETH f := ethPriceFeed f ]> ∅) /\
    _pools f = <[ vBTC f := vBTCPool f ]> (<[ vETH f := vETHPool f ]> ∅) /\
    Forall (fun c => head (calls_to c (evs0 ++ evs)) = Some "initialize"%string) (upgradeable f) /\
    Forall (fun c => Sent owner c "setClearingHouse" [JStr (clearingHouse f)] 0 ∈ evs)
      (clearing_house_clients f).
Proof.
  intros R E. unfold initialize in E. apply evm_bind_Ok in E as (tok & h1 & E1 & E).
  apply (initialize_tokens_ran _ _ _ _ _ _ R) in E1 as (evs0 & m & R1 & HT). clear R.
  pose proof R1 as [-> Hm]. exists evs0.
  assert (R : Ran owner (h ++ evs0) [] m (h ++ evs0)) by (split; [by rewrite app_nil_r|done]).
  destruct tok as [[us [t0 t1 a0 a1]] [bt ba]]. cbn [fst snd token0 token1 mockAggregator0
    fixture_baseToken mockAggregator] in *.
  destruct HT as (u & i & b & q & -> & -> & -> & -> & Hlt & HN & Ci & Cb & Cq & Cj & HT).
  clear R1. repeat trace_step.
  match goal with R : Ran _ _ ?evs _ _ |- _ => destruct R as [-> _]; exists evs, m end.
  rewrite <- !app_assoc. destruct D as [->| ->]; cbn [app];
    unfold upgradeable, clearing_house_clients; cbn [fst snd _ownerAddress usdc vETH vBTC vQuote
      ethPriceFeed btcPriceFeed _priceFeeds _pools vETHPool vBTCPool clearingHouseConfig
      marketRegistry orderBook insuranceFund accountBalance exchange vault clearingHouse].
  all: do 3 (split; [done|]); split; [by exists u, i, b, q|]; do 2 (split; [done|]); split;
    repeat first [apply Forall_nil; exact I | apply Forall_cons; split].
  all: first [ rewrite calls_to_app; first [rewrite Ci|rewrite Cb|rewrite Cq|rewrite Cj by lia];
               first [reflexivity | first_call]
             | find_event ].
Qed.

End Facts.

(** ** Lemmas on termination, prices and ticks *)

Section MoreFacts.
Context `{BN : BigNumber} `{EU : EthersUtils} `{ND : Node} `{SDK : UniswapV3Sdk} `{JB : JSBI}.

(** On a node that accepts the owner's transactions, a base token is created. *)
Lemma base_forward owner h nm sy :
  (forall h ev, sender ev = owner -> accepts h ev = Ok tt) ->
  _createBaseTokenFixture owner nm sy h =
    Ok (mkBaseTokenFixture (create owner (3 + nonce owner h)) (create owner (nonce owner h)),
        h ++ base_events owner (nonce owner h) nm sy).
Proof.
  intros Ha. unfold _createBaseTokenFixture, mocks.deployChainlinkAggregatorMock,
    external.deployPerpV2ChainlinkPriceFeed, external.deployPerpV2BaseToken, send, send_value, deploy.
  unfold mbind, evm_bind, submit, mret, evm_ret. repeat (rewrite Ha by done; cbn beta iota zeta).
  rewrite !nonce_app, !nonce_one. cbn [sender]. rewrite !decide_True by done.
  rewrite <- !app_assoc. cbn [app]. unfold base_events.
  replace (nonce owner h + 1)%nat with (S (nonce owner h)) by lia.
  by replace (S (nonce owner h) + 1 + 1)%nat with (3 + nonce owner h)%nat by lia.
Qed.

Lemma nonce_base owner h nm sy : nonce owner (h ++ base_events owner (nonce owner h) nm sy) =
  (5 + nonce owner h)%nat.
Proof.
  rewrite nonce_app. unfold base_events at 1. unfold nonce at 2.
  rewrite !filter_cons_True, filter_nil by done. cbn [List.length]. lia.
Qed.

(** The price read back from an encoded ratio. *)
Lemma encoded_price a1 a0 : 0 <= a1 -> 0 < a0 -> a1 <= 2 ^ 64 * a0 ->
  exists r p, _encodePriceSqrt a1 a0 = Ok r /\ getPriceFromSqrtPriceX96 r = Ok p /\
    a1 * 10 ^ 18 / a0 - 1 <= p <= a1 * 10 ^ 18 / a0.
Proof.
  intros H1 H0 Hb. unfold _encodePriceSqrt. bn_simpl. rewrite encodeSqrtRatioX96_law by lia.
  set (x := a1 * 2 ^ 192 / a0). set (r := Z.sqrt x). exists r.
  unfold getPriceFromSqrtPriceX96. rewrite jsbi_multiply_law, jsbi_exponentiate_law by lia.
  rewrite !jsbi_multiply_law, jsbi_divide_law by lia. eexists. split; [done|]. split; [done|].
  assert (Hx0 : 0 <= x) by (apply Z.div_pos; lia).
  destruct (Z.sqrt_spec x Hx0) as [Hr1 Hr2]. fold r in Hr1, Hr2.
  assert (Hr0 : 0 <= r) by apply Z.sqrt_nonneg.
  assert (Hx1 : x * a0 <= a1 * 2 ^ 192) by (rewrite Z.mul_comm; apply Z.mul_div_le; lia).
  assert (Hx2 : a1 * 2 ^ 192 < (x + 1) * a0)
    by (unfold x; pose proof (Z.mul_succ_div_gt (a1 * 2 ^ 192) a0); lia).
  assert (Hr : r <= 2 ^ 128).
  { apply Z.nlt_ge. intros Hlt. assert (2 ^ 128 * 2 ^ 128 < x) by nia. nia. }
  assert (Hq : r * r * 10 ^ 18 ÷ 2 ^ 192 = r * r * 10 ^ 18 / 2 ^ 192) by (apply Z.quot_div_nonneg; nia).
  rewrite Hq. set (a := a1 * 10 ^ 18 / a0).
  assert (Ha1 : a * a0 <= a1 * 10 ^ 18) by (rewrite Z.mul_comm; apply Z.mul_div_le; lia).
  split.
  - apply Z.div_le_lower_bound; [lia|].
    assert (a * 2 ^ 192 <= 10 ^ 18 * (x + 1)) by nia. nia.
  - apply Z.div_le_lower_bound; [lia|]. set (p := r * r * 10 ^ 18 / 2 ^ 192).
    assert (Hp : 2 ^ 192 * p <= r * r * 10 ^ 18) by (apply Z.mul_div_le; lia).
    assert (a0 * (2 ^ 192 * p) <= a0 * (x * 10 ^ 18)) by nia. nia.
Qed.

(** The ticks of a full range. *)
Lemma tick_range s : 0 < s <= 887272 ->
  _getMinTick s = - _getMaxTick s /\ (s | _getMaxTick s) /\
  0 < _getMaxTick s <= 887272 /\ 887272 < _getMaxTick s + s.
Proof.
  intros Hs. unfold _getMinTick, _getMaxTick.
  pose proof (Z.div_mod 887272 s ltac:(lia)). pose proof (Z.mod_pos_bound 887272 s ltac:(lia)).
  assert (1 <= 887272 / s) by (apply Z.div_le_lower_bound; lia).
  split; [lia|]. split; [by exists (887272 / s)|]. nia.
Qed.

End MoreFacts.

(** ** Theorems *)

Section Theorems.
Context `{BN : BigNumber} `{EU : EthersUtils} `{ND : Node} `{SDK : UniswapV3Sdk} `{JB : JSBI}.

(** C21: The fixture has the order that its comment assumes, (base, quote) ==
    (token0, token1): both base tokens are below the quote token, whichever of
    the first two tokens became the quote token, and each base token is
    recorded with its own pool and with the aggregator its price feed reads. *)
Theorem perp_tokens_ordered fuel owner mk_ ot h f h' :
  initialize fuel owner mk_ ot h = Ok (f, h') ->
  _isAscendingTokenOrder (vETH f) (vQuote f) = true /\
  _isAscendingTokenOrder (vBTC f) (vQuote f) = true /\
  NoDup [usdc f; vETH f; vBTC f; vQuote f] /\
  _pools f !! vETH f = Some (vETHPool f) /\ _pools f !! vBTC f = Some (vBTCPool f) /\
  _priceFeeds f !! vETH f = Some (ethPriceFeed f) /\
  _priceFeeds f !! vBTC f = Some (btcPriceFeed f) /\
  priced_by h' owner (vETH f) (ethPriceFeed f) /\ priced_by h' owner (vBTC f) (btcPriceFeed f).
Proof.
  intros E. destruct (initialize_run _ _ _ _ _ _ _ _ (Ran_start owner h) E) as
    (evs0 & evs & m & _ & -> & _ & HT & -> & -> & _).
  destruct HT as (u & i & b & q & Hu & Hi & Hb & Hq & _ & HN & _ & _ & _ & _ & H1 & H2 & P1 & P2).
  assert (HD : NoDup [usdc f; vETH f; vBTC f; vQuote f]).
  { rewrite Hu, Hi, Hb, Hq. change (NoDup (create owner <$> [u; i; b; q])). apply NoDup_fmap_2_strong; [|done].
    intros x y _ _ Exy. by apply create_inj in Exy as [_ ?]. }
  assert (Hne : vBTC f <> vETH f).
  { apply NoDup_cons in HD as [_ HD]. apply NoDup_cons in HD as [HD _]. set_solver. }
  split_and!; try done;
    try (apply lookup_insert_eq || (rewrite lookup_insert_ne by done; apply lookup_insert_eq)).
  - destruct P1 as (fe & nm & sy & ? & ?). exists fe, nm, sy. set_solver.
  - destruct P2 as (fe & nm & sy & ? & ?). exists fe, nm, sy. set_solver.
Qed.

(** C22: The fixture wires Perp up before using it: the first call to each of its
    eleven upgradeable contracts is [initialize], and each of the five
    contracts that depend on the clearing house is told its address. *)
Theorem perp_wired fuel owner mk_ ot h f h' : initialize fuel owner mk_ ot h = Ok (f, h') ->
  exists evs, h' = h ++ evs /\
    Forall (fun c => head (calls_to c evs) = Some "initialize"%string) (upgradeable f) /\
    Forall (fun c => Sent owner c "setClearingHouse" [JStr (clearingHouse f)] 0 ∈ evs)
      (clearing_house_clients f).
Proof.
  intros E. destruct (initialize_run _ _ _ _ _ _ _ _ (Ran_start owner h) E) as
    (evs0 & evs & m & _ & -> & _ & _ & _ & _ & HC & HS). exists (evs0 ++ evs). split; [done|].
  split; [done|]. eapply Forall_impl; [exact HS|]. set_solver.
Qed.

(** C26: The loop of [_token0Fixture] ends with the first token address below the
    quote token's: it deploys exactly the tokens up to that one, and with no
    such address among the next ones it does not end. *)
Theorem token0Fixture_first_below owner token1Addr k : forall fuel h,
  (forall h ev, sender ev = owner -> accepts h ev = Ok tt) ->
  (forall j, (j < k)%nat ->
     _isAscendingTokenOrder (create owner (3 + nonce owner h + 5 * j)) token1Addr = false) ->
  ((fuel <= k)%nat -> is_Ok (_token0Fixture fuel owner token1Addr h) = false) /\
  ((k < fuel)%nat ->
   _isAscendingTokenOrder (create owner (3 + nonce owner h + 5 * k)) token1Addr = true ->
   _token0Fixture fuel owner token1Addr h =
     Ok (mkBaseTokenFixture (create owner (3 + nonce owner h + 5 * k))
           (create owner (nonce owner h + 5 * k)),
         h ++ loop_events owner (nonce owner h) (S k))).
Proof.
  induction k as [|k IH]; intros fuel h Ha Hj.
  - split; [by destruct fuel; [|lia]|]. intros Hf Ht. destruct fuel as [|fuel]; [lia|]. cbn [_token0Fixture].
    unfold mbind, evm_bind. rewrite base_forward by done. cbn [fixture_baseToken loop_events].
    replace (3 + nonce owner h + 5 * 0)%nat with (3 + nonce owner h)%nat in * by lia.
    rewrite Ht, app_nil_r. by replace (nonce owner h + 5 * 0)%nat with (nonce owner h) by lia.
  - destruct fuel as [|fuel]; [split; [done|lia]|]. cbn [_token0Fixture].
    unfold mbind, evm_bind. rewrite base_forward by done. cbn [fixture_baseToken].
    pose proof (Hj 0%nat ltac:(lia)) as H0.
    replace (3 + nonce owner h + 5 * 0)%nat with (3 + nonce owner h)%nat in H0 by lia. rewrite H0.
    set (h1 := h ++ base_events _ _ _ _).
    assert (Hn : nonce owner h1 = (5 + nonce owner h)%nat) by apply nonce_base.
    assert (Hs : forall j, (3 + nonce owner h1 + 5 * j = 3 + nonce owner h + 5 * S j)%nat) by lia.
    destruct (IH fuel h1 Ha) as [IH1 IH2].
    { intros j Hjk. rewrite Hs. apply Hj. lia. }
    split; [intros; apply IH1; lia|]. intros Hf Ht. rewrite <- Hs in Ht. rewrite (IH2 ltac:(lia) Ht), Hn.
    replace (3 + (5 + nonce owner h) + 5 * k)%nat with (3 + nonce owner h + 5 * S k)%nat by lia.
    replace (5 + nonce owner h + 5 * k)%nat with (nonce owner h + 5 * S k)%nat by lia.
    unfold h1. by rewrite <- app_assoc.
Qed.

(** [initializePoolWithLiquidityWide] starts the pool of the base token at
    the price quote/base, to within one unit of the 18th decimal when read back
    by [getPriceFromSqrtPriceX96], and the maker provides liquidity over the
    widest range of ticks that are multiples of the spacing: symmetric, inside
    the bounds of Uniswap V3, and not extensible. *)
Theorem initializePoolWithLiquidityWide_range f baseToken base quote h u h' :
  initializePoolWithLiquidityWide f baseToken base quote h = Ok (u, h') ->
  0 < base -> 0 <= quote <= 2 ^ 64 * base ->
  exists pool spacing r p evs, _pools f !! baseToken = Some pool /\
    view evs pool "tickSpacing" [] = Ok (JNum spacing) /\
    _encodePriceSqrt quote base = Ok r /\ Sent (_ownerAddress f) pool "initialize" [JNum r] 0 ∈ h' /\
    getPriceFromSqrtPriceX96 r = Ok p /\
    quote * 10 ^ 18 / base - 1 <= p <= quote * 10 ^ 18 / base /\
    exists max, Sent (maker f) (clearingHouse f) "addLiquidity"
      [JArr [JStr baseToken; JNum base; JNum quote; JNum (- max); JNum max; JNum 0; JNum 0;
             JBool false; JNum MAX_UINT_256]] 0 ∈ h' /\
    (0 < spacing <= 887272 -> (spacing | max) /\ 0 < max <= 887272 /\ 887272 < max + spacing).
Proof.
  intros E Hb Hq. destruct (encoded_price quote base) as (r & p & Er & Ep & Hp); [lia..|].
  unfold initializePoolWithLiquidityWide, startPool, provideLiquidity, read_Z in E.
  rewrite Er in E. repeat evm_step. subst.
  unfold pool_of in *. destruct (_pools f !! baseToken) as [pool|] eqn:Hpool; [|done]. simplify_eq.
  match goal with H : match ?v with _ => _ end = Ok _ |- _ => destruct v as [|spacing| |]; try done end.
  simplify_eq.
  match goal with H : view _ _ _ _ = Ok (JNum ?z) |- _ => rename z into spacing end.
  do 5 eexists. split; [done|]. split; [eassumption|]. split; [exact Er|]. split; [set_solver|].
  split; [exact Ep|]. split; [done|]. exists (_getMaxTick spacing). split.
  - replace (- _getMaxTick spacing) with (_getMinTick spacing)
      by (unfold _getMinTick, _getMaxTick; lia). set_solver.
  - intros Hs. by destruct (tick_range spacing Hs) as (_ & ? & ? & ?).
Qed.

End Theorems.

(** ** Concrete instances *)

Section Instances.

(** [encodeSqrtRatioX96] on decimal strings. *)
#[refine, local] Instance sdk_ref : UniswapV3Sdk := {|
  encodeSqrtRatioX96 s1 s0 :=
    if all_digits s1 && all_digits s0 then
      if dec_value 0 s0 =? 0 then Throw "Division by zero"
      else Ok (Z.sqrt (dec_value 0 s1 * 2 ^ 192 / dec_value 0 s0))
    else Throw "SyntaxError" |}.
Proof.
  intros a1 a0 H1 H0. rewrite !dec_of_Z_nonneg by lia.
  destruct (dec_of_nonneg_spec a1 H1) as (-> & -> & _).
  destruct (dec_of_nonneg_spec a0 ltac:(lia)) as (-> & -> & _). cbn [andb].
  case_Z; [lia|done].
Defined.

Definition perp_view (h : history) (a : Address) (method : string) (args : list jsv) : result jsv :=
  if String.eqb method "getPool" then Ok (JStr "pool")
  else if String.eqb method "decimals" then Ok (JNum 6)
  else if String.eqb method "tickSpacing" then Ok (JNum 200)
  else Throw "function selector was not recognized".

#[local] Instance perp_node : Node := accepting_node perp_view [].

Lemma perp_runs : is_Ok (initialize 3 "owner" "maker" "trader" []) = true.
Proof. vm_compute. reflexivity. Qed.

Lemma perp_tokens_witness : exists f h', initialize 3 "owner" "maker" "trader" [] = Ok (f, h') /\
  _isAscendingTokenOrder (vETH f) (vQuote f) = true.
Proof.
  destruct (is_Ok_true _ perp_runs) as [[f h'] E]. exists f, h'. split; [done|].
  exact (proj1 (perp_tokens_ordered 3 "owner" "maker" "trader" [] f h' E)).
Defined.

Lemma perp_wired_witness : exists f h', initialize 3 "owner" "maker" "trader" [] = Ok (f, h') /\
  exists evs, h' = [] ++ evs /\
  Forall (fun c => head (calls_to c evs) = Some "initialize"%string) (upgradeable f).
Proof.
  destruct (is_Ok_true _ perp_runs) as [[f h'] E]. exists f, h'. split; [done|].
  destruct (perp_wired 3 "owner" "maker" "trader" [] f h' E) as (evs & He & H & _).
  exists evs. split; [exact He|exact H].
Defined.

(** Three tokens are deployed before one is below the address of nonce 10. *)
Lemma token0Fixture_witness :
  is_Ok (_token0Fixture 2 "owner" (create "owner" 10) []) = false /\
  _token0Fixture 3 "owner" (create "owner" 10) [] =
    Ok (mkBaseTokenFixture (create "owner" 13) (create "owner" 10), loop_events "owner" 0 3).
Proof.
  assert (Hj : forall j, (j < 2)%nat ->
    _isAscendingTokenOrder (create "owner" (3 + nonce "owner" [] + 5 * j)) (create "owner" 10) = false).
  { intros [|[|j]] Hj; [reflexivity|reflexivity|lia]. }
  split.
  - exact (proj1 (token0Fixture_first_below "owner" (create "owner" 10) 2 2 []
      (fun _ _ _ => eq_refl) Hj) (le_n 2)).
  - exact (proj2 (token0Fixture_first_below "owner" (create "owner" 10) 2 3 []
      (fun _ _ _ => eq_refl) Hj) (le_n 3) eq_refl).
Defined.

(** 10 vETH against 100 quote tokens. *)
Lemma start_liquidity_runs : is_Ok ((f ← initialize 3 "owner" "maker" "trader";
  initializePoolWithLiquidityWide f (vETH f) (10 * 10 ^ 18) (100 * 10 ^ 18)) []) = true.
Proof. vm_compute. reflexivity. Qed.

Lemma liquidity_witness : exists f h1 h2 r p,
  initializePoolWithLiquidityWide f (vETH f) (10 * 10 ^ 18) (100 * 10 ^ 18) h1 = Ok (tt, h2) /\
  _encodePriceSqrt (100 * 10 ^ 18) (10 * 10 ^ 18) = Ok r /\
  getPriceFromSqrtPriceX96 r = Ok p /\
  100 * 10 ^ 18 * 10 ^ 18 / (10 * 10 ^ 18) - 1 <= p <= 100 * 10 ^ 18 * 10 ^ 18 / (10 * 10 ^ 18).
Proof.
  destruct (is_Ok_true _ start_liquidity_runs) as [[[] h2] E].
  apply evm_bind_Ok in E as (f & h1 & _ & E).
  destruct (initializePoolWithLiquidityWide_range f (vETH f) (10 * 10 ^ 18) (100 * 10 ^ 18) h1 tt h2 E
    ltac:(lia) ltac:(lia)) as (pool & spacing & r' & p & evs & _ & _ & Er & _ & Ep & Hp & _).
  exists f, h1, h2, r', p. split; [exact E|]. split; [exact Er|]. split; [exact Ep|]. exact Hp.
Defined.

End Instances.
