(* ===== verification/PairFactories.v ===== *)
(** * Pair factories

    [external/contracts/uniswap/v2/UniswapV2Factory.sol] and the pool registry
    of [external/contracts/kyber/DMMFactory.sol]: the contracts that the pool
    fixtures ask for the pools they create. The addresses that the EVM gives to
    new pools are a parameter. [FactoryNode] is a node whose answers about such
    factories are those of the contracts. *)

From S2P Require Import Prelude JsString Ethers Constants Evm.
From Stdlib Require Import String.

Local Open Scope Z_scope.

(** [tokenA < tokenB] on addresses: hexadecimal numbers of the same length, so
    the order of their lower-case digits. *)
Definition address_lt (a b : Address) : bool := str_lt (toLowerCase a) (toLowerCase b).

(** The two tokens in order. *)
Definition sortTokens (tokenA tokenB : Address) : Address * Address :=
  if address_lt tokenA tokenB then (tokenA, tokenB) else (tokenB, tokenA).

(** ** UniswapV2Factory *)

Module UniswapV2Factory.

Record state := mk {
  feeToSetter : Address;
  feeTo : Address;
  getPairs : gmap (Address * Address) Address;
  allPairs : list Address;
}.

Definition constructor (_feeToSetter : Address) : state := mk _feeToSetter ADDRESS_ZERO ∅ [].

Definition getPair (s : state) (a b : Address) : Address := default ADDRESS_ZERO (getPairs s !! (a, b)).

Definition allPairsLength (s : state) : nat := List.length (allPairs s).

(** [pair]: the address [create2] gives to the pair of two tokens. *)
Definition createPair (pair : Address -> Address -> Address) (tokenA tokenB : Address) (s : state)
    : result state :=
  _ ← require (bool_decide (tokenA <> tokenB)) "UniswapV2: IDENTICAL_ADDRESSES";
  let '(token0, token1) := sortTokens tokenA tokenB in
  _ ← require (bool_decide (token0 <> ADDRESS_ZERO)) "UniswapV2: ZERO_ADDRESS";
  _ ← require (bool_decide (getPair s token0 token1 = ADDRESS_ZERO)) "UniswapV2: PAIR_EXISTS";
  let p := pair token0 token1 in
  Ok (mk (feeToSetter s) (feeTo s)
        (<[ (token1, token0) := p ]> (<[ (token0, token1) := p ]> (getPairs s)))
        (allPairs s ++ [p])).

Definition setFeeTo (msg_sender _feeTo : Address) (s : state) : result state :=
  _ ← require (bool_decide (msg_sender = feeToSetter s)) "UniswapV2: FORBIDDEN";
  Ok (mk (feeToSetter s) _feeTo (getPairs s) (allPairs s)).

Definition setFeeToSetter (msg_sender _feeToSetter : Address) (s : state) : result state :=
  _ ← require (bool_decide (msg_sender = feeToSetter s)) "UniswapV2: FORBIDDEN";
  Ok (mk _feeToSetter (feeTo s) (getPairs s) (allPairs s)).

(** The registry is symmetric, and lists exactly the pairs it maps to. *)
Record Inv (s : state) : Prop := {
  inv_sym a b : getPair s a b = getPair s b a;
  inv_listed a b : getPair s a b <> ADDRESS_ZERO -> getPair s a b ∈ allPairs s;
  inv_mapped p : p ∈ allPairs s -> p <> ADDRESS_ZERO /\ exists a b, a <> b /\ getPair s a b = p;
}.

End UniswapV2Factory.

(** ** DMMFactory: the pools of a token pair, one of them unamplified at most *)

Module DMMFactory.

Definition BPS : Z := 10000.

Record state := mk {
  feeTo : Address;
  governmentFeeBps : Z;
  feeToSetter : Address;
  tokenPools : gmap (Address * Address) (list Address);   (** enumerable sets *)
  unamplified : gmap (Address * Address) Address;
  allPools : list Address;
}.

Definition constructor (_feeToSetter : Address) : state := mk ADDRESS_ZERO 0 _feeToSetter ∅ ∅ [].

(** [EnumerableSet.add]. *)
Definition add (l : list Address) (p : Address) : list Address :=
  if bool_decide (p ∈ l) then l else l ++ [p].

Definition getPools (s : state) (a b : Address) : list Address := default [] (tokenPools s !! (a, b)).
Definition getUnamplifiedPool (s : state) (a b : Address) : Address :=
  default ADDRESS_ZERO (unamplified s !! (a, b)).

(** [pool]: the address of the next contract the factory creates, by the
    number of pools it has created. *)
Definition createPool (pool : nat -> Address) (tokenA tokenB : Address) (ampBps : Z) (s : state)
    : result state :=
  _ ← require (bool_decide (tokenA <> tokenB)) "DMM: IDENTICAL_ADDRESSES";
  let '(token0, token1) := sortTokens tokenA tokenB in
  _ ← require (bool_decide (token0 <> ADDRESS_ZERO)) "DMM: ZERO_ADDRESS";
  _ ← require (BPS <=? ampBps) "DMM: INVALID_BPS";
  _ ← require (negb (ampBps =? BPS) || bool_decide (getUnamplifiedPool s token0 token1 = ADDRESS_ZERO))
        "DMM: UNAMPLIFIED_POOL_EXISTS";
  let p := pool (List.length (allPools s)) in
  let l := getPools s token0 token1 in
  let tp := <[ (token0, token1) := add l p ]> (tokenPools s) in
  Ok (mk (feeTo s) (governmentFeeBps s) (feeToSetter s)
        (<[ (token1, token0) := add (default [] (tp !! (token1, token0))) p ]> tp)
        (if ampBps =? BPS
         then <[ (token1, token0) := p ]> (<[ (token0, token1) := p ]> (unamplified s))
         else unamplified s)
        (allPools s ++ [p])).

Definition setFeeConfiguration (msg_sender _feeTo : Address) (_governmentFeeBps : Z) (s : state)
    : result state :=
  _ ← require (bool_decide (msg_sender = feeToSetter s)) "DMM: FORBIDDEN";
  _ ← require ((0 <? _governmentFeeBps) && (_governmentFeeBps <? 2000)) "DMM: INVALID FEE";
  Ok (mk _feeTo _governmentFeeBps (feeToSetter s) (tokenPools s) (unamplified s) (allPools s)).

Definition setFeeToSetter (msg_sender _feeToSetter : Address) (s : state) : result state :=
  _ ← require (bool_decide (msg_sender = feeToSetter s)) "DMM: FORBIDDEN";
  Ok (mk (feeTo s) (governmentFeeBps s) _feeToSetter (tokenPools s) (unamplified s) (allPools s)).

Definition isPool (s : state) (a b p : Address) : bool := bool_decide (p ∈ getPools s a b).

End DMMFactory.

(** ** Factories on a chain *)

(** The contract deployed at [f]. *)
Definition deployed_as (c : string) (f : Address) (h : history) : Prop :=
  exists from links args, Deployed f from c links args ∈ h.

Lemma deployed_as_app c f h evs : deployed_as c f h -> deployed_as c f (h ++ evs).
Proof. intros (from & links & args & H). exists from, links, args. set_solver. Qed.

(** The contract an event is about. *)
Definition target (ev : event) : Address :=
  match ev with Deployed a _ _ _ _ => a | Sent _ to _ _ _ => to end.

(** Events that call no factory on the way: the constructors of these contracts
    and these methods of tokens and staking contracts do not. *)
Definition silent (ev : event) : bool :=
  match ev with
  | Deployed _ _ c _ _ => bool_decide (c ∈ ["UniswapV2Router02"; "Uni"; "UniswapTimelock";
      "UniswapGovernorAlpha"; "StakingRewards"; "DMMRouter02"; "StandardTokenMock"]%string)
  | Sent _ _ m _ _ => bool_decide (m ∈ ["transfer"; "notifyRewardAmount"]%string)
  end.

(** A node whose Uniswap and Kyber factories are these contracts: [pairs] and
    [pools] are the states of the factories after a history. *)
Class FactoryNode (N : Node) := {
  pairFor : Address -> Address -> Address -> Address;
  pairFor_nonzero f a b : pairFor f a b <> ADDRESS_ZERO;
  pairs : Address -> history -> UniswapV2Factory.state;
  pairs_deployed h f from setter :
    pairs f (h ++ [Deployed f from "UniswapV2Factory" [] [JStr setter]]) =
    UniswapV2Factory.constructor setter;
  pairs_silent h f ev : silent ev = true -> target ev <> f -> pairs f (h ++ [ev]) = pairs f h;
  pairs_createPair h f from a b v : deployed_as "UniswapV2Factory" f h ->
    accepts h (Sent from f "createPair" [JStr a; JStr b] v) = Ok tt ->
    UniswapV2Factory.createPair (pairFor f) a b (pairs f h) =
      Ok (pairs f (h ++ [Sent from f "createPair" [JStr a; JStr b] v]));
  view_allPairsLength h f : deployed_as "UniswapV2Factory" f h ->
    view h f "allPairsLength" [] = Ok (JNum (Z.of_nat (UniswapV2Factory.allPairsLength (pairs f h))));
  view_allPairs h f i p : deployed_as "UniswapV2Factory" f h ->
    UniswapV2Factory.allPairs (pairs f h) !! i = Some p ->
    view h f "allPairs" [JNum (Z.of_nat i)] = Ok (JStr p);
  pools : Address -> history -> DMMFactory.state;
  pools_deployed h f from setter :
    pools f (h ++ [Deployed f from "DMMFactory" [] [JStr setter]]) = DMMFactory.constructor setter;
  pools_silent h f ev : silent ev = true -> target ev <> f -> pools f (h ++ [ev]) = pools f h;
  (** A contract's first nonce is 1. *)
  pools_createPool h f from a b amp v : deployed_as "DMMFactory" f h ->
    accepts h (Sent from f "createPool" [JStr a; JStr b; JNum amp] v) = Ok tt ->
    DMMFactory.createPool (fun n => create f (S n)) a b amp (pools f h) =
      Ok (pools f (h ++ [Sent from f "createPool" [JStr a; JStr b; JNum amp] v]));
  view_allPoolsLength h f : deployed_as "DMMFactory" f h ->
    view h f "allPoolsLength" [] = Ok (JNum (Z.of_nat (List.length (DMMFactory.allPools (pools f h)))));
  view_allPools h f i p : deployed_as "DMMFactory" f h ->
    DMMFactory.allPools (pools f h) !! i = Some p ->
    view h f "allPools" [JNum (Z.of_nat i)] = Ok (JStr p);
}.

(** ** Lemmas *)

Lemma sortTokens_cases a b : sortTokens a b = (a, b) \/ sortTokens a b = (b, a).
Proof. unfold sortTokens. destruct (address_lt a b); [by left|by right]. Qed.

Section PairFacts.
Import UniswapV2Factory.

Lemma getPair_insert2 s0 r0 l0 p m c d t0 t1 :
  getPair (mk s0 r0 (<[ (t1, t0) := p ]> (<[ (t0, t1) := p ]> m)) l0) c d =
    if decide ((c, d) = (t0, t1) \/ (c, d) = (t1, t0)) then p
    else default ADDRESS_ZERO (m !! (c, d)).
Proof.
  unfold getPair. cbn [getPairs].
  destruct (decide ((c, d) = (t1, t0))) as [Q|Q].
  - rewrite Q, lookup_insert_eq, decide_True by (by right). done.
  - rewrite lookup_insert_ne by congruence. destruct (decide ((c, d) = (t0, t1))) as [Q'|Q'].
    + rewrite Q', lookup_insert_eq, decide_True by (by left). done.
    + rewrite lookup_insert_ne by congruence. by rewrite decide_False by tauto.
Qed.

(** What a successful [createPair] does. *)
Lemma createPair_Ok pair a b s s' : createPair pair a b s = Ok s' ->
  a <> b /\ exists p, allPairs s' = allPairs s ++ [p] /\
    p = pair (sortTokens a b).1 (sortTokens a b).2 /\
    getPair s (sortTokens a b).1 (sortTokens a b).2 = ADDRESS_ZERO /\
    (forall c d, getPair s' c d =
       if decide ((c, d) = (a, b) \/ (c, d) = (b, a)) then p else getPair s c d).
Proof.
  unfold createPair. intros H.
  destruct (sortTokens_cases a b) as [Q|Q]; rewrite Q in *; cbn [fst snd] in *; inv_result;
    repeat match goal with
    | H : bool_decide _ = true |- _ => apply bool_decide_eq_true in H end;
    (split; [done|]; eexists; split; [reflexivity|]; split; [done|]; split; [done|]);
    intros c d; rewrite getPair_insert2; [done|].
  destruct (decide ((c, d) = (b, a) \/ _)) as [H1|H1].
  - by rewrite decide_True by tauto.
  - by rewrite decide_False by tauto.
Qed.

Lemma Inv_createPair pair a b s s' : (forall c d, pair c d <> ADDRESS_ZERO) ->
  Inv s -> createPair pair a b s = Ok s' -> Inv s'.
Proof.
  intros Hnz [Hsym Hl Hm] E. apply createPair_Ok in E as (Hab & p & HL & Hp & Hz & HG).
  assert (Hz' : getPair s a b = ADDRESS_ZERO).
  { destruct (sortTokens_cases a b) as [Q|Q]; rewrite Q in Hz; cbn in Hz; [done|by rewrite Hsym]. }
  constructor.
  - intros c d. rewrite !HG. destruct (decide _) as [H1|H1], (decide _) as [H2|H2]; try done; exfalso.
    + apply H2. destruct H1 as [H1|H1]; injection H1 as -> ->; tauto.
    + apply H1. destruct H2 as [H2|H2]; injection H2 as -> ->; tauto.
  - intros c d. rewrite HG, HL. case_decide; [set_solver|]. intros H'. apply Hl in H'. set_solver.
  - intros q. rewrite HL. intros [Hq|Hq]%elem_of_app.
    + destruct (Hm q Hq) as (Hq0 & c & d & Hne & Hcd). split; [done|]. exists c, d. split; [done|].
      rewrite HG, decide_False; [done|]. intros [H1|H1]; injection H1 as -> ->;
        [congruence|rewrite Hsym in Hcd; congruence].
    + apply list_elem_of_singleton in Hq as ->. split; [by rewrite Hp|]. exists a, b. split; [done|].
      by rewrite HG, decide_True by (by left).
Qed.

(** Calls a factory accepts. *)
Inductive Call := CreatePair (a b : Address) | SetFeeTo (a : Address) | SetFeeToSetter (a : Address).

Definition exec pair (msg_sender : Address) (c : Call) (s : state) : result state :=
  match c with
  | CreatePair a b => createPair pair a b s
  | SetFeeTo a => setFeeTo msg_sender a s
  | SetFeeToSetter a => setFeeToSetter msg_sender a s
  end.

Inductive step pair : state -> state -> Prop :=
  | step_call sender c s s' : exec pair sender c s = Ok s' -> step pair s s'.

Lemma pairs_Inv_constructor setter : Inv (constructor setter).
Proof. constructor; cbn; try done. intros p H. by apply not_elem_of_nil in H. Qed.

Lemma pairs_Inv_exec pair sender c s s' : (forall a b, pair a b <> ADDRESS_ZERO) ->
  Inv s -> exec pair sender c s = Ok s' -> Inv s'.
Proof.
  intros Hnz HI. destruct c as [a b|a|a]; cbn [exec]; [by apply Inv_createPair| |];
    unfold setFeeTo, setFeeToSetter; intros H; inv_result; by destruct HI.
Qed.

(** A pair that exists is not changed by any later call. *)
Lemma exec_keeps_pair pair sender c s s' a b : Inv s -> exec pair sender c s = Ok s' ->
  getPair s a b <> ADDRESS_ZERO -> getPair s' a b = getPair s a b.
Proof.
  intros HI H Hne. destruct c as [x y|x|x]; cbn [exec] in H.
  - apply createPair_Ok in H as (_ & p & _ & _ & Hz & HG). rewrite HG, decide_False; [done|].
    assert (Hz' : getPair s x y = ADDRESS_ZERO).
    { destruct (sortTokens_cases x y) as [Q|Q]; rewrite Q in Hz; cbn in Hz; [done|].
      by rewrite (inv_sym _ HI). }
    intros [E|E]; injection E as -> ->; [done|]. by rewrite (inv_sym _ HI) in Hne.
  - unfold setFeeTo in H. by inv_result.
  - unfold setFeeToSetter in H. by inv_result.
Qed.

(** C29: The registry of the Uniswap factory is consistent in every state that calls
    reach: symmetric in the tokens, and its list has exactly the pairs it maps
    to; and a pair, once created, is the pair of its tokens for ever. *)
Theorem pair_registry_invariant pair setter s : (forall a b, pair a b <> ADDRESS_ZERO) ->
  rtc (step pair) (constructor setter) s ->
  Inv s /\ forall s' a b, rtc (step pair) s s' -> getPair s a b <> ADDRESS_ZERO ->
    getPair s' a b = getPair s a b /\ getPair s' b a = getPair s a b.
Proof.
  intros Hnz H.
  assert (HI : forall s1 s2, rtc (step pair) s1 s2 -> Inv s1 -> Inv s2).
  { induction 1 as [|s1 s2 s3 [sender c ? ? E] _ IH]; [done|]. intros HI. apply IH.
    by eapply pairs_Inv_exec. }
  assert (Hs : Inv s) by (eapply HI; [exact H|apply pairs_Inv_constructor]).
  split; [done|]. intros s' a b Hr Hne.
  assert (Hk : forall s1 s2, rtc (step pair) s1 s2 -> Inv s1 -> getPair s1 a b <> ADDRESS_ZERO ->
    getPair s2 a b = getPair s1 a b).
  { induction 1 as [|s1 s2 s3 [sender c ? ? E] _ IH]; [done|]. intros HI1 Hn1.
    pose proof (exec_keeps_pair _ _ _ _ _ _ _ HI1 E Hn1) as E1.
    rewrite IH; [done|by eapply pairs_Inv_exec|congruence]. }
  split; [by apply Hk|]. rewrite (inv_sym s' (HI _ _ Hr Hs) b a). by apply Hk.
Qed.

Definition test_pair (a b : Address) : Address := ("pair:" ++ a ++ b)%string.

Lemma pair_registry_witness : exists s,
  createPair test_pair "weth" "dai" (constructor "owner") = Ok s /\ Inv s /\
  getPair s "weth" "dai" = "pair:daiweth"%string.
Proof.
  eexists. split; [reflexivity|]. split; [|reflexivity].
  apply (pair_registry_invariant test_pair "owner" _ ltac:(done)).
  eapply rtc_once, (step_call _ "owner" (CreatePair "weth" "dai")). reflexivity.
Defined.

End PairFacts.

Section PoolFacts.
Import DMMFactory.

Lemma elem_of_add l p : p ∈ add l p.
Proof. unfold add. case_bool_decide; set_solver. Qed.

(** A successful [createPool] lists the new pool last and under both orders of
    its tokens. *)
Lemma createPool_Ok pool a b amp s s' : createPool pool a b amp s = Ok s' ->
  a <> b /\ BPS <= amp /\
  allPools s' = allPools s ++ [pool (List.length (allPools s))] /\
  isPool s' a b (pool (List.length (allPools s))) = true /\
  isPool s' b a (pool (List.length (allPools s))) = true.
Proof.
  unfold createPool. intros H.
  destruct (sortTokens_cases a b) as [Q|Q]; rewrite Q in *; cbn [fst snd] in *; inv_result;
    repeat match goal with
    | H : bool_decide _ = true |- _ => apply bool_decide_eq_true in H
    | H : (_ <=? _) = true |- _ => apply Z.leb_le in H end;
    split_and!; try done; unfold isPool, getPools; cbn [tokenPools]; apply bool_decide_eq_true;
    first [ rewrite lookup_insert_eq; apply elem_of_add
          | rewrite lookup_insert_ne by congruence; rewrite lookup_insert_eq; apply elem_of_add ].
Qed.

End PoolFacts.
