(* ===== verification/PoolFixtures.v ===== *)
(** * Fixtures of exchanges

    [utils/fixtures/uniswapFixture.ts], [kyberV3DMMFixture.ts],
    [balancerFixture.ts], [curveFixture.ts] and [yearnFixture.ts]. An [Account]
    is its address; the owner's signer is kept apart, since the two are given
    separately. A block that is read is its timestamp. *)

From S2P Require Import Prelude JsString Ethers Constants UnitsUtils Evm Dependencies DeployMocks DeployExternal PairFactories.
From Stdlib Require Import String.

Local Open Scope Z_scope.

(** [getTokenOrder] of the Uniswap and Kyber fixtures. *)
Definition getTokenOrder (_tokenOne _tokenTwo : Address) : Address * Address :=
  if str_lt (toLowerCase _tokenOne) (toLowerCase _tokenTwo) then (_tokenOne, _tokenTwo)
  else (_tokenTwo, _tokenOne).

(** ** UniswapFixture *)

Module UniswapFixture.

Record t := mk {
  _ownerSigner : Address;
  owner : Address;
  uni : Address;
  uniswapGovernorAlpha : Address;
  uniswapTimelock : Address;
  factory : Address;
  router : Address;
  wethDaiPool : Address;
  wethDaiStakingRewards : Address;
  wethWbtcPool : Address;
  wethWbtcStakingRewards : Address;
  uniWethPool : Address;
}.

Section UniswapFixture.
Context `{BN : BigNumber} `{EU : EthersUtils} `{ND : Node}.

Definition createNewPair (signer factory _tokenOne _tokenTwo : Address) : evm Address :=
  _ ← send signer factory "createPair" [JStr _tokenOne; JStr _tokenTwo];
  n ← read_Z factory "allPairsLength" [];
  poolAddress ← read_string factory "allPairs" [JNum (bn_sub n 1)];
  attach poolAddress.

Definition createNewStakingPair (signer owner factory uni _tokenOne _tokenTwo : Address)
    : evm (Address * Address) :=
  poolInstance ← createNewPair signer factory _tokenOne _tokenTwo;
  stakingInstance ← external.deployStakingRewards signer owner uni poolInstance;
  v ← lift (ether (Number 5000000));
  _ ← send owner uni "transfer" [JStr stakingInstance; JNum v];
  v ← lift (ether (Number 5000000));
  _ ← send owner stakingInstance "notifyRewardAmount" [JNum v];
  mret (poolInstance, stakingInstance).

Definition initialize (signer _owner _weth _wbtc _dai : Address) : evm t :=
  factory ← external.deployUniswapV2Factory signer _owner;
  router ← external.deployUniswapV2Router02 signer factory _weth;
  timestamp ← read_Z "provider" "getBlock" [JStr "latest"];
  start ← lift (bn_from_number timestamp);
  uni ← external.deployUni signer _owner _owner (bn_add start 2);
  uniswapTimelock ← external.deployUniswapTimelock signer _owner (bn_mul ONE_DAY_IN_SECONDS 2);
  uniswapGovernorAlpha ← external.deployUniswapGovernorAlpha signer uniswapTimelock uni;
  wethDai ← createNewStakingPair signer _owner factory uni _weth _dai;
  wethWbtc ← createNewStakingPair signer _owner factory uni _weth _wbtc;
  uniWethPool ← createNewPair signer factory _weth uni;
  mret (mk signer _owner uni uniswapGovernorAlpha uniswapTimelock factory router
          wethDai.1 wethDai.2 wethWbtc.1 wethWbtc.2 uniWethPool).

Definition getForkedUniswapRouter : evm Address :=
  a ← lift (dependency "UNISWAP_ROUTER" 1); external.getForkedUniswapV2Router02 a.

Definition getForkedSushiswapRouter : evm Address :=
  a ← lift (dependency "SUSHISWAP_ROUTER" 1); external.getForkedUniswapV2Router02 a.

End UniswapFixture.
End UniswapFixture.

(** ** KyberV3DMMFixture *)

Module KyberV3DMMFixture.

Record t := mk {
  _ownerSigner : Address;
  owner : Address;
  knc : Address;
  dmmFactory : Address;
  dmmRouter : Address;
  kncWethPool : Address;
  wethDaiPool : Address;
  wethWbtcPool : Address;
}.

Section KyberV3DMMFixture.
Context `{BN : BigNumber} `{EU : EthersUtils} `{ND : Node}.

Definition createNewPool (signer dmmFactory _tokenA _tokenB : Address) (_ampBps : Z) : evm Address :=
  _ ← send signer dmmFactory "createPool" [JStr _tokenA; JStr _tokenB; JNum _ampBps];
  n ← read_Z dmmFactory "allPoolsLength" [];
  poolAddress ← read_string dmmFactory "allPools" [JNum (bn_sub n 1)];
  attach poolAddress.

Definition initialize (signer _owner _weth _wbtc _dai : Address) : evm t :=
  dmmFactory ← external.deployDMMFactory signer _owner;
  dmmRouter ← external.deployDMMRouter02 signer dmmFactory _weth;
  supply ← lift (ether (Number 100000));
  knc ← mocks.deployTokenMock signer _owner (Some supply) (Some 18) None None;
  kncWethPool ← createNewPool signer dmmFactory _weth knc 19000;
  wethDaiPool ← createNewPool signer dmmFactory _weth _dai 10000;
  wethWbtcPool ← createNewPool signer dmmFactory _weth _wbtc 15000;
  mret (mk signer _owner knc dmmFactory dmmRouter kncWethPool wethDaiPool wethWbtcPool).

End KyberV3DMMFixture.
End KyberV3DMMFixture.

(** ** BalancerFixture *)

Module BalancerFixture.

(** [LOG_NEW_POOL]. *)
Definition LOG_NEW_POOL : string :=
  "0x8ccec77b0cb63ac2cafd0f5de8cdfadab91ce656d262240ba8a6343bccc5f945".

Record t := mk {
  _ownerSigner : Address;
  owner : Address;
  factory : Address;
  exchange : Address;
  registry : Address;
  wethDaiPool : Address;
  wethWbtcPool : Address;
  wbtcDaiPool : Address;
}.

(** [logs.filter(...)], the topics of each log; [substr(26)] keeps the last 40
    digits of a topic. Without a matching log, [logs[0]] is undefined: the
    filtered array itself is never falsy. *)
Definition poolAddressFromLogs (logs : option (list (list string))) : result Address :=
  match logs with
  | None => Throw "No logs"
  | Some logs =>
      match filter (fun topics => LOG_NEW_POOL ∈ topics) logs with
      | [] => Throw "Cannot read property 'topics' of undefined"
      | topics :: _ =>
          match topics !! 2%nat with
          | Some topic => Ok ("0x" ++ slice 26 topic)%string
          | None => Throw "Cannot read property 'substr' of undefined"
          end
      end
  end.

(** The topics in a receipt; [undefined] when it has no logs. *)
Definition logs_of (v : jsv) : option (list (list string)) :=
  match v with
  | JArr l => mapM (fun log => match log with
                               | JArr ts => mapM (fun x => match x with JStr s => Some s | _ => None end) ts
                               | _ => None end) l
  | _ => None
  end.

Section BalancerFixture.
Context `{BN : BigNumber} `{EU : EthersUtils} `{ND : Node}.

Definition getPoolAddressFromTransaction : evm Address :=
  receipt ← read "provider" "getTransactionReceipt" [];
  lift (poolAddressFromLogs (logs_of receipt)).

Definition createNewPool (signer factory tokenOne tokenTwo : Address)
    (tokenOneBalance tokenTwoBalance : Z) : evm Address :=
  _ ← send signer factory "newBPool" [];
  poolAddress ← getPoolAddressFromTransaction;
  pool ← attach poolAddress;
  _ ← send signer tokenOne "approve" [JStr poolAddress; JNum tokenOneBalance];
  w ← lift (ether (Number 5));
  _ ← send signer pool "bind" [JStr tokenOne; JNum tokenOneBalance; JNum w];
  _ ← send signer tokenTwo "approve" [JStr poolAddress; JNum tokenTwoBalance];
  w ← lift (ether (Number 5));
  _ ← send signer pool "bind" [JStr tokenTwo; JNum tokenTwoBalance; JNum w];
  _ ← send signer pool "setPublicSwap" [JBool true];
  mret pool.

Definition initialize (signer _owner _weth _wbtc _dai : Address) : evm t :=
  factory ← external.deployB__factory signer;
  a ← lift (ether (Number 400)); b ← lift (ether (Number 92000));
  wethDaiPool ← createNewPool signer factory _weth _dai a b;
  a ← lift (ether (Literal "391.3043")); b ← lift (bitcoin 10);
  wethWbtcPool ← createNewPool signer factory _wbtc _weth a b;
  a ← lift (bitcoin 10); b ← lift (ether (Number 90000));
  wbtcDaiPool ← createNewPool signer factory _wbtc _dai a b;
  registry ← external.deployBRegistry signer factory;
  exchange ← external.deployExchangeProxy signer _weth;
  _ ← send signer registry "addPoolPair" [JStr wethDaiPool; JStr _weth; JStr _dai];
  _ ← send signer registry "addPoolPair" [JStr wethWbtcPool; JStr _weth; JStr _wbtc];
  _ ← send signer registry "addPoolPair" [JStr wbtcDaiPool; JStr _wbtc; JStr _dai];
  _ ← send signer registry "sortPools" [JStrs [_weth; _dai]; JNum ONE];
  _ ← send signer registry "sortPools" [JStrs [_wbtc; _dai]; JNum ONE];
  _ ← send signer registry "sortPools" [JStrs [_weth; _wbtc]; JNum ONE];
  _ ← send signer exchange "setRegistry" [JStr registry];
  mret (mk signer _owner factory exchange registry wethDaiPool wethWbtcPool wbtcDaiPool).

End BalancerFixture.
End BalancerFixture.

(** ** CurveFixture *)

Module CurveFixture.

Record pool := mkPool { poolToken : Address; stableSwap : Address; curveDeposit : Address }.
Record dao := mkDao { crvToken : Address; gaugeController : Address; minter : Address }.

Section CurveFixture.
Context `{BN : BigNumber} `{EU : EthersUtils} `{ND : Node}.

Definition initializePool (signer : Address) (_tokens : list Address) : evm pool :=
  poolToken ← external.deployCurvePoolERC20 signer "Curve.fi DAI/USDC/USDT/sUSD" "crvUSD" (Some 18) 0;
  stableSwap ← external.deployStableswap signer _tokens _tokens poolToken None None;
  deposit ← external.deployCurveDeposit signer _tokens _tokens stableSwap poolToken;
  _ ← send signer poolToken "set_minter" [JStr stableSwap];
  mret (mkPool poolToken stableSwap deposit).

Definition initializeDAO (signer : Address) : evm dao :=
  crvToken ← external.deployCrvToken signer "Curve DAO Token" "CRV" None;
  gaugeController ← external.deployGaugeController signer crvToken crvToken;
  w ← lift (ether (Literal "0.5"));
  _ ← send signer gaugeController "add_type" [JStr "Liquidity"; JNum w];
  minter ← external.deployMinter signer crvToken gaugeController;
  _ ← send signer crvToken "set_minter" [JStr minter];
  mret (mkDao crvToken gaugeController minter).

Definition initializeGauge (signer : Address) (d : dao) (_lpToken : Address) : evm Address :=
  gauge ← external.deployLiquidityGauge signer _lpToken (minter d);
  w ← lift (ether (Number 1));
  _ ← send signer (gaugeController d) "add_gauge" [JStr gauge; JNum 0; JNum w];
  mret gauge.

Definition initializeGaugeRewards (signer : Address) (d : dao)
    (_lpToken _rewardContract _rewardedToken : Address) : evm Address :=
  gauge ← external.deployLiquidityGaugeReward signer _lpToken (minter d) _rewardContract _rewardedToken;
  w ← lift (ether (Number 1));
  _ ← send signer (gaugeController d) "add_gauge" [JStr gauge; JNum 0; JNum w];
  mret gauge.

Definition getForkedCurveStEthStableswapPool : evm Address := external.getCurveStEthStableswapMock.

Definition getForkedWethStethCurveStableswapPool : evm Address :=
  external.getCurveWethStethStableswapMock.

End CurveFixture.
End CurveFixture.

(** ** YearnFixture *)

Module YearnFixture.
Section YearnFixture.
Context `{BN : BigNumber} `{EU : EthersUtils} `{ND : Node}.

Definition initialize (signer : Address) : evm Address := external.deployRegistry signer.

(** [signer] is the owner. *)
Definition createAndEnableVaultWithStrategyMock (signer registry : Address)
    (underlying governance guardian rewards name symbol : string) (depositLimit : Z) : evm Address :=
  emptyVault ← external.deployVault signer;
  _ ← send signer emptyVault "initialize" [JStr underlying; JStr governance; JStr rewards; JStr name;
        JStr symbol; JStr guardian];
  _ ← send signer emptyVault "setGovernance" [JStr signer];
  _ ← send signer emptyVault "acceptGovernance" [];
  _ ← send signer registry "newRelease" [JStr emptyVault];
  _ ← send signer registry "newVault" [JStr underlying; JStr guardian; JStr rewards; JStr name;
        JStr symbol];
  vaultAddress ← read_string registry "latestVault" [JStr underlying];
  vault ← external.getVault vaultAddress;
  _ ← send signer vault "setDepositLimit" [JNum depositLimit];
  _ ← send signer vault "setManagementFee" [JNum 0];
  strategy ← mocks.deployYearnStrategyMock signer vault;
  _ ← send signer vault "addStrategy" [JStr strategy; JNum 9800; JNum 0; JNum 1000; JNum 0];
  _ ← send signer strategy "setKeeper" [JStr signer];
  _ ← send signer strategy "setRewards" [JStr rewards];
  mret vault.

End YearnFixture.
End YearnFixture.
