(* ===== verification/PoolRegistries.v ===== *)
(** * What the pool fixtures create

    Theorems on [UniswapFixture], [KyberV3DMMFixture] and [BalancerFixture]: the
    pools of a fixture are those its factory has registered for their tokens.
    [Reg] follows the state of a factory through a run: it stays as it is until
    the factory is called. *)

From S2P Require Import Prelude JsString Ethers Constants UnitsUtils Evm Dependencies DeployMocks DeployExternal PairFactories PoolFixtures.
From Stdlib Require Import Ascii String.

Local Open Scope Z_scope.

(** ** The state of a registry along a run *)

Section Registry.
Context `{ND : Node} {St : Type} (c : string) (state_of : Address -> history -> St)
  (quiet : forall h f ev, silent ev = true -> target ev <> f -> state_of f (h ++ [ev]) = state_of f h).

Definition Reg (signer f : Address) (h : history) (P : St -> Prop) : Prop :=
  deployed_as c f h /\ (exists i, f = create signer i /\ (i < nonce signer h)%nat) /\ P (state_of f h).

Lemma nonce_snoc_le a h ev : (nonce a h <= nonce a (h ++ [ev]))%nat.
Proof. rewrite nonce_app. lia. Qed.

Lemma Reg_new signer args h a h' (P : St -> Prop) : deploy signer c [] args h = Ok (a, h') ->
  P (state_of a h') -> Reg signer a h' P.
Proof.
  clear quiet. intros E HP. apply deploy_Ok in E as (-> & -> & _). split; [|split; [|done]].
  - exists signer, [], args. set_solver.
  - eexists. split; [done|]. rewrite nonce_own by done. lia.
Qed.

Lemma Reg_other signer f h ev P : silent ev = true -> target ev <> f -> Reg signer f h P -> Reg signer f (h ++ [ev]) P.
Proof.
  intros Hs Ht (Hd & (i & -> & Hi) & HP). split; [by apply deployed_as_app|]. split.
  - exists i. split; [done|]. pose proof (nonce_snoc_le signer h ev). lia.
  - by rewrite quiet.
Qed.

Lemma Reg_deploy signer f h P c' links args a h' : Reg signer f h P ->
  deploy signer c' links args h = Ok (a, h') -> silent (Deployed a signer c' links args) = true ->
  Reg signer f h' P /\ a <> f.
Proof.
  intros HR E Hs. pose proof HR as (_ & (i & Hf & Hi) & _). apply deploy_Ok in E as (Ha & -> & _).
  assert (Hne : a <> f) by (rewrite Ha, Hf; intros [_ Q]%create_inj; lia).
  split; [|done]. by apply Reg_other.
Qed.

(** A call to the registry. *)
Lemma Reg_call signer f h (P Q : St -> Prop) from m args v : Reg signer f h P ->
  Q (state_of f (h ++ [Sent from f m args v])) -> Reg signer f (h ++ [Sent from f m args v]) Q.
Proof.
  clear quiet. intros (Hd & (i & Hf & Hi) & HP) HQ. split; [by apply deployed_as_app|]. split; [|done].
  exists i. split; [done|]. pose proof (nonce_snoc_le signer h (Sent from f m args v)). lia.
Qed.

End Registry.

Section Quiet.
Context `{FN : FactoryNode}.

Lemma pairs_quiet h f ev : silent ev = true -> target ev <> f -> pairs f (h ++ [ev]) = pairs f h.
Proof. apply pairs_silent. Qed.

Lemma pools_quiet h f ev : silent ev = true -> target ev <> f -> pools f (h ++ [ev]) = pools f h.
Proof. apply pools_silent. Qed.

End Quiet.

(** One step of the run in [E], along which the registry stays the same. *)
Ltac reg_step :=
  match goal with
  | R : Reg _ _ _ _ ?h _, E : mbind _ _ ?h = Ok _ |- _ =>
      let a := fresh "a" in let h1 := fresh "h" in let E1 := fresh "E" in
      apply evm_bind_Ok in E as (a & h1 & E1 & E)
  | R : Reg _ _ _ _ ?h _, E : lift _ ?h = Ok (_, _) |- _ => apply lift_Ok in E as [? ->]
  | R : Reg _ _ _ _ ?h _, E : or_default _ _ ?h = Ok (_, _) |- _ => unfold or_default in E; apply lift_Ok in E as [? ->]
  | R : Reg _ _ _ _ ?h _, E : mret _ ?h = Ok (_, _) |- _ => apply evm_ret_Ok in E as [-> ->]
  | R : Reg _ _ _ _ ?h _, E : read _ _ _ ?h = Ok (_, _) |- _ =>
      let V := fresh "V" in apply read_Ok in E as [-> V]
  | R : Reg _ _ ?s _ ?h _, E : deploy ?s _ _ _ ?h = Ok (_, _) |- _ =>
      let R' := fresh "R" in let Ne := fresh "Ne" in
      first [ pose proof (Reg_deploy _ _ pairs_quiet _ _ _ _ _ _ _ _ _ R E eq_refl) as [R' Ne]
            | pose proof (Reg_deploy _ _ pools_quiet _ _ _ _ _ _ _ _ _ R E eq_refl) as [R' Ne] ];
      clear R E
  end.

(** ** The Uniswap factory *)

Section Uniswap.
Context `{BN : BigNumber} `{EU : EthersUtils} `{ND : Node} {FN : FactoryNode ND}.
Import UniswapV2Factory.

(** The registry has exactly the pairs [l], of the tokens listed. *)
Definition pairs_are (l : list (Address * Address * Address)) (s : state) : Prop :=
  Inv s /\ allPairs s = map snd l /\ forall a b p, (a, b, p) ∈ l -> getPair s a b = p.

Lemma pairs_are_new setter : pairs_are [] (constructor setter).
Proof. split; [apply pairs_Inv_constructor|]. split; [done|]. set_solver. Qed.

Lemma pairs_are_createPair f l a b s s' : pairs_are l s ->
  createPair (pairFor f) a b s = Ok s' ->
  exists p, pairs_are (l ++ [(a, b, p)]) s' /\ allPairs s' = allPairs s ++ [p].
Proof.
  intros (HI & HL & HG) Q. pose proof (createPair_Ok _ _ _ _ _ Q) as (_ & p & HA & _ & _ & HG').
  exists p. split; [|done]. split; [|split].
  - eapply Inv_createPair; [apply pairFor_nonzero|exact HI|exact Q].
  - rewrite HA, HL, map_app. done.
  - intros c d q [Hq|Hq]%elem_of_app.
    + rewrite (exec_keeps_pair (pairFor f) a (CreatePair a b) s s' c d HI Q), (HG _ _ _ Hq); [done|].
      apply (inv_mapped _ HI). rewrite HL, (HG _ _ _ Hq). by apply (list_elem_of_fmap_2 snd _ (c, d, q)).
    + apply list_elem_of_singleton in Hq. injection Hq as -> -> ->. rewrite HG'.
      by rewrite decide_True by (by left).
Qed.

Abbreviation UReg := (Reg "UniswapV2Factory" pairs).

(** [createNewPair] returns the pair its transaction has created. *)
Lemma createNewPair_run signer f l a b h p h' : UReg signer f h (pairs_are l) ->
  UniswapFixture.createNewPair signer f a b h = Ok (p, h') ->
  UReg signer f h' (pairs_are (l ++ [(a, b, p)])).
Proof.
  intros HR E. unfold UniswapFixture.createNewPair, read_Z, read_string, attach in E.
  pose proof HR as (Hd & _ & HP). repeat evm_step. subst.
  match goal with H : accepts _ _ = Ok tt |- _ =>
    pose proof (pairs_createPair _ _ _ _ _ _ Hd H) as Hc end.
  destruct (pairs_are_createPair f l a b _ _ HP Hc) as (q & Hq & HA).
  pose proof (deployed_as_app _ _ h [Sent signer f "createPair" [JStr a; JStr b] 0] Hd) as Hd'.
  match goal with H : view _ _ "allPairsLength" _ = Ok _ |- _ =>
    rewrite (view_allPairsLength _ _ Hd') in H; unfold allPairsLength in H;
    rewrite HA, length_app in H; cbn [List.length] in H; injection H as <- end.
  simplify_eq. autorewrite with bn in *.
  match goal with H : view _ _ "allPairs" [JNum ?i] = Ok _ |- _ =>
    replace i with (Z.of_nat (List.length (allPairs (pairs f h)))) in H by lia;
    rewrite (view_allPairs _ _ _ q Hd') in H by (rewrite HA; by apply list_lookup_middle);
    injection H as <- end.
  simplify_eq. by apply (Reg_call _ _ _ _ _ (pairs_are l)).
Qed.

(** The staking contract [st] of a pool: deployed for it, then given the
    rewards and told of them. *)
Definition staked (signer owner uni pool st : Address) (h : history) : Prop :=
  exists h1 h2, h = h1 ++
    [Deployed st signer "StakingRewards" [] [JStr owner; JStr uni; JStr pool];
     Sent owner uni "transfer" [JStr st; JNum (5000000 * PRECISE_UNIT)] 0;
     Sent owner st "notifyRewardAmount" [JNum (5000000 * PRECISE_UNIT)] 0] ++ h2.

Lemma staked_app signer owner uni pool st h evs :
  staked signer owner uni pool st h -> staked signer owner uni pool st (h ++ evs).
Proof. intros (h1 & h2 & ->). exists h1, (h2 ++ evs). by rewrite <- !app_assoc. Qed.

Lemma createNewPair_appends signer f a b : appends (UniswapFixture.createNewPair signer f a b).
Proof.
  apply appends_bind; [apply appends_send|intros _].
  apply appends_bind; [apply appends_bind; [apply appends_read|intros []; apply appends_lift]|intros n].
  apply appends_bind; [apply appends_bind; [apply appends_read|intros []; apply appends_lift]|intros q].
  apply appends_ret.
Qed.

Lemma createNewStakingPair_appends signer owner f uni a b :
  appends (UniswapFixture.createNewStakingPair signer owner f uni a b).
Proof.
  apply appends_bind; [apply createNewPair_appends|intros p].
  apply appends_bind; [apply appends_deploy|intros st].
  apply appends_bind; [apply appends_lift|intros v]. apply appends_bind; [apply appends_send|intros _].
  apply appends_bind; [apply appends_lift|intros w]. apply appends_bind; [apply appends_send|intros _].
  apply appends_ret.
Qed.

Lemma createNewStakingPair_run signer owner f uni l a b h p st h' :
  UReg signer f h (pairs_are l) -> uni <> f ->
  UniswapFixture.createNewStakingPair signer owner f uni a b h = Ok ((p, st), h') ->
  UReg signer f h' (pairs_are (l ++ [(a, b, p)])) /\ staked signer owner uni p st h'.
Proof.
  intros HR Hu E. unfold UniswapFixture.createNewStakingPair in E.
  apply evm_bind_Ok in E as (q & h1 & E1 & E). apply (createNewPair_run _ _ _ _ _ _ _ _ HR) in E1.
  apply evm_bind_Ok in E as (st' & h2 & E2 & E). unfold external.deployStakingRewards in E2.
  pose proof (Reg_deploy _ _ pairs_quiet _ _ _ _ _ _ _ _ _ E1 E2 eq_refl) as [R2 Hst].
  apply deploy_Ok in E2 as (_ & -> & _). rewrite ether_Number in E by lia.
  repeat evm_step. simplify_eq.
  split; [do 2 (apply Reg_other; [apply pairs_quiet|done|done|]); exact R2|].
  exists h1, []. by rewrite app_nil_r, <- !app_assoc.
Qed.

(** C25: The Uniswap fixture: its factory ends with exactly its three pools, in the
    order of their creation, and each is the pair of its tokens, in both orders;
    the two staking contracts reward the two first pools, and the tokens are
    transferred to each before it is told of the reward. *)
Theorem uniswap_fixture_pools signer owner weth wbtc dai h fx h' :
  UniswapFixture.initialize signer owner weth wbtc dai h = Ok (fx, h') ->
  let s := pairs (UniswapFixture.factory fx) h' in
  allPairs s = [UniswapFixture.wethDaiPool fx; UniswapFixture.wethWbtcPool fx;
                UniswapFixture.uniWethPool fx] /\
  Forall (fun '(a, b, p) => getPair s a b = p /\ getPair s b a = p /\ p <> ADDRESS_ZERO)
    [(weth, dai, UniswapFixture.wethDaiPool fx); (weth, wbtc, UniswapFixture.wethWbtcPool fx);
     (weth, UniswapFixture.uni fx, UniswapFixture.uniWethPool fx)] /\
  staked signer owner (UniswapFixture.uni fx) (UniswapFixture.wethDaiPool fx)
    (UniswapFixture.wethDaiStakingRewards fx) h' /\
  staked signer owner (UniswapFixture.uni fx) (UniswapFixture.wethWbtcPool fx)
    (UniswapFixture.wethWbtcStakingRewards fx) h'.
Proof.
  intros E. unfold UniswapFixture.initialize, external.deployUniswapV2Factory,
    external.deployUniswapV2Router02, external.deployUni, external.deployUniswapTimelock,
    external.deployUniswapGovernorAlpha, read_Z in E.
  apply evm_bind_Ok in E as (f & h0 & E0 & E).
  pose proof (deploy_Ok _ _ _ _ _ _ _ E0) as (_ & Hh & _).
  assert (R : UReg signer f h0 (pairs_are [])).
  { eapply Reg_new; [exact E0|]. rewrite Hh, pairs_deployed. apply pairs_are_new. }
  clear E0 Hh. repeat reg_step.
  destruct a6 as [p1 st1].
  match goal with R : Reg _ _ _ _ h4 _ |- _ =>
    apply (createNewStakingPair_run _ _ _ _ _ _ _ _ _ _ _ R) in E0 as [R1 S1]; [clear R|done] end.
  apply evm_bind_Ok in E as ([p2 st2] & h6 & E2 & E).
  apply (createNewStakingPair_run _ _ _ _ _ _ _ _ _ _ _ R1) in E2 as S2; [|done].
  destruct S2 as [R2 S2]. apply evm_bind_Ok in E as (p3 & h7 & E3 & E).
  pose proof (createNewPair_run _ _ _ _ _ _ _ _ R2 E3) as (_ & _ & HI & HA & HG).
  assert (S1' : staked signer owner a3 p1 st1 h7).
  { destruct (createNewPair_appends _ _ _ _ _ _ _ E3) as [e3 ->].
    destruct (createNewStakingPair_appends _ _ _ _ _ _ _ _ _ E2) as [e2 ->]. by do 2 apply staked_app. }
  assert (S2' : staked signer owner a3 p2 st2 h7).
  { destruct (createNewPair_appends _ _ _ _ _ _ _ E3) as [e3 ->]. by apply staked_app. }
  apply evm_ret_Ok in E as [-> ->]. cbn -[staked] in *.
  split; [exact HA|]. split; [|by split].
  assert (HB : forall a b p, (a, b, p) ∈ [(weth, dai, p1); (weth, wbtc, p2); (weth, a3, p3)] ->
    getPair (pairs f h7) a b = p /\ getPair (pairs f h7) b a = p /\
    p <> ADDRESS_ZERO).
  { intros x y p Hp. split; [by apply HG|]. split; [rewrite (inv_sym _ HI); by apply HG|].
    apply (inv_mapped _ HI). rewrite HA. set_solver. }
  repeat (apply Forall_cons; split; [apply HB; set_solver|]). by apply Forall_nil.
Qed.

End Uniswap.

(** ** The Kyber factory *)

Section Kyber.
Context `{BN : BigNumber} `{EU : EthersUtils} `{ND : Node} {FN : FactoryNode ND}.
Import DMMFactory.

(** The registry of the factory [f] has exactly the pools [l], of the tokens
    listed, at the addresses of its first contracts. *)
Definition pools_are (f : Address) (l : list (Address * Address * Address)) (s : state) : Prop :=
  allPools s = map snd l /\ allPools s = map (create f) (seq 1 (List.length l)) /\
  forall a b p, (a, b, p) ∈ l -> isPool s a b p = true /\ isPool s b a p = true.

Lemma pools_are_new f setter : pools_are f [] (constructor setter).
Proof. split; [done|]. split; [done|]. set_solver. Qed.

Lemma add_keeps (m : gmap (Address * Address) (list Address)) k p c q :
  q ∈ default [] (m !! c) -> q ∈ default [] (<[k := add (default [] (m !! k)) p]> m !! c).
Proof.
  intros H. destruct (decide (k = c)) as [->|Hk]; [|by rewrite lookup_insert_ne].
  rewrite lookup_insert_eq. unfold add. cbn [default]. case_bool_decide; set_solver.
Qed.

(** A pool stays a pool of its tokens. *)
Lemma isPool_createPool pool a b amp s s' c d p : createPool pool a b amp s = Ok s' ->
  isPool s c d p = true -> isPool s' c d p = true.
Proof.
  unfold createPool, isPool, getPools. intros H Hp. apply bool_decide_eq_true in Hp.
  destruct (sortTokens_cases a b) as [Q|Q]; rewrite Q in *; cbn [fst snd] in *; inv_result;
    cbn [tokenPools]; apply bool_decide_eq_true; by do 2 apply add_keeps.
Qed.

Lemma pools_are_createPool f l a b amp s s' : pools_are f l s ->
  createPool (fun n => create f (S n)) a b amp s = Ok s' ->
  pools_are f (l ++ [(a, b, create f (S (List.length l)))]) s' /\
  allPools s' = allPools s ++ [create f (S (List.length l))].
Proof.
  intros (HL & HC & HG) Q. pose proof (createPool_Ok _ _ _ _ _ _ Q) as (_ & _ & HA & H1 & H2).
  assert (Hn : List.length (allPools s) = List.length l) by (by rewrite HL, length_map).
  rewrite Hn in *. split; [|done]. split; [|split].
  - by rewrite HA, HL, map_app.
  - rewrite HA, HC, length_app, seq_app, map_app. cbn [List.length seq map]. done.
  - intros c d q [Hq|Hq]%elem_of_app.
    + destruct (HG _ _ _ Hq) as [G1 G2]. by split; eapply isPool_createPool.
    + apply list_elem_of_singleton in Hq. by injection Hq as -> -> ->.
Qed.

Abbreviation KReg := (Reg "DMMFactory" pools).

(** [createNewPool] returns the pool its transaction has created. *)
Lemma createNewPool_run signer f l a b amp h p h' : KReg signer f h (pools_are f l) ->
  KyberV3DMMFixture.createNewPool signer f a b amp h = Ok (p, h') ->
  KReg signer f h' (pools_are f (l ++ [(a, b, p)])) /\ BPS <= amp.
Proof.
  intros HR E. unfold KyberV3DMMFixture.createNewPool, read_Z, read_string, attach in E.
  pose proof HR as (Hd & _ & HP). repeat evm_step. subst.
  match goal with H : accepts _ _ = Ok tt |- _ =>
    pose proof (pools_createPool _ _ _ _ _ _ _ Hd H) as Hc end.
  destruct (pools_are_createPool f l a b _ _ _ HP Hc) as (Hq & HA).
  pose proof (createPool_Ok _ _ _ _ _ _ Hc) as (_ & Hamp & _).
  pose proof (deployed_as_app _ _ h [Sent signer f "createPool" [JStr a; JStr b; JNum amp] 0] Hd) as Hd'.
  match goal with H : view _ _ "allPoolsLength" _ = Ok _ |- _ =>
    rewrite (view_allPoolsLength _ _ Hd') in H;
    rewrite HA, length_app in H; cbn [List.length] in H; injection H as <- end.
  simplify_eq. autorewrite with bn in *.
  match goal with H : view _ _ "allPools" [JNum ?i] = Ok _ |- _ =>
    replace i with (Z.of_nat (List.length (allPools (pools f h)))) in H by lia;
    rewrite (view_allPools _ _ _ (create f (S (List.length l))) Hd') in H by
      (rewrite HA; by apply list_lookup_middle); injection H as <- end.
  simplify_eq. split; [|done]. by apply (Reg_call _ _ _ _ _ (pools_are f l)).
Qed.

(** The Kyber fixture: its factory ends with exactly its three pools, the first
    contracts it has created, in the order of their creation, and each is a pool
    of its tokens, in both orders. *)
Theorem kyber_fixture_pools signer owner weth wbtc dai h fx h' :
  KyberV3DMMFixture.initialize signer owner weth wbtc dai h = Ok (fx, h') ->
  let f := KyberV3DMMFixture.dmmFactory fx in let s := pools f h' in
  allPools s = [KyberV3DMMFixture.kncWethPool fx; KyberV3DMMFixture.wethDaiPool fx;
                KyberV3DMMFixture.wethWbtcPool fx] /\
  allPools s = [create f 1; create f 2; create f 3] /\
  Forall (fun '(a, b, p) => isPool s a b p = true /\ isPool s b a p = true)
    [(weth, KyberV3DMMFixture.knc fx, KyberV3DMMFixture.kncWethPool fx);
     (weth, dai, KyberV3DMMFixture.wethDaiPool fx); (weth, wbtc, KyberV3DMMFixture.wethWbtcPool fx)].
Proof.
  intros E. unfold KyberV3DMMFixture.initialize, external.deployDMMFactory, external.deployDMMRouter02,
    mocks.deployTokenMock in E.
  apply evm_bind_Ok in E as (f & h0 & E0 & E).
  pose proof (deploy_Ok _ _ _ _ _ _ _ E0) as (_ & Hh & _).
  assert (R : KReg signer f h0 (pools_are f [])).
  { eapply Reg_new; [exact E0|]. rewrite Hh, pools_deployed. apply pools_are_new. }
  clear E0 Hh. repeat reg_step.
  match goal with R : Reg _ _ _ _ ?h _, E : KyberV3DMMFixture.createNewPool _ _ _ _ _ ?h = _ |- _ =>
    apply (createNewPool_run _ _ _ _ _ _ _ _ _ R) in E as [R1 _]; clear R end.
  apply evm_bind_Ok in E as (p2 & h2' & E2 & E). apply (createNewPool_run _ _ _ _ _ _ _ _ _ R1) in E2 as [R2 _].
  apply evm_bind_Ok in E as (p3 & h3' & E3 & E). apply (createNewPool_run _ _ _ _ _ _ _ _ _ R2) in E3 as [R3 _].
  apply evm_ret_Ok in E as [-> ->]. destruct R3 as (_ & _ & HA & HC & HG). cbn in *.
  split; [exact HA|]. split; [exact HC|].
  repeat (apply Forall_cons; split; [apply HG; set_solver|]). by apply Forall_nil.
Qed.

End Kyber.

(** ** The Balancer fixture *)

Section Balancer.
Context `{BN : BigNumber} `{EU : EthersUtils} `{ND : Node}.
Import BalancerFixture.

(** An address as a topic: its digits, padded to 32 bytes. *)
Definition address_topic (digits : string) : string := ("0x" ++ repeat_char 24 "0" ++ digits)%string.

(** The address of a new pool is read from the first log of its creation event;
    a receipt whose logs have no such event ends in a [TypeError], since the
    test for a missing log is on the filtered array, which is never falsy. *)
Theorem poolAddressFromLogs_spec logs :
  (forall pre topics post digits, logs = Some (pre ++ topics :: post) ->
     Forall (fun t : list string => LOG_NEW_POOL ∉ t) pre -> LOG_NEW_POOL ∈ topics ->
     topics !! 2%nat = Some (address_topic digits) ->
     poolAddressFromLogs logs = Ok ("0x" ++ digits)%string) /\
  (forall l, logs = Some l -> Forall (fun t : list string => LOG_NEW_POOL ∉ t) l ->
     poolAddressFromLogs logs = Throw "Cannot read property 'topics' of undefined").
Proof.
  assert (Hpre : forall pre l, Forall (fun t : list string => LOG_NEW_POOL ∉ t) pre ->
    filter (fun topics : list string => LOG_NEW_POOL ∈ topics) (pre ++ l) =
    filter (fun topics : list string => LOG_NEW_POOL ∈ topics) l).
  { intros pre l. induction 1 as [|t pre Ht _ IH]; [done|]. cbn [app]. by rewrite filter_cons, decide_False. }
  split.
  - intros pre topics post digits -> H Hin H2. unfold poolAddressFromLogs.
    rewrite Hpre by done. rewrite filter_cons, decide_True, H2 by done. reflexivity.
  - intros l -> H. unfold poolAddressFromLogs. rewrite <- (app_nil_r l), Hpre by done. reflexivity.
Qed.

(** A receipt with one unrelated log before the creation event, and one without
    the event. *)
Lemma poolAddressFromLogs_witness :
  poolAddressFromLogs (Some [["0x01"]; [LOG_NEW_POOL; "0x02"; address_topic (repeat_char 40 "a")]]%string) =
    Ok ("0x" ++ repeat_char 40 "a")%string /\
  poolAddressFromLogs (Some [["0x01"]]%string) = Throw "Cannot read property 'topics' of undefined".
Proof.
  split.
  - destruct (poolAddressFromLogs_spec (Some [["0x01"]; [LOG_NEW_POOL; "0x02";
      address_topic (repeat_char 40 "a")]]%string)) as [H _].
    apply (H [["0x01"]]%string [LOG_NEW_POOL; "0x02"; address_topic (repeat_char 40 "a")]%string [] _);
      [done| |set_solver|done].
    repeat constructor. apply (bool_decide_eq_true_1 _). vm_compute. reflexivity.
  - destruct (poolAddressFromLogs_spec (Some [["0x01"]]%string)) as [_ H]. apply (H _ eq_refl).
    repeat constructor. apply (bool_decide_eq_true_1 _). vm_compute. reflexivity.
Defined.

(** A created pool is bound to its two tokens, each approved just before with
    the bound balance, and then made public. *)
Lemma createNewPool_balancer signer f t1 t2 b1 b2 h p h' :
  createNewPool signer f t1 t2 b1 b2 h = Ok (p, h') ->
  h' = h ++ [Sent signer f "newBPool" [] 0;
    Sent signer t1 "approve" [JStr p; JNum b1] 0;
    Sent signer p "bind" [JStr t1; JNum b1; JNum (5 * PRECISE_UNIT)] 0;
    Sent signer t2 "approve" [JStr p; JNum b2] 0;
    Sent signer p "bind" [JStr t2; JNum b2; JNum (5 * PRECISE_UNIT)] 0;
    Sent signer p "setPublicSwap" [JBool true] 0].
Proof.
  intros E. unfold createNewPool, getPoolAddressFromTransaction, attach in E.
  rewrite ether_Number in E by lia. repeat evm_step. simplify_eq. by rewrite <- !app_assoc.
Qed.

End Balancer.

(** ** A node that runs the factories *)

Section FactoryNodeRef.

Definition pair_ref (f a b : Address) : Address := ("pair:" ++ f ++ a ++ b)%string.

(** The factories in the reference node: replays of the calls made to them. *)

Definition pair_step (f : Address) (s : UniswapV2Factory.state) (ev : event) : UniswapV2Factory.state :=
  match ev with
  | Deployed a _ c _ args =>
      if bool_decide (a = f) && String.eqb c "UniswapV2Factory" then
        match args with [JStr setter] => UniswapV2Factory.constructor setter | _ => s end
      else s
  | Sent _ to m args _ =>
      if bool_decide (to = f) && String.eqb m "createPair" then
        match args with
        | [JStr a; JStr b] =>
            match UniswapV2Factory.createPair (pair_ref f) a b s with Ok s' => s' | Throw _ => s end
        | _ => s
        end
      else s
  end.

Definition pairs_of (f : Address) (h : history) : UniswapV2Factory.state :=
  foldl (pair_step f) (UniswapV2Factory.constructor ADDRESS_ZERO) h.

Definition pool_step (f : Address) (s : DMMFactory.state) (ev : event) : DMMFactory.state :=
  match ev with
  | Deployed a _ c _ args =>
      if bool_decide (a = f) && String.eqb c "DMMFactory" then
        match args with [JStr setter] => DMMFactory.constructor setter | _ => s end
      else s
  | Sent _ to m args _ =>
      if bool_decide (to = f) && String.eqb m "createPool" then
        match args with
        | [JStr a; JStr b; JNum amp] =>
            match DMMFactory.createPool (fun n => create_ref f (S n)) a b amp s with
            | Ok s' => s' | Throw _ => s end
        | _ => s
        end
      else s
  end.

Definition pools_of (f : Address) (h : history) : DMMFactory.state :=
  foldl (pool_step f) (DMMFactory.constructor ADDRESS_ZERO) h.

Lemma pairs_of_snoc f h ev : pairs_of f (h ++ [ev]) = pair_step f (pairs_of f h) ev.
Proof. unfold pairs_of. by rewrite foldl_app. Qed.

Lemma pools_of_snoc f h ev : pools_of f (h ++ [ev]) = pool_step f (pools_of f h) ev.
Proof. unfold pools_of. by rewrite foldl_app. Qed.

Lemma pair_step_other f s ev : target ev <> f -> pair_step f s ev = s.
Proof. intros H. destruct ev; cbn in *; by rewrite bool_decide_eq_false_2. Qed.

Lemma pool_step_other f s ev : target ev <> f -> pool_step f s ev = s.
Proof. intros H. destruct ev; cbn in *; by rewrite bool_decide_eq_false_2. Qed.

Definition factory_accepts (h : history) (ev : event) : result unit :=
  match ev with
  | Sent _ to m [JStr a; JStr b] _ =>
      if String.eqb m "createPair" then
        _ ← UniswapV2Factory.createPair (pair_ref to) a b (pairs_of to h); Ok tt
      else Ok tt
  | Sent _ to m [JStr a; JStr b; JNum amp] _ =>
      if String.eqb m "createPool" then
        _ ← DMMFactory.createPool (fun n => create_ref to (S n)) a b amp (pools_of to h); Ok tt
      else Ok tt
  | _ => Ok tt
  end.

Definition nth_of (l : list Address) (args : list jsv) : result jsv :=
  match args with
  | [JNum i] => match l !! Z.to_nat i with Some p => Ok (JStr p) | None => Throw "out of range" end
  | _ => Throw "missing argument"
  end.

Definition factory_view (h : history) (to : Address) (m : string) (args : list jsv) : result jsv :=
  if String.eqb m "allPairsLength" then
    Ok (JNum (Z.of_nat (UniswapV2Factory.allPairsLength (pairs_of to h))))
  else if String.eqb m "allPairs" then nth_of (UniswapV2Factory.allPairs (pairs_of to h)) args
  else if String.eqb m "allPoolsLength" then
    Ok (JNum (Z.of_nat (List.length (DMMFactory.allPools (pools_of to h)))))
  else if String.eqb m "allPools" then nth_of (DMMFactory.allPools (pools_of to h)) args
  else Ok (JNum 1600000000).

#[refine, local] Instance factory_node : Node := {|
  create := create_ref; accepts := factory_accepts; view := factory_view; listAccounts := [] |}.
Proof. exact create_ref_inj. exact create_ref_lower_inj. done. Defined.

#[refine, local] Instance factory_node_laws : FactoryNode factory_node :=
  {| pairFor := pair_ref; pairs := pairs_of; pools := pools_of |}.
Proof.
  - done.
  - intros. rewrite pairs_of_snoc. cbn. by rewrite bool_decide_eq_true_2.
  - intros. rewrite pairs_of_snoc. by apply pair_step_other.
  - intros h f from a b v _. rewrite pairs_of_snoc. cbn. rewrite bool_decide_eq_true_2 by done.
    by destruct (UniswapV2Factory.createPair _ _ _ _).
  - done.
  - intros h f i p _ H. cbn. by rewrite Nat2Z.id, H.
  - intros. rewrite pools_of_snoc. cbn. by rewrite bool_decide_eq_true_2.
  - intros. rewrite pools_of_snoc. by apply pool_step_other.
  - intros h f from a b amp v _. rewrite pools_of_snoc. cbn. rewrite bool_decide_eq_true_2 by done.
    by destruct (DMMFactory.createPool _ _ _ _ _).
  - done.
  - intros h f i p _ H. cbn. by rewrite Nat2Z.id, H.
Defined.

Lemma uniswap_runs : is_Ok (UniswapFixture.initialize "owner" "owner" "weth" "wbtc" "dai" []) = true.
Proof. vm_compute. reflexivity. Qed.

Lemma uniswap_fixture_witness : exists fx h',
  UniswapFixture.initialize "owner" "owner" "weth" "wbtc" "dai" [] = Ok (fx, h') /\
  UniswapV2Factory.allPairs (pairs (UniswapFixture.factory fx) h') =
    [UniswapFixture.wethDaiPool fx; UniswapFixture.wethWbtcPool fx; UniswapFixture.uniWethPool fx].
Proof.
  destruct (is_Ok_true _ uniswap_runs) as [[fx h'] E]. exists fx, h'. split; [done|].
  exact (proj1 (uniswap_fixture_pools "owner" "owner" "weth" "wbtc" "dai" [] fx h' E)).
Defined.

Lemma kyber_runs : is_Ok (KyberV3DMMFixture.initialize "owner" "owner" "weth" "wbtc" "dai" []) = true.
Proof. vm_compute. reflexivity. Qed.

Lemma kyber_fixture_witness : exists fx h',
  KyberV3DMMFixture.initialize "owner" "owner" "weth" "wbtc" "dai" [] = Ok (fx, h') /\
  DMMFactory.allPools (pools (KyberV3DMMFixture.dmmFactory fx) h') =
    [KyberV3DMMFixture.kncWethPool fx; KyberV3DMMFixture.wethDaiPool fx; KyberV3DMMFixture.wethWbtcPool fx].
Proof.
  destruct (is_Ok_true _ kyber_runs) as [[fx h'] E]. exists fx, h'. split; [done|].
  exact (proj1 (kyber_fixture_pools "owner" "owner" "weth" "wbtc" "dai" [] fx h' E)).
Defined.

End FactoryNodeRef.
