(* ===== verification/Timelock.v ===== *)
(** * Compound's timelock

    [external/contracts/compound/CompoundTimelock.sol]: transactions are queued
    by the admin and executed after a delay. [executeTransaction] calls out of
    the contract, and the callee may call back: [step] has every call the
    contract can receive as a step, so the calls made while a transaction is
    executed are steps that follow its checks. The hash of a transaction is a
    parameter. *)

From S2P Require Import Prelude JsString Ethers Constants SafeMath.
From Stdlib Require Import Ascii String.

Local Open Scope Z_scope.

Module Timelock.

Definition days : Z := 86400.
Definition GRACE_PERIOD : Z := 14 * days.
Definition MINIMUM_DELAY : Z := 2 * days.
Definition MAXIMUM_DELAY : Z := 30 * days.

Record state := mk {
  admin : Address;
  pendingAdmin : Address;
  delay : Z;
  queuedTransactions : gset string;   (** the hashes mapped to [true] *)
}.

(** The arguments of [queueTransaction] and of its two sisters. *)
Record tx := mkTx {
  target : Address;
  value : Z;
  signature : string;
  data : string;
  eta : Z;
}.

(** [SafeMath.add] of the file. *)
Definition add (a b : Z) : result Z :=
  let c := wrap_uint256 (a + b) in
  _ ← require (a <=? c) "SafeMath: addition overflow"; Ok c.

Section Timelock.
Context (txHash : tx -> string)          (** [keccak256(abi.encode(...))] *)
  (selector : string -> string)          (** [bytes4(keccak256(bytes(signature)))] *)
  (this : Address).                      (** the contract *)

Definition constructor (admin_ : Address) (delay_ : Z) : result state :=
  _ ← require (MINIMUM_DELAY <=? delay_) "Timelock::constructor: Delay must exceed minimum delay.";
  _ ← require (delay_ <=? MAXIMUM_DELAY) "Timelock::setDelay: Delay must not exceed maximum delay.";
  Ok (mk admin_ ADDRESS_ZERO delay_ ∅).

Definition setDelay (msg_sender : Address) (delay_ : Z) (s : state) : result state :=
  _ ← require (bool_decide (msg_sender = this)) "Timelock::setDelay: Call must come from Timelock.";
  _ ← require (MINIMUM_DELAY <=? delay_) "Timelock::setDelay: Delay must exceed minimum delay.";
  _ ← require (delay_ <=? MAXIMUM_DELAY) "Timelock::setDelay: Delay must not exceed maximum delay.";
  Ok (mk (admin s) (pendingAdmin s) delay_ (queuedTransactions s)).

Definition acceptAdmin (msg_sender : Address) (s : state) : result state :=
  _ ← require (bool_decide (msg_sender = pendingAdmin s))
        "Timelock::acceptAdmin: Call must come from pendingAdmin.";
  Ok (mk msg_sender ADDRESS_ZERO (delay s) (queuedTransactions s)).

Definition setPendingAdmin (msg_sender pendingAdmin_ : Address) (s : state) : result state :=
  _ ← require (bool_decide (msg_sender = this)) "Timelock::setPendingAdmin: Call must come from Timelock.";
  Ok (mk (admin s) pendingAdmin_ (delay s) (queuedTransactions s)).

Definition queueTransaction (msg_sender : Address) (now : Z) (t : tx) (s : state) : result state :=
  _ ← require (bool_decide (msg_sender = admin s))
        "Timelock::queueTransaction: Call must come from admin.";
  earliest ← add now (delay s);
  _ ← require (earliest <=? eta t)
        "Timelock::queueTransaction: Estimated execution block must satisfy delay.";
  Ok (mk (admin s) (pendingAdmin s) (delay s) ({[ txHash t ]} ∪ queuedTransactions s)).

Definition cancelTransaction (msg_sender : Address) (t : tx) (s : state) : result state :=
  _ ← require (bool_decide (msg_sender = admin s))
        "Timelock::cancelTransaction: Call must come from admin.";
  Ok (mk (admin s) (pendingAdmin s) (delay s) (queuedTransactions s ∖ {[ txHash t ]})).

(** [executeTransaction] up to its external call. *)
Definition unqueue (msg_sender : Address) (now : Z) (t : tx) (s : state) : result state :=
  _ ← require (bool_decide (msg_sender = admin s))
        "Timelock::executeTransaction: Call must come from admin.";
  _ ← require (bool_decide (txHash t ∈ queuedTransactions s))
        "Timelock::executeTransaction: Transaction hasn't been queued.";
  _ ← require (eta t <=? now) "Timelock::executeTransaction: Transaction hasn't surpassed time lock.";
  latest ← add (eta t) GRACE_PERIOD;
  _ ← require (now <=? latest) "Timelock::executeTransaction: Transaction is stale.";
  Ok (mk (admin s) (pendingAdmin s) (delay s) (queuedTransactions s ∖ {[ txHash t ]})).

Definition callData (t : tx) : string :=
  if String.eqb (signature t) "" then data t else (selector (signature t) ++ data t)%string.

(** [call target value callData]: what the external call does to this contract. *)
Definition executeTransaction (call : Address -> Z -> string -> state -> result state)
    (msg_sender : Address) (now : Z) (t : tx) (s : state) : result state :=
  s1 ← unqueue msg_sender now t s;
  match call (target t) (value t) (callData t) s1 with
  | Ok s2 => Ok s2
  | Throw _ => Throw "Timelock::executeTransaction: Transaction execution reverted."
  end.

(** ** The contract over time *)

Inductive entry := Queued (t : tx) (at_ : Z) | Executed (t : tx) (at_ : Z).

Record config := mkC { st : state; now : Z; log : list entry }.

Inductive step : config -> config -> Prop :=
  | step_time c n : now c <= n -> step c (mkC (st c) n (log c))
  | step_setDelay c sender d s' : setDelay sender d (st c) = Ok s' -> step c (mkC s' (now c) (log c))
  | step_acceptAdmin c sender s' : acceptAdmin sender (st c) = Ok s' -> step c (mkC s' (now c) (log c))
  | step_setPendingAdmin c sender a s' : setPendingAdmin sender a (st c) = Ok s' ->
      step c (mkC s' (now c) (log c))
  | step_queue c sender t s' : queueTransaction sender (now c) t (st c) = Ok s' ->
      step c (mkC s' (now c) (log c ++ [Queued t (now c)]))
  | step_cancel c sender t s' : cancelTransaction sender t (st c) = Ok s' ->
      step c (mkC s' (now c) (log c))
  | step_execute c sender t s' : unqueue sender (now c) t (st c) = Ok s' ->
      step c (mkC s' (now c) (log c ++ [Executed t (now c)])).

(** The block time fits the type that the contract computes with. *)
Definition uint_time (c : config) : Prop := is_uint256 (now c).

(** ** Safety *)

Lemma add_Ok a b c : is_uint256 a -> 0 <= b < 2 ^ 256 -> add a b = Ok c -> c = a + b.
Proof using Type.
  clear selector.
  unfold add, wrap_uint256, is_uint256. intros [H1 H2]%andb_prop_elim Hb Q. inv_result.
  apply Is_true_true, Z.leb_le in H1. apply Is_true_true, Z.ltb_lt in H2.
  match goal with H : (_ <=? _) = true |- _ => apply Z.leb_le in H as Q end.
  destruct (decide (a + b < 2 ^ 256)) as [Hl|Hl]; [by rewrite Z.mod_small by lia|].
  replace (a + b) with (a + b - 2 ^ 256 + 1 * 2 ^ 256) in Q by lia.
  rewrite Z.mod_add, Z.mod_small in Q by lia. lia.
Qed.

(** What holds of every reachable configuration. *)
Record Inv (c : config) : Prop := {
  inv_delay : MINIMUM_DELAY <= delay (st c) <= MAXIMUM_DELAY;
  inv_queued hash : hash ∈ queuedTransactions (st c) ->
    exists t tq, hash = txHash t /\ Queued t tq ∈ log c /\ tq + MINIMUM_DELAY <= eta t;
  inv_executed t te : Executed t te ∈ log c ->
    exists t' tq, txHash t' = txHash t /\ Queued t' tq ∈ log c /\
      tq + MINIMUM_DELAY <= eta t' /\ eta t <= te;
}.

Lemma Inv_log c s n e : Inv c ->
  MINIMUM_DELAY <= delay s <= MAXIMUM_DELAY ->
  (forall hash, hash ∈ queuedTransactions s -> hash ∈ queuedTransactions (st c) \/
     exists t tq, hash = txHash t /\ Queued t tq ∈ log c ++ e /\ tq + MINIMUM_DELAY <= eta t) ->
  (forall t te, Executed t te ∈ e -> txHash t ∈ queuedTransactions (st c) /\ eta t <= te) ->
  Inv (mkC s n (log c ++ e)).
Proof using Type.
  clear selector.
  intros [HD HQ HE] Hd Hq He. constructor; cbn.
  - done.
  - intros hash [Hh|Hh]%Hq; [|done]. destruct (HQ _ Hh) as (t & tq & ? & ? & ?).
    exists t, tq. set_solver.
  - intros t te [Ht|Ht]%elem_of_app.
    + destruct (HE _ _ Ht) as (t' & tq & ? & ? & ?). exists t', tq. set_solver.
    + destruct (He _ _ Ht) as [Hq' Ht']. destruct (HQ _ Hq') as (t' & tq & ? & ? & ?).
      exists t', tq. set_solver.
Qed.

Lemma Inv_quiet c s n : Inv c -> MINIMUM_DELAY <= delay s <= MAXIMUM_DELAY ->
  queuedTransactions s ⊆ queuedTransactions (st c) -> Inv (mkC s n (log c)).
Proof using Type.
  clear selector.
  intros HI Hd Hq. rewrite <- (app_nil_r (log c)). apply Inv_log; [done|done|set_solver|set_solver].
Qed.

Lemma Inv_step c c' : is_uint256 (now c) -> Inv c -> step c c' -> Inv c'.
Proof using Type.
  clear selector.
  intros Hn HI Hs. pose proof (inv_delay _ HI) as HD. unfold MINIMUM_DELAY, MAXIMUM_DELAY, days in HD.
  destruct Hs as [c n H|c sender d s' H|c sender s' H|c sender a s' H|c sender t s' H|c sender t s' H
                 |c sender t s' H].
  - by apply Inv_quiet.
  - unfold setDelay in H. inv_result.
    apply Inv_quiet; cbn; [done|split; by apply Z.leb_le|done].
  - unfold acceptAdmin in H. inv_result. apply Inv_quiet; cbn; [done|done|set_solver].
  - unfold setPendingAdmin in H. inv_result. apply Inv_quiet; cbn; [done|done|set_solver].
  - unfold queueTransaction in H. inv_result.
    match goal with H : add _ _ = Ok _ |- _ => apply add_Ok in H as ->; [|done|cbn in *; lia] end.
    match goal with H : (_ <=? eta t) = true |- _ => apply Z.leb_le in H end.
    apply Inv_log; cbn; [done|done| |set_solver].
    intros hash [->%elem_of_singleton|Hh]%elem_of_union; [right|by left].
    exists t, (now c). split; [done|]. split; [set_solver|]. unfold MINIMUM_DELAY, days. cbn in *. lia.
  - unfold cancelTransaction in H. inv_result. apply Inv_quiet; cbn; [done|done|set_solver].
  - unfold unqueue in H. inv_result.
    match goal with H : (eta t <=? _) = true |- _ => apply Z.leb_le in H end.
    match goal with H : bool_decide (txHash t ∈ _) = true |- _ => apply bool_decide_eq_true in H end.
    apply Inv_log; cbn; [done|done|set_solver|]. intros t' te Ht.
    apply list_elem_of_singleton in Ht. by injection Ht as -> ->.
Qed.

(** C28: The promise of the timelock. From its constructor on, whatever calls it
    receives and whatever the transactions it executes call back: a transaction
    is executed only if it was queued at least the minimum delay of two days
    before, when hashes do not collide. *)
Theorem executed_after_delay admin_ delay_ s0 n0 c t te :
  (forall t1 t2, txHash t1 = txHash t2 -> t1 = t2) ->
  constructor admin_ delay_ = Ok s0 ->
  rtc (fun c1 c2 => step c1 c2 /\ uint_time c1) (mkC s0 n0 []) c ->
  Executed t te ∈ log c ->
  exists tq, Queued t tq ∈ log c /\ tq + MINIMUM_DELAY <= eta t <= te.
Proof using Type.
  clear selector.
  intros Hinj H0 Hr He.
  assert (HI0 : Inv (mkC s0 n0 [])).
  { unfold constructor in H0. inv_result. constructor; cbn; [split; by apply Z.leb_le|set_solver|set_solver]. }
  assert (HI : Inv c).
  { clear He. induction Hr as [|c1 c2 c3 [Hs Hu] _ IH]; [done|]. apply IH. by eapply Inv_step. }
  destruct (inv_executed _ HI _ _ He) as (t' & tq & <-%Hinj & ? & ? & ?). by exists tq.
Qed.

(** A successful [executeTransaction] is its checks followed by its call. *)
Lemma executeTransaction_Ok call sender n t s s' :
  executeTransaction call sender n t s = Ok s' ->
  exists s1, unqueue sender n t s = Ok s1 /\ call (target t) (value t) (callData t) s1 = Ok s'.
Proof.
  unfold executeTransaction. intros Q. apply bind_Ok_inv in Q as (s1 & Q1 & Q2). exists s1.
  destruct (call _ _ _ s1) eqn:Qc; [|done]. by injection Q2 as ->.
Qed.

End Timelock.

(** ** An instance *)

Fixpoint pos_string (p : positive) : string :=
  match p with
  | xH => EmptyString
  | xO q => String "0"%char (pos_string q)
  | xI q => String "1"%char (pos_string q)
  end.

Lemma pos_string_inj p q : pos_string p = pos_string q -> p = q.
Proof. revert q. induction p; intros []; cbn; intros [=]; f_equal; auto. Qed.

Definition txHash_inj (x : tx) : string :=
  pos_string (encode (target x, value x, signature x, data x, eta x)).

Lemma txHash_inj_spec t1 t2 : txHash_inj t1 = txHash_inj t2 -> t1 = t2.
Proof.
  intros H%pos_string_inj%encode_inj. destruct t1, t2. cbn in H. by injection H as -> -> -> -> ->.
Qed.

Definition test_tx : tx := mkTx "timelock" 0 "" "data" (1000 + MINIMUM_DELAY).

Definition test_init : state := mk "admin" ADDRESS_ZERO MINIMUM_DELAY ∅.
Definition test_queued : state := mk "admin" ADDRESS_ZERO MINIMUM_DELAY ({[ txHash_inj test_tx ]} ∪ ∅).
Definition test_done : state := mk "admin" ADDRESS_ZERO MINIMUM_DELAY
  (({[ txHash_inj test_tx ]} ∪ ∅) ∖ {[ txHash_inj test_tx ]}).
Definition test_end : config := mkC test_done (1000 + MINIMUM_DELAY)
  [Queued test_tx 1000; Executed test_tx (1000 + MINIMUM_DELAY)].

(** Queued at 1000, executed as early as allowed. *)
Lemma test_queues : queueTransaction txHash_inj "admin" 1000 test_tx test_init = Ok test_queued.
Proof. reflexivity. Qed.

Lemma test_executes :
  unqueue txHash_inj "admin" (1000 + MINIMUM_DELAY) test_tx test_queued = Ok test_done.
Proof.
  unfold unqueue. rewrite (bool_decide_eq_true_2 (_ ∈ _)); [reflexivity|].
  apply elem_of_union_l, elem_of_singleton. reflexivity.
Qed.

Lemma test_run : rtc (fun c1 c2 => step txHash_inj "timelock" c1 c2 /\ uint_time c1) (mkC test_init 1000 []) test_end.
Proof.
  eapply rtc_l; [split; [exact (step_queue _ _ (mkC test_init 1000 []) _ _ _ test_queues)|by vm_compute]|].
  eapply rtc_l; [split; [apply (step_time _ _ _ (1000 + MINIMUM_DELAY)); vm_compute; discriminate|by vm_compute]|].
  eapply rtc_once. split; [|by vm_compute].
  exact (step_execute _ _ (mkC test_queued (1000 + MINIMUM_DELAY) [Queued test_tx 1000]) _ _ _ test_executes).
Qed.

Lemma executed_after_delay_witness : exists c tq,
  Executed test_tx (1000 + MINIMUM_DELAY) ∈ log c /\
  Queued test_tx tq ∈ log c /\ tq + MINIMUM_DELAY <= eta test_tx <= 1000 + MINIMUM_DELAY.
Proof.
  assert (Hin : Executed test_tx (1000 + MINIMUM_DELAY) ∈ log test_end) by (right; by left).
  assert (H0 : constructor "admin" MINIMUM_DELAY = Ok test_init) by (vm_compute; reflexivity).
  destruct (executed_after_delay txHash_inj "timelock" "admin" MINIMUM_DELAY test_init 1000 test_end test_tx _
    txHash_inj_spec H0 test_run Hin) as (tq & H1 & H2).
  exists test_end, tq. split; [exact Hin|]. split; [exact H1|exact H2].
Defined.

End Timelock.
