(* ===== verification/CompoundFixture.v ===== *)
(** * CompoundFixture

    [utils/fixtures/compoundFixture.ts]. The owner's signer is the signer of the
    owner's address. [TimelockNode] is a node with a clock, whose timelocks are
    the contract of [Timelock]. *)

From S2P Require Import Prelude JsString Ethers Constants UnitsUtils SafeMath Evm Traces DeployExternal Accounts PairFactories Timelock.
From Stdlib Require Import String.

Local Open Scope Z_scope.

Module CompoundFixture.

Record t := mk {
  _ownerAddress : Address;
  unitroller : Address;
  comp : Address;
  compoundTimelock : Address;
  compoundGovernorAlpha : Address;
  compoundGovernorBravoDelegate : option Address;
  compoundGovernorBravoDelegator : option Address;
  comptroller : Address;
  interestRateModel : Address;
  priceOracle : Address;
  priceOracleProxy : Address;
}.

Section CompoundFixture.
Context `{BN : BigNumber} `{EU : EthersUtils} `{ND : Node}
  (encodeFunctionData : string -> list jsv -> string).   (** of the contracts' ABIs *)

Definition initialize (owner : Address) : evm t :=
  priceOracle ← external.deployCompoundPriceOracleMock owner;
  priceOracleProxy ← external.deployPriceOracleProxy owner ADDRESS_ZERO priceOracle ADDRESS_ZERO
    ADDRESS_ZERO ADDRESS_ZERO ADDRESS_ZERO ADDRESS_ZERO;
  unitroller ← external.deployUnitroller owner;
  comptroller ← external.deployComptroller owner;
  _ ← send owner unitroller "_setPendingImplementation" [JStr comptroller];
  _ ← send owner comptroller "_become" [JStr unitroller; JNum ZERO; JArr []; JArr []];
  _ ← send owner comptroller "_setPriceOracle" [JStr priceOracle];
  _ ← send owner comptroller "_setMaxAssets" [JNum 10];
  v ← lift (ether (Literal "0.5"));
  _ ← send owner comptroller "_setCloseFactor" [JNum v];
  v ← lift (ether (Literal "1.08"));
  _ ← send owner comptroller "_setLiquidationIncentive" [JNum v];
  r ← lift (ether (Number 1)); m ← lift (ether (Number 1));
  interestRateModel ← external.deployWhitePaperInterestRateModel owner r m;
  comp ← external.deployComp owner owner;
  v ← lift (ether (Number 400000));
  _ ← send owner comp "transfer" [JStr comptroller; JNum v];
  compoundTimelock ← external.deployCompoundTimelock owner owner (bn_mul ONE_DAY_IN_SECONDS 2);
  compoundGovernorAlpha ← external.deployCompoundGovernorAlpha owner compoundTimelock comp owner;
  mret (mk owner unitroller comp compoundTimelock compoundGovernorAlpha None None comptroller
          interestRateModel priceOracle priceOracleProxy).

(** The proposal to hand the timelock to the new governor, executed at once. *)
Definition transferTimelock (owner timelock newAdmin : Address) : evm unit :=
  let setAdminData := encodeFunctionData "setPendingAdmin" [JStr newAdmin] in
  timestamp ← getLastBlockTimestamp;
  let eta := bn_add (bn_add timestamp (bn_mul ONE_DAY_IN_SECONDS 2)) 1 in
  let args := [JStr timelock; JNum 0; JStr ""; JStr setAdminData; JNum eta] in
  _ ← send owner timelock "queueTransaction" args;
  _ ← increaseTimeAsync (bn_add (bn_mul ONE_DAY_IN_SECONDS 2) 2);
  send owner timelock "executeTransaction" args.

Definition initializeGovernorBravo (this : t) : evm t :=
  let owner := _ownerAddress this in
  delegate ← external.deployCompoundGovernorBravoDelegate owner;
  threshold ← lift (ether (Number 100000));
  delegator ← external.deployCompoundGovernorBravoDelegator owner (compoundTimelock this) (comp this)
    owner delegate 10000 1 threshold;
  _ ← transferTimelock owner (compoundTimelock this) delegator;
  _ ← send owner (comp this) "delegate" [JStr owner];
  _ ← send owner (compoundGovernorAlpha this) "propose"
        [JStrs [ADDRESS_ZERO]; JNums [0]; JStrs [""%string]; JStrs [ZERO_BYTES]; JStr "dummy prop"];
  let initiateCallData := encodeFunctionData "_initiate" [JStr (compoundGovernorAlpha this)] in
  _ ← send owner delegator "fallback" [JStr initiateCallData];
  mret (mk owner (unitroller this) (comp this) (compoundTimelock this) (compoundGovernorAlpha this)
          (Some delegate) (Some delegator) (comptroller this) (interestRateModel this)
          (priceOracle this) (priceOracleProxy this)).

(** Lists a new token in the comptroller, with its price and collateral factor. *)
Definition enableCToken (this : t) (newCToken : Address) (collateralFactor currentPrice : Z) : evm unit :=
  let owner := _ownerAddress this in
  _ ← send owner (comptroller this) "_supportMarket" [JStr newCToken];
  _ ← send owner (priceOracle this) "setUnderlyingPrice" [JStr newCToken; JNum currentPrice];
  send owner (comptroller this) "_setCollateralFactor" [JStr newCToken; JNum collateralFactor].

Definition createAndEnableCToken (this : t) (underlying : Address) (initialExchangeRateMantissa : Z)
    (comptroller_ interestRateModel_ : option Address) (name symbol : option string) (decimals : option Z)
    (collateralFactor currentPrice : Z) : evm Address :=
  newCToken ← external.deployCeRc20 (_ownerAddress this) underlying
    (default (unitroller this) comptroller_) (default (interestRateModel this) interestRateModel_)
    initialExchangeRateMantissa (default "CToken"%string name) (default "CT"%string symbol)
    (default 8 decimals);
  _ ← enableCToken this newCToken collateralFactor currentPrice;
  mret newCToken.

Definition createAndEnableCEther (this : t) (initialExchangeRateMantissa : Z)
    (comptroller_ interestRateModel_ : option Address) (name symbol : option string) (decimals : option Z)
    (collateralFactor currentPrice : Z) : evm Address :=
  newCToken ← external.deployCEther (_ownerAddress this) (default (unitroller this) comptroller_)
    (default (interestRateModel this) interestRateModel_) initialExchangeRateMantissa
    (default "CEther"%string name) (default "CETH"%string symbol) (default 8 decimals);
  _ ← enableCToken this newCToken collateralFactor currentPrice;
  mret newCToken.

End CompoundFixture.
End CompoundFixture.

(** ** A node with a clock and timelocks *)

(** Whether an event is mined into a block: transactions are at once, other
    requests than [evm_mine] are not. *)
Definition mined (ev : event) : bool :=
  match ev with
  | Deployed _ _ _ _ _ => true
  | Sent from to m _ _ => negb (String.eqb from "" && String.eqb to "provider") || String.eqb m "evm_mine"
  end.

(** Events after which a timelock they are not sent to is as before: the
    constructors of the governor contracts and these methods do not call it, and
    neither does a request to the node. *)
Definition leaves_locks (ev : event) : bool :=
  match ev with
  | Deployed _ _ c _ _ =>
      bool_decide (c ∈ ["CompoundGovernorAlpha"; "CompoundGovernorBravoDelegate";
                        "CompoundGovernorBravoDelegator"]%string)
  | Sent from to m _ _ =>
      (String.eqb from "" && String.eqb to "provider") || bool_decide (m ∈ ["delegate"; "propose"]%string)
  end.

(** The call of [queueTransaction] or [executeTransaction] with a transaction. *)
Definition lock_args (x : Timelock.tx) : list jsv :=
  [JStr (Timelock.target x); JNum (Timelock.value x); JStr (Timelock.signature x);
   JStr (Timelock.data x); JNum (Timelock.eta x)].

Class TimelockNode (N : Node) := {
  create_not_provider s n : create s n <> "provider"%string;
  encodeFunctionData : string -> list jsv -> string;
  txHash : Timelock.tx -> string;
  selector : string -> string;
  (** the clock: the time of the latest block, and of the block of an event *)
  lastTime : history -> Z;
  minedAt : history -> event -> Z;
  view_latest h : view h "provider" "getBlock" [JStr "latest"] = Ok (JNum (lastTime h));
  minedAt_uint h ev : is_uint256 (minedAt h ev);
  minedAt_later h ev : lastTime h < 2 ^ 64 -> lastTime h < minedAt h ev;
  lastTime_mined h ev : mined ev = true -> lastTime (h ++ [ev]) = minedAt h ev;
  lastTime_waits h ev : mined ev = false -> lastTime (h ++ [ev]) = lastTime h;
  (** the timelocks: their state, and what a call they make does to them *)
  lock : Address -> history -> Timelock.state;
  lock_call : Address -> Address -> Z -> string -> Timelock.state -> result Timelock.state;
  lock_call_self tl p s :
    lock_call tl tl 0 (encodeFunctionData "setPendingAdmin" [JStr p]) s = Timelock.setPendingAdmin tl tl p s;
  lock_deployed h tl from admin delay :
    accepts h (Deployed tl from "CompoundTimelock" [] [JStr admin; JNum delay]) = Ok tt ->
    Timelock.constructor admin delay =
      Ok (lock tl (h ++ [Deployed tl from "CompoundTimelock" [] [JStr admin; JNum delay]]));
  lock_queue h from tl x : deployed_as "CompoundTimelock" tl h ->
    let ev := Sent from tl "queueTransaction" (lock_args x) 0 in
    accepts h ev = Ok tt ->
    Timelock.queueTransaction txHash from (minedAt h ev) x (lock tl h) = Ok (lock tl (h ++ [ev]));
  lock_execute h from tl x : deployed_as "CompoundTimelock" tl h ->
    let ev := Sent from tl "executeTransaction" (lock_args x) 0 in
    accepts h ev = Ok tt ->
    Timelock.executeTransaction txHash selector (lock_call tl) from (minedAt h ev) x (lock tl h) =
      Ok (lock tl (h ++ [ev]));
  lock_quiet h tl ev : leaves_locks ev = true -> target ev <> tl -> lock tl (h ++ [ev]) = lock tl h;
  (** The delegator of a timelock forwards the call to [_initiate], which ends by
      accepting the administration of the timelock. *)
  lock_initiate h tl d from deployer rest alpha :
    let ev := Sent from d "fallback" [JStr (encodeFunctionData "_initiate" [JStr alpha])] 0 in
    d <> "provider"%string -> Deployed d deployer "CompoundGovernorBravoDelegator" [] (JStr tl :: rest) ∈ h ->
    accepts h ev = Ok tt ->
    Timelock.acceptAdmin d (lock tl h) = Ok (lock tl (h ++ [ev]));
}.

(** ** Theorems *)

Section Bravo.
Context `{BN : BigNumber} `{EU : EthersUtils} `{ND : Node} {TN : TimelockNode ND}.
Import CompoundFixture.

(** The transaction that [transferTimelock] queues after the history [h]. *)
Definition transfer_tx (timelock newAdmin : Address) (h : history) : Timelock.tx :=
  Timelock.mkTx timelock 0 "" (encodeFunctionData "setPendingAdmin" [JStr newAdmin])
    (lastTime h + 2 * ONE_DAY_IN_SECONDS + 1).

Lemma transferTimelock_run owner tl d h u h' :
  transferTimelock encodeFunctionData owner tl d h = Ok (u, h') ->
  let args := lock_args (transfer_tx tl d h) in
  let h1 := h ++ [Sent owner tl "queueTransaction" args 0] in
  let h2 := (h1 ++ [Sent "" "provider" "evm_increaseTime" [JNum (2 * ONE_DAY_IN_SECONDS + 2)] 0])
              ++ [Sent "" "provider" "evm_mine" [] 0] in
  accepts h (Sent owner tl "queueTransaction" args 0) = Ok tt /\
  accepts h2 (Sent owner tl "executeTransaction" args 0) = Ok tt /\
  h' = h2 ++ [Sent owner tl "executeTransaction" args 0] /\ Z.abs (lastTime h) < 2 ^ 53 - 1.
Proof.
  intros E. unfold transferTimelock, getLastBlockTimestamp, read_Z in E.
  do 2 evm_step. repeat evm_step. subst. rewrite view_latest in *. simplify_eq.
  unfold increaseTimeAsync, mineBlockAsync, sendJSONRpcRequestAsync in E2. repeat evm_step. simplify_eq.
  match goal with H : bn_from_number _ = Ok _ |- _ =>
    destruct (from_number_spec (lastTime h)) as [Hf Hs]; rewrite H in Hf, Hs;
    specialize (Hs eq_refl); specialize (Hf Hs); simplify_eq end.
  autorewrite with bn in *. cbv zeta.
  replace (lock_args (transfer_tx tl d h)) with
    [JStr tl; JNum 0; JStr ""; JStr (encodeFunctionData "setPendingAdmin" [JStr d]);
     JNum (lastTime h + ONE_DAY_IN_SECONDS * 2 + 1)] by done.
  done.
Qed.

(** The timelock of the fixture belongs to the owner, with a delay of two days. *)
Lemma initialize_timelock owner h0 f h : initialize owner h0 = Ok (f, h) ->
  _ownerAddress f = owner /\ deployed_as "CompoundTimelock" (compoundTimelock f) h /\
  lock (compoundTimelock f) h = Timelock.mk owner ADDRESS_ZERO (2 * ONE_DAY_IN_SECONDS) ∅ /\
  exists i j k, compoundTimelock f = create owner i /\ comp f = create owner j /\
    compoundGovernorAlpha f = create owner k /\ (j < i < k)%nat /\ (k < nonce owner h)%nat.
Proof.
  intros E. pose proof (Ran_start owner h0) as R. unfold initialize in E.
  repeat (lazymatch goal with
          | R : Ran _ _ _ _ ?h, E : external.deployCompoundTimelock _ _ _ ?h = _ |- _ => fail
          | _ => trace_step end).
  match goal with R : Ran _ _ _ _ h13 |- _ => destruct R as [_ Hn] end.
  unfold external.deployCompoundTimelock in St6. apply deploy_Ok in St6 as (Ha & Hh & Hacc).
  autorewrite with bn in *. apply lock_deployed in Hacc. rewrite <- Hh in Hacc.
  apply evm_bind_Ok in E as (alpha & h15 & E1 & E). apply evm_ret_Ok in E as [-> ->].
  unfold external.deployCompoundGovernorAlpha in E1. apply deploy_Ok in E1 as (Hal & -> & _).
  assert (Hn14 : nonce owner h14 = S (nonce owner h13)) by (rewrite Hh; apply nonce_own; done).
  rewrite Hn in Ha. rewrite Hn14, Hn in Hal. cbn [_ownerAddress compoundTimelock comp compoundGovernorAlpha].
  split; [done|]. split; [|split].
  - rewrite Hh. exists owner, [], [JStr owner; JNum (ONE_DAY_IN_SECONDS * 2)]. set_solver.
  - rewrite lock_quiet; [by injection Hacc|done|]. cbn. rewrite Ha, Hal. apply create_neq. lia.
  - do 3 eexists. split; [exact Ha|]. split; [reflexivity|]. split; [exact Hal|].
    rewrite nonce_own, Hn14, Hn by done. lia.
Qed.

(** Handing the timelock over: the transaction is queued in the second that
    follows the latest block, and its execution makes [d] the pending admin. *)
Lemma transferTimelock_lock owner tl d h u h' s : deployed_as "CompoundTimelock" tl h -> tl <> "provider"%string ->
  lock tl h = s -> Timelock.delay s = 2 * ONE_DAY_IN_SECONDS ->
  transferTimelock encodeFunctionData owner tl d h = Ok (u, h') ->
  let q := Sent owner tl "queueTransaction" (lock_args (transfer_tx tl d h)) 0 in
  (exists evs, h' = h ++ q :: evs) /\ minedAt h q = lastTime h + 1 /\
  Timelock.admin (lock tl h') = Timelock.admin s /\ Timelock.pendingAdmin (lock tl h') = d /\
  Timelock.delay (lock tl h') = 2 * ONE_DAY_IN_SECONDS /\ owner = Timelock.admin s.
Proof.
  intros Hd Htl Hs Hdel E q. apply transferTimelock_run in E as (Hq & He & Hh & Hlast).
  fold q in Hq, He, Hh. cbv zeta in He, Hh.
  set (h1 := h ++ [q]) in *. set (h2 := (h1 ++ _) ++ _) in *.
  pose proof (lock_queue _ _ _ _ Hd Hq) as Lq. fold q h1 in Lq.
  assert (L2 : lock tl h2 = lock tl h1).
  { unfold h2. rewrite lock_quiet by (cbn; congruence). by rewrite lock_quiet by (cbn; congruence). }
  assert (Hd2 : deployed_as "CompoundTimelock" tl h2) by (by repeat apply deployed_as_app).
  pose proof (lock_execute _ _ _ _ Hd2 He) as Le. rewrite <- Hh, L2 in Le.
  pose proof (minedAt_later h q) as Hlater. pose proof (minedAt_uint h q) as Hu.
  unfold Timelock.queueTransaction in Lq. rewrite Hs in Lq. inv_result.
  rename select (Timelock.add _ _ = _) into Hadd. rename select ((_ <=? _) = true) into Hle.
  apply Timelock.add_Ok in Hadd as ->; [|done|rewrite Hdel; unfold ONE_DAY_IN_SECONDS; lia].
  apply Z.leb_le in Hle. rewrite Hdel in Hle.
  apply Timelock.executeTransaction_Ok in Le as (s1 & Lu & Lc).
  assert (Lp : lock_call tl tl 0 (encodeFunctionData "setPendingAdmin" [JStr d]) s1 = Ok (lock tl
    (h2 ++ [Sent owner tl "executeTransaction" (lock_args (transfer_tx tl d h)) 0]))) by exact Lc.
  clear Lc. rename Lp into Lc. rewrite lock_call_self in Lc.
  unfold Timelock.setPendingAdmin in Lc. unfold Timelock.unqueue in Lu. rewrite <- Lq in Lu.
  rename select (bool_decide (owner = _) = true) into Ho. apply bool_decide_eq_true in Ho. clear Lq L2.
  inv_result.
  rewrite <- Lc. cbn.
  split; [eexists; unfold h2, h1; by rewrite <- !app_assoc|].
  split; [lia|]. split; [done|]. split; [done|]. by split.
Qed.




(** C24: The Compound fixture with the Bravo governor: the timelock ends up
    administered by the new governor, with no pending admin and its delay
    unchanged. And this works only when the proposal to hand it over is queued in
    a block of exactly the second that follows the block before it. *)
Theorem bravo_takes_over owner h0 f h' :
  (this ← initialize owner; initializeGovernorBravo encodeFunctionData this) h0 = Ok (f, h') ->
  exists d, compoundGovernorBravoDelegator f = Some d /\
    let s := lock (compoundTimelock f) h' in
    Timelock.admin s = d /\ Timelock.pendingAdmin s = ADDRESS_ZERO /\
    Timelock.delay s = 2 * ONE_DAY_IN_SECONDS /\
    exists h1 x evs, let q := Sent owner (compoundTimelock f) "queueTransaction" (lock_args x) 0 in
      h' = h1 ++ q :: evs /\ Timelock.target x = compoundTimelock f /\ minedAt h1 q = lastTime h1 + 1.
Proof.
  intros E. apply evm_bind_Ok in E as (this & h & E0 & E).
  apply initialize_timelock in E0 as (Ho & Hd & HL & i & j & k & Hi & Hj & Hk & Hij & Hkn).
  unfold initializeGovernorBravo, external.deployCompoundGovernorBravoDelegate,
    external.deployCompoundGovernorBravoDelegator in E. rewrite Ho in E.
  set (tl := compoundTimelock this) in *.
  assert (Htl : tl <> "provider"%string) by (rewrite Hi; apply create_not_provider).
  apply evm_bind_Ok in E as (dg & h1 & E1 & E). apply deploy_Ok in E1 as (Hdg & Hh1 & _).
  apply evm_bind_Ok in E as (v & h1' & E1 & E). apply lift_Ok in E1 as [_ ->].
  apply evm_bind_Ok in E as (d & h2 & E1 & E). apply deploy_Ok in E1 as (Hdd & Hh2 & _).
  assert (Hn1 : nonce owner h1 = S (nonce owner h)) by (rewrite Hh1; apply nonce_own; done).
  assert (L2 : lock tl h2 = Timelock.mk owner ADDRESS_ZERO (2 * ONE_DAY_IN_SECONDS) ∅).
  { rewrite Hh2, lock_quiet, Hh1, lock_quiet; [done|done| |done|]; cbn;
      rewrite ?Hdg, ?Hdd, Hi; apply create_neq; lia. }
  assert (Hd2 : deployed_as "CompoundTimelock" tl h2) by (rewrite Hh2, Hh1; by do 2 apply deployed_as_app).
  apply evm_bind_Ok in E as ([] & h3 & E1 & E).
  eapply transferTimelock_lock in E1 as ([evs He] & Hq & HA & HP & HD & _); [|done|done|exact L2|done].
  assert (Hin : exists rest, Deployed d owner "CompoundGovernorBravoDelegator" [] (JStr tl :: rest) ∈ h3).
  { eexists. rewrite He, Hh2. apply elem_of_app. left. apply elem_of_app. right.
    by apply list_elem_of_singleton. }
  assert (Hdp : d <> "provider"%string) by (rewrite Hdd; apply create_not_provider).
  destruct Hin as [rest Hin]. clear Hh2 Hdd Hdg Hh1 Hn1 Hd2 Hd HL L2.
  apply evm_bind_Ok in E as (u1 & h4 & E1 & E). apply send_Ok in E1 as [Hh4 _].
  apply evm_bind_Ok in E as (u2 & h5 & E1 & E). apply send_Ok in E1 as [Hh5 _].
  apply evm_bind_Ok in E as (u3 & h6 & E1 & E). apply send_Ok in E1 as [Hh6 Ha].
  apply evm_ret_Ok in E as [-> ->]. cbn [compoundGovernorBravoDelegator compoundTimelock].
  exists d. split; [done|]. fold tl.
  assert (L5 : lock tl h5 = lock tl h3).
  { rewrite Hh5, lock_quiet, Hh4, lock_quiet; try done;
      try (apply orb_true_intro; by right); cbn; rewrite ?Hj, ?Hk, ?Hi; apply create_neq; lia. }
  eapply lock_initiate in Ha; [|exact Hdp|rewrite Hh5, Hh4; apply elem_of_app; left; apply elem_of_app; left; exact Hin].
  rewrite <- Hh6, L5 in Ha. unfold Timelock.acceptAdmin in Ha. apply bind_Ok_inv in Ha as (? & _ & Ha).
  injection Ha as <-. cbn. split; [done|]. split; [done|]. split; [done|].
  exists h2, (transfer_tx tl d h2). eexists. split; [|by split].
  rewrite Hh6, Hh5, Hh4, He, <- !app_assoc. reflexivity.
Qed.

End Bravo.

(** ** A node with a clock and timelocks, concretely *)

Section Instances.

Definition encode_ref (m : string) (args : list jsv) : string :=
  (m ++ ":" ++ match args with [JStr a] => a | _ => "" end)%string.

Definition txHash_ref (x : Timelock.tx) : string := (Timelock.data x ++ dec_of_Z (Timelock.eta x))%string.

(** The time of the latest block, and the seconds to add to the next one. *)
Definition clock_step (c : Z * Z) (ev : event) : Z * Z :=
  if mined ev then (Z.min (c.1 + 1 + Z.max 0 c.2) MAX_UINT_256, 0)
  else match ev with
       | Sent _ _ m [JNum d] _ => if String.eqb m "evm_increaseTime" then (c.1, c.2 + d) else c
       | _ => c
       end.

Definition clock (h : history) : Z * Z := foldl clock_step (1600000000, 0) h.
Definition lastTime_ref (h : history) : Z := (clock h).1.
Definition minedAt_ref (h : history) (ev : event) : Z :=
  Z.min ((clock h).1 + 1 + Z.max 0 (clock h).2) MAX_UINT_256.

Definition tx_of (args : list jsv) : option Timelock.tx :=
  match args with
  | [JStr t; JNum v; JStr s; JStr d; JNum e] => Some (Timelock.mkTx t v s d e)
  | _ => None
  end.

Definition lock_call_ref (tl target : Address) (value : Z) (data : string) (s : Timelock.state) :
    result Timelock.state :=
  if String.eqb target tl && String.prefix "setPendingAdmin:" data
  then Timelock.setPendingAdmin tl tl (slice 16 data) s else Ok s.

(** The timelocks of the delegators deployed at [d]. *)
Definition locks_of (d : Address) (h : history) : list Address :=
  omap (fun ev => match ev with
                  | Deployed a _ c _ (JStr tl :: _) =>
                      if String.eqb a d && String.eqb c "CompoundGovernorBravoDelegator"
                      then Some tl else None
                  | _ => None
                  end) h.

Definition lock_step (tl : Address) (pre : history) (s : Timelock.state) (ev : event) :
    result Timelock.state :=
  match ev with
  | Deployed a _ c _ args =>
      if String.eqb a tl && String.eqb c "CompoundTimelock" then
        match args with [JStr admin; JNum d] => Timelock.constructor admin d | _ => Throw "arguments" end
      else Ok s
  | Sent from to m args _ =>
      if String.eqb m "fallback" then
        match args with
        | [JStr data] => if negb (String.eqb to "provider") && String.prefix "_initiate:" data
                            && bool_decide (tl ∈ locks_of to pre)
                         then Timelock.acceptAdmin to s else Ok s
        | _ => Ok s
        end
      else if String.eqb to tl && String.eqb m "queueTransaction" then
        match tx_of args with
        | Some x => Timelock.queueTransaction txHash_ref from (minedAt_ref pre ev) x s
        | None => Throw "arguments"
        end
      else if String.eqb to tl && String.eqb m "executeTransaction" then
        match tx_of args with
        | Some x => Timelock.executeTransaction txHash_ref (fun m => m) (lock_call_ref tl) from
                      (minedAt_ref pre ev) x s
        | None => Throw "arguments"
        end
      else Ok s
  end.

Definition lock_ref (tl : Address) (h : history) : Timelock.state :=
  (foldl (fun '(pre, s) ev => (pre ++ [ev], match lock_step tl pre s ev with Ok s' => s' | Throw _ => s end))
     ([], Timelock.mk ADDRESS_ZERO ADDRESS_ZERO 0 ∅) h).2.

Definition lock_accepts (h : history) (ev : event) : result unit :=
  if forallb (fun tl => is_Ok (lock_step tl h (lock_ref tl h) ev)) (target ev :: locks_of (target ev) h)
  then Ok tt else Throw "revert".

Lemma lock_ref_snoc tl h ev : lock_ref tl (h ++ [ev]) =
  match lock_step tl h (lock_ref tl h) ev with Ok s' => s' | Throw _ => lock_ref tl h end.
Proof.
  unfold lock_ref. rewrite foldl_app. cbn [foldl].
  assert (Hpre : forall l p s, (foldl (fun '(pre, s) ev => (pre ++ [ev],
    match lock_step tl pre s ev with Ok s' => s' | Throw _ => s end)) (p, s) l).1 = p ++ l).
  { induction l as [|x l IH]; intros p s; cbn [foldl]; [by rewrite app_nil_r|].
    rewrite IH. by rewrite <- app_assoc. }
  specialize (Hpre h [] (Timelock.mk ADDRESS_ZERO ADDRESS_ZERO 0 ∅)).
  destruct (foldl _ _ h) as [pre s]. cbn in *. by subst.
Qed.

(** What the node accepts is a step of each timelock that is called. *)
Lemma lock_accepts_step tl h ev : lock_accepts h ev = Ok tt ->
  tl ∈ target ev :: locks_of (target ev) h ->
  lock_step tl h (lock_ref tl h) ev = Ok (lock_ref tl (h ++ [ev])).
Proof.
  unfold lock_accepts. destruct (forallb _ _) eqn:Q; [|done]. intros _ Hin.
  rewrite forallb_forall in Q. specialize (Q tl). rewrite lock_ref_snoc.
  destruct (lock_step tl h (lock_ref tl h) ev); [done|]. exfalso.
  enough (H : false = true) by done. apply Q. by apply list_elem_of_In.
Qed.

#[refine, local] Instance lock_node : Node := {|
  create := create_ref; accepts := lock_accepts;
  view := fun h _ _ _ => Ok (JNum (lastTime_ref h)); listAccounts := [] |}.
Proof. exact create_ref_inj. exact create_ref_lower_inj. done. Defined.

Lemma clock_snoc h ev : clock (h ++ [ev]) = clock_step (clock h) ev.
Proof. unfold clock. by rewrite foldl_app. Qed.

Lemma clock_nonneg h : 0 <= (clock h).1.
Proof.
  induction h as [|ev h IH] using rev_ind; [cbn; lia|]. rewrite clock_snoc. unfold clock_step, MAX_UINT_256.
  destruct (mined ev); [cbn; lia|].
  repeat (case_match; cbn; try lia).
Qed.

Lemma lock_step_initiate tl h s from d data v : d <> "provider"%string ->
  String.prefix "_initiate:" data = true -> tl ∈ locks_of d h ->
  lock_step tl h s (Sent from d "fallback" [JStr data] v) = Timelock.acceptAdmin d s.
Proof.
  intros Hd Hp Hin. cbn. rewrite Hp, bool_decide_eq_true_2 by done.
  apply String.eqb_neq in Hd. by rewrite Hd.
Qed.

Lemma lock_step_quiet tl h s ev : leaves_locks ev = true -> target ev <> tl -> lock_step tl h s ev = Ok s.
Proof.
  intros Hl Ht. destruct ev as [a f c l args|f to m args v]; cbn in *.
  - apply String.eqb_neq in Ht. by rewrite Ht.
  - apply String.eqb_neq in Ht. rewrite Ht. cbn [andb].
    destruct (String.eqb m "fallback") eqn:Qm; [|done]. apply String.eqb_eq in Qm as ->.
    apply orb_true_iff in Hl as [Hl|Hl]; [|by vm_compute in Hl].
    apply andb_true_iff in Hl as [_ ->]. cbn. by repeat case_match.
Qed.

#[refine, local] Instance lock_node_laws : TimelockNode lock_node := {|
  encodeFunctionData := encode_ref; txHash := txHash_ref; selector := fun m => m;
  lastTime := lastTime_ref; minedAt := minedAt_ref; lock := lock_ref; lock_call := lock_call_ref |}.
Proof.
  - done.
  - done.
  - intros h ev. pose proof (clock_nonneg h). unfold is_uint256, minedAt_ref, MAX_UINT_256.
    apply Is_true_true, andb_true_intro. split; [apply Z.leb_le|apply Z.ltb_lt]; lia.
  - intros h ev. pose proof (clock_nonneg h). unfold lastTime_ref, minedAt_ref, MAX_UINT_256. lia.
  - intros h ev Hm. unfold lastTime_ref. rewrite clock_snoc. unfold clock_step. by rewrite Hm.
  - intros h ev Hm. unfold lastTime_ref. rewrite clock_snoc. unfold clock_step. rewrite Hm.
    by repeat case_match.
  - intros tl p s. unfold lock_call_ref. rewrite String.eqb_refl. by destruct p.
  - intros h tl from admin delay Ha. eapply (lock_accepts_step tl) in Ha; [|by left].
    rewrite <- Ha. cbn. by rewrite String.eqb_refl.
  - intros h from tl x _ ev Ha. eapply (lock_accepts_step tl) in Ha; [|by left].
    rewrite <- Ha. cbn. rewrite String.eqb_refl. by destruct x.
  - intros h from tl x _ ev Ha. eapply (lock_accepts_step tl) in Ha; [|by left].
    rewrite <- Ha. cbn. rewrite String.eqb_refl. by destruct x.
  - intros h tl ev Hl Ht. rewrite lock_ref_snoc, lock_step_quiet by done. done.
  - intros h tl d from deployer rest alpha ev Hd Hin Ha.
    assert (Hl : tl ∈ locks_of d h).
    { unfold locks_of. apply list_elem_of_omap. eexists. split; [exact Hin|]. cbn. by rewrite String.eqb_refl. }
    eapply (lock_accepts_step tl) in Ha; [|right; exact Hl].
    rewrite <- Ha. unfold ev. rewrite lock_step_initiate; [done|done|by destruct alpha|done].
Defined.

Lemma bravo_runs : is_Ok ((this ← CompoundFixture.initialize "owner";
  CompoundFixture.initializeGovernorBravo encodeFunctionData this) []) = true.
Proof. vm_compute. reflexivity. Qed.

Lemma bravo_witness : exists f h' d, (this ← CompoundFixture.initialize "owner";
    CompoundFixture.initializeGovernorBravo encodeFunctionData this) [] = Ok (f, h') /\
  CompoundFixture.compoundGovernorBravoDelegator f = Some d /\
  Timelock.admin (lock (CompoundFixture.compoundTimelock f) h') = d.
Proof.
  destruct (is_Ok_true _ bravo_runs) as [[f h'] E].
  destruct (bravo_takes_over "owner" [] f h' E) as (d & Hd & HA & _).
  exists f, h', d. split; [exact E|]. split; [exact Hd|exact HA].
Defined.

End Instances.
