(* ===== verification/AaveV2Fixture.v ===== *)
(** * AaveV2Fixture

    [utils/fixtures/aaveV2Fixture.ts]. [owner] is the address of the owner's
    signer. The random addresses that the fixture draws are arguments. *)

From S2P Require Import Prelude JsString Ethers Constants UnitsUtils Evm Traces Dependencies DeployExternal.
From Stdlib Require Import Ascii String.

Local Open Scope Z_scope.

Module AaveV2Fixture.

Record ReserveTokens := mkReserveTokens {
  aToken : Address;
  stableDebtToken : Address;
  variableDebtToken : Address;
}.

(** The market: the fields set before the reserves are created. *)
Record market := mkMarket {
  genericLogicLibraryAddress : Address;
  reserveLogicAddress : Address;
  validationLogicAddress : Address;
  marketId : string;
  lendingPool : Address;
  protocolDataProvider : Address;
  lendingPoolConfigurator : Address;
  lendingPoolCollateralManager : Address;
  lendingPoolAddressesProvider : Address;
  reserveInterestRateStrategy : Address;
  priceOracle : Address;
  fallbackOracle : Address;
  lendingRateOracle : Address;
  treasuryAddress : Address;
}.

Record governance := mkGovernance {
  executor : Address;
  aaveToken : Address;
  stkAaveToken : Address;
  governanceStrategy : Address;
  aaveGovernanceV2 : Address;
  new_incentivesController : Address;
}.

Record t := mk {
  _market : market;
  incentivesControllerAddress : Address;
  wethReserveTokens : ReserveTokens;
  daiReserveTokens : ReserveTokens;
  _governance : governance;
}.

Section AaveV2Fixture.
Context `{BN : BigNumber} `{EU : EthersUtils} `{ND : Node}.

(** The struct passed to [batchInitReserve], field by field. *)
Definition reserve_input (aToken stableDebtToken variableDebtToken : Address)
    (underlyingAssetDecimals : Z) (interestRateStrategyAddress underlyingAsset treasury
    incentivesController : Address) (symbol : string) : jsv :=
  JArr [JStr aToken; JStr stableDebtToken; JStr variableDebtToken; JNum underlyingAssetDecimals;
        JStr interestRateStrategyAddress; JStr underlyingAsset; JStr treasury;
        JStr incentivesController; JStr symbol;
        JStr ("Aave interest bearing " ++ symbol); JStr ("a" ++ symbol);
        JStr ("Aave variable debt bearing " ++ symbol); JStr ("variableDebt" ++ symbol);
        JStr ("Aave stable debt bearing " ++ symbol); JStr ("stableDebt" ++ symbol); JStr "0x"].

Definition createAndEnableReserve (owner : Address) (m : market) (incentives : Address)
    (underlyingAsset : Address) (underlyingAssetSymbol : string)
    (underlyingAssetDecimals baseLTV liquidationThreshold liquidationBonus reserveFactor : Z)
    (borrowingEnabled stableBorrowingEnabled : bool)
    (treasury_ incentives_ strategy_ : option Address) : evm ReserveTokens :=
  aToken ← external.deployAaveV2AToken owner;
  stableDebtToken ← external.deployAaveV2StableDebtToken owner;
  variableDebtToken ← external.deployAaveV2VariableDebtToken owner;
  let configurator := lendingPoolConfigurator m in
  _ ← send owner configurator "batchInitReserve"
        [JArr [reserve_input aToken stableDebtToken variableDebtToken underlyingAssetDecimals
                 (default (reserveInterestRateStrategy m) strategy_) underlyingAsset
                 (default (treasuryAddress m) treasury_) (default incentives incentives_)
                 underlyingAssetSymbol]];
  _ ← send owner configurator "configureReserveAsCollateral"
        [JStr underlyingAsset; JNum baseLTV; JNum liquidationThreshold; JNum liquidationBonus];
  _ ← (if borrowingEnabled
       then send owner configurator "enableBorrowingOnReserve"
              [JStr underlyingAsset; JBool stableBorrowingEnabled]
       else mret tt);
  _ ← send owner configurator "setReserveFactor" [JStr underlyingAsset; JNum reserveFactor];
  proxies ← read (protocolDataProvider m) "getReserveTokensAddresses" [JStr underlyingAsset];
  match proxies with
  | JArr [JStr a; JStr s; JStr v] => mret (mkReserveTokens a s v)
  | _ => lift (Throw "unexpected result type")
  end.

Definition setAssetPriceInOracle (owner : Address) (m : market) (asset : Address) (priceInEth : Z) : evm unit :=
  send owner (fallbackOracle m) "setAssetPrice" [JStr asset; JNum priceInEth].

Definition setMarketBorrowRate (owner : Address) (m : market) (asset : Address) (rate : Z) : evm unit :=
  send owner (lendingRateOracle m) "setMarketBorrowRate" [JStr asset; JNum rate].

Definition getForkedAaveLendingPoolAddressesProvider : evm Address :=
  a ← lift (dependency "AAVE_LENDING_POOL_ADDRESSES_PROVIDER" 1);
  external.getForkedAaveLendingPoolAddressesProvider a.

Definition getForkedAaveV2ProtocolDataProvider : evm Address :=
  a ← lift (dependency "AAVE_PROTOCOL_DATA_PROVIDER" 1);
  external.getForkedAaveV2ProtocolDataProvider a.

(** The two transfers are not awaited; the first controller is not kept. *)
Definition initializeGovernance (owner random1 random2 : Address) : evm governance :=
  quorum ← lift (ether (Number 100));
  executor ← external.deployExecutor owner owner 0 0 0 MAX_UINT_256 50 100 50 quorum;
  aaveToken ← external.deployAaveTokenV2Mintable owner;
  v ← lift (ether (Number 100000));
  _ ← send owner aaveToken "mint" [JStr owner; JNum v];
  stkAaveToken ← external.deployAaveTokenV2Mintable owner;
  v ← lift (ether (Number 100000));
  _ ← send owner stkAaveToken "mint" [JStr owner; JNum v];
  governanceStrategy ← external.deployGovernanceStrategy owner aaveToken stkAaveToken;
  aaveGovernanceV2 ← external.deployAaveGovernanceV2 owner governanceStrategy 0 owner [executor];
  _ ← send_detached owner aaveToken "transfer" [JStr random1; JNum 100];
  _ ← send_detached owner stkAaveToken "transfer" [JStr random2; JNum 100];
  _ ← external.deployAaveV2StakedTokenIncentivesController owner stkAaveToken executor;
  controller ← external.deployAaveV2StakedTokenIncentivesController owner stkAaveToken executor;
  mret (mkGovernance executor aaveToken stkAaveToken governanceStrategy aaveGovernanceV2 controller).

(** Libraries, contracts and oracles. *)
Definition deployMarket (owner weth : Address) (marketId : string) (treasury : Address) : evm market :=
  genericLogic ← external.deployGeneralLogic owner;
  reserveLogic ← external.deployReserveLogic owner;
  validationLogic ← external.deployValidationLogic owner genericLogic;
  configurator ← external.deployAaveV2LendingPoolConfigurator owner;
  collateralManager ← external.deployAaveV2LendingPoolCollateralManager owner;
  lendingPool ← external.deployAaveV2LendingPool owner validationLogic reserveLogic;
  provider ← external.deployAaveV2LendingPoolAddressesProvider owner marketId;
  dataProvider ← external.deployAaveV2ProtocolDataProvider owner provider;
  strategy ← external.deployAaveV2DefaultReserveInterestRateStrategy owner provider
               None None None None None None;
  lendingRateOracle ← external.deployAaveV2LendingRateOracle owner;
  fallbackOracle ← external.deployAaveV2PriceOracle owner;
  priceOracle ← external.deployAaveV2Oracle owner [] [] fallbackOracle weth;
  _ ← send owner provider "setPriceOracle" [JStr priceOracle];
  _ ← send owner provider "setLendingRateOracle" [JStr lendingRateOracle];
  _ ← send owner provider "setPoolAdmin" [JStr owner];
  _ ← send owner provider "setLendingPoolCollateralManager" [JStr collateralManager];
  _ ← send owner provider "setAddress"
        [JStr ("0x01" ++ repeat_char 62 "0"%char); JStr dataProvider];
  _ ← send owner provider "setLendingPoolImpl" [JStr lendingPool];
  proxyPool ← read_string provider "getLendingPool" [];
  lendingPool ← attach proxyPool;
  _ ← send owner provider "setLendingPoolConfiguratorImpl" [JStr configurator];
  proxyConfigurator ← read_string provider "getLendingPoolConfigurator" [];
  configurator ← attach proxyConfigurator;
  mret (mkMarket genericLogic reserveLogic validationLogic marketId lendingPool dataProvider configurator
          collateralManager provider strategy priceOracle fallbackOracle lendingRateOracle treasury).

Definition initialize (owner treasury random1 random2 weth dai : Address) (marketId : option string)
    (daiPriceInEth : option Z) : evm t :=
  daiPriceInEth ← or_default daiPriceInEth (ether (Literal "0.001"));
  m ← deployMarket owner weth (default "Commons"%string marketId) treasury;
  let incentives := ADDRESS_ZERO in
  _ ← setAssetPriceInOracle owner m dai daiPriceInEth;
  oneRay ← lift (bn_pow 10 27);
  wethRate ← lift (bn_div (bn_mul oneRay 3) 100);
  _ ← setMarketBorrowRate owner m weth wethRate;
  daiRate ← lift (bn_div (bn_mul oneRay 39) 1000);
  _ ← setMarketBorrowRate owner m dai daiRate;
  wethReserveTokens ← createAndEnableReserve owner m incentives weth "WETH" 18 8000 8250 10500 1000
                        true true None None None;
  daiReserveTokens ← createAndEnableReserve owner m incentives dai "DAI" 18 7500 8000 10500 1000
                       true true None None None;
  g ← initializeGovernance owner random1 random2;
  mret (mk m (new_incentivesController g) wethReserveTokens daiReserveTokens g).

End AaveV2Fixture.
End AaveV2Fixture.

(** ** Theorems *)

Section Reserves.
Context `{BN : BigNumber} `{EU : EthersUtils} `{ND : Node}.
Import AaveV2Fixture.

(** The transactions that create a reserve in the market [m]: its tokens, then
    the calls of its configuration. *)
Definition reserve_events (owner : Address) (m : market) (incentives : Address) (n : nat)
    (asset : Address) (symbol : string) (decimals ltv threshold bonus factor : Z) : list event :=
  let a := create owner n in let s := create owner (S n) in let v := create owner (S (S n)) in
  let c := lendingPoolConfigurator m in
  [Deployed a owner "AaveV2AToken" [] []; Deployed s owner "AaveV2StableDebtToken" [] [];
   Deployed v owner "AaveV2VariableDebtToken" [] [];
   Sent owner c "batchInitReserve"
     [JArr [reserve_input a s v decimals (reserveInterestRateStrategy m) asset (treasuryAddress m)
              incentives symbol]] 0;
   Sent owner c "configureReserveAsCollateral" [JStr asset; JNum ltv; JNum threshold; JNum bonus] 0;
   Sent owner c "enableBorrowingOnReserve" [JStr asset; JBool true] 0;
   Sent owner c "setReserveFactor" [JStr asset; JNum factor] 0].

Lemma createAndEnableReserve_run owner h0 evs n h m inc asset sym d ltv thr bonus f r h' :
  Ran owner h0 evs n h ->
  createAndEnableReserve owner m inc asset sym d ltv thr bonus f true true None None None h = Ok (r, h') ->
  Ran owner h0 (evs ++ reserve_events owner m inc n asset sym d ltv thr bonus f) (7 + n) h' /\
  view h' (protocolDataProvider m) "getReserveTokensAddresses" [JStr asset] =
    Ok (JArr [JStr (aToken r); JStr (stableDebtToken r); JStr (variableDebtToken r)]).
Proof.
  intros R E. unfold createAndEnableReserve in E. repeat trace_step.
  repeat (case_match; try done; []). simplify_eq. apply evm_ret_Ok in E as [-> ->]. split; [|done].
  unfold reserve_events. rewrite <- !app_assoc in *. done.
Qed.

(** [setLendingPoolImpl] and its sister deploy proxies: the market has the
    addresses of those, read from the provider after the call. *)
Lemma deployMarket_run owner h0 evs n h weth mid tr m h' : Ran owner h0 evs n h ->
  deployMarket owner weth mid tr h = Ok (m, h') ->
  exists evs' n' h1 h2 impl1 impl2, Ran owner h0 (evs ++ evs') n' h' /\ treasuryAddress m = tr /\
    let p := lendingPoolAddressesProvider m in
    view (h1 ++ [Sent owner p "setLendingPoolImpl" [JStr impl1] 0]) p "getLendingPool" [] =
      Ok (JStr (lendingPool m)) /\
    view (h2 ++ [Sent owner p "setLendingPoolConfiguratorImpl" [JStr impl2] 0]) p
      "getLendingPoolConfigurator" [] = Ok (JStr (lendingPoolConfigurator m)).
Proof.
  intros R E. unfold deployMarket, read_string in E.
  repeat trace_step. unfold attach in *. repeat trace_step.
  repeat match goal with
         | H : match ?v with _ => _ end = Ok _ |- _ => destruct v; try done; []
         end. simplify_eq.
  match goal with R : Ran _ _ _ _ _ |- _ => rewrite <- !app_assoc in R; rename R into R' end.
  do 6 eexists. split; [exact R'|]. split; [done|].
  repeat match goal with
         | St : send_value _ _ "setLendingPoolImpl" _ _ _ = _ |- _ => apply send_Ok in St as [-> _]
         | St : send_value _ _ "setLendingPoolConfiguratorImpl" _ _ _ = _ |- _ => apply send_Ok in St as [-> _]
         end.
  cbn. split; [exact V|exact V0].
Qed.

(** The governance deploys the incentives controller twice, with the same
    arguments, and keeps the second. *)
Definition controller_at (owner : Address) (k : nat) (g : governance) : event :=
  Deployed (create owner k) owner "AaveV2StakedTokenIncentivesController" []
    [JStr (stkAaveToken g); JStr (executor g)].

Lemma initializeGovernance_run owner r1 r2 h0 evs n h g h' : Ran owner h0 evs n h ->
  initializeGovernance owner r1 r2 h = Ok (g, h') ->
  exists evs' k, Ran owner h0 (evs ++ evs') (S (S k)) h' /\
    controller_at owner k g ∈ evs' /\ controller_at owner (S k) g ∈ evs' /\
    new_incentivesController g = create owner (S k).
Proof.
  intros R E. unfold initializeGovernance in E. repeat trace_step.
  match goal with R : Ran _ _ _ _ _ |- _ => rewrite <- !app_assoc in R; rename R into R' end.
  eexists _, _. split; [exact R'|]. unfold controller_at. cbn [stkAaveToken executor new_incentivesController].
  split; [|split; [|done]]; rewrite !elem_of_app, !list_elem_of_singleton; tauto.
Qed.

Lemma Ran_suffix owner h0 evs n h : Ran owner h0 evs n h -> h = h0 ++ evs.
Proof. by intros [-> _]. Qed.

(** C27: The Aave fixture. The market is configured through the proxies that its
    addresses provider creates. Both reserves are created from fresh tokens and
    configured in order, after the price and the market rates of 3% and 3.9% are
    set; their reserve tokens are those the data provider reports. The incentives
    controller is zero when the reserves are created: the one that the fixture
    has at the end is deployed after them, twice. *)
Theorem aave_reserves owner tr r1 r2 weth dai mid price h fx h' :
  initialize owner tr r1 r2 weth dai mid price h = Ok (fx, h') ->
  let m := _market fx in let p := lendingPoolAddressesProvider m in
  (exists h1 h2 impl1 impl2,
    view (h1 ++ [Sent owner p "setLendingPoolImpl" [JStr impl1] 0]) p "getLendingPool" [] =
      Ok (JStr (lendingPool m)) /\
    view (h2 ++ [Sent owner p "setLendingPoolConfiguratorImpl" [JStr impl2] 0]) p
      "getLendingPoolConfigurator" [] = Ok (JStr (lendingPoolConfigurator m))) /\
  (exists e1 n evs k pr, h' = h ++ e1 ++
     reserve_events owner m ADDRESS_ZERO n weth "WETH" 18 8000 8250 10500 1000 ++
     reserve_events owner m ADDRESS_ZERO (7 + n) dai "DAI" 18 7500 8000 10500 1000 ++ evs /\
     match price with Some x => Ok x | None => ether (Literal "0.001") end = Ok pr /\
     Sent owner (fallbackOracle m) "setAssetPrice" [JStr dai; JNum pr] 0 ∈ e1 /\
     Sent owner (lendingRateOracle m) "setMarketBorrowRate" [JStr weth; JNum (3 * 10 ^ 25)] 0 ∈ e1 /\
     Sent owner (lendingRateOracle m) "setMarketBorrowRate" [JStr dai; JNum (39 * 10 ^ 24)] 0 ∈ e1 /\
     incentivesControllerAddress fx = create owner (S k) /\
     controller_at owner k (_governance fx) ∈ evs /\ controller_at owner (S k) (_governance fx) ∈ evs) /\
  (exists h3 h4,
    view h3 (protocolDataProvider m) "getReserveTokensAddresses" [JStr weth] =
      Ok (JArr [JStr (aToken (wethReserveTokens fx)); JStr (stableDebtToken (wethReserveTokens fx));
                JStr (variableDebtToken (wethReserveTokens fx))]) /\
    view h4 (protocolDataProvider m) "getReserveTokensAddresses" [JStr dai] =
      Ok (JArr [JStr (aToken (daiReserveTokens fx)); JStr (stableDebtToken (daiReserveTokens fx));
                JStr (variableDebtToken (daiReserveTokens fx))])).
Proof.
  intros E. pose proof (Ran_start owner h) as R. unfold initialize in E.
  trace_step. trace_step. apply evm_bind_Ok in E as (m & h1 & E1 & E).
  apply (deployMarket_run _ _ _ _ _ _ _ _ _ _ R) in E1 as (evs1 & n1 & hv1 & hv2 & i1 & i2 & R1 & _ & Hv1 & Hv2).
  clear R. autorewrite with bn in E.
  apply evm_bind_Ok in E as (u1 & h2 & E1 & E). unfold setAssetPriceInOracle in E1.
  apply (send_ran _ _ _ _ _ _ _ _ _ _ _ R1) in E1 as R2. clear R1 E1.
  apply evm_bind_Ok in E as (ray & h2' & E1 & E). apply lift_Ok in E1 as [Hray ->].
  rewrite bn_pow_law in Hray by lia. apply Ok_inj in Hray as <-.
  autorewrite with bn in E. rewrite !bn_div_law in E by lia.
  apply evm_bind_Ok in E as (rate & h3' & E1 & E). apply lift_Ok in E1 as [Q ->]. apply Ok_inj in Q.
  apply evm_bind_Ok in E as (u2 & h3 & E1 & E). unfold setMarketBorrowRate in E1.
  apply (send_ran _ _ _ _ _ _ _ _ _ _ _ R2) in E1 as R3. clear R2 E1.
  apply evm_bind_Ok in E as (rate' & h4' & E1 & E). apply lift_Ok in E1 as [Q' ->]. apply Ok_inj in Q'.
  apply evm_bind_Ok in E as (u3 & h4 & E1 & E). unfold setMarketBorrowRate in E1.
  apply (send_ran _ _ _ _ _ _ _ _ _ _ _ R3) in E1 as R4. clear R3 E1.
  match type of R4 with Ran _ _ ?l _ _ => set (e1 := l) in R4 end.
  assert (He1 : Sent owner (fallbackOracle m) "setAssetPrice" [JStr dai; JNum a] 0 ∈ e1 /\
    Sent owner (lendingRateOracle m) "setMarketBorrowRate" [JStr weth; JNum rate] 0 ∈ e1 /\
    Sent owner (lendingRateOracle m) "setMarketBorrowRate" [JStr dai; JNum rate'] 0 ∈ e1).
  { unfold e1. rewrite !elem_of_app, !list_elem_of_singleton. tauto. }
  clearbody e1.
  apply evm_bind_Ok in E as (wr & h5 & E1 & E).
  apply (createAndEnableReserve_run _ _ _ _ _ _ _ _ _ _ _ _ _ _ _ _ R4) in E1 as [R5 Vw]. clear R4.
  apply evm_bind_Ok in E as (dr & h6 & E1 & E).
  apply (createAndEnableReserve_run _ _ _ _ _ _ _ _ _ _ _ _ _ _ _ _ R5) in E1 as [R6 Vd]. clear R5.
  apply evm_bind_Ok in E as (g & h7 & E1 & E).
  apply (initializeGovernance_run _ _ _ _ _ _ _ _ _ R6) in E1 as (evs & k & R7 & C1 & C2 & HK). clear R6.
  apply evm_ret_Ok in E as [-> ->]. cbn [_market incentivesControllerAddress wethReserveTokens
    daiReserveTokens _governance]. cbv zeta.
  split; [exists hv1, hv2, i1, i2; split; [exact Hv1|exact Hv2]|].
  split; [|exists h5, h6; split; [exact Vw|exact Vd]].
  exists e1, (1 + (1 + (1 + n1)))%nat, evs, k, a.
  split; [apply Ran_suffix in R7; rewrite R7, <- !app_assoc; reflexivity|].
  split; [eassumption|]. change (3 * 10 ^ 25) with (10 ^ 27 * 3 ÷ 100).
  change (39 * 10 ^ 24) with (10 ^ 27 * 39 ÷ 1000). rewrite Q, Q'.
  destruct He1 as (P1 & P2 & P3). split; [exact P1|]. split; [exact P2|]. split; [exact P3|].
  split; [exact HK|]. split; [exact C1|exact C2].
Qed.

End Reserves.

(** ** An instance *)

Section Instances.
Import AaveV2Fixture.

Definition aave_view (h : history) (a : Address) (method : string) (args : list jsv) : result jsv :=
  if String.eqb method "getLendingPool" then Ok (JStr "pool proxy")
  else if String.eqb method "getLendingPoolConfigurator" then Ok (JStr "configurator proxy")
  else if String.eqb method "getReserveTokensAddresses" then
    Ok (JArr [JStr "aToken"; JStr "stableDebtToken"; JStr "variableDebtToken"])
  else Throw "function selector was not recognized".

#[local] Instance aave_node : Node := accepting_node aave_view [].

Lemma aave_runs :
  is_Ok (initialize "owner" "treasury" "a" "b" "weth" "dai" None (Some (10 ^ 15)) []) = true.
Proof. vm_compute. reflexivity. Qed.

Lemma aave_witness : exists fx h' e1 n evs,
  initialize "owner" "treasury" "a" "b" "weth" "dai" None (Some (10 ^ 15)) [] = Ok (fx, h') /\
  h' = [] ++ e1 ++
    reserve_events "owner" (_market fx) ADDRESS_ZERO n "weth" "WETH" 18 8000 8250 10500 1000 ++
    reserve_events "owner" (_market fx) ADDRESS_ZERO (7 + n) "dai" "DAI" 18 7500 8000 10500 1000 ++ evs.
Proof.
  destruct (is_Ok_true _ aave_runs) as [[fx h'] E].
  destruct (aave_reserves "owner" "treasury" "a" "b" "weth" "dai" None (Some (10 ^ 15)) [] fx h' E)
    as (_ & (e1 & n & evs & k & pr & Hh & _) & _).
  exists fx, h', e1, n, evs. split; [exact E|exact Hh].
Defined.

End Instances.
