(* ===== verification/UniswapV3Fixture.v ===== *)
(** * UniswapV3Fixture

    [utils/fixtures/uniswapV3Fixture.ts]. Prices are JavaScript numbers, that is
    IEEE 754 doubles: they are computed with the executable doubles of the
    Standard Library. [10 ** n] and the exponent notation of huge numbers are
    implementation-defined or unused in detail, and are parameters. A [Token] is
    its address. *)

From S2P Require Import Prelude JsString Ethers Constants UnitsUtils Evm DeployExternal.
From Stdlib Require Import Ascii String SpecFloat.

Local Open Scope Z_scope.

(** ** JavaScript numbers *)

Definition double : Type := spec_float.

Definition js_mul : double -> double -> double := SFmul 53 1024.
Definition js_div : double -> double -> double := SFdiv 53 1024.
Definition js_sqrt : double -> double := SFsqrt 53 1024.
Definition of_int (z : Z) : double := binary_normalize 53 1024 z 0 false.

Class JsMath := {
  pow10 : Z -> double;                    (** [10 ** n] *)
  exponent_string : double -> string;     (** [toString()] from 10^21 on *)
}.

(** The largest integer below [m * 2^e]. *)
Definition floor_value (sign : bool) (m : positive) (e : Z) : Z :=
  let z := if sign then Z.neg m else Z.pos m in
  if 0 <=? e then z * 2 ^ e else z / 2 ^ (- e).

Definition js_floor (x : double) : double :=
  match x with S754_finite s m e => of_int (floor_value s m e) | _ => x end.

Definition js_ceil (x : double) : double :=
  match x with S754_finite s m e => of_int (- floor_value (negb s) m e) | _ => x end.

(** [BigNumber.from] of a number: an integer below 2^53. *)
Definition int_of (x : double) : result Z :=
  match x with
  | S754_zero _ => Ok 0
  | S754_finite s m e =>
      let z := floor_value s m e in
      if (z =? - floor_value (negb s) m e) && (Z.abs z <? 2 ^ 53 - 1) then Ok z else Throw "underflow"
  | _ => Throw "overflow"
  end.

(** The integer nearest to [m * 2^e * 10^18], the larger one on a tie. *)
Definition nearest18 (m : positive) (e : Z) : Z :=
  if 0 <=? e then Z.pos m * 2 ^ e * 10 ^ 18
  else (2 * (Z.pos m * 10 ^ 18) + 2 ^ (- e)) / (2 * 2 ^ (- e)).

Definition fixed18 (n : Z) : string :=
  (dec_of_Z (n / 10 ^ 18) ++ "." ++ padStart 18 "0" (dec_of_Z (n mod 10 ^ 18)))%string.

(** Whether [m * 2^e >= 10^21]. *)
Definition is_huge (m : positive) (e : Z) : bool := 10 ^ 21 <=? floor_value false m e.

(** [x.toFixed(18)]. *)
Definition toFixed18 `{JsMath} (x : double) : string :=
  match x with
  | S754_nan => "NaN"
  | S754_infinity s => if s then "-Infinity" else "Infinity"
  | S754_zero _ => fixed18 0
  | S754_finite s m e =>
      if is_huge m e then exponent_string x
      else ((if s then "-" else "") ++ fixed18 (nearest18 m e))%string
  end.

(** ** UniswapV3Fixture *)

Module UniswapV3Fixture.

Record t := mk {
  _ownerSigner : Address;
  factory : Address;
  swapRouter : Address;
  nftPositionManager : Address;
  nftDescriptor : Address;
  quoter : Address;
  wethDaiPool : Address;
  wethWbtcPool : Address;
}.

(** [tickLower] and [tickUpper] of the widest range at a fee. *)
Definition wide_ticks (_fee : Z) : double * double :=
  let tickSpacing := js_div (of_int _fee) (of_int 50) in
  let maxTick := 887272 in
  let maxValidTick := js_mul (js_floor (js_div (of_int maxTick) tickSpacing)) tickSpacing in
  let minValidTick := js_mul (js_ceil (js_div (of_int (- maxTick)) tickSpacing)) tickSpacing in
  (minValidTick, maxValidTick).

Definition getTokenOrder (_token0 _token1 : Address) : Address * Address :=
  if str_lt (toLowerCase _token0) (toLowerCase _token1) then (_token0, _token1) else (_token1, _token0).

Section UniswapV3Fixture.
Context `{BN : BigNumber} `{EU : EthersUtils} `{ND : Node} `{JM : JsMath}.

Definition _getSqrtPriceX96 (_ratio : double) : result Z :=
  x ← parseEther (toFixed18 (js_sqrt _ratio));
  p ← bn_pow 2 96;
  e ← ether (Number 1);
  bn_div (bn_mul x p) e.

Definition getPool (factory _token0 _token1 : Address) (_fee : Z) : evm Address :=
  let '(token0Ordered, token1Ordered) := getTokenOrder _token0 _token1 in
  poolAddress ← read_string factory "getPool" [JStr token0Ordered; JStr token1Ordered; JNum _fee];
  attach poolAddress.

Definition createNewPair (signer factory nftPositionManager _token0 _token1 : Address) (_fee : Z)
    (_ratio : double) : evm Address :=
  decimals1 ← read_Z _token1 "decimals" [];
  decimals0 ← read_Z _token0 "decimals" [];
  let ratio := js_mul _ratio (pow10 (decimals1 - decimals0)) in
  let ratio := if str_lt (toLowerCase _token1) (toLowerCase _token0) then js_div (of_int 1) ratio else ratio in
  let '(token0Ordered, token1Ordered) := getTokenOrder _token0 _token1 in
  sqrtPrice ← lift (_getSqrtPriceX96 ratio);
  _ ← send signer nftPositionManager "createAndInitializePoolIfNecessary"
        [JStr token0Ordered; JStr token1Ordered; JNum _fee; JNum sqrtPrice];
  getPool factory _token0 _token1 _fee.

Definition addLiquidityWide (signer nftPositionManager _token0 _token1 : Address) (_fee : Z)
    (_amount0 _amount1 : Z) (_recipient : Address) : evm unit :=
  let swapped := str_lt (toLowerCase _token1) (toLowerCase _token0) in
  let '(amount0Ordered, amount1Ordered) := if swapped then (_amount1, _amount0) else (_amount0, _amount1) in
  let '(token0Ordered, token1Ordered) := if swapped then (_token1, _token0) else (_token0, _token1) in
  let '(minValidTick, maxValidTick) := wide_ticks _fee in
  tickLower ← lift (int_of minValidTick);
  tickUpper ← lift (int_of maxValidTick);
  send signer nftPositionManager "mint"
    [JArr [JNum _fee; JStr token0Ordered; JStr token1Ordered; JNum tickLower; JNum tickUpper;
           JNum amount0Ordered; JNum amount1Ordered; JNum 0; JNum 0; JNum MAX_UINT_256; JStr _recipient]].

(** [signer] signs for the owner's address. *)
Definition initialize (signer _weth : Address) (_wethPrice : double) (_wbtc : Address)
    (_wbtcPrice : double) (_dai : Address) : evm t :=
  factory ← external.deployUniswapV3Factory signer;
  swapRouter ← external.deploySwapRouter signer factory _weth;
  nftDescriptor ← external.deployNFTDescriptor signer;
  nftPositionManager ← external.deployNftPositionManager signer factory _weth nftDescriptor;
  quoter ← external.deployQuoter signer factory _weth;
  wethDaiPool ← createNewPair signer factory nftPositionManager _weth _dai 3000 _wethPrice;
  wethWbtcPool ← createNewPair signer factory nftPositionManager _weth _wbtc 3000 (js_div _wethPrice _wbtcPrice);
  mret (mk signer factory swapRouter nftPositionManager nftDescriptor quoter wethDaiPool wethWbtcPool).

End UniswapV3Fixture.
End UniswapV3Fixture.

Import UniswapV3Fixture.

(** ** Theorems *)

Section Theorems.
Context `{BN : BigNumber} `{EU : EthersUtils} `{ND : Node} `{JM : JsMath}.

Lemma nearest18_nonneg m e : 0 <= nearest18 m e.
Proof.
  unfold nearest18. destruct (Z.leb_spec 0 e).
  - pose proof (Z.pow_nonneg 2 e). nia.
  - pose proof (Z.pow_pos_nonneg 2 (- e)). apply Z.div_pos; lia.
Qed.

(** [nearest18] rounds to nearest, ties upwards. *)
Lemma nearest18_spec m e :
  let n := nearest18 m e in
  if 0 <=? e then n = Z.pos m * 2 ^ e * 10 ^ 18
  else 2 ^ (- e) * (2 * n - 1) <= 2 * (Z.pos m * 10 ^ 18) < 2 ^ (- e) * (2 * n + 1).
Proof.
  cbv zeta. unfold nearest18. destruct (Z.leb_spec 0 e) as [He|He]; [done|].
  pose proof (Z.pow_pos_nonneg 2 (- e) ltac:(lia) ltac:(lia)) as Hp.
  set (a := 2 * (Z.pos m * 10 ^ 18)). set (b := 2 ^ (- e)) in *.
  pose proof (Z.div_mod (a + b) (2 * b) ltac:(lia)). pose proof (Z.mod_pos_bound (a + b) (2 * b) ltac:(lia)).
  nia.
Qed.

Lemma dec_value_padStart n s : dec_value 0 (padStart n "0" s) = dec_value 0 s.
Proof.
  unfold padStart. rewrite dec_value_app. f_equal. induction (n - String.length s)%nat; [done|]. exact IHn0.
Qed.

Lemma all_digits_padStart n s : all_digits (padStart n "0" s) = all_digits s.
Proof. unfold padStart. rewrite all_digits_app. by induction (n - String.length s)%nat. Qed.

(** Fewer digits than a bound on the number. *)
Lemma length_dec_lt n k : 0 <= n < 10 ^ Z.of_nat k -> (0 < k)%nat -> (String.length (dec_of_nonneg n) <= k)%nat.
Proof.
  intros Hn Hk. destruct (dec_of_nonneg_spec n ltac:(lia)) as (_ & _ & Hl & [->|Hp]); [cbn; lia|].
  destruct (decide (String.length (dec_of_nonneg n) <= k)%nat) as [|H]; [done|].
  assert (10 ^ Z.of_nat k <= 10 ^ (Z.of_nat (String.length (dec_of_nonneg n)) - 1)); [|lia].
  apply Z.pow_le_mono_r; lia.
Qed.

(** Parsing the fixed-point rendering gives back the number of units. *)
Lemma parse_fixed18 n : 0 <= n -> parseEther (fixed18 n) = Ok n.
Proof.
  intros Hn. unfold parseEther, fixed18.
  pose proof (Z.mod_pos_bound n (10 ^ 18) ltac:(lia)) as Hm.
  destruct (dec_of_nonneg_spec (n mod 10 ^ 18) ltac:(lia)) as (Hd & Hv & Hl & _).
  pose proof (length_dec_lt (n mod 10 ^ 18) 18 ltac:(lia) ltac:(lia)) as Hlt.
  assert (HL : String.length (padStart 18 "0" (dec_of_Z (n mod 10 ^ 18))) = 18%nat)
    by (rewrite dec_of_Z_nonneg by lia; by apply length_padStart).
  rewrite parseUnits_frac.
  - rewrite HL, dec_value_padStart, dec_of_Z_nonneg, Hv by lia. f_equal.
    change (18 - Z.of_nat 18) with 0. rewrite Z.pow_0_r, Z.mul_1_r.
    pose proof (Z.div_mod n (10 ^ 18) ltac:(lia)). lia.
  - apply Z.div_pos; lia.
  - by rewrite all_digits_padStart, dec_of_Z_nonneg by lia.
  - lia.
  - lia.
Qed.

(** The square root price of a ratio whose square root is the double
    [m * 2^e], below 10^21: the double is rounded to 18 decimals, ties upwards,
    and the result is scaled to 2^96 and rounded down. *)
Theorem getSqrtPriceX96_spec ratio m e :
  js_sqrt ratio = S754_finite false m e -> is_huge m e = false ->
  exists n, _getSqrtPriceX96 ratio = Ok (n * 2 ^ 96 / 10 ^ 18) /\
    (if 0 <=? e then n = Z.pos m * 2 ^ e * 10 ^ 18
     else 2 ^ (- e) * (2 * n - 1) <= 2 * (Z.pos m * 10 ^ 18) < 2 ^ (- e) * (2 * n + 1)).
Proof.
  intros Hs Hh. exists (nearest18 m e). split; [|apply nearest18_spec].
  unfold _getSqrtPriceX96. rewrite Hs. cbn [toFixed18]. rewrite Hh. cbn [String.append].
  pose proof (nearest18_nonneg m e).
  rewrite parse_fixed18 by done. rewrite !bind_Ok, bn_pow_law by lia.
  rewrite bind_Ok, ether_Number, Z.mul_1_l by lia.
  pose proof PRECISE_UNIT_pos. rewrite bind_Ok, bn_mul_law, bn_div_law by lia. f_equal.
  rewrite Z.quot_div_nonneg by nia. reflexivity.
Qed.

(** At each fee tier, the widest ticks are opposite multiples of the tick
    spacing that cannot be extended within the range of Uniswap V3. *)
Theorem wide_ticks_spec fee : fee ∈ [500; 3000; 10000] ->
  exists t, int_of (wide_ticks fee).1 = Ok (- t) /\ int_of (wide_ticks fee).2 = Ok t /\
    (fee / 50 | t) /\ 0 < t <= 887272 /\ 887272 < t + fee / 50.
Proof.
  intros H. repeat (apply elem_of_cons in H as [->|H]).
  - exists 887270. split; [reflexivity|]. split; [reflexivity|]. split; [by exists 88727|]. split; [lia|reflexivity].
  - exists 887220. split; [reflexivity|]. split; [reflexivity|]. split; [by exists 14787|]. split; [lia|reflexivity].
  - exists 887200. split; [reflexivity|]. split; [reflexivity|]. split; [by exists 4436|]. split; [lia|reflexivity].
  - by apply not_elem_of_nil in H.
Qed.

(** The order in which two different tokens are given does not matter: their
    pool is the same, and liquidity is added with each amount on its token's
    side. *)
Theorem token_order_irrelevant signer f nft a b fee x y r h :
  toLowerCase a <> toLowerCase b ->
  getPool f a b fee h = getPool f b a fee h /\
  addLiquidityWide signer nft a b fee x y r h = addLiquidityWide signer nft b a fee y x r h.
Proof.
  intros Hab. unfold getPool, getTokenOrder, addLiquidityWide.
  destruct (str_lt (toLowerCase a) (toLowerCase b)) eqn:H1.
  - rewrite (str_lt_asymm _ _ H1). by destruct (wide_ticks fee).
  - destruct (str_lt (toLowerCase b) (toLowerCase a)) eqn:H2; [by destruct (wide_ticks fee)|].
    by apply str_lt_trichotomy in H1.
Qed.

End Theorems.

(** ** Instances *)

Section Instances.

#[local] Instance math_ref : JsMath := {|
  pow10 := fun n => if 0 <=? n then of_int (10 ^ n) else js_div (of_int 1) (of_int (10 ^ (- n)));
  exponent_string := fun _ => "1e+21"%string |}.

#[local] Instance v3_node : Node := accepting_node (fun _ a m _ =>
  if String.eqb m "decimals" then Ok (JNum (if String.eqb a "0xBB" then 8 else 18)) else Ok (JStr "pool")) [].

(** At 2500 DAI for a WETH, the square root price is exactly 50. *)
Lemma getSqrtPriceX96_witness : exists n, _getSqrtPriceX96 (of_int 2500) = Ok (n * 2 ^ 96 / 10 ^ 18) /\
  n * 2 ^ 96 / 10 ^ 18 = 50 * 2 ^ 96.
Proof.
  destruct (getSqrtPriceX96_spec (of_int 2500) 7036874417766400 (-47) eq_refl eq_refl) as (n & H1 & H2).
  exists n. split; [exact H1|]. change (2 ^ (- (-47)) * (2 * n - 1) <= 2 * (7036874417766400 * 10 ^ 18)
    < 2 ^ (- (-47)) * (2 * n + 1)) in H2.
  assert (n = 50 * 10 ^ 18) as -> by lia. reflexivity.
Defined.

Lemma wide_ticks_witness : exists t, int_of (wide_ticks 3000).2 = Ok t /\ (60 | t).
Proof.
  destruct (wide_ticks_spec 3000 ltac:(set_solver)) as (t & _ & H2 & H3 & _).
  exists t. split; [exact H2|exact H3].
Defined.

Lemma token_order_witness :
  getPool "factory" "0xaa" "0xBB" 3000 [] = getPool "factory" "0xBB" "0xaa" 3000 [] /\
  is_Ok (createNewPair "owner" "factory" "nft" "0xaa" "0xBB" 3000 (of_int 20) []) = true.
Proof.
  split; [|vm_compute; reflexivity].
  exact (proj1 (token_order_irrelevant "owner" "factory" "nft" "0xaa" "0xBB" 3000 0 0 "owner" []
    ltac:(discriminate))).
Defined.

End Instances.
