(* ===== verification/BuildTasks.v ===== *)
(** * Build tasks

    [utils/tasks/artifactUtils.ts], [utils/tasks/setupNativeSolc.ts],
    [tasks/subtasks.ts] and the functions of [hardhat.config.ts]. A JSON value is
    a tree; the fields of an object keep their order, as JavaScript objects do.
    An artifact file is the tree it holds. *)

From S2P Require Import Prelude JsString Ethers.
From Stdlib Require Import String.

Local Open Scope Z_scope.

(** [process.env]. *)
Abbreviation environment := (string -> option string).

Definition truthy (v : option string) : bool :=
  match v with Some s => negb (String.eqb s "") | None => false end.

#[local] Set Warnings "-register-all".

Inductive json :=
  | JNull
  | JBoolean (b : bool)
  | JNumber (z : Z)
  | JString (s : string)
  | JArray (l : list json)
  | JObject (fields : list (string * json)).

(** An element of an ABI: an object. *)
Abbreviation abi_element := (list (string * json)).

Definition field (k : string) (e : abi_element) : option json :=
  match find (fun p => String.eqb p.1 k) e with Some p => Some p.2 | None => None end.

(** [{...e, k: v}]: an existing field keeps its place. *)
Fixpoint set_field (k : string) (v : json) (e : abi_element) : abi_element :=
  match e with
  | [] => [(k, v)]
  | (k', v') :: e' => if String.eqb k' k then (k', v) :: e' else (k', v') :: set_field k v e'
  end.

(** [delete e.k]. *)
Definition delete_field (k : string) (e : abi_element) : abi_element :=
  List.filter (fun p => negb (String.eqb p.1 k)) e.

Definition is_function (e : abi_element) : bool :=
  match field "type" e with Some (JString s) => String.eqb s "function" | _ => false end.

Section BuildTasks.
Context `{BN : BigNumber} `{EU : EthersUtils}.

(** ** artifactUtils *)

(** The limit set for every call. [gas] is the network's, when it is a number;
    [gasLimit] is that of the coverage tool. *)
Definition gas_field (env : environment) (gasLimit : Z) (gas : option Z) : result json :=
  let coverage := match env "COVERAGE"%string with Some s => String.eqb s "true" | None => false end in
  match (if coverage then Some gasLimit else gas) with
  | None => Throw "invalid BigNumber value"
  | Some g => x ← bn_from_number g; Ok (JString (toHexString (bn_sub x 1000000)))
  end.

Definition addGasToAbiMethods (env : environment) (gasLimit : Z) (gas : option Z)
    (abi : list abi_element) : result (list abi_element) :=
  v ← gas_field env gasLimit gas;
  Ok (map (fun e => if is_function e then set_field "gas" v e else e) abi).

Definition removeGasFromAbiMethods (abi : list abi_element) : list abi_element :=
  map (fun e => if is_function e then delete_field "gas" e else e) abi.

(** ** subtasks *)

Record artifact := mkArtifact { abi : list abi_element; other : list (string * json) }.

(** The compilation of one artifact. *)
Definition getArtifact (env : environment) (gasLimit : Z) (gas : option Z) (runSuper : result artifact) :
    result artifact :=
  a ← runSuper;
  if truthy (env "SKIP_ABI_GAS_MODS"%string) then Ok a
  else abi' ← addGasToAbiMethods env gasLimit gas (abi a); Ok (mkArtifact abi' (other a)).

(** The files, and the objects that [require] has loaded from them: an artifact
    is loaded once, and later changes are made to the same object. *)
Record world := mkWorld { files : gmap string artifact; loaded : gmap string artifact }.

Definition require_json (path : string) (w : world) : result (artifact * world) :=
  match loaded w !! path with
  | Some a => Ok (a, w)
  | None =>
      match files w !! path with
      | Some a => Ok (a, mkWorld (files w) (<[path := a]> (loaded w)))
      | None => Throw "Cannot find module"
      end
  end.

(** Gives the object at [path] a new ABI and writes it to its file. *)
Definition rewrite_artifact (path : string) (a : artifact) (abi' : list abi_element) (w : world) : world :=
  let a' := mkArtifact abi' (other a) in
  mkWorld (<[path := a']> (files w)) (<[path := a']> (loaded w)).

(** The first loop; its paths are those of the files of the projects. On an
    exception the world is left as it is then. *)
Fixpoint inject (env : environment) (gasLimit : Z) (gas : option Z) (paths : list string) (w : world) :
    world * result unit :=
  match paths with
  | [] => (w, Ok tt)
  | path :: paths =>
      match require_json path w with
      | Throw e => (w, Throw e)
      | Ok (a, w1) =>
          match addGasToAbiMethods env gasLimit gas (abi a) with
          | Throw e => (w1, Throw e)
          | Ok abi' => inject env gasLimit gas paths (rewrite_artifact path a abi' w1)
          end
      end
  end.

(** The second loop, over the objects of the first. *)
Definition restore (paths : list string) (w : world) : world :=
  foldl (fun w path =>
    match loaded w !! path with
    | Some a => rewrite_artifact path a (removeGasFromAbiMethods (abi a)) w
    | None => w
    end) w paths.

(** The hook of the typechain task: [cwd]/[project]/[file] for every file of the
    projects in [externalGasMods]. *)
Definition artifact_paths (cwd : string) (projects : list (string * list string)) : list string :=
  List.concat (map (fun '(project, fs) => map (fun f => (cwd ++ "/" ++ project ++ "/" ++ f)%string) fs) projects).

Definition generateTypes (env : environment) (gasLimit : Z) (gas : option Z) (cwd : string)
    (projects : list (string * list string)) (runSuper : gmap string artifact -> result unit) (w : world) :
    world * result unit :=
  let paths := artifact_paths cwd projects in
  match inject env gasLimit gas paths w with
  | (w1, Throw e) => (w1, Throw e)
  | (w1, Ok _) =>
      match runSuper (files w1) with
      | Throw e => (w1, Throw e)
      | Ok _ => (restore paths w1, Ok tt)
      end
  end.

End BuildTasks.

(** ** setupNativeSolc *)

(** [s.includes(needle)]. *)
Fixpoint includes (needle s : string) : bool :=
  String.prefix needle s || match s with String _ s' => includes needle s' | EmptyString => false end.

Inductive compiler := Solcjs | Native.

(** The compiler chosen, and the lines logged: only on the first run.
    [solcVersionOutput] is empty when there is no local compiler; [version] is
    [config.solidity.version]. *)
Definition setupNativeSolc (isFirstRun : bool) (solcVersionOutput : string) (version : option string) :
    compiler * bool * list string :=
  let log := if isFirstRun then [("Local native solc version:  " ++ solcVersionOutput)%string] else [] in
  if includes (default "undefined"%string version) solcVersionOutput
  then (Native, false, log ++ if isFirstRun then ["Using native solc"%string] else [])
  else (Solcjs, false, log ++ if isFirstRun then ["Using solcjs"%string] else []).

(** ** hardhat.config *)

Record mochaOptions := mkMocha { grep : string; invert : bool; timeout : Z }.

Definition mochaConfig (env : environment) : mochaOptions :=
  let fork := truthy (env "FORK"%string) in
  mkMocha "@forked-mainnet" (negb fork) (if fork then 100000 else 40000).

(** Whether Mocha runs a test: its full title matches, or not when inverted. *)
Definition mocha_runs (o : mochaOptions) (title : string) : bool :=
  xorb (includes (grep o) title) (invert o).

(** [process.exit(1)] without credentials for a forked run. *)
Definition checkForkedProviderEnvironment (env : environment) : result unit :=
  let token := env "ALCHEMY_TOKEN"%string in
  if truthy (env "FORK"%string) && (negb (truthy token) || bool_decide (token = Some "fake_alchemy_token"%string))
  then Throw "process.exit(1)" else Ok tt.

Definition getHardhatPrivateKeys (privateKeys : list string) : list (string * string) :=
  map (fun key => (key, "1000000000000000000000000"%string)) privateKeys.

(** ** Theorems *)

Section Gas.
Context `{BN : BigNumber} `{EU : EthersUtils}.

(** No function of the ABI has a gas field. *)
Definition gasless (l : list abi_element) : Prop :=
  Forall (fun e => is_function e = true -> field "gas" e = None) l.

Lemma field_set k v e k' : field k' (set_field k v e) = if String.eqb k k' then Some v else field k' e.
Proof.
  unfold field. induction e as [|[k1 v1] e IH]; cbn; [by destruct (String.eqb k k')|].
  destruct (String.eqb_spec k1 k) as [->|Hk]; cbn; [by destruct (String.eqb k k')|].
  destruct (String.eqb_spec k1 k') as [->|Hk']; [|exact IH].
  destruct (String.eqb_spec k k') as [->|]; [done|done].
Qed.

Lemma field_delete k e k' : field k' (delete_field k e) = if String.eqb k k' then None else field k' e.
Proof.
  unfold field, delete_field. induction e as [|[k1 v1] e IH]; cbn; [by destruct (String.eqb k k')|].
  destruct (String.eqb_spec k1 k) as [->|Hk]; cbn.
  - rewrite IH. by destruct (String.eqb k k').
  - destruct (String.eqb_spec k1 k') as [->|Hk']; [|exact IH].
    destruct (String.eqb_spec k k') as [->|]; done.
Qed.

Lemma delete_set k v e : delete_field k (set_field k v e) = delete_field k e.
Proof.
  unfold delete_field. induction e as [|[k1 v1] e IH]; cbn; [by rewrite String.eqb_refl|].
  destruct (String.eqb_spec k1 k) as [->|Hk]; cbn; [by rewrite String.eqb_refl|].
  apply String.eqb_neq in Hk. rewrite Hk. cbn. by rewrite IH.
Qed.

Lemma delete_absent k e : delete_field k e = e <-> field k e = None.
Proof.
  split.
  - intros H. rewrite <- H, field_delete. by rewrite String.eqb_refl.
  - unfold field, delete_field. induction e as [|[k1 v1] e IH]; cbn; [done|].
    destruct (String.eqb k1 k); cbn; [done|]. intros H. by rewrite IH.
Qed.

Lemma delete_delete k e : delete_field k (delete_field k e) = delete_field k e.
Proof. apply delete_absent. rewrite field_delete. by rewrite String.eqb_refl. Qed.

Lemma set_set k v e : set_field k v (set_field k v e) = set_field k v e.
Proof.
  induction e as [|[k1 v1] e IH]; cbn; [by rewrite String.eqb_refl|].
  destruct (String.eqb k1 k) eqn:Q; cbn; rewrite Q; [done|by rewrite IH].
Qed.

Lemma is_function_set v e : is_function (set_field "gas" v e) = is_function e.
Proof. unfold is_function. by rewrite field_set. Qed.

Lemma is_function_delete e : is_function (delete_field "gas" e) = is_function e.
Proof. unfold is_function. by rewrite field_delete. Qed.

(** An ABI with the gas limit [v]. *)
Definition with_gas (v : json) (l : list abi_element) : list abi_element :=
  map (fun e => if is_function e then set_field "gas" v e else e) l.

Lemma map_idem {A} (f : A -> A) l : (forall x, f (f x) = f x) -> map f (map f l) = map f l.
Proof. intros H. rewrite map_map. by apply map_ext. Qed.

Lemma with_gas_idem v l : with_gas v (with_gas v l) = with_gas v l.
Proof.
  apply map_idem. intros e. destruct (is_function e) eqn:Q; [|by rewrite Q].
  by rewrite is_function_set, Q, set_set.
Qed.

Lemma remove_idem l : removeGasFromAbiMethods (removeGasFromAbiMethods l) = removeGasFromAbiMethods l.
Proof.
  apply map_idem. intros e. destruct (is_function e) eqn:Q; [|by rewrite Q].
  by rewrite is_function_delete, Q, delete_delete.
Qed.

Lemma remove_with_gas v l : removeGasFromAbiMethods (with_gas v l) = removeGasFromAbiMethods l.
Proof.
  unfold removeGasFromAbiMethods, with_gas. rewrite map_map. apply map_ext. intros e.
  destruct (is_function e) eqn:Q; [|by rewrite Q]. by rewrite is_function_set, Q, delete_set.
Qed.

Lemma remove_gasless l : removeGasFromAbiMethods l = l <-> gasless l.
Proof.
  unfold removeGasFromAbiMethods, gasless. induction l as [|e l IH]; cbn; [by split|].
  rewrite Forall_cons, <- IH. destruct (is_function e) eqn:Q.
  - split.
    + intros [= H1 H2]. split; [|done]. intros _. by apply delete_absent.
    + intros [H1 H2]. rewrite H2. f_equal. apply delete_absent. by apply H1.
  - split; [by intros [= H]|intros [_ H]; by rewrite H].
Qed.

(** Adding the gas limit and removing it: every function has the limit in
    between and nothing else changes; afterwards the ABI is as it was, exactly
    when none of its functions had a gas field of its own. *)
Theorem gas_roundtrip env gasLimit gas l l' : addGasToAbiMethods env gasLimit gas l = Ok l' ->
  (exists v, Forall2 (fun e e' => is_function e' = is_function e /\
     if is_function e then field "gas" e' = Some v /\ (forall k, k <> "gas"%string -> field k e' = field k e)
     else e' = e) l l') /\
  (removeGasFromAbiMethods l' = l <-> gasless l).
Proof.
  unfold addGasToAbiMethods. intros Q. apply bind_Ok_inv in Q as (v & _ & Q). injection Q as <-.
  split.
  - exists v. induction l as [|e l IH]; cbn; constructor; [|done]. destruct (is_function e) eqn:Q; [|done].
    split; [by rewrite is_function_set|]. rewrite field_set. split; [done|].
    intros k Hk. rewrite field_set. destruct (String.eqb_spec "gas" k); [congruence|done].
  - change (map _ l) with (with_gas v l). by rewrite remove_with_gas, remove_gasless.
Qed.

End Gas.

Section TypeGeneration.
Context `{BN : BigNumber} `{EU : EthersUtils}.

(** What has been loaded is what the files hold. *)
Definition in_sync (w : world) : Prop := forall p a, loaded w !! p = Some a -> files w !! p = Some a.

Definition update_abi (f : list abi_element -> list abi_element) (a : artifact) : artifact :=
  mkArtifact (f (abi a)) (other a).

(** [w'] is [w] with the ABIs of [paths] changed by [f]. *)
Definition changed (f : list abi_element -> list abi_element) (paths : list string) (w w' : world) : Prop :=
  in_sync w' /\
  (forall p, files w' !! p = if bool_decide (p ∈ paths) then update_abi f <$> files w !! p else files w !! p) /\
  (forall p, p ∈ paths -> is_Some (loaded w' !! p)).

Lemma require_json_Ok p w a w1 : in_sync w -> require_json p w = Ok (a, w1) ->
  files w !! p = Some a /\ files w1 = files w /\ in_sync w1 /\
  (forall q, is_Some (loaded w !! q) -> is_Some (loaded w1 !! q)).
Proof.
  intros Hs. unfold require_json. destruct (loaded w !! p) as [x|] eqn:Ql.
  - intros [= <- <-]. split; [by apply Hs|]. done.
  - destruct (files w !! p) as [x|] eqn:Qf; [|done]. intros [= <- <-].
    split; [done|]. split; [done|]. split.
    + intros q b. cbn. destruct (decide (p = q)) as [->|]; [rewrite lookup_insert_eq; congruence|].
      rewrite lookup_insert_ne by done. apply Hs.
    + intros q Hq. cbn. destruct (decide (p = q)) as [->|]; [by rewrite lookup_insert_eq|].
      by rewrite lookup_insert_ne.
Qed.

Lemma rewrite_in_sync p a l w : in_sync w -> in_sync (rewrite_artifact p a l w).
Proof.
  intros Hs q b. cbn. destruct (decide (p = q)) as [->|]; [by rewrite !lookup_insert_eq|].
  rewrite !lookup_insert_ne by done. apply Hs.
Qed.

Lemma rewrite_loaded p a l w q : is_Some (loaded w !! q) \/ q = p ->
  is_Some (loaded (rewrite_artifact p a l w) !! q).
Proof.
  intros H. cbn. destruct (decide (p = q)) as [->|]; [by rewrite lookup_insert_eq|].
  rewrite lookup_insert_ne by done. by destruct H as [H| ->].
Qed.

(** Changing one path, then the others. *)
Lemma changed_cons f p a paths w w1 w' : (forall l, f (f l) = f l) -> files w !! p = Some a ->
  files w1 = <[p := update_abi f a]> (files w) -> is_Some (loaded w1 !! p) ->
  (forall q, is_Some (loaded w1 !! q) -> is_Some (loaded w' !! q)) ->
  changed f paths w1 w' -> changed f (p :: paths) w w'.
Proof.
  intros Hf Hp H1 Hl Hk (Hs & HF & HL). split; [done|]. split.
  - intros q. rewrite HF, H1. destruct (decide (p = q)) as [->|Hne].
    + rewrite lookup_insert_eq, Hp, (bool_decide_eq_true_2 (q ∈ q :: _)) by (by left).
      case_bool_decide; cbn; [|done]. unfold update_abi. cbn. by rewrite Hf.
    + rewrite lookup_insert_ne by done. f_equal. by rewrite (bool_decide_ext _ (q ∈ p :: paths)) by set_solver.
  - intros q [->|Hq]%elem_of_cons; [by apply Hk|by apply HL].
Qed.

Lemma inject_Ok env gl g v paths : gas_field env gl g = Ok v -> forall w w1,
  in_sync w -> inject env gl g paths w = (w1, Ok tt) ->
  changed (with_gas v) paths w w1 /\ (forall q, is_Some (loaded w !! q) -> is_Some (loaded w1 !! q)).
Proof.
  intros Hv. induction paths as [|p paths IH]; intros w w1 Hs H; cbn [inject] in H.
  - injection H as <-. split; [|done]. split; [done|]. split; [|set_solver].
    intros q. by rewrite bool_decide_eq_false_2 by set_solver.
  - destruct (require_json p w) as [[a w0]|] eqn:Qr; [|done].
    destruct (require_json_Ok _ _ _ _ Hs Qr) as (Hp & Hf & Hs0 & Hl0).
    unfold addGasToAbiMethods in H. rewrite Hv, bind_Ok in H. change (map _ (abi a)) with (with_gas v (abi a)) in H.
    destruct (IH _ _ (rewrite_in_sync p a (with_gas v (abi a)) w0 Hs0) H) as [HC HK]. split.
    + eapply changed_cons; [apply with_gas_idem|exact Hp| | |exact HK|exact HC].
      * cbn. by rewrite Hf.
      * apply rewrite_loaded. by right.
    + intros q Hq. apply HK, rewrite_loaded. left. by apply Hl0.
Qed.

Lemma restore_loaded paths q : forall w, is_Some (loaded w !! q) -> is_Some (loaded (restore paths w) !! q).
Proof.
  induction paths as [|p paths IH]; intros w Hq; [done|]. unfold restore. cbn [foldl].
  destruct (loaded w !! p); apply IH; [apply rewrite_loaded; by left|done].
Qed.

Lemma restore_changed paths : forall w, in_sync w -> (forall p, p ∈ paths -> is_Some (loaded w !! p)) ->
  changed removeGasFromAbiMethods paths w (restore paths w).
Proof.
  induction paths as [|p paths IH]; intros w Hs Hl.
  - split; [done|]. split; [|set_solver]. intros q. by rewrite bool_decide_eq_false_2 by set_solver.
  - destruct (Hl p ltac:(by left)) as [a Ha]. unfold restore. cbn [foldl]. rewrite Ha.
    set (w1 := rewrite_artifact p a _ w). change (foldl _ w1 paths) with (restore paths w1).
    assert (Hs1 : in_sync w1) by (by apply rewrite_in_sync).
    assert (HL : forall q, is_Some (loaded w1 !! q) -> is_Some (loaded (restore paths w1) !! q)) by (intros q; apply restore_loaded).
    apply (changed_cons _ p a paths w w1); [apply remove_idem|by apply Hs|reflexivity|apply rewrite_loaded; by right|exact HL|].
    apply IH; [done|]. intros q Hq. apply rewrite_loaded. left. apply Hl. by right.
Qed.

(** C32: Generating the types: the generator runs on files whose functions have the
    gas limit. When it succeeds, the files of the projects end as they were, if
    none of their functions had a gas field; when it fails, they are left with
    the gas limit. Other files are never touched. *)
Theorem generateTypes_restores env gl g v cwd projects runSuper w w' r :
  in_sync w -> gas_field env gl g = Ok v ->
  (forall p a, p ∈ artifact_paths cwd projects -> files w !! p = Some a -> gasless (abi a)) ->
  (forall p, p ∈ artifact_paths cwd projects -> is_Some (files w !! p)) ->
  generateTypes env gl g cwd projects runSuper w = (w', r) ->
  exists w1, changed (with_gas v) (artifact_paths cwd projects) w w1 /\ r = runSuper (files w1) /\
    (r = Ok tt -> files w' = files w) /\ (is_Ok r = false -> files w' = files w1).
Proof.
  intros Hs Hv Hg Hf H. unfold generateTypes in H. set (paths := artifact_paths cwd projects) in *.
  destruct (inject env gl g paths w) as [w1 [[]|e]] eqn:Q.
  - destruct (inject_Ok _ _ _ _ _ Hv _ _ Hs Q) as [HC _]. exists w1. split; [done|].
    destruct HC as (Hs1 & HF1 & HL1).
    destruct (runSuper (files w1)) as [[]|e]; injection H as <- <-; (split; [done|]); [|by split].
    split; [intros _|done].
    destruct (restore_changed paths w1 Hs1 HL1) as (_ & HF2 & _).
    apply map_eq. intros p. rewrite HF2, HF1. case_bool_decide as Hp; [|done].
    destruct (Hf p Hp) as [a Ha]. rewrite Ha. cbn. f_equal. unfold update_abi. cbn.
    rewrite remove_with_gas. destruct a as [l o]. cbn. f_equal.
    apply remove_gasless. exact (Hg p _ Hp Ha).
  - exfalso. clear H Hg. revert w Hs Hf Q. induction paths as [|p paths IH]; intros w Hs Hf Q; [done|].
    cbn [inject] in Q. destruct (require_json p w) as [[a w0]|e'] eqn:Qr.
    + destruct (require_json_Ok _ _ _ _ Hs Qr) as (Hp & Hfs & Hs0 & _).
      unfold addGasToAbiMethods in Q. rewrite Hv, bind_Ok in Q.
      refine (IH _ (rewrite_in_sync _ _ _ _ Hs0) _ Q).
      intros q Hq. cbn. rewrite Hfs. destruct (decide (p = q)) as [->|];
          [by rewrite lookup_insert_eq|rewrite lookup_insert_ne by done; apply Hf; by right].
    + unfold require_json in Qr. destruct (loaded w !! p); [done|].
      destruct (Hf p ltac:(by left)) as [a Ha]. by rewrite Ha in Qr.
Qed.

End TypeGeneration.

(** ** Instances *)

Section Instances.

Definition test_env : environment := fun _ => None.

Definition test_abi : list abi_element :=
  [[("type", JString "function"); ("name", JString "deposit"); ("outputs", JArray [])];
   [("type", JString "event"); ("name", JString "Deposited")]]%string.

Definition test_world : world :=
  mkWorld {[ "/repo/external/abi/perp/Vault.json"%string := mkArtifact test_abi [("bytecode", JString "0x60")]%string ]} ∅.

Definition test_projects : list (string * list string) := [("external/abi/perp", ["Vault.json"])]%string.

Lemma test_gasless : gasless test_abi.
Proof. repeat constructor. Qed.

Lemma gas_roundtrip_witness : exists l', addGasToAbiMethods test_env 0 (Some 12000000) test_abi = Ok l' /\
  removeGasFromAbiMethods l' = test_abi.
Proof.
  destruct (addGasToAbiMethods test_env 0 (Some 12000000) test_abi) as [l'|e] eqn:Q;
    [|vm_compute in Q; discriminate].
  exists l'. split; [reflexivity|].
  apply (gas_roundtrip test_env 0 (Some 12000000) test_abi l' Q). exact test_gasless.
Defined.

Lemma test_files p a : p ∈ artifact_paths "/repo" test_projects ->
  files test_world !! p = Some a -> gasless (abi a).
Proof.
  intros Hp%list_elem_of_singleton. rewrite Hp. cbn. rewrite lookup_singleton_eq. intros [= <-]. exact test_gasless.
Qed.

Lemma generateTypes_witness : exists w', generateTypes test_env 0 (Some 12000000) "/repo" test_projects
    (fun _ => Ok tt) test_world = (w', Ok tt) /\ files w' = files test_world.
Proof.
  destruct (generateTypes test_env 0 (Some 12000000) "/repo" test_projects (fun _ => Ok tt) test_world)
    as [w' r] eqn:Q.
  assert (Hr : r = Ok tt) by (vm_compute in Q; by injection Q as _ <-). subst r.
  exists w'. split; [reflexivity|].
  destruct (generateTypes_restores test_env 0 (Some 12000000) _ "/repo" test_projects (fun _ => Ok tt)
    test_world w' (Ok tt) (fun p a H => ltac:(cbn [loaded test_world] in H; by rewrite lookup_empty in H)) eq_refl test_files
    (fun p Hp => ltac:(apply list_elem_of_singleton in Hp as ->; by eexists)) Q) as (w1 & _ & _ & H & _).
  exact (H eq_refl).
Defined.

End Instances.
