(* ===== verification/HardhatConfig.v ===== *)
(** * The Hardhat configuration

    [hardhat.config.ts]: the configuration object as data, a function of the
    environment the process runs in, and the development keys of
    [utils/wallets.ts]. A setting that the file leaves out is absent here. Which
    account a name stands for on a network is decided by hardhat-deploy
    ([CoreDeploy.namedAccount]). *)

From S2P Require Import Prelude JsString Ethers Constants Evm Ownable Protocol Dependencies CoreDeploy BuildTasks.
From Stdlib Require Import String.

Local Open Scope Z_scope.

(** ** wallets.ts *)

Definition privateKeys : list string :=
  ["0xf2f48ee19680706196e2e339e5da3491186e0c4c5030670656b0e0164837257d";
   "0x5d862464fe9303452126c8bc94274b8c5f9874cbd219789b3eb2128075a76f72";
   "0xdf02719c4df8b9b8ac7f551fcb5d9ef48fa27eef7a66453879f4d8fdc6e78fb1";
   "0xff12e391b79415e941a94de3bf3a9aee577aed0731e297d5cfa0b8a1e02fa1d0";
   "0x752dd9cf65e68cfaba7d60225cbdbc1f4729dd5e5507def72815ed0d8abc6249";
   "0xefb595a0178eb79a8df953f87c5148402a224cdf725e88c0146727c6aceadccd";
   "0x83c6d2cc5ddcf9711a6d59b417dc20eb48afd58d45290099e5987e3d768f328f";
   "0xbb2d3f7c9583780a7d3904a2f55d792707c345f21de1bacb2d389934d82796b2";
   "0xb2fd4d29c1390b71b8795ae81196bfd60293adf99f9d32a0aff06288fcdac55f"]%string.

(** ** The configuration *)

Record Optimizer := mkOptimizer { enabled : bool; runs : Z }.
Record Solc := mkSolc { version : string; optimizer : Optimizer }.
Record Forking := mkForking { forking_url : string; blockNumber : Z }.

(** An account of a network: its key, and for the local chain its balance. *)
Record AccountConfig := mkAccount { privateKey : string; balance : option string }.

Record Network := mkNetwork {
  allowUnlimitedContractSize : option bool;
  url : option string;
  forking : option Forking;
  accounts : option (list AccountConfig);
  network_timeout : option Z;
  network_gas : option Z;
  blockGasLimit : option Z;
}.

Record HardhatUserConfig := mkConfig {
  solidity : list Solc;
  namedAccounts : list (string * nat);
  networks : list (string * Network);
  etherscan_apiKey : list (string * string);
  typechain_outDir : string;
  typechain_target : string;
  typechain_externalArtifacts : list string;
  contractSizer_runOnCompile : bool;
  mocha : mochaOptions;
  externalGasMods : list string;
}.

(** A variable in a template or after a [+]. *)
Definition shown (v : option string) : string := default "undefined"%string v.

Definition forkingConfig (env : environment) : Forking :=
  mkForking ("https://eth-mainnet.alchemyapi.io/v2/" ++ shown (env "ALCHEMY_TOKEN"%string)) 14792479.

Definition fork (env : environment) : option Forking :=
  if truthy (env "FORK"%string) then Some (forkingConfig env) else None.

(** A network reached at [base], with the one account that [variable] holds. *)
Definition remote (env : environment) (base token variable : string) : Network :=
  mkNetwork None (Some (base ++ shown (env token))%string) None
    (Some [mkAccount ("0x" ++ shown (env variable)) None]) None None None.

Definition config (env : environment) : result HardhatUserConfig :=
  _ ← checkForkedProviderEnvironment env;
  Ok (mkConfig
    [mkSolc "0.6.10" (mkOptimizer true 200); mkSolc "0.8.11" (mkOptimizer true 200)]
    [("deployer", 0%nat); ("operator", 1%nat)]%string
    [("hardhat"%string, mkNetwork (Some false) None (fork env)
        (Some (map (fun kb : string * string => mkAccount kb.1 (Some kb.2)) (getHardhatPrivateKeys privateKeys)))
        None (Some 12000000) (Some 12000000));
     ("localhost"%string, mkNetwork None (Some "http://127.0.0.1:8545"%string) (fork env) None (Some 200000)
        (Some 12000000) (Some 12000000));
     ("goerli"%string, remote env "https://eth-goerli.g.alchemy.com/v2/" "GOERLI_ALCHEMY_TOKEN"
        "GOERLI_DEPLOY_PRIVATE_KEY");
     ("polygonMumbai"%string, remote env "https://polygon-mumbai.g.alchemy.com/v2/" "MUMBAI_ALCHEMY_TOKEN"
        "MUMBAI_DEPLOY_PRIVATE_KEY");
     ("staging_mainnet"%string, remote env "https://mainnet.infura.io/v3/" "INFURA_TOKEN"
        "STAGING_MAINNET_DEPLOY_PRIVATE_KEY");
     ("production"%string, remote env "https://mainnet.infura.io/v3/" "INFURA_TOKEN"
        "PRODUCTION_MAINNET_DEPLOY_PRIVATE_KEY");
     ("coverage"%string, mkNetwork None (Some "http://127.0.0.1:8555"%string) None None (Some 200000) None None)]
    [("polygonMumbai"%string,
      if truthy (env "POLYGONSCAN_API_KEY"%string) then shown (env "POLYGONSCAN_API_KEY"%string) else ""%string)]
    "typechain" "ethers-v5" ["external/**/*.json"%string]
    false (mochaConfig env) ["external/abi/perp"%string]).

(** ** Theorems *)

Lemma config_Ok env c : config env = Ok c -> checkForkedProviderEnvironment env = Ok tt /\ mocha c = mochaConfig env /\
  forall n net, (n, net) ∈ networks c ->
    (n = "hardhat"%string /\ forking net = fork env /\ accounts net = Some (map (fun kb : string * string =>
       mkAccount kb.1 (Some kb.2)) (getHardhatPrivateKeys privateKeys))) \/
    (n = "localhost"%string /\ forking net = fork env /\ accounts net = None) \/
    (n = "coverage"%string /\ forking net = None /\ accounts net = None) \/
    (n <> "hardhat"%string /\ forking net = None /\ exists a, accounts net = Some [a]).
Proof.
  unfold config. intros Q. apply bind_Ok_inv in Q as ([] & H & Q). apply Ok_inj in Q as <-.
  split; [done|]. split; [done|]. intros n net Hn. cbn [networks] in Hn. rewrite !elem_of_cons, elem_of_nil in Hn.
  destruct Hn as [E|[E|[E|[E|[E|[E|[E|[]]]]]]]]; injection E as -> ->; cbn [forking accounts remote]; eauto 12.
Qed.

(** The tests marked as needing a forked main net are run exactly when the
    local network is one, all others exactly when it is not; and a configuration
    that forks has a token for the provider it forks from. *)
Theorem forked_tests_fork env c net : config env = Ok c -> ("hardhat"%string, net) ∈ networks c ->
  (forall title, mocha_runs (mocha c) title =
     Bool.eqb (includes "@forked-mainnet" title) (bool_decide (is_Some (forking net)))) /\
  forall f, forking net = Some f -> exists token, env "ALCHEMY_TOKEN"%string = Some token /\
    forking_url f = ("https://eth-mainnet.alchemyapi.io/v2/" ++ token)%string /\
    token <> ""%string /\ token <> "fake_alchemy_token"%string.
Proof.
  intros Hc Hn. apply config_Ok in Hc as (HE & HM & HN).
  assert (HF : forking net = fork env) 
    by (destruct (HN _ _ Hn) as [(_ & ? & _)|[(? & _)|[(? & _)|(D & _)]]]; [done..|by destruct D]).
  rewrite HF, HM. unfold fork. unfold checkForkedProviderEnvironment in HE.
  destruct (truthy (env "FORK"%string)) eqn:EF; cbn [andb] in HE.
  - split.
    + intros title. unfold mocha_runs, mochaConfig. rewrite EF, bool_decide_eq_true_2 by (by eexists). cbn.
      by destruct (includes _ _).
    + intros f [= <-]. destruct (env "ALCHEMY_TOKEN"%string) as [t|] eqn:EA; [|done]. exists t. split; [done|].
      split; [by unfold forkingConfig; rewrite EA|].
      cbn [truthy] in HE. destruct (String.eqb_spec t "") as [->|Ht]; cbn in HE; [done|]. split; [done|].
      intros ->. by rewrite bool_decide_eq_true_2 in HE.
  - split; [|done]. intros title. unfold mocha_runs, mochaConfig. rewrite EF, bool_decide_eq_false_2 by (by intros []).
    cbn. by destruct (includes _ _).
Qed.

Section Deployment.
Context `{EU : EthersUtils} {N : Node} {HD : HardhatDeploy}.

(** Where the deployment script can be run for the first time. On a network of
    the configuration whose node has the accounts the configuration gives it, a
    first run completes only on the local chain, and there only when it is a fork
    or has chain id 1: every remote network, [production] included, is configured
    with one account, while the script makes account 1 the operator. *)
Theorem deployment_networks env c n net l network saved h r :
  config env = Ok c -> (n, net) ∈ networks c -> accounts net = Some l -> List.length listAccounts = List.length l ->
  saved !! "TradeModule"%string = None -> saved !! "ExchangeIssuanceZeroEx"%string = None ->
  core_deploy (truthy (env "FORK"%string)) network saved h = Ok r ->
  n = "hardhat"%string /\ (is_Some (forking net) \/ network = 1).
Proof.
  intros Hc Hn Ha Hl Ht Hz Q. destruct (core_deploy_requires _ _ _ _ _ Ht Hz Q) as [HF H2].
  apply config_Ok in Hc as (_ & _ & HN). destruct (HN _ _ Hn) as [(-> & E & _)|[(_ & _ & E)|[(_ & _ & E)|(_ & _ & a & E)]]].
  - split; [done|]. rewrite E. unfold fork. destruct HF as [HF| ->]; [left; rewrite HF; by eexists|by right].
  - by rewrite Ha in E.
  - by rewrite Ha in E.
  - rewrite Ha in E. injection E as ->. rewrite Hl in H2. cbn in H2. lia.
Qed.

End Deployment.

(** ** Instances *)

Definition forked_env : environment := fun v =>
  if String.eqb v "FORK" then Some "true"%string
  else if String.eqb v "ALCHEMY_TOKEN" then Some "token"%string else None.

Lemma forked_tests_witness : exists c net, config forked_env = Ok c /\ ("hardhat"%string, net) ∈ networks c /\
  mocha_runs (mocha c) "AaveLeverageModule [@forked-mainnet]" = true /\ mocha_runs (mocha c) "Controller" = false.
Proof.
  eexists _, _. split; [reflexivity|]. split; [by left|].
  destruct (forked_tests_fork forked_env _ _ eq_refl ltac:(by left)) as [H _]. rewrite !H. by vm_compute.
Defined.

Definition nine_accounts : Node :=
  protocol_node ["deployer"; "operator"; "a2"; "a3"; "a4"; "a5"; "a6"; "a7"; "a8"]%string.

Lemma nine_accounts_run : is_Ok (@core_deploy nine_accounts _ true 31337 ∅ []) = true.
Proof. vm_compute. reflexivity. Qed.

Lemma deployment_networks_witness : exists c net r, config forked_env = Ok c /\
  ("hardhat"%string, net) ∈ networks c /\ @core_deploy nine_accounts _ true 31337 ∅ [] = Ok r /\
  (is_Some (forking net) \/ 31337 = 1).
Proof.
  destruct (is_Ok_true _ nine_accounts_run) as [r E].
  eexists _, _, r. split; [reflexivity|]. split; [by left|]. split; [exact E|].
  exact (proj2 (@deployment_networks nine_accounts _ forked_env _ "hardhat" _ _ 31337 ∅ [] r
    eq_refl ltac:(by left) eq_refl eq_refl eq_refl eq_refl E)).
Defined.
